(* ===== verification/_CoqProject ===== *)
-Q . S2P
Prelude.v
Codec.v
Diagnostics.v
BlockManager.v
BlockLock.v
DiskStructs.v
Crypto.v
BitNode.v
Superblock.v
SegValidator.v
Dst.v
Catalogue.v
Metadata.v
DiskMeta.v
Area.v
Bloom.v
Hashtable.v
Memtable.v
RbMemtable.v
Cache.v
BitFile.v
BitTree.v
BitFileSpec.v
IterFacts.v
Level.v
Compaction.v
MergeFacts.v
FileFacts.v
CompactionFacts.v
CompactionSpec.v
CompactionLevel.v
CompactionRun.v
TableSpec.v
CatalogueIface.v
CatalogueSpec.v
Instances.v
MemSpec.v
LsmTree.v
Bio.v
LevelSpec.v
Segment.v
Device.v
DataPath.v
Cleaning.v
Threaded.v
ThreadedGc.v
WritePath.v
DataPathSpec.v
DeviceSpec.v
LsmFacts.v
LsmCompaction.v
LsmReopen.v
LsmSpec.v
DiskIndex.v
DiskState.v
TreeSpec.v
DiskSpec.v
TargetSpec.v
DiskRestart.v
MetaCalls.v
