(* ===== verification/Prelude.v ===== *)
(** * SwornDisk: a verified model of the C driver

    SwornDisk is a device-mapper target that keeps a disk encrypted and
    authenticated.  A write goes to a segment buffer; full segments are
    encrypted block by block and appended to the data device, and a log-
    structured merge (LSM) tree maps logical block addresses to records
    (physical address, key, IV, tag).  Tables on a metadata device say which
    segments and blocks are in use.  The development models the C sources
    under src/src/c/sworndisk (include/ and source/) and the calls they make
    of src/src/c/persistent-data/dm-block-manager.c.

    ** Parts, files and sources

    Metadata device, bottom up:
    - BlockManager: blocks, validators, the dirty set; BlockLock: the read/write
      lock of a block (dm-block-manager.c);
    - DiskStructs: [disk_array], [disk_bitset] (disk_structs.c);
    - Superblock, SegValidator (segment validity and reverse index tables),
      Dst (data segment table with its victims), Catalogue (slots and stats of
      index files), Metadata (all of them over one manager) (metadata.c);
    - TableSpec, CatalogueIface, CatalogueSpec: what these promise; DiskMeta:
      the tables side by side on one device, each call through
      [struct metadata] changing one view of them.

    Index, bottom up:
    - Codec: packed C structures as bytes; Crypto: the AEAD wrapper, its
      creation and its random keys (crypto.c); Diagnostics: the hexadecimal
      dump of keys and tags (segment_buffer.c);
    - Area: byte-addressed files and buffers; Bloom (bloom_filter.c);
    - Hashtable, Memtable, RbMemtable, MemSpec (hashtable.c, memtable.c);
    - Cache: the LRU cache (cache.c);
    - BitNode, BitFile, BitTree, BitFileSpec: block index tables, their
      builder, search and iterator; Level, LevelSpec: the files of a level;
      Compaction, LsmTree: compaction jobs and the tree (lsm_tree.c);
    - IterFacts: the leaf chain and the iterator; MergeFacts: the k-way merge;
      FileFacts: files in their slots; CompactionFacts, CompactionSpec,
      CompactionLevel, CompactionRun: the output of a merge, the whole merge,
      its effect on two levels, the job with all its branches;
    - LsmFacts, LsmSpec: the tree as a map; LsmCompaction: flushes with
      compaction; LsmReopen: opening a tree again; TreeSpec: the resulting
      statements about the tree.

    Data path:
    - Bio (bio_operate.c); Segment: segment buffer, allocator, cleaning,
      prefetcher, request handlers (segment_buffer.c, segment_allocator.c,
      dm-sworndisk.c);
    - DataPath: the laws the data path relies on of index and tables
      ([DataPathOk]), its invariant ([dp_core], [dp_inv]) and what reading,
      pushing a block and taking a segment do; Cleaning: the foreground cleaner;
      Threaded: logging into the holes of a victim; ThreadedGc: cleaning while
      that goes on; WritePath: write requests; DataPathSpec: the resulting
      statements;
    - DiskIndex, DiskState: the tree over the catalogue of the metadata and the
      tables beside it meet these laws; DiskSpec: the whole disk, from an
      unformatted device on; DiskRestart: the destructor, and opening the disk
      again on the devices it left; MetaCalls: any sequence of calls on the
      metadata;
    - Device, DeviceSpec: the queue, the workers with their closures and the
      constructor (dm-sworndisk.c, async.c); TargetSpec: the queue, the workers
      and the disk together.

    Instances gives concrete implementations of the interfaces for evaluation.

    ** How the code is rendered

    A C function that returns 0 or -E and changes an object is a function from
    the object to a [result] and the object ([SE] below).  The fields of a
    struct are the fields of a Record with the same meaning.  Integers are [Z]
    with the wrap-around of their type written out where it can matter ([u32],
    [u64], [s32]).  A loop is a [Fixpoint] on its list, or on fuel.  Function
    pointers that the code itself uses as an interface are classes:
    [Memtable], [LsmCatalogue] (with [LsmCatalogueOk]), and for the data path
    [LsmIndex] and [DataMeta] (with [DataView] and [DataPathOk]).  Kernel services are classes with their
    documented laws: [Gcm] (gcm(aes)), [Rng] (get_random_bytes), [Hash64]
    (hash_64_generic), [KSort] (sort), [Bsearch] (bsearch), [MinHeap]
    (min_heap.h), the red-black tree's rebalancing, crc32c as an argument.
    Memory that the code reads before writing it is an argument named
    [garbage...], about which nothing is assumed.

    ** Fuel and bounds

    - the search of a BIT file descends at most 64 nodes; a table of 2^20
      entries has height 10, and the theorems cover it;
    - the binary searches of a level get the number of files as fuel;
    - the sector loop of a request gets the payload's length plus one;
    - the merge loop and the cleaning loop take fuel as an argument and return
      [None] when it runs out; one unit per entry of the merged files is enough
      for a merge ([job_room]), one more than there are segments for cleaning;
    - [sa_alloc] and [segbuf_push_block] call each other through cleaning; the
      depth is 2, since cleaning is not entered while it runs;
    - keys are 32-bit; the memtable theorems need keys below 2^31, because the
      code compares them as [int] ([rbtree_memtable_big_key_lost]).

    ** What the theorems show

    - tables: arrays, bit sets, allocator, segment table, reverse index,
      catalogue and superblock behave as the arrays, flags and maps they
      stand for, survive reopening, refuse bad indices and read-only media;
      any sequence of calls on them that keeps the callers' contract
      ([md_call_ok]: no valid block is taken and no invalid one returned, unless
      the call is refused) keeps them well formed and in their place, the
      victims are exactly the segments with free blocks that were not popped
      ([dst_victim_is_best]), and what the tables say can be loaded again at any
      point ([metadata_calls_typed],
      [metadata_reload]); the lock of a block excludes and loses no wake-up;
    - memory structures: both memtables, the hash table and the LRU cache
      refine their abstract counterparts; the Bloom filter has no false negatives;
    - index: nodes round-trip; a built file finds what was put into it, inside
      its slot; levels stay sorted and their search returns the newest record;
      an iterator lists a file completely; a compaction of level 0 terminates
      and changes no answer, and neither does writing the memtable out or
      closing and reopening the tree, each when there is room and the files
      written consist of whole leaves; the tree answers as a finite map up to
      five memtables of records;
    - data path: reads return the current contents, writes are seen by later
      reads, with the cleaner running, when its victims are worth it, or not,
      and with threaded logging into another segment than the buffer's own; the
      cleaner terminates and keeps every block; runs of requests refine an array of blocks; the prefetcher is
      coherent; the queue keeps its requests inside blocks and drains;
    - the whole disk, as long as its log stays below the cleaning threshold:
      opened on an unformatted device, with the concrete tree and tables, it is
      an array of blocks ([sworndisk_opened_is_array]), also under any
      interleaving of the target's workers: the requests take effect in the
      order they finish ([sworndisk_device_linearizable]), and all of them can
      be finished ([target_drains]); the blocks are read back after it was
      closed and opened again, when they fill whole leaves
      ([sworndisk_restart]);
    - defects: theorems in the same files pin down inputs on which the code
      loses entries, reuses versions, exceeds its reader limit, forgets a
      request, or overwrites or gives back live blocks.

    ** Not modelled

    Allocation failure outside the constructor, the cipher and the closures, and
    failing block I/O; reads of freed memory; the locks of the driver as such
    (the steps of Device are the critical sections); what is sent to the kernel
    log; the device references the constructor's error path gives back; module
    registration; the Rust port, a second implementation in another
    language; the rest of drivers/md, which the program only ships.
    The metadata blocks and the index file are separate stores, although both
    live on the metadata device: the layout theorem [metadata_init_fresh]
    shows that their regions are disjoint.

    ** Limits of the statements

    Files of the index are verified when they consist of whole leaves and the
    builder's buffer is not due for a flush on completion: the records of a leaf
    that is only partly filled are not found again ([bit_file_partial_leaf_lost]),
    and after such a flush the root node is not where the file says
    ([bit_file_root_misplaced]).  That is a hypothesis of [sworndisk_restart],
    [lsm_close_reopen], [lsm_flush_keeps_contents] and
    [compaction_level0_keeps].  The segment table does not check the bit of a
    block that is taken or returned, only the counter of its segment; that the
    bit is right is a hypothesis ([dst_use], [md_call_ok]).
    [sworndisk_restart] is about reads: the version counter a
    restart recovers can be one that is in use ([bitc_version_reused]), so that
    the order of files written before and after the restart is not determined.
    Runs of requests are verified below the threshold at which cleaning starts;
    above it single writes are, when cleaning is worth it or the block is
    logged into another segment than the buffer's own ([write_ready]).  Among
    the cases left out are those that lose blocks ([threaded_write_lost], [gc_frees_live_segment],
    [segbuf_reuses_segment_when_full]).  A read is one atomic step of the target,
    although readers share the driver's lock.
    Compactions between deeper levels, which the default configuration of two
    disk levels does not have, are modelled and not verified. *)
From Stdlib Require Export ZArith.
From stdpp Require Export prelude gmap list list_numbers sorting.
From stdpp Require Export ssreflect.
From Stdlib Require Import Zify.
Export Zify.

#[export] Set Default Goal Selector "!".
Open Scope Z_scope.

#[global] Arguments Z.to_nat : simpl never.
#[global] Arguments Z.of_nat : simpl never.
#[global] Arguments replicate : simpl never.

(** ** Error codes (include/uapi/asm-generic/errno-base.h, errno.h) *)
Definition EPERM : Z := 1.
Definition EIO : Z := 5.
Definition EAGAIN : Z := 11.
Definition ENOMEM : Z := 12.
Definition EINVAL : Z := 22.
Definition ENOSPC : Z := 28.
Definition ENODATA : Z := 61.
Definition EBADMSG : Z := 74.

(** ** Fallible, stateful computations

    A C function that returns [0] or [-E] and writes its results through
    pointers is a function from a state to a [result] and the next state; the
    state survives an error return, as it does in C. *)
Inductive result (A : Type) : Type :=
| Ok (a : A)
| Err (e : Z).
Arguments Ok {A} a.
Arguments Err {A} e.

#[export] Instance result_eq_dec {A} `{EqDecision A} : EqDecision (result A).
Proof. solve_decision. Defined.

Definition is_ok {A} (r : result A) : bool :=
  match r with Ok _ => true | Err _ => false end.

Definition result_option {A} (r : result A) : option A :=
  match r with Ok a => Some a | Err _ => None end.

Definition SE (S A : Type) : Type := S -> result A * S.

Definition se_ret {S A} (a : A) : SE S A := fun s => (Ok a, s).
Definition se_bind {S A B} (m : SE S A) (k : A -> SE S B) : SE S B :=
  fun s => match m s with
           | (Ok a, s') => k a s'
           | (Err e, s') => (Err e, s')
           end.
Definition se_fail {S A} (e : Z) : SE S A := fun s => (Err e, s).
Definition se_get {S} : SE S S := fun s => (Ok s, s).
Definition se_put {S} (s : S) : SE S unit := fun _ => (Ok tt, s).
Definition se_modify {S} (f : S -> S) : SE S unit := fun s => (Ok tt, f s).
(** Run [m] and drop its error code, as a call whose return value is unused. *)
Definition se_ignore {S A} (m : SE S A) : SE S unit := fun s => (Ok tt, snd (m s)).
(** Run [m] and hand its outcome, error included, to the caller. *)
Definition se_try {S A} (m : SE S A) : SE S (result A) :=
  fun s => let '(r, s') := m s in (Ok r, s').
(** Replace the error code of [m]. *)
Definition se_map_err {S A} (f : Z -> Z) (m : SE S A) : SE S A :=
  fun s => match m s with
           | (Ok a, s') => (Ok a, s')
           | (Err e, s') => (Err (f e), s')
           end.
(** Run [m] on a component of a larger state. *)
Definition se_zoom {S T A} (get : T -> S) (set : S -> T -> T) (m : SE S A) : SE T A :=
  fun t => let '(r, s') := m (get t) in (r, set s' t).

Declare Scope se_scope.
Delimit Scope se_scope with se.
Notation "x <- m ;; k" := (se_bind m (fun x => k))
  (at level 100, m at next level, right associativity) : se_scope.
Notation "m ;;; k" := (se_bind m (fun _ => k))
  (at level 100, right associativity) : se_scope.

Section se_laws.
Context {S : Type}.

Lemma se_bind_ret_l {A B} (a : A) (k : A -> SE S B) s :
  se_bind (se_ret a) k s = k a s.
Proof. done. Qed.

Lemma se_bind_ok {A B} (m : SE S A) (k : A -> SE S B) s a s' :
  m s = (Ok a, s') -> se_bind m k s = k a s'.
Proof. by rewrite /se_bind => ->. Qed.

Lemma se_bind_err {A B} (m : SE S A) (k : A -> SE S B) s e s' :
  m s = (Err e, s') -> se_bind m k s = (Err e, s').
Proof. by rewrite /se_bind => ->. Qed.

Lemma se_bind_assoc {A B C} (m : SE S A) (k : A -> SE S B) (h : B -> SE S C) s :
  se_bind (se_bind m k) h s = se_bind m (fun x => se_bind (k x) h) s.
Proof. rewrite /se_bind. by destruct (m s) as [[a|e] s']. Qed.

(** Inversion of a successful sequence. *)
Lemma se_bind_inv_ok {A B} (m : SE S A) (k : A -> SE S B) s b s' :
  se_bind m k s = (Ok b, s') ->
  exists a s1, m s = (Ok a, s1) /\ k a s1 = (Ok b, s').
Proof. rewrite /se_bind. destruct (m s) as [[a|e] s1]; naive_solver. Qed.
End se_laws.

(** ** Machine integers *)
Definition u8 (z : Z) : Z := z mod 2 ^ 8.
Definition u32 (z : Z) : Z := z mod 2 ^ 32.
Definition u64 (z : Z) : Z := z mod 2 ^ 64.
Definition s32 (z : Z) : Z := (z + 2 ^ 31) mod 2 ^ 32 - 2 ^ 31.

Lemma u32_range z : 0 <= u32 z < 2 ^ 32.
Proof. apply Z.mod_pos_bound. lia. Qed.
Lemma u64_range z : 0 <= u64 z < 2 ^ 64.
Proof. apply Z.mod_pos_bound. lia. Qed.
Lemma u32_small z : 0 <= z < 2 ^ 32 -> u32 z = z.
Proof. apply Z.mod_small. Qed.
Lemma u64_small z : 0 <= z < 2 ^ 64 -> u64 z = z.
Proof. apply Z.mod_small. Qed.
Lemma s32_small z : - 2 ^ 31 <= z < 2 ^ 31 -> s32 z = z.
Proof. rewrite /s32 => ?. rewrite Z.mod_small; lia. Qed.

Create HintDb sworn.
Create Rewrite HintDb sworn.
#[export] Hint Resolve u32_range u64_range : sworn.
#[export] Hint Rewrite u32_small u64_small s32_small using lia : sworn.

(** ** Tactics *)
(** Case analysis on the boolean tests of the code. *)
Ltac zbool :=
  repeat match goal with
  | H : context [ Z.ltb ?a ?b ] |- _ => destruct (Z.ltb_spec a b)
  | H : context [ Z.leb ?a ?b ] |- _ => destruct (Z.leb_spec a b)
  | H : context [ Z.eqb ?a ?b ] |- _ => destruct (Z.eqb_spec a b)
  | |- context [ Z.ltb ?a ?b ] => destruct (Z.ltb_spec a b)
  | |- context [ Z.leb ?a ?b ] => destruct (Z.leb_spec a b)
  | |- context [ Z.eqb ?a ?b ] => destruct (Z.eqb_spec a b)
  end.

(** Decide one boolean test by arithmetic. *)
Ltac ztest :=
  match goal with
  | |- context [ Z.ltb ?a ?b ] =>
      first [ rewrite (proj2 (Z.ltb_lt a b)); last lia
            | rewrite (proj2 (Z.ltb_ge a b)); last lia ]
  | |- context [ Z.leb ?a ?b ] =>
      first [ rewrite (proj2 (Z.leb_le a b)); last lia
            | rewrite (proj2 (Z.leb_gt a b)); last lia ]
  | |- context [ Z.eqb ?a ?b ] =>
      first [ rewrite (proj2 (Z.eqb_eq a b)); last lia
            | rewrite (proj2 (Z.eqb_neq a b)); last lia ]
  end.

(** ** Lists *)
Section splice.
Context {A : Type}.
Implicit Types (l k : list A).

(** [memcpy(l + off, k, length k)]. *)
Definition splice (off : nat) (k l : list A) : list A :=
  take off l ++ k ++ drop (off + length k) l.

(** The bytes [memcpy] reads from [l + off]. *)
Definition slice (off len : nat) (l : list A) : list A := take len (drop off l).

Lemma length_splice off k l :
  (off + length k <= length l)%nat -> length (splice off k l) = length l.
Proof. intros. rewrite /splice !length_app length_take length_drop. lia. Qed.

Lemma length_slice off len l :
  (off + len <= length l)%nat -> length (slice off len l) = len.
Proof. intros. rewrite /slice length_take length_drop. lia. Qed.

Lemma slice_splice_eq off k l :
  (off + length k <= length l)%nat -> slice off (length k) (splice off k l) = k.
Proof.
  intros. rewrite /slice /splice.
  rewrite drop_app_length'; last by rewrite length_take; lia.
  by rewrite take_app_length.
Qed.

Lemma slice_splice_ne off off' len k l :
  (off + length k <= length l)%nat ->
  (off' + len <= off \/ off + length k <= off')%nat ->
  slice off' len (splice off k l) = slice off' len l.
Proof.
  intros Hl Hd. apply list_eq => i. rewrite /slice.
  destruct (decide (i < len)%nat); last by rewrite !lookup_take_ge //; lia.
  rewrite !lookup_take_lt // !lookup_drop /splice.
  destruct Hd.
  - rewrite lookup_app_l; last by rewrite length_take; lia.
    rewrite lookup_take_lt //. lia.
  - rewrite lookup_app_r; last by rewrite length_take; lia.
    rewrite lookup_app_r; last by rewrite length_take; lia.
    rewrite lookup_drop length_take. f_equal. lia.
Qed.

Lemma slice_replicate off len n (x : A) :
  (off + len <= n)%nat -> slice off len (replicate n x) = replicate len x.
Proof. intros. rewrite /slice drop_replicate take_replicate. f_equal. lia. Qed.
End splice.

(** [count_true l]: the number of set flags. *)
Definition count_true (l : list bool) : Z := Z.of_nat (length (filter (fun b : bool => b = true) l)).

Lemma count_true_nil : count_true [] = 0.
Proof. done. Qed.
Lemma count_true_cons b l : count_true (b :: l) = (if b then 1 else 0) + count_true l.
Proof. rewrite /count_true filter_cons. destruct b; simpl; lia. Qed.
Lemma count_true_app l k : count_true (l ++ k) = count_true l + count_true k.
Proof. rewrite /count_true filter_app length_app. lia. Qed.
Lemma count_true_bound l : 0 <= count_true l <= Z.of_nat (length l).
Proof. rewrite /count_true. pose proof (length_filter (fun b : bool => b = true) l). lia. Qed.

Lemma count_true_insert (l : list bool) (i : nat) (b b' : bool) :
  l !! i = Some b ->
  count_true (<[i := b']> l) = count_true l - (if b then 1 else 0) + (if b' then 1 else 0).
Proof.
  revert i. induction l as [|x l IH] => i; [done|]. destruct i as [|i]; simpl.
  - intros [= ->]. rewrite !count_true_cons. lia.
  - intros Hl. rewrite !count_true_cons (IH _ Hl). lia.
Qed.

Lemma count_true_replicate n b : count_true (replicate n b) = if b then Z.of_nat n else 0.
Proof.
  induction n as [|n IH]; first by destruct b.
  rewrite replicate_S count_true_cons IH. destruct b; lia.
Qed.

Lemma count_true_all l : count_true l = Z.of_nat (length l) <-> Forall (fun b => b = true) l.
Proof.
  induction l as [|b l IH]; [by split|].
  rewrite count_true_cons Forall_cons /=. pose proof (count_true_bound l).
  destruct b; rewrite -?IH; split; intros; try (destruct_and?; done); try lia.
Qed.

(** ** Filtered and sorted lists *)
Lemma filter_sorted {A} (R : relation A) (P : A -> Prop) `{!forall x, Decision (P x)} l :
  StronglySorted R l -> StronglySorted R (filter P l).
Proof.
  induction 1 as [|x l Hs IH Hx]; [constructor|]. rewrite filter_cons. case_decide; [|done].
  constructor; [done|]. apply Forall_forall => y /list_elem_of_filter [_ Hy].
  by eapply Forall_forall in Hx.
Qed.

Lemma filter_all {A} (P : A -> Prop) `{!forall x, Decision (P x)} (l : list A) :
  Forall P l -> filter P l = l.
Proof. induction 1 as [|x l Hx Hl IH]; [done|]. by rewrite filter_cons_True // IH. Qed.

Lemma filter_none {A} (P : A -> Prop) `{!forall x, Decision (P x)} (l : list A) :
  (forall x, x ∈ l -> ~ P x) -> filter P l = [].
Proof.
  induction l as [|x l IH] => Hn; [done|]. rewrite filter_cons_False; [apply IH; intros y Hy; apply Hn; by right|apply Hn; left].
Qed.

Lemma sorted_lookup {A} (R : relation A) (l : list A) (i j : nat) x y :
  StronglySorted R l -> l !! i = Some x -> l !! j = Some y -> (i < j)%nat -> R x y.
Proof.
  intros Hs. revert i j. induction Hs as [|z l Hs IH Hall] => i j Hi Hj Hlt; [done|].
  destruct i as [|i], j as [|j]; simpl in *; [lia| |lia|].
  - injection Hi as ->. eapply Forall_forall; [done|by eapply list_elem_of_lookup_2].
  - eapply IH; [done|done|lia].
Qed.

Lemma sorted_of_lookup {A} (R : relation A) (l : list A) :
  (forall i j x y, l !! i = Some x -> l !! j = Some y -> (i < j)%nat -> R x y) -> StronglySorted R l.
Proof.
  induction l as [|z l IH] => Hl; [constructor|]. constructor.
  - apply IH. intros i j x y Hi Hj Hlt. apply (Hl (S i) (S j)); [done|done|lia].
  - apply Forall_forall => y. intros (j & Hj)%list_elem_of_lookup. apply (Hl 0%nat (S j)); [done|done|lia].
Qed.

Lemma sorted_app {A} (R : relation A) (l k : list A) :
  StronglySorted R (l ++ k) <->
  StronglySorted R l /\ StronglySorted R k /\ forall x y, x ∈ l -> y ∈ k -> R x y.
Proof.
  induction l as [|z l IH]; simpl.
  { split; [|naive_solver]. intros. split; [constructor|]. split; [done|]. set_solver. }
  split.
  - intros [[H1 [H2 H3]]%IH Hall]%StronglySorted_inv. apply Forall_app in Hall as [Ha Hb].
    split; [by constructor|]. split; [done|]. intros a b [->|Ha']%elem_of_cons Hb'; [|by apply H3].
    by eapply Forall_forall in Hb.
  - intros ([H1 Hall]%StronglySorted_inv & H2 & H3). constructor.
    + apply IH. split; [done|]. split; [done|]. intros. apply H3; [by right|done].
    + apply Forall_app. split; [done|]. apply Forall_forall => b Hb. apply H3; [left|done].
Qed.

Lemma elem_of_flat {A} (x : A) (ls : list (list A)) : x ∈ concat ls <-> exists l, x ∈ l /\ l ∈ ls.
Proof.
  induction ls as [|l ls IH]; simpl; [set_solver|]. rewrite elem_of_app IH. set_solver.
Qed.
