(* ===== verification/Codec.v ===== *)
(** * Byte-level layout of the packed C structures

    The on-disk structures of SwornDisk are [__packed] C structs that are
    [memcpy]'d into metadata blocks and files.  A [codec] describes such a
    layout: its size in bytes, how a value is stored, how it is loaded, and
    which values the C type can hold.  Layouts are built from little-endian
    integers, byte arrays, arrays and concatenation; [CodecOk] is the contract
    clients rely on: the size is right and loading undoes storing. *)
From S2P Require Import Prelude.
From Stdlib Require Export Init.Byte.
From Stdlib Require Strings.Byte.

Notation byte := Byte.byte.

(** ** Bytes *)
Definition byte_Z (b : byte) : Z := Z.of_N (Byte.to_N b).
Definition Z_byte (z : Z) : byte := default x00 (Byte.of_N (Z.to_N (z mod 256))).

#[export] Instance byte_eq_dec : EqDecision byte := Byte.byte_eq_dec.

Lemma byte_Z_range b : 0 <= byte_Z b < 256.
Proof. rewrite /byte_Z. pose proof (Byte.to_N_bounded b). lia. Qed.

Lemma byte_Z_byte z : byte_Z (Z_byte z) = z mod 256.
Proof.
  rewrite /byte_Z /Z_byte. pose proof (Z.mod_pos_bound z 256 ltac:(lia)).
  destruct (Byte.of_N (Z.to_N (z mod 256))) as [b|] eqn:E; simpl.
  - apply Byte.to_of_N in E. rewrite E. lia.
  - apply Byte.of_N_None_iff in E. lia.
Qed.

Lemma Z_byte_Z b : Z_byte (byte_Z b) = b.
Proof.
  rewrite /Z_byte Z.mod_small; last apply byte_Z_range.
  by rewrite /byte_Z N2Z.id Byte.of_to_N.
Qed.

Lemma Z_byte_mod z : Z_byte (z mod 256) = Z_byte z.
Proof. by rewrite /Z_byte Z.mod_mod. Qed.

(** The value of a [char] when it is signed, as on x86. *)
Definition byte_sZ (b : byte) : Z := if byte_Z b <? 128 then byte_Z b else byte_Z b - 256.

(** ** Little-endian integers *)
Fixpoint le_enc (n : nat) (z : Z) : list byte :=
  match n with
  | O => []
  | S n => Z_byte z :: le_enc n (z / 256)
  end.

Fixpoint le_dec (l : list byte) : Z :=
  match l with
  | [] => 0
  | b :: l => byte_Z b + 256 * le_dec l
  end.

Lemma length_le_enc n z : length (le_enc n z) = n.
Proof. revert z. induction n => z //=. by rewrite IHn. Qed.

Lemma le_dec_enc n z : le_dec (le_enc n z) = z mod 256 ^ Z.of_nat n.
Proof.
  revert z. induction n as [|n IH] => z; first by rewrite Z.mod_1_r.
  cbn [le_enc le_dec]. rewrite IH byte_Z_byte.
  rewrite Nat2Z.inj_succ Z.pow_succ_r; last lia.
  rewrite Z.rem_mul_r; lia.
Qed.

Lemma le_dec_range l : 0 <= le_dec l < 256 ^ Z.of_nat (length l).
Proof.
  induction l as [|b l IH]; [simpl; lia|]. cbn [le_dec length].
  pose proof (byte_Z_range b).
  rewrite Nat2Z.inj_succ Z.pow_succ_r; lia.
Qed.

Lemma le_dec_replicate_0 n : le_dec (replicate n x00) = 0.
Proof. induction n as [|n IH]; [done|]. rewrite replicate_S. cbn [le_dec]. by rewrite IH. Qed.

(** ** Layouts *)
Record codec (A : Type) : Type := Codec {
  csize : nat;                 (* sizeof *)
  cenc : A -> list byte;       (* store *)
  cdec : list byte -> A;       (* load *)
  cwf : A -> Prop              (* values of the C type *)
}.
Arguments Codec {A}.
Arguments csize {A} c.
Arguments cenc {A} c a.
Arguments cdec {A} c l.
Arguments cwf {A} c a.

Class CodecOk {A} (c : codec A) : Prop := {
  cenc_length : forall a, cwf c a -> length (cenc c a) = csize c;
  cdec_enc : forall a, cwf c a -> cdec c (cenc c a) = a
}.

(** Unsigned little-endian integer of [n] bytes. *)
Definition c_le (n : nat) : codec Z :=
  Codec n (le_enc n) le_dec (fun z => 0 <= z < 256 ^ Z.of_nat n).
(** Raw bytes, [char x[n]]. *)
Definition c_raw (n : nat) : codec (list byte) :=
  Codec n id id (fun l => length l = n).
(** Two consecutive fields. *)
Definition c_pair {A B} (c : codec A) (d : codec B) : codec (A * B) :=
  Codec (csize c + csize d)
    (fun p => cenc c p.1 ++ cenc d p.2)
    (fun l => (cdec c (take (csize c) l), cdec d (drop (csize c) l)))
    (fun p => cwf c p.1 /\ cwf d p.2).
(** An array [T x[n]]. *)
Fixpoint dec_array {A} (c : codec A) (n : nat) (l : list byte) : list A :=
  match n with
  | O => []
  | S n => cdec c (take (csize c) l) :: dec_array c n (drop (csize c) l)
  end.
Definition c_array {A} (n : nat) (c : codec A) : codec (list A) :=
  Codec (n * csize c) (fun xs => xs ≫= cenc c) (dec_array c n)
    (fun xs => length xs = n /\ Forall (cwf c) xs).
(** A struct, seen through the tuple of its fields. *)
Definition c_iso {A B} (c : codec B) (f : A -> B) (g : B -> A) : codec A :=
  Codec (csize c) (fun a => cenc c (f a)) (fun l => g (cdec c l)) (fun a => cwf c (f a)).
(** A [bool x : 1] bit field that owns its byte. *)
Definition c_bit : codec bool :=
  Codec 1 (fun b => [if b : bool then x01 else x00])
    (fun l => Z.odd (le_dec l)) (fun _ => True).

#[export] Instance c_le_ok n : CodecOk (c_le n).
Proof.
  split; intros z Hz; simpl in *; first apply length_le_enc.
  by rewrite le_dec_enc Z.mod_small.
Qed.

#[export] Instance c_raw_ok n : CodecOk (c_raw n).
Proof. by split. Qed.

#[export] Instance c_bit_ok : CodecOk c_bit.
Proof. split; by intros []. Qed.

#[export] Instance c_pair_ok {A B} (c : codec A) (d : codec B) :
  CodecOk c -> CodecOk d -> CodecOk (c_pair c d).
Proof.
  intros Hc Hd. split; intros [a b] [Ha Hb]; simpl in *.
  - by rewrite length_app !cenc_length.
  - rewrite -{1}(cenc_length a Ha) take_app_length -(cenc_length a Ha) drop_app_length.
    by rewrite !cdec_enc.
Qed.

#[export] Instance c_array_ok {A} n (c : codec A) :
  CodecOk c -> CodecOk (c_array n c).
Proof.
  intros Hc. split; intros xs [Hn Hf]; simpl; revert n Hn; induction Hf as [|x xs Hx Hf IH]; intros n.
  - by intros <-.
  - intros <-. by rewrite /= length_app cenc_length // (IH (length xs)).
  - by intros <-.
  - intros <-. simpl. rewrite -{1}(cenc_length x Hx) take_app_length.
    rewrite -(cenc_length x Hx) drop_app_length cdec_enc //. f_equal. by apply IH.
Qed.

Lemma c_iso_ok {A B} (c : codec B) (f : A -> B) (g : B -> A) :
  CodecOk c -> (forall a, g (f a) = a) -> CodecOk (c_iso c f g).
Proof.
  intros Hc Hgf. split; intros a Ha; simpl in *; first by apply cenc_length.
  by rewrite cdec_enc.
Qed.

Notation c_u8 := (c_le 1).
Notation c_u32 := (c_le 4).
Notation c_u64 := (c_le 8).

(** ** Bitmaps: [DECLARE_BITMAP(x, 8 * n)], bit [i] is bit [i mod 8] of byte [i / 8]
    on a little-endian machine. *)
Fixpoint bits_val (l : list bool) : Z :=
  match l with
  | [] => 0
  | b :: l => (if b then 1 else 0) + 2 * bits_val l
  end.

Definition byte_bits (b : byte) : list bool :=
  (fun i => Z.testbit (byte_Z b) i) <$> [0; 1; 2; 3; 4; 5; 6; 7].

#[global] Arguments byte_bits : simpl never.

Fixpoint enc_bits (n : nat) (l : list bool) : list byte :=
  match n with
  | O => []
  | S n => Z_byte (bits_val (take 8 l)) :: enc_bits n (drop 8 l)
  end.

Definition c_bits (n : nat) : codec (list bool) :=
  Codec n (enc_bits n) (fun l => l ≫= byte_bits) (fun l => length l = (8 * n)%nat).

Lemma byte_bits_val l : length l = 8%nat -> byte_bits (Z_byte (bits_val l)) = l.
Proof.
  destruct l as [|a [|b [|c [|d [|e [|f [|g [|h [|]]]]]]]]]; try done. intros _.
  by destruct a, b, c, d, e, f, g, h; vm_compute.
Qed.

#[export] Instance c_bits_ok n : CodecOk (c_bits n).
Proof.
  split; induction n as [|n IH]; intros l Hl; cbn [cwf c_bits] in *.
  - done.
  - cbn. f_equal. apply IH. rewrite length_drop. cbn. lia.
  - by apply nil_length_inv in Hl as ->.
  - change (byte_bits (Z_byte (bits_val (take 8 l))) ++ cdec (c_bits n) (cenc (c_bits n) (drop 8 l)) = l).
    rewrite byte_bits_val; last (rewrite length_take; lia).
    rewrite IH; last (rewrite length_drop; lia). apply take_drop.
Qed.

Lemma length_dec_bits (l : list byte) : length (l ≫= byte_bits) = (8 * length l)%nat.
Proof. induction l as [|b l IH]; [done|]. rewrite bind_cons length_app IH /=. lia. Qed.
