(* ===== verification/Diagnostics.v ===== *)
(** * Hexadecimal dumps (source/segment_buffer.c, [btox])

    The cipher logs key, IV and MAC of a block that fails authentication in
    hexadecimal.  The digits are written from the last to the first; they are
    the two digits of each byte in turn, and nothing behind them changes. *)
From S2P Require Import Prelude Codec.

(** [xx], the digits. *)
Definition hex_digits : list byte :=
  [Byte.x30; Byte.x31; Byte.x32; Byte.x33; Byte.x34; Byte.x35; Byte.x36; Byte.x37;
   Byte.x38; Byte.x39; Byte.x41; Byte.x42; Byte.x43; Byte.x44; Byte.x45; Byte.x46].
Definition hex_digit (z : Z) : byte := default x00 (hex_digits !! Z.to_nat z).

(** [xx[(bb[n>>1] >> ((1 - (n&1)) << 2)) & 0xF]]; [char] is signed. *)
Definition btox_digit (bb : list byte) (n : nat) : byte :=
  let c := byte_sZ (default x00 (bb !! Z.to_nat (Z.shiftr (Z.of_nat n) 1))) in
  hex_digit (Z.land (Z.shiftr c (Z.shiftl (1 - Z.land (Z.of_nat n) 1) 2)) 15).

(** [while (--n >= 0)] *)
Fixpoint btox (xp bb : list byte) (n : nat) : list byte :=
  match n with
  | O => xp
  | S n => btox (<[n := btox_digit bb n]> xp) bb n
  end.

(** The digits of a byte, and the byte of two digits. *)
Definition byte_hex (b : byte) : list byte := [hex_digit (byte_Z b / 16); hex_digit (byte_Z b mod 16)].
Definition hex_value (d : byte) : Z := if byte_Z d <? 65 then byte_Z d - 48 else byte_Z d - 55.
Fixpoint hex_bytes (l : list byte) : list byte :=
  match l with
  | h :: d :: l => Z_byte (16 * hex_value h + hex_value d) :: hex_bytes l
  | _ => []
  end.

Lemma length_btox xp bb n : length (btox xp bb n) = length xp.
Proof. revert xp. induction n as [|n IH] => xp; cbn [btox]; [done|]. by rewrite IH length_insert. Qed.

Lemma btox_lookup xp bb n i : (n <= length xp)%nat ->
  btox xp bb n !! i = if decide (i < n)%nat then Some (btox_digit bb i) else xp !! i.
Proof.
  revert xp. induction n as [|n IH] => xp Hn; cbn [btox]; [case_decide; [lia|done]|].
  rewrite IH; [|rewrite length_insert; lia]. destruct (decide (i = n)) as [->|Hne].
  - do 2 (case_decide; try lia). apply list_lookup_insert_eq. lia.
  - rewrite list_lookup_insert_ne; [|done]. do 2 case_decide; done || lia.
Qed.

(** The two digits of the [k]-th byte. *)
Lemma btox_digit_byte bb (k : nat) b : bb !! k = Some b ->
  btox_digit bb (2 * k) = hex_digit (byte_Z b / 16) /\ btox_digit bb (2 * k + 1) = hex_digit (byte_Z b mod 16).
Proof.
  intros Hb. assert (forall n, Z.shiftr n 1 = n / 2 /\ Z.land n 1 = n mod 2) as Hn.
  { intros n. split; [by rewrite Z.shiftr_div_pow2|by rewrite (Z.land_ones n 1)]. }
  rewrite /btox_digit !(proj1 (Hn _)) !(proj2 (Hn _)).
  replace (Z.of_nat (2 * k)) with (Z.of_nat k * 2) by lia. replace (Z.of_nat (2 * k + 1)) with (1 + Z.of_nat k * 2) by lia.
  rewrite Z.div_mul // Z.div_add // Z.mod_mul // Z.mod_add // Z.add_0_l Nat2Z.id Hb. by destruct b.
Qed.

(** The dump is the digits of the bytes in turn, and it can be read back. *)
Theorem btox_hex xp bb : (2 * length bb <= length xp)%nat ->
  btox xp bb (2 * length bb) = concat (byte_hex <$> bb) ++ drop (2 * length bb) xp /\
  hex_bytes (take (2 * length bb) (btox xp bb (2 * length bb))) = bb.
Proof.
  intros Hl. assert (forall l, length (concat (byte_hex <$> l)) = (2 * length l)%nat) as Hlen.
  { induction l as [|b l IH]; [done|]. cbn. cbn in IH. lia. }
  assert (forall l k b, l !! k = Some b -> concat (byte_hex <$> l) !! (2 * k)%nat = Some (hex_digit (byte_Z b / 16)) /\
    concat (byte_hex <$> l) !! (2 * k + 1)%nat = Some (hex_digit (byte_Z b mod 16))) as Hat.
  { induction l as [|c l IH] => k b; [done|]. destruct k as [|k]; [intros [= ->]; done|]. intros Hk.
    replace (2 * S k)%nat with (S (S (2 * k))) by lia. replace (S (S (2 * k)) + 1)%nat with (S (S (2 * k + 1))) by lia. by apply IH. }
  assert (forall l, hex_bytes (concat (byte_hex <$> l)) = l) as Hback.
  { induction l as [|b l IH]; [done|]. cbn [fmap list_fmap concat byte_hex app hex_bytes]. by rewrite IH; destruct b. }
  assert (btox xp bb (2 * length bb) = concat (byte_hex <$> bb) ++ drop (2 * length bb) xp) as Heq; last first.
  { split; [done|]. rewrite Heq take_app_length'; [apply Hback|]. by rewrite Hlen. }
  apply list_eq => i. rewrite btox_lookup //. case_decide as Hi.
  - rewrite lookup_app_l; [|by rewrite Hlen]. set (k := Nat.div2 i). destruct (lookup_lt_is_Some_2 bb k) as [b Hb].
    { rewrite /k. pose proof (Nat.div2_odd i). destruct (Nat.odd i); cbn in *; lia. }
    destruct (Hat bb k b Hb) as [H0 H1]. destruct (btox_digit_byte bb k b Hb) as [D0 D1].
    pose proof (Nat.div2_odd i) as Ho. fold k in Ho. destruct (Nat.odd i); cbn [Nat.b2n] in Ho; rewrite Ho ?Nat.add_0_r; congruence.
  - rewrite lookup_app_r; [|rewrite Hlen; lia]. rewrite Hlen lookup_drop. f_equal. lia.
Qed.
