(* ===== verification/BlockManager.v ===== *)
(** * The block manager (persistent-data/dm-block-manager.c)

    Every metadata table of SwornDisk is reached through a
    [dm_block_manager]: a block is locked, its 4096-byte buffer is read or
    overwritten in place, and it is unlocked, which marks a write-locked
    buffer dirty.  The buffer cache underneath (dm-bufio) is modelled by the
    contents its reads return: [bufio_data] maps a block number to its bytes,
    and a block that is absent from the map is one whose read fails.

    The [bl_*] lock operations are empty macros unless
    CONFIG_DM_DEBUG_BLOCK_MANAGER_LOCKING is set, so they have no counterpart
    here ([BlockLock] models them); the [write_locked] flag of a buffer travels
    with the handle. *)
From S2P Require Import Prelude Codec.

(** A validator is compared by address; [dmv_id] stands for that address. *)
Record dm_block_validator : Type := {
  dmv_id : Z;
  dmv_prepare_for_write : list byte -> list byte;
  dmv_check : list byte -> Z
}.

Record dm_bufio_client : Type := {
  bufio_block_size : Z;
  bufio_data : gmap Z (list byte);
  bufio_dirty : gset Z;
  bufio_write_error : Z
}.

Record dm_block_manager : Type := {
  bufio : dm_bufio_client;
  read_only : bool;
  aux_validator : gmap Z dm_block_validator
}.

(** [struct dm_block]: the buffer and its [aux->write_locked] flag. *)
Record dm_block : Type := {
  dm_block_location : Z;
  write_locked : bool
}.

Definition dm_bufio_read (c : dm_bufio_client) (b : Z) : result (list byte) :=
  match bufio_data c !! b with
  | Some d => Ok d
  | None => Err EIO
  end.

Definition dm_bufio_set_data (b : Z) (d : list byte) (c : dm_bufio_client) : dm_bufio_client :=
  {| bufio_block_size := bufio_block_size c;
     bufio_data := <[b := d]> (bufio_data c);
     bufio_dirty := bufio_dirty c;
     bufio_write_error := bufio_write_error c |}.

Definition dm_bufio_mark_buffer_dirty (b : Z) (c : dm_bufio_client) : dm_bufio_client :=
  {| bufio_block_size := bufio_block_size c;
     bufio_data := bufio_data c;
     bufio_dirty := {[b]} ∪ bufio_dirty c;
     bufio_write_error := bufio_write_error c |}.

(** Each dirty buffer is passed to [write_callback] before it is written. *)
Definition dm_bufio_write_dirty_buffers (write_callback : Z -> list byte -> list byte) (c : dm_bufio_client)
    : result unit * dm_bufio_client :=
  (if bufio_write_error c =? 0 then Ok tt else Err (bufio_write_error c),
   {| bufio_block_size := bufio_block_size c;
      bufio_data := map_imap (fun b d => Some (if decide (b ∈ bufio_dirty c) then write_callback b d else d)) (bufio_data c);
      bufio_dirty := ∅;
      bufio_write_error := 0 |}).

Definition bm_with_bufio (bm : dm_block_manager) (c : dm_bufio_client) : dm_block_manager :=
  {| bufio := c; read_only := read_only bm; aux_validator := aux_validator bm |}.

Definition dm_block_manager_create (c : dm_bufio_client) : dm_block_manager :=
  {| bufio := c; read_only := false; aux_validator := ∅ |}.

Definition dm_bm_is_read_only (bm : option dm_block_manager) : bool :=
  match bm with Some bm => read_only bm | None => true end.

Definition dm_bm_set_read_only (bm : dm_block_manager) : dm_block_manager :=
  {| bufio := bufio bm; read_only := true; aux_validator := aux_validator bm |}.

Definition dm_bm_set_read_write (bm : dm_block_manager) : dm_block_manager :=
  {| bufio := bufio bm; read_only := false; aux_validator := aux_validator bm |}.

(** [dm_bm_validate_buffer]: the first validator given for a buffer checks it
    and sticks; later callers must give the same one. *)
Definition dm_bm_validate_buffer (b : Z) (d : list byte) (v : option dm_block_validator)
    : SE dm_block_manager unit := fun bm =>
  match aux_validator bm !! b with
  | None =>
      match v with
      | None => (Ok tt, bm)
      | Some v =>
          if dmv_check v d =? 0 then
            (Ok tt, {| bufio := bufio bm; read_only := read_only bm;
                       aux_validator := <[b := v]> (aux_validator bm) |})
          else (Err (dmv_check v d), bm)
      end
  | Some old =>
      match v with
      | Some v => if dmv_id old =? dmv_id v then (Ok tt, bm) else (Err EINVAL, bm)
      | None => (Err EINVAL, bm)
      end
  end.

Definition dm_bm_read_lock (b : Z) (v : option dm_block_validator)
    : SE dm_block_manager dm_block := fun bm =>
  match dm_bufio_read (bufio bm) b with
  | Err e => (Err e, bm)
  | Ok d =>
      match dm_bm_validate_buffer b d v bm with
      | (Err e, bm) => (Err e, bm)
      | (Ok _, bm) => (Ok {| dm_block_location := b; write_locked := false |}, bm)
      end
  end.

Definition dm_bm_write_lock (b : Z) (v : option dm_block_validator)
    : SE dm_block_manager dm_block := fun bm =>
  if dm_bm_is_read_only (Some bm) then (Err EPERM, bm)
  else
    match dm_bufio_read (bufio bm) b with
    | Err e => (Err e, bm)
    | Ok d =>
        match dm_bm_validate_buffer b d v bm with
        | (Err e, bm) => (Err e, bm)
        | (Ok _, bm) => (Ok {| dm_block_location := b; write_locked := true |}, bm)
        end
    end.

(** The buffer [dm_block_data] points to: loads, and stores through it. *)
Definition dm_block_data (blk : dm_block) : SE dm_block_manager (list byte) := fun bm =>
  (Ok (default [] (bufio_data (bufio bm) !! dm_block_location blk)), bm).

Definition dm_block_store (blk : dm_block) (d : list byte) : SE dm_block_manager unit :=
  se_modify (fun bm => bm_with_bufio bm (dm_bufio_set_data (dm_block_location blk) d (bufio bm))).

Definition dm_bm_unlock (blk : dm_block) : SE dm_block_manager unit :=
  se_modify (fun bm =>
    if write_locked blk
    then bm_with_bufio bm (dm_bufio_mark_buffer_dirty (dm_block_location blk) (bufio bm))
    else bm).

(** The buffer's validator, if it has one, prepares the block. *)
Definition dm_block_manager_write_callback (bm : dm_block_manager) (b : Z) (d : list byte) : list byte :=
  match aux_validator bm !! b with Some v => dmv_prepare_for_write v d | None => d end.

Definition dm_bm_flush : SE dm_block_manager unit := fun bm =>
  if dm_bm_is_read_only (Some bm) then (Err EPERM, bm)
  else let '(r, c) := dm_bufio_write_dirty_buffers (dm_block_manager_write_callback bm) (bufio bm) in (r, bm_with_bufio bm c).

(** ** Calls SwornDisk does not make *)
Definition EWOULDBLOCK : Z := EAGAIN.
Definition dm_bm_block_size (bm : dm_block_manager) : Z := bufio_block_size (bufio bm).

(** [dm_bufio_get] finds a block only when it is [cached]. *)
Definition dm_bm_read_try_lock (cached : bool) (b : Z) (v : option dm_block_validator) : SE dm_block_manager dm_block := fun bm =>
  if cached then
    match dm_bufio_read (bufio bm) b with
    | Err e => (Err e, bm)
    | Ok d =>
        match dm_bm_validate_buffer b d v bm with
        | (Err e, bm) => (Err e, bm)
        | (Ok _, bm) => (Ok {| dm_block_location := b; write_locked := false |}, bm)
        end
    end
  else (Err EWOULDBLOCK, bm).

(** The block is not read; the validator given replaces the one there was. *)
Definition dm_bm_write_lock_zero (b : Z) (v : option dm_block_validator) : SE dm_block_manager dm_block := fun bm =>
  if dm_bm_is_read_only (Some bm) then (Err EPERM, bm)
  else
    (Ok {| dm_block_location := b; write_locked := true |},
     {| bufio := dm_bufio_set_data b (replicate (Z.to_nat (dm_bm_block_size bm)) Byte.x00) (bufio bm);
        read_only := read_only bm;
        aux_validator := partial_alter (fun _ => v) b (aux_validator bm) |}).

(** [dm_bm_checksum]: [crc32c] is the kernel's library routine. *)
Definition dm_bm_checksum (crc32c : Z -> list byte -> Z) (data : list byte) (init_xor : Z) : Z :=
  Z.lxor (crc32c (2 ^ 32 - 1) data) init_xor.

(** ** What clients rely on *)

(** The bytes of block [b]. *)
Definition bm_block (bm : dm_block_manager) (b : Z) : option (list byte) :=
  bufio_data (bufio bm) !! b.

(** A manager that accepts writes and whose buffers carry no validator, which
    is how SwornDisk uses it: all its lock calls pass a NULL validator. *)
Definition bm_ok (bm : dm_block_manager) : Prop :=
  read_only bm = false /\ aux_validator bm = ∅.

(** The state after overwriting block [b]. *)
Definition bm_update (b : Z) (d : list byte) (bm : dm_block_manager) : dm_block_manager :=
  bm_with_bufio bm (dm_bufio_mark_buffer_dirty b (dm_bufio_set_data b d (bufio bm))).

Lemma bm_ok_update bm b d : bm_ok bm -> bm_ok (bm_update b d bm).
Proof. done. Qed.
#[export] Hint Resolve bm_ok_update : sworn.

Lemma bm_block_update bm b d b' :
  bm_block (bm_update b d bm) b' = if decide (b = b') then Some d else bm_block bm b'.
Proof. rewrite /bm_block /=. apply lookup_insert. Qed.

Lemma bm_block_update_eq bm b d : bm_block (bm_update b d bm) b = Some d.
Proof. rewrite bm_block_update. by case_decide. Qed.

Lemma bm_block_update_ne bm b d b' :
  b <> b' -> bm_block (bm_update b d bm) b' = bm_block bm b'.
Proof. intros. rewrite bm_block_update. by case_decide. Qed.

Lemma dm_bm_read_lock_ok bm b d :
  bm_ok bm -> bm_block bm b = Some d ->
  dm_bm_read_lock b None bm = (Ok {| dm_block_location := b; write_locked := false |}, bm).
Proof.
  intros [_ Hv] Hb. rewrite /dm_bm_read_lock /dm_bufio_read.
  rewrite /bm_block in Hb. by rewrite Hb /dm_bm_validate_buffer Hv lookup_empty.
Qed.

Lemma dm_bm_read_lock_fail bm b :
  bm_block bm b = None -> dm_bm_read_lock b None bm = (Err EIO, bm).
Proof. rewrite /bm_block /dm_bm_read_lock /dm_bufio_read => ->. done. Qed.

Lemma dm_bm_write_lock_ok bm b d :
  bm_ok bm -> bm_block bm b = Some d ->
  dm_bm_write_lock b None bm = (Ok {| dm_block_location := b; write_locked := true |}, bm).
Proof.
  intros [Hr Hv] Hb. rewrite /dm_bm_write_lock /= Hr /dm_bufio_read.
  rewrite /bm_block in Hb. by rewrite Hb /dm_bm_validate_buffer Hv lookup_empty.
Qed.

Lemma dm_bm_write_lock_fail bm b :
  bm_ok bm -> bm_block bm b = None -> dm_bm_write_lock b None bm = (Err EIO, bm).
Proof.
  intros [Hr _] Hb. rewrite /dm_bm_write_lock /= Hr /dm_bufio_read.
  rewrite /bm_block in Hb. by rewrite Hb.
Qed.

Lemma dm_bm_flush_ok bm :
  bm_ok bm -> bufio_write_error (bufio bm) = 0 ->
  exists bm', dm_bm_flush bm = (Ok tt, bm') /\ bm_ok bm' /\
    (forall b, bm_block bm' b = bm_block bm b) /\ bufio_dirty (bufio bm') = ∅.
Proof.
  intros [Hr Hv] He. eexists. rewrite /dm_bm_flush /= Hr /dm_bufio_write_dirty_buffers He /=.
  split; [done|]. split; [by rewrite /bm_ok /= Hr Hv|]. split; [|done]. intros b. rewrite /bm_block. cbn [bm_with_bufio bufio bufio_data].
  rewrite map_lookup_imap. destruct (bufio_data (bufio bm) !! b) as [d|]; [|done]. cbn. case_decide; [|done].
  by rewrite /dm_block_manager_write_callback Hv lookup_empty.
Qed.

(** What a write-locked zeroed block leads to: written out, it holds what its
    validator makes of the zeros, and only that validator is accepted for it. *)
Lemma dm_bm_zero_flush bm b v :
  read_only bm = false -> bufio_write_error (bufio bm) = 0 ->
  exists blk bm1 bm2, dm_bm_write_lock_zero b (Some v) bm = (Ok blk, bm1) /\ (dm_bm_unlock blk ;;; dm_bm_flush)%se bm1 = (Ok tt, bm2) /\
    bm_block bm2 b = Some (dmv_prepare_for_write v (replicate (Z.to_nat (dm_bm_block_size bm)) Byte.x00)) /\
    (exists bm3, dm_bm_read_lock b (Some v) bm2 = (Ok {| dm_block_location := b; write_locked := false |}, bm3)) /\
    (forall v', dmv_id v' <> dmv_id v -> (dm_bm_read_lock b (Some v') bm2).1 = Err EINVAL).
Proof.
  intros Hr He. set (z := replicate _ _) in *. rewrite /dm_bm_write_lock_zero. cbn [dm_bm_is_read_only]. rewrite Hr. fold z. eexists _, _, _. split; [reflexivity|].
  split. { rewrite /se_bind /=. rewrite /dm_bm_flush /dm_bufio_write_dirty_buffers /= He. reflexivity. }
  assert (forall m : gmap Z (list byte), map_imap (fun b' d => Some (if decide (b' ∈ {[b]} ∪ bufio_dirty (bufio bm)) then
    match partial_alter (fun _ => Some v) b (aux_validator bm) !! b' with Some v' => dmv_prepare_for_write v' d | None => d end else d)) (<[b := z]> m) !! b =
    Some (dmv_prepare_for_write v z)) as Hz.
  { intros m. rewrite map_lookup_imap lookup_insert_eq. cbn. rewrite decide_True; [|set_solver]. by rewrite lookup_partial_alter_eq. }
  split; [apply Hz|]. rewrite /dm_bm_read_lock /dm_bufio_read. cbn [bm_with_bufio bufio bufio_data]. rewrite Hz /dm_bm_validate_buffer.
  cbn [bm_with_bufio aux_validator]. rewrite lookup_partial_alter_eq. split; [rewrite Z.eqb_refl; by eexists|].
  intros v' Hv'. by rewrite (proj2 (Z.eqb_neq (dmv_id v) (dmv_id v'))).
Qed.

(** The read-modify-write idiom of the tables: lock, edit in place, unlock. *)
Lemma dm_bm_rmw {A} (f : list byte -> list byte) (m : SE dm_block_manager A) bm b d :
  bm_ok bm -> bm_block bm b = Some d ->
  (block <- dm_bm_write_lock b None ;;
   data <- dm_block_data block ;;
   dm_block_store block (f data) ;;;
   dm_bm_unlock block ;;; m)%se bm = m (bm_update b (f d) bm).
Proof.
  intros Hok Hd. rewrite (se_bind_ok _ _ _ _ _ (dm_bm_write_lock_ok _ _ _ Hok Hd)).
  rewrite /se_bind /=. rewrite /bm_block in Hd. by rewrite Hd.
Qed.
