(* ===== verification/BlockLock.v ===== *)
(** * The lock of a block (persistent-data/dm-block-manager.c)

    With CONFIG_DM_DEBUG_BLOCK_MANAGER_LOCKING every buffer of the block manager
    carries a read/write lock that knows its holders: at most four readers, or
    one writer; a second acquisition by a holder is refused; writers are put
    before waiting readers.  Each function body runs under the lock's spinlock
    and is one step; a task that has to wait sleeps until another one wakes it.
    A [BUG_ON] that fires is [None]. *)
From S2P Require Import Prelude Codec BlockManager.

Definition MAX_HOLDERS : Z := 4.

Record waiter : Type := { w_task : Z; w_wants_write : bool }.

(** [holders] are tasks; [None] is the null pointer. *)
Record block_lock : Type := {
  bl_count : Z;
  bl_waiters : list waiter;
  bl_holders : list (option Z)
}.
Implicit Types (l : block_lock) (t : Z).

Definition bl_set_count c l : block_lock := {| bl_count := c; bl_waiters := bl_waiters l; bl_holders := bl_holders l |}.
Definition bl_set_waiters ws l : block_lock := {| bl_count := bl_count l; bl_waiters := ws; bl_holders := bl_holders l |}.
Definition bl_set_holder (h : nat) (x : option Z) l : block_lock :=
  {| bl_count := bl_count l; bl_waiters := bl_waiters l; bl_holders := <[h := x]> (bl_holders l) |}.

Definition __find_holder l (task : option Z) : option nat := fst <$> list_find (fun x => x = task) (bl_holders l).
Definition __add_holder t l : option block_lock := (fun h => bl_set_holder h (Some t) l) <$> __find_holder l None.
Definition __del_holder t l : option block_lock := (fun h => bl_set_holder h None l) <$> __find_holder l (Some t).
Definition __check_holder (current : Z) l : result unit :=
  if bool_decide (Some current ∈ bl_holders l) then Err EINVAL else Ok tt.

(** The loop over the waiters; [woken] are the tasks that were woken.  The
    waiter at the head is taken off the list when it is woken. *)
Fixpoint wake_loop (ws : list waiter) (woken : list Z) l : option (block_lock * list Z) :=
  match ws with
  | [] => Some (l, woken)
  | w :: ws =>
      if MAX_HOLDERS <=? bl_count l then Some (l, woken)
      else if w_wants_write w then
        if 0 <? bl_count l then Some (l, woken)
        else (fun l => (bl_set_waiters ws l, woken ++ [w_task w])) <$> __add_holder (w_task w) (bl_set_count (-1) l)
      else
        __add_holder (w_task w) (bl_set_count (bl_count l + 1) l) ≫= fun l =>
        wake_loop ws (woken ++ [w_task w]) (bl_set_waiters ws l)
  end.
Definition __wake_many l : option (block_lock * list Z) :=
  if bl_count l <? 0 then None else wake_loop (bl_waiters l) [] l.

Definition bl_init : block_lock :=
  {| bl_count := 0; bl_waiters := []; bl_holders := replicate (Z.to_nat MAX_HOLDERS) None |}.

Definition list_empty {A} (ws : list A) : bool := match ws with [] => true | _ => false end.
Definition __available_for_read l : bool :=
  (0 <=? bl_count l) && (bl_count l <? MAX_HOLDERS) && list_empty (bl_waiters l).

(** What an acquisition returns: the lock, a place among the waiters, or an error. *)
Inductive bl_result : Type := Bl_got | Bl_waits | Bl_refused (e : Z).

Definition bl_down_read (current : Z) l : option (bl_result * block_lock) :=
  match __check_holder current l with
  | Err e => Some (Bl_refused e, l)
  | Ok _ =>
      if __available_for_read l then
        (fun l => (Bl_got, l)) <$> __add_holder current (bl_set_count (bl_count l + 1) l)
      else Some (Bl_waits, bl_set_waiters (bl_waiters l ++ [{| w_task := current; w_wants_write := false |}]) l)
  end.
Definition bl_down_read_nonblock (current : Z) l : option (bl_result * block_lock) :=
  match __check_holder current l with
  | Err e => Some (Bl_refused e, l)
  | Ok _ =>
      if __available_for_read l then
        (fun l => (Bl_got, l)) <$> __add_holder current (bl_set_count (bl_count l + 1) l)
      else Some (Bl_refused EWOULDBLOCK, l)
  end.
Definition bl_down_write (current : Z) l : option (bl_result * block_lock) :=
  match __check_holder current l with
  | Err e => Some (Bl_refused e, l)
  | Ok _ =>
      if (bl_count l =? 0) && list_empty (bl_waiters l) then
        (fun l => (Bl_got, l)) <$> __add_holder current (bl_set_count (-1) l)
      else Some (Bl_waits, bl_set_waiters ({| w_task := current; w_wants_write := true |} :: bl_waiters l) l)
  end.

Definition wake_if_any l : option (block_lock * list Z) :=
  if list_empty (bl_waiters l) then Some (l, []) else __wake_many l.
Definition bl_up_read (current : Z) l : option (block_lock * list Z) :=
  if bl_count l <=? 0 then None
  else __del_holder current l ≫= fun l => wake_if_any (bl_set_count (bl_count l - 1) l).
Definition bl_up_write (current : Z) l : option (block_lock * list Z) :=
  __del_holder current l ≫= fun l => wake_if_any (bl_set_count 0 l).

(** ** Tasks that use the lock as they should

    A sleeping task does nothing; a task gives back what it holds, as it took
    it. *)
Definition held l : list Z := omap id (bl_holders l).
Definition sleeping l : list Z := w_task <$> bl_waiters l.

Inductive bl_step l : block_lock -> Prop :=
| Bl_read t r l' : t ∉ sleeping l -> bl_down_read t l = Some (r, l') -> bl_step l l'
| Bl_try t r l' : t ∉ sleeping l -> bl_down_read_nonblock t l = Some (r, l') -> bl_step l l'
| Bl_write t r l' : t ∉ sleeping l -> bl_down_write t l = Some (r, l') -> bl_step l l'
| Bl_read_done t woken l' : t ∈ held l -> 0 < bl_count l -> bl_up_read t l = Some (l', woken) -> bl_step l l'
| Bl_write_done t woken l' : t ∈ held l -> bl_count l = -1 -> bl_up_write t l = Some (l', woken) -> bl_step l l'.

(** ** Invariant *)
Record bl_inv l : Prop := {
  bi_slots : length (bl_holders l) = Z.to_nat MAX_HOLDERS;
  bi_tasks : NoDup (held l ++ sleeping l);
  bi_count : bl_count l = -1 /\ length (held l) = 1%nat \/ bl_count l = Z.of_nat (length (held l));
  (** no wake-up is lost: whoever waits first waits for a holder *)
  bi_waits w ws : bl_waiters l = w :: ws ->
    if w_wants_write w then bl_count l <> 0 else bl_count l = -1 \/ bl_count l = MAX_HOLDERS
}.

Section holders.
Implicit Types (hs : list (option Z)).

Lemma omap_id_insert hs i x y : hs !! i = Some x ->
  exists rest, omap id hs ≡ₚ option_list x ++ rest /\ omap id (<[i := y]> hs) ≡ₚ option_list y ++ rest.
Proof.
  revert i. induction hs as [|z hs IH] => i; [done|]. destruct i as [|i]; cbn [lookup list_lookup].
  - intros [= ->]. exists (omap id hs). cbn. by destruct x, y.
  - intros Hi. destruct (IH i Hi) as (rest & H1 & H2). exists (option_list z ++ rest). cbn. destruct z as [z|]; cbn; rewrite ?H1 ?H2; [|done].
    split; apply Permutation_middle.
Qed.

Lemma held_bound hs : (length (omap id hs) <= length hs)%nat.
Proof. induction hs as [|[z|] hs IH]; cbn; lia. Qed.

Lemma free_holder hs : (length (omap id hs) < length hs)%nat -> None ∈ hs.
Proof. induction hs as [|[z|] hs IH]; cbn [omap list_omap id length]; [lia| |intros _; left]. intros Hlt. right. apply IH. simpl in Hlt. lia. Qed.

Lemma elem_held hs t : t ∈ omap id hs <-> Some t ∈ hs.
Proof. rewrite list_elem_of_omap. split; [intros (x & Hx & Hid); cbn in Hid; by subst x|]. intros Hx. by exists (Some t). Qed.
End holders.

Lemma find_holder_ok l x : x ∈ bl_holders l -> exists i, __find_holder l x = Some i /\ bl_holders l !! i = Some x.
Proof.
  intros Hx. rewrite /__find_holder. destruct (list_find_elem_of (fun y => y = x) _ _ Hx eq_refl) as [[i y] Hf].
  pose proof Hf as (Hi & -> & _)%list_find_Some. rewrite Hf. by exists i.
Qed.

Lemma add_holder_ok t l : length (bl_holders l) = 4%nat -> (length (held l) < 4)%nat ->
  exists l', __add_holder t l = Some l' /\ bl_count l' = bl_count l /\ bl_waiters l' = bl_waiters l /\ length (bl_holders l') = 4%nat /\ held l' ≡ₚ t :: held l.
Proof.
  intros Hl Hh. destruct (find_holder_ok l None) as (i & Hf & Hi); [apply free_holder; rewrite Hl; exact Hh|].
  rewrite /__add_holder Hf. eexists. split; [reflexivity|]. split; [done|]. split; [done|]. cbn [bl_set_holder bl_holders].
  rewrite length_insert. split; [done|]. destruct (omap_id_insert _ _ _ (Some t) Hi) as (rest & H1 & H2). rewrite /held. cbn [bl_set_holder bl_holders]. by rewrite H1 H2.
Qed.

Lemma del_holder_ok t l : t ∈ held l ->
  exists l', __del_holder t l = Some l' /\ bl_count l' = bl_count l /\ bl_waiters l' = bl_waiters l /\ length (bl_holders l') = length (bl_holders l) /\ held l ≡ₚ t :: held l'.
Proof.
  intros Ht%elem_held. destruct (find_holder_ok l (Some t) Ht) as (i & Hf & Hi).
  rewrite /__del_holder Hf. eexists. split; [reflexivity|]. split; [done|]. split; [done|]. cbn [bl_set_holder bl_holders].
  rewrite length_insert. split; [done|]. destruct (omap_id_insert _ _ _ None Hi) as (rest & H1 & H2). rewrite /held. cbn [bl_set_holder bl_holders]. by rewrite H1 H2.
Qed.

(** Waking: what a release with waiters left leaves, when the lock is free or
    read-locked. *)
Lemma wake_loop_ok ws woken l :
  length (bl_holders l) = 4%nat -> bl_waiters l = ws -> bl_count l = Z.of_nat (length (held l)) -> NoDup (held l ++ sleeping l) ->
  exists l' woken', wake_loop ws woken l = Some (l', woken') /\ bl_inv l' /\ held l ⊆ held l' /\
    forall w ws', ws = w :: ws' -> bl_count l < 4 -> (w_wants_write w = true -> bl_count l = 0) -> w_task w ∈ held l'.
Proof.
  revert woken l. induction ws as [|w ws IH] => woken l Hlen Hw Hc Hnd; cbn [wake_loop].
  { exists l, woken. split; [done|]. split; [|done]. split; [done|done|by right|]. intros w ws'. by rewrite Hw. }
  pose proof (held_bound (bl_holders l)) as Hhb. fold (held l) in Hhb. change MAX_HOLDERS with 4.
  destruct (Z.leb_spec 4 (bl_count l)) as [Hfull|Hfree].
  { exists l, woken. split; [done|]. split; [|split; [done|intros; lia]]. split; [done|done|by right|]. intros w' ws'. rewrite Hw.
    intros [= -> ->]. change MAX_HOLDERS with 4. destruct (w_wants_write w'); lia. }
  assert (forall c, exists l1, __add_holder (w_task w) (bl_set_count c l) = Some l1 /\ bl_count l1 = c /\ bl_waiters l1 = bl_waiters l /\
    length (bl_holders l1) = 4%nat /\ held l1 ≡ₚ w_task w :: held l) as Hadd.
  { intros c. apply (add_holder_ok (w_task w) (bl_set_count c l)); [done|]. change (held (bl_set_count c l)) with (held l). lia. }
  rewrite /sleeping Hw fmap_cons in Hnd.
  assert (forall l1, held l1 ≡ₚ w_task w :: held l -> NoDup (held l1 ++ sleeping (bl_set_waiters ws l1))) as Hnd1.
  { intros l1 ->. cbn [sleeping bl_set_waiters bl_waiters]. rewrite -app_comm_cons Permutation_middle. exact Hnd. }
  destruct (w_wants_write w) eqn:Ew.
  - destruct (Z.ltb_spec 0 (bl_count l)) as [Hr|Hr].
    + exists l, woken. split; [done|]. split; [|split; [done|]]; last first.
      { intros w' ws' [= <- <-] _. rewrite Ew. intros H. specialize (H eq_refl). lia. }
      split; [done|by rewrite /sleeping Hw fmap_cons|by right|]. intros w' ws'. rewrite Hw. intros [= <- <-]. rewrite Ew. lia.
    + destruct (Hadd (-1)) as (l1 & -> & Hc1 & _ & Hl1 & Hp). eexists _, _. split; [reflexivity|].
      change (held (bl_set_waiters ws l1)) with (held l1).
      assert (length (held l) = 0%nat) as Hz by lia. apply length_zero_iff_nil in Hz. split; [|split].
      * split; [done|exact (Hnd1 l1 Hp)| |].
        { left. split; [done|]. change (held (bl_set_waiters ws l1)) with (held l1). by rewrite Hp Hz. }
        { intros w' ws' _. cbn [bl_set_waiters bl_count]. rewrite Hc1. destruct (w_wants_write w'); [lia|by left]. }
      * rewrite Hz. apply list_subseteq_nil.
      * intros w' ws' [= <- <-] _ _. rewrite Hp. left.
  - destruct (Hadd (bl_count l + 1)) as (l1 & -> & Hc1 & _ & Hl1 & Hp). cbn [mbind option_bind].
    destruct (IH (woken ++ [w_task w]) (bl_set_waiters ws l1)) as (l' & woken' & Hrun & Hinv & Hsub & _); [done|done| |exact (Hnd1 l1 Hp)|].
    { change (held (bl_set_waiters ws l1)) with (held l1). cbn [bl_set_waiters bl_count]. rewrite Hc1 Hp. cbn [length]. lia. }
    change (held (bl_set_waiters ws l1)) with (held l1) in Hsub. exists l', woken'. split; [done|]. split; [done|]. split.
    + intros x Hx. apply Hsub. rewrite Hp. by right.
    + intros w' ws' [= <- <-] _ _. apply Hsub. rewrite Hp. left.
Qed.

(** Giving the lock back, when [n] holders are left afterwards. *)
Lemma wake_if_any_ok l :
  length (bl_holders l) = 4%nat -> bl_count l = Z.of_nat (length (held l)) -> NoDup (held l ++ sleeping l) ->
  exists l' woken, wake_if_any l = Some (l', woken) /\ bl_inv l' /\ held l ⊆ held l' /\
    forall w ws, bl_waiters l = w :: ws -> bl_count l < 4 -> (w_wants_write w = true -> bl_count l = 0) -> w_task w ∈ held l'.
Proof.
  intros Hl Hc Hnd. rewrite /wake_if_any /__wake_many. destruct (bl_waiters l) as [|w ws] eqn:Ew; cbn [list_empty].
  - exists l, []. split; [done|]. split; [|done]. split; [done|done|by right|]. intros w ws. by rewrite Ew.
  - destruct (Z.ltb_spec (bl_count l) 0); [lia|]. by apply (wake_loop_ok (w :: ws) [] l).
Qed.

Lemma bl_inv_init : bl_inv bl_init.
Proof. split; [done|constructor|by right|done]. Qed.

Lemma grant_ok t l c : bl_inv l -> t ∉ held l -> bl_waiters l = [] -> bl_count l = Z.of_nat (length (held l)) -> bl_count l < 4 ->
  c = -1 /\ bl_count l = 0 \/ c = bl_count l + 1 ->
  exists l', __add_holder t (bl_set_count c l) = Some l' /\ bl_inv l' /\ held l' ≡ₚ t :: held l /\ bl_waiters l' = [].
Proof.
  intros [H1 H2 _ _] Ht Hw Hc Hlt Hcase. change (Z.to_nat MAX_HOLDERS) with 4%nat in H1.
  destruct (add_holder_ok t (bl_set_count c l)) as (l' & -> & C1 & C2 & C3 & C4); [done|change (held (bl_set_count c l)) with (held l); lia|].
  change (held (bl_set_count c l)) with (held l) in C4. cbn [bl_set_count bl_count bl_waiters] in C1, C2. exists l'. split; [done|]. split; [|by rewrite C2].
  rewrite /sleeping Hw app_nil_r in H2. split; [done| | |].
  - rewrite /sleeping C2 Hw app_nil_r C4. by constructor.
  - rewrite C1 C4. cbn [length]. destruct Hcase as [[-> Hz]| ->]; [left; split; [done|]; lia|right; lia].
  - intros w ws. by rewrite C2 Hw.
Qed.

Lemma check_holder_ok t l : __check_holder t l = if bool_decide (t ∈ held l) then Err EINVAL else Ok tt.
Proof. rewrite /__check_holder. by rewrite (bool_decide_ext _ (t ∈ held l)); [|by rewrite elem_held]. Qed.

Lemma available_ok l : bl_inv l -> if __available_for_read l then bl_waiters l = [] /\ bl_count l = Z.of_nat (length (held l)) /\ bl_count l < 4
  else bl_waiters l = [] -> bl_count l = -1 \/ bl_count l = 4.
Proof.
  intros [H1 H2 H3 H4]. rewrite /__available_for_read. change MAX_HOLDERS with 4. pose proof (held_bound (bl_holders l)) as Hb.
  rewrite H1 -/(held l) in Hb. change (Z.to_nat MAX_HOLDERS) with 4%nat in Hb.
  destruct (Z.leb_spec 0 (bl_count l)); [destruct (Z.ltb_spec (bl_count l) 4)|]; cbn [andb]; [destruct (bl_waiters l); cbn [list_empty]|lia|lia].
  - split; [done|]. destruct H3; lia.
  - done.
Qed.

(** Going to sleep, at either end of the queue. *)
Lemma sleep_ok t w ws l : bl_inv l -> t ∉ held l -> t ∉ sleeping l -> w_task w = t -> ws ≡ₚ w :: bl_waiters l ->
  (forall w' ws', ws = w' :: ws' -> if w_wants_write w' then bl_count l <> 0 else bl_count l = -1 \/ bl_count l = 4) -> bl_inv (bl_set_waiters ws l).
Proof.
  intros [H1 H2 H3 H4] Hh Hs Ht Hp Hw. split; [done| |done|exact Hw].
  change (NoDup (held l ++ (w_task <$> ws))). rewrite Hp fmap_cons Ht -Permutation_middle. constructor; [|exact H2].
  rewrite elem_of_app. intros [?|?]; [done|by apply Hs].
Qed.

Lemma count_held l : bl_inv l -> bl_count l = 0 <-> held l = [].
Proof. intros [_ _ H3 _]. rewrite -length_zero_iff_nil. lia. Qed.

Lemma down_read_ok t l : bl_inv l -> t ∉ sleeping l ->
  (exists r l', bl_down_read t l = Some (r, l') /\ bl_inv l') /\ (exists r l', bl_down_read_nonblock t l = Some (r, l') /\ bl_inv l').
Proof.
  intros Hi Hs. rewrite /bl_down_read /bl_down_read_nonblock !check_holder_ok. case_bool_decide as Hh; [by split; eexists _, _|].
  pose proof (available_ok l Hi) as Ha. destruct (__available_for_read l).
  - destruct Ha as (Hw & Hc & Hlt). destruct (grant_ok t l (bl_count l + 1) Hi Hh Hw Hc Hlt) as (l' & -> & Hi' & _); [by right|]. by split; eexists _, _.
  - split; eexists _, _; (split; [reflexivity|]); [|done].
    apply (sleep_ok t {| w_task := t; w_wants_write := false |}); [done|done|done|done|by rewrite Permutation_app_comm|].
    intros w' ws' Heq. destruct (bl_waiters l) as [|w ws] eqn:Ew; injection Heq as <- _; [by apply Ha|]. exact (bi_waits _ Hi _ _ Ew).
Qed.

Lemma down_write_ok t l : bl_inv l -> t ∉ sleeping l -> exists r l', bl_down_write t l = Some (r, l') /\ bl_inv l'.
Proof.
  intros Hi Hs. rewrite /bl_down_write check_holder_ok. case_bool_decide as Hh; [by eexists _, _|].
  destruct (Z.eqb_spec (bl_count l) 0) as [Hz|Hz]; cbn [andb]; [destruct (list_empty (bl_waiters l)) eqn:Ee|].
  - assert (bl_waiters l = []) as Hw by (by destruct (bl_waiters l)). pose proof (proj1 (count_held l Hi) Hz) as Hn.
    destruct (grant_ok t l (-1) Hi Hh Hw) as (l' & -> & Hi' & _); [by rewrite Hz Hn|lia|by left|]. by eexists _, _.
  - exfalso. destruct (bl_waiters l) as [|w ws] eqn:Ew; [done|]. pose proof (bi_waits _ Hi _ _ Ew) as Hq. change MAX_HOLDERS with 4 in Hq. destruct (w_wants_write w); lia.
  - eexists _, _. split; [reflexivity|]. apply (sleep_ok t {| w_task := t; w_wants_write := true |}); try done. by intros w' ws' [= <- <-].
Qed.

(** Giving the lock back; the first waiter is next when nobody is left, or when it wants to read. *)
Lemma up_ok t l : bl_inv l -> t ∈ held l ->
  exists l' woken, (if bl_count l <? 0 then bl_up_write t l else bl_up_read t l) = Some (l', woken) /\ bl_inv l' /\
    forall w ws, bl_waiters l = w :: ws -> w_wants_write w = false \/ length (held l) = 1%nat -> w_task w ∈ held l'.
Proof.
  intros [H1 H2 H3 H4] Ht. destruct (del_holder_ok t l Ht) as (l1 & Hd & D1 & D2 & D3 & D4). change (Z.to_nat MAX_HOLDERS) with 4%nat in H1.
  assert (length (held l) = S (length (held l1))) as Hlen by (by rewrite D4). pose proof (held_bound (bl_holders l)) as Hb. rewrite -/(held l) H1 in Hb.
  assert (NoDup (held l1 ++ sleeping l1)) as Hnd.
  { rewrite /sleeping D2. rewrite D4 in H2. by apply NoDup_cons in H2 as [_ ?]. }
  destruct (wake_if_any_ok (bl_set_count (Z.of_nat (length (held l1))) l1)) as (l' & woken & Hrun & Hi' & _ & Hnext); [cbn; lia|done|exact Hnd|].
  exists l', woken. split; [|split; [done|]].
  - rewrite /bl_up_write /bl_up_read Hd. cbn [mbind option_bind]. destruct H3 as [[Hc Hone]|Hc]; rewrite Hc.
    + cbn. replace 0 with (Z.of_nat (length (held l1))) by lia. exact Hrun.
    + destruct (Z.ltb_spec (Z.of_nat (length (held l))) 0); [lia|]. destruct (Z.leb_spec (Z.of_nat (length (held l))) 0); [lia|].
      rewrite D1 Hc. replace (Z.of_nat (length (held l)) - 1) with (Z.of_nat (length (held l1))) by lia. exact Hrun.
  - intros w ws Hw Hcase. apply (Hnext w ws); cbn [bl_set_count bl_count bl_waiters]; [by rewrite D2|lia|]. intros Hww. destruct Hcase as [?|?]; [congruence|lia].
Qed.

Lemma bl_step_inv l l' : bl_inv l -> bl_step l l' -> bl_inv l'.
Proof.
  intros Hi [t r l1 Hs Hr|t r l1 Hs Hr|t r l1 Hs Hr|t woken l1 Ht Hc Hr|t woken l1 Ht Hc Hr].
  - destruct (down_read_ok t l Hi Hs) as [(r' & l2 & Heq & ?) _]. congruence.
  - destruct (down_read_ok t l Hi Hs) as [_ (r' & l2 & Heq & ?)]. congruence.
  - destruct (down_write_ok t l Hi Hs) as (r' & l2 & Heq & ?). congruence.
  - destruct (up_ok t l Hi Ht) as (l2 & w2 & Heq & Hi2 & _). destruct (Z.ltb_spec (bl_count l) 0); [lia|]. congruence.
  - destruct (up_ok t l Hi Ht) as (l2 & w2 & Heq & Hi2 & _). destruct (Z.ltb_spec (bl_count l) 0); [|lia]. congruence.
Qed.

Lemma bl_reachable_inv l : rtc bl_step bl_init l -> bl_inv l.
Proof.
  intros Hr. assert (forall x y, rtc bl_step x y -> bl_inv x -> bl_inv y) as H; [|by eapply H; [exact Hr|apply bl_inv_init]].
  induction 1 as [|x y z Hs _ IH]; [done|]. intros Hx. by apply IH, (bl_step_inv x).
Qed.

(** C31: the lock of a block excludes: in every state that tasks using it
    properly can reach there is one writer and no reader, or up to four readers
    and no writer, and no task holds it twice; no [BUG_ON] fires, and a task that
    holds the lock is refused a second acquisition with [EINVAL]. *)
Theorem block_lock_excludes l : rtc bl_step bl_init l ->
  NoDup (held l) /\ (bl_count l = -1 /\ length (held l) = 1%nat \/ bl_count l = Z.of_nat (length (held l)) /\ bl_count l <= MAX_HOLDERS) /\
  (forall t, t ∉ sleeping l -> is_Some (bl_down_read t l) /\ is_Some (bl_down_read_nonblock t l) /\ is_Some (bl_down_write t l)) /\
  (forall t, t ∈ held l -> (0 < bl_count l -> is_Some (bl_up_read t l)) /\ (bl_count l = -1 -> is_Some (bl_up_write t l))) /\
  (forall t, t ∈ held l -> bl_down_read t l = Some (Bl_refused EINVAL, l) /\ bl_down_write t l = Some (Bl_refused EINVAL, l)).
Proof.
  intros Hr. pose proof (bl_reachable_inv l Hr) as Hi. pose proof Hi as [H1 H2 H3 H4]. split; [by apply NoDup_app in H2 as [? _]|]. split.
  { destruct H3 as [?|H3]; [by left|right]. split; [done|]. pose proof (held_bound (bl_holders l)) as Hb. rewrite -/(held l) H1 in Hb. change MAX_HOLDERS with 4 in *. lia. }
  split; [|split].
  - intros t Ht. destruct (down_read_ok t l Hi Ht) as [(? & ? & -> & _) (? & ? & -> & _)]. by destruct (down_write_ok t l Hi Ht) as (? & ? & -> & _).
  - intros t Ht. destruct (up_ok t l Hi Ht) as (l' & woken & Heq & _). destruct (Z.ltb_spec (bl_count l) 0); split; intros Hc; (lia || by rewrite Heq).
  - intros t Ht. by rewrite /bl_down_read /bl_down_write check_holder_ok bool_decide_true.
Qed.

(** The holders give the lock back, one after the other. *)
Fixpoint release_all (ts : list Z) l : option block_lock :=
  match ts with
  | [] => Some l
  | t :: ts => (if bl_count l <? 0 then bl_up_write t l else bl_up_read t l) ≫= fun r => release_all ts r.1
  end.

Lemma release_ok n l w ws : bl_inv l -> length (held l) = n -> bl_waiters l = w :: ws ->
  exists ts l', ts ⊆ held l /\ release_all ts l = Some l' /\ w_task w ∈ held l'.
Proof.
  revert l. induction n as [|n IH] => l Hi Hn Hw.
  { exfalso. apply length_zero_iff_nil in Hn. apply (count_held l Hi) in Hn. pose proof (bi_waits _ Hi _ _ Hw) as Hq. change MAX_HOLDERS with 4 in Hq. destruct (w_wants_write w); lia. }
  destruct (held l) as [|t rest] eqn:Eh; [done|]. assert (t ∈ held l) as Ht by (rewrite Eh; left).
  destruct (up_ok t l Hi Ht) as (l' & woken & Hrun & Hi' & Hnext).
  destruct (decide (w_wants_write w = false \/ length (held l) = 1%nat)) as [Hc|Hc].
  { exists [t], l'. split; [clear; set_solver|]. split; [cbn [release_all]; by rewrite Hrun|by apply (Hnext w ws)]. }
  assert (w_wants_write w = true) as Hww by (destruct (w_wants_write w); [done|exfalso; apply Hc; by left]). rewrite Eh in Hc. cbn [length] in Hn, Hc.
  assert (held l' ≡ₚ rest /\ bl_waiters l' = w :: ws) as [Hp Hw'].
  { destruct (bi_count _ Hi) as [[_ Ho]|Hcnt]; [rewrite Eh in Ho; tauto|]. rewrite Eh in Hcnt. cbn [length] in Hcnt.
    destruct (Z.ltb_spec (bl_count l) 0); [lia|]. rewrite /bl_up_read in Hrun. destruct (Z.leb_spec (bl_count l) 0); [lia|].
    destruct (del_holder_ok t l Ht) as (l1 & Hd & D1 & D2 & _ & D4). rewrite Hd in Hrun. cbn [mbind option_bind] in Hrun.
    rewrite /wake_if_any /__wake_many in Hrun. cbn [bl_set_count bl_waiters bl_count] in Hrun. rewrite D2 Hw D1 in Hrun. cbn [list_empty] in Hrun.
    destruct (Z.ltb_spec (bl_count l - 1) 0); [lia|]. cbn [wake_loop] in Hrun. rewrite Hww in Hrun. cbn [bl_set_count bl_count] in Hrun.
    assert (0 <? bl_count l - 1 = true) as Hpos by (apply Z.ltb_lt; assert (length rest <> 0)%nat by (intros E0; apply Hc; right; by rewrite E0); lia).
    rewrite Hpos in Hrun. assert (l' = bl_set_count (bl_count l - 1) l1) as -> by (destruct (_ <=? _) in Hrun; congruence).
    split; [|cbn [bl_set_count bl_waiters]; by rewrite D2]. change (held l1 ≡ₚ rest). rewrite Eh in D4. by apply Permutation_cons_inv in D4. }
  destruct (IH l' Hi') as (ts & l2 & Hsub & Hrel & Hin); [rewrite Hp; lia|done|].
  exists (t :: ts), l2. split; [|split; [cbn [release_all]; rewrite Hrun; exact Hrel|done]].
  intros x [->|Hx]%elem_of_cons; [left|]. right. apply Hsub in Hx. by rewrite Hp in Hx.
Qed.

(** C32: no wake-up is lost: whoever is first in the queue of a block's lock gets
    the lock once tasks that hold it give it back; nothing else is needed. *)
Theorem block_lock_wakes_first l w ws : rtc bl_step bl_init l -> bl_waiters l = w :: ws ->
  exists ts l', ts ⊆ held l /\ release_all ts l = Some l' /\ w_task w ∈ held l'.
Proof. intros Hr Hw. by apply (release_ok (length (held l)) l w ws); [apply bl_reachable_inv| |]. Qed.

(** A writer that waits for two readers. *)
Definition sample_lock : block_lock :=
  {| bl_count := 2; bl_waiters := [{| w_task := 3; w_wants_write := true |}]; bl_holders := [Some 1; Some 2; None; None] |}.
Lemma sample_lock_reachable : rtc bl_step bl_init sample_lock.
Proof.
  eapply rtc_l; [eapply (Bl_read _ 1); [apply not_elem_of_nil|vm_compute; reflexivity]|].
  eapply rtc_l; [eapply (Bl_read _ 2); [apply not_elem_of_nil|vm_compute; reflexivity]|].
  eapply rtc_l; [eapply (Bl_write _ 3); [apply not_elem_of_nil|vm_compute; reflexivity]|]. apply rtc_refl.
Qed.

Lemma block_lock_excludes_witness : bl_down_read 1 sample_lock = Some (Bl_refused EINVAL, sample_lock).
Proof.
  destruct (block_lock_excludes sample_lock sample_lock_reachable) as (_ & _ & _ & _ & H). apply (H 1). vm_compute. left.
Defined.
Lemma block_lock_wakes_first_witness : exists ts l', release_all ts sample_lock = Some l' /\ 3 ∈ held l'.
Proof.
  destruct (block_lock_wakes_first sample_lock {| w_task := 3; w_wants_write := true |} [] sample_lock_reachable eq_refl) as (ts & l' & _ & H1 & H2).
  exists ts, l'. split; [exact H1|exact H2].
Defined.
