(* ===== verification/DiskStructs.v ===== *)
(** * On-disk arrays and bit sets (source/disk_structs.c)

    [disk_array] stores fixed-size entries in consecutive metadata blocks,
    [disk_bitset] packs bits into an array of 64-bit groups.  Both operate on
    the block manager, which is the state of the monad. *)
From S2P Require Import Prelude Codec BlockManager.
Local Open Scope se_scope.

Definition SWORNDISK_METADATA_BLOCK_SIZE : Z := 4096.
Definition BITS_PER_LONG : Z := 64.

(** metadata.c: number of blocks an array occupies (one more than needed when
    the last block is exactly full). *)
Definition __disk_array_blocks (nr_elem elem_size block_size : Z) : Z :=
  if elem_size =? 0 then 0
  else
    let elems_per_block := block_size / elem_size in
    nr_elem / elems_per_block + 1.

(** ** disk_array *)
Record disk_array : Type := {
  da_start : Z;
  da_nr_entry : Z;
  da_entry_size : Z;
  da_entries_per_block : Z
}.

Definition disk_array_create (start nr_entry entry_size : Z) : disk_array :=
  {| da_start := start; da_nr_entry := nr_entry; da_entry_size := entry_size;
     da_entries_per_block := SWORNDISK_METADATA_BLOCK_SIZE / entry_size |}.

Definition disk_array_entry_block (this : disk_array) (index : Z) : Z :=
  da_start this + index / da_entries_per_block this.

Definition disk_array_entry_offset (this : disk_array) (index : Z) : Z :=
  (index mod da_entries_per_block this) * da_entry_size this.

Definition disk_array_set (this : disk_array) (index : Z) (entry : list byte)
    : SE dm_block_manager unit :=
  if (index <? 0) || (da_nr_entry this <=? index) then se_fail EINVAL
  else
    block <- dm_bm_write_lock (disk_array_entry_block this index) None ;;
    data <- dm_block_data block ;;
    dm_block_store block
      (splice (Z.to_nat (disk_array_entry_offset this index))
         (take (Z.to_nat (da_entry_size this)) entry) data) ;;;
    dm_bm_unlock block.

Definition disk_array_get (this : disk_array) (index : Z)
    : SE dm_block_manager (list byte) :=
  if (index <? 0) || (da_nr_entry this <=? index) then se_fail EINVAL
  else
    block <- se_map_err (fun _ => EINVAL)
               (dm_bm_read_lock (disk_array_entry_block this index) None) ;;
    data <- dm_block_data block ;;
    dm_bm_unlock block ;;;
    se_ret (slice (Z.to_nat (disk_array_entry_offset this index))
              (Z.to_nat (da_entry_size this)) data).

(** [while (total > 0)]: at most [fuel] rounds, one per block. *)
Fixpoint disk_array_format_loop (fuel : nat) (this : disk_array) (value : bool)
    (shift total : Z) : SE dm_block_manager unit :=
  match fuel with
  | O => se_ret tt
  | S fuel =>
      if total <=? 0 then se_ret tt
      else
        block <- dm_bm_write_lock (da_start this + shift) None ;;
        let cycle := if total <? SWORNDISK_METADATA_BLOCK_SIZE
                     then total else SWORNDISK_METADATA_BLOCK_SIZE in
        data <- dm_block_data block ;;
        dm_block_store block
          (splice 0 (replicate (Z.to_nat cycle) (if value then xff else x00)) data) ;;;
        dm_bm_unlock block ;;;
        disk_array_format_loop fuel this value (shift + 1) (total - cycle)
  end.

Definition disk_array_nr_block (this : disk_array) : Z :=
  __disk_array_blocks (da_nr_entry this) (da_entry_size this) SWORNDISK_METADATA_BLOCK_SIZE.

Definition disk_array_format (this : disk_array) (value : bool) : SE dm_block_manager unit :=
  disk_array_format_loop (Z.to_nat (disk_array_nr_block this)) this value 0
    (disk_array_nr_block this * SWORNDISK_METADATA_BLOCK_SIZE).

(** ** disk_bitset *)
Record disk_bitset : Type := {
  db_nr_bit : Z;
  db_array : disk_array
}.

Definition __disk_bitset_group (index : Z) : Z := index / BITS_PER_LONG.
Definition __disk_bitset_offset (index : Z) : Z := index mod BITS_PER_LONG.
Definition __disk_bitset_nr_group (nr_bit : Z) : Z :=
  if nr_bit =? 0 then 0 else (nr_bit - 1) / BITS_PER_LONG + 1.

Definition disk_bitset_create (start nr_bit : Z) : disk_bitset :=
  {| db_nr_bit := nr_bit;
     db_array := disk_array_create start (__disk_bitset_nr_group nr_bit) 8 |}.

(** [set_bit] and [clear_bit] on one [unsigned long]. *)
Definition set_bit (nr word : Z) : Z := Z.lor word (Z.shiftl 1 nr).
Definition clear_bit (nr word : Z) : Z := Z.ldiff word (Z.shiftl 1 nr).

Definition __disk_bitset_operate (this : disk_bitset) (index : Z) (set : bool)
    : SE dm_block_manager unit :=
  if (index <? 0) || (db_nr_bit this <=? index) then se_fail EINVAL
  else
    group <- disk_array_get (db_array this) (__disk_bitset_group index) ;;
    let word := cdec c_u64 group in
    let word := (if set then set_bit else clear_bit) (__disk_bitset_offset index) word in
    disk_array_set (db_array this) (__disk_bitset_group index) (cenc c_u64 word).

Definition disk_bitset_set (this : disk_bitset) (index : Z) := __disk_bitset_operate this index true.
Definition disk_bitset_clear (this : disk_bitset) (index : Z) := __disk_bitset_operate this index false.

Definition disk_bitset_get (this : disk_bitset) (index : Z) : SE dm_block_manager bool :=
  group <- disk_array_get (db_array this) (__disk_bitset_group index) ;;
  se_ret (Z.testbit (cdec c_u64 group) (__disk_bitset_offset index)).

Definition disk_bitset_format (this : disk_bitset) (value : bool) : SE dm_block_manager unit :=
  disk_array_format (db_array this) value.

(** ** Well-formedness and the abstract contents of an array *)

Definition da_wf (this : disk_array) : Prop :=
  0 < da_entry_size this <= SWORNDISK_METADATA_BLOCK_SIZE /\
  0 <= da_nr_entry this /\
  da_entries_per_block this = SWORNDISK_METADATA_BLOCK_SIZE / da_entry_size this.

(** The blocks an array owns: the ones [disk_array_format] overwrites. *)
Definition da_owns (this : disk_array) (b : Z) : Prop :=
  da_start this <= b < da_start this + disk_array_nr_block this.

Definition da_mapped (this : disk_array) (bm : dm_block_manager) : Prop :=
  forall b, da_owns this b ->
    exists d, bm_block bm b = Some d /\ length d = Z.to_nat SWORNDISK_METADATA_BLOCK_SIZE.

Definition da_inv (this : disk_array) (bm : dm_block_manager) : Prop :=
  da_wf this /\ bm_ok bm /\ da_mapped this bm.

Definition da_entry (this : disk_array) (bm : dm_block_manager) (i : Z) : option (list byte) :=
  d ← bm_block bm (disk_array_entry_block this i);
  Some (slice (Z.to_nat (disk_array_entry_offset this i)) (Z.to_nat (da_entry_size this)) d).

(** Blocks outside the array are untouched between [bm] and [bm']. *)
Definition da_frame (this : disk_array) (bm bm' : dm_block_manager) : Prop :=
  forall b, ~ da_owns this b -> bm_block bm' b = bm_block bm b.

Lemma disk_array_create_wf start n sz :
  0 <= n -> 0 < sz <= SWORNDISK_METADATA_BLOCK_SIZE -> da_wf (disk_array_create start n sz).
Proof. done. Qed.
#[export] Hint Resolve disk_array_create_wf : sworn.

Section disk_array_facts.
Context (this : disk_array).
Implicit Types (bm : dm_block_manager).

Lemma da_epb_pos : da_wf this -> 0 < da_entries_per_block this.
Proof.
  intros (Hs & _ & ->). apply Z.div_str_pos. lia.
Qed.

Lemma da_owns_entry i :
  da_wf this -> 0 <= i < da_nr_entry this -> da_owns this (disk_array_entry_block this i).
Proof.
  intros Hwf Hi. pose proof (da_epb_pos Hwf) as Hp.
  destruct Hwf as (Hs & Hn & He).
  rewrite /da_owns /disk_array_nr_block /disk_array_entry_block /__disk_array_blocks.
  ztest. rewrite -He.
  pose proof (Z.div_le_mono i (da_nr_entry this) _ Hp ltac:(lia)).
  pose proof (Z.div_pos i (da_entries_per_block this)). lia.
Qed.

Lemma da_offset_bound i :
  da_wf this -> 0 <= i ->
  0 <= disk_array_entry_offset this i /\
  disk_array_entry_offset this i + da_entry_size this <= SWORNDISK_METADATA_BLOCK_SIZE.
Proof.
  intros Hwf Hi. pose proof (da_epb_pos Hwf) as Hp. destruct Hwf as (Hs & Hn & He).
  rewrite /disk_array_entry_offset.
  pose proof (Z.mod_pos_bound i _ Hp).
  assert (da_entries_per_block this * da_entry_size this <= SWORNDISK_METADATA_BLOCK_SIZE).
  { rewrite He Z.mul_comm. apply Z.mul_div_le. lia. }
  nia.
Qed.

(** Two entries of one block do not overlap. *)
Lemma da_offset_disjoint i j :
  da_wf this -> 0 <= i -> 0 <= j -> i <> j ->
  disk_array_entry_block this i = disk_array_entry_block this j ->
  disk_array_entry_offset this i + da_entry_size this <= disk_array_entry_offset this j \/
  disk_array_entry_offset this j + da_entry_size this <= disk_array_entry_offset this i.
Proof.
  intros Hwf Hi Hj Hij Hb. pose proof (da_epb_pos Hwf) as Hp.
  destruct Hwf as (Hs & _ & _).
  rewrite /disk_array_entry_block in Hb. rewrite /disk_array_entry_offset.
  pose proof (Z.div_mod i (da_entries_per_block this) ltac:(lia)) as Ei.
  pose proof (Z.div_mod j (da_entries_per_block this) ltac:(lia)) as Ej.
  assert (i / da_entries_per_block this = j / da_entries_per_block this) as Hq by lia.
  assert (i mod da_entries_per_block this <> j mod da_entries_per_block this) by (rewrite Hq in Ei; lia).
  nia.
Qed.

Lemma da_entry_length bm i e :
  da_inv this bm -> 0 <= i < da_nr_entry this -> da_entry this bm i = Some e ->
  length e = Z.to_nat (da_entry_size this).
Proof.
  intros (Hwf & _ & Hm) Hi He.
  destruct (Hm _ (da_owns_entry i Hwf Hi)) as (d & Hd & Hl).
  rewrite /da_entry Hd /= in He. injection He as <-.
  pose proof (da_offset_bound i Hwf ltac:(lia)).
  apply length_slice. rewrite Hl. destruct Hwf. lia.
Qed.

Lemma da_entry_is_some bm i :
  da_inv this bm -> 0 <= i < da_nr_entry this -> is_Some (da_entry this bm i).
Proof.
  intros (Hwf & _ & Hm) Hi. destruct (Hm _ (da_owns_entry i Hwf Hi)) as (d & Hd & _).
  rewrite /da_entry Hd /=. eauto.
Qed.

Lemma disk_array_get_ok bm i e :
  da_inv this bm -> 0 <= i < da_nr_entry this -> da_entry this bm i = Some e ->
  disk_array_get this i bm = (Ok e, bm).
Proof.
  intros (Hwf & Hok & Hm) Hi He.
  destruct (Hm _ (da_owns_entry i Hwf Hi)) as (d & Hd & _).
  rewrite /da_entry Hd /= in He. injection He as <-.
  rewrite /disk_array_get. do 2 ztest. simpl.
  rewrite /se_map_err /se_bind (dm_bm_read_lock_ok _ _ _ Hok Hd) /=.
  by rewrite /bm_block in Hd; rewrite Hd.
Qed.

Lemma disk_array_get_oob bm i :
  ~ (0 <= i < da_nr_entry this) -> disk_array_get this i bm = (Err EINVAL, bm).
Proof. intros. rewrite /disk_array_get. zbool; simpl; done || lia. Qed.

Lemma disk_array_set_oob bm i e :
  ~ (0 <= i < da_nr_entry this) -> disk_array_set this i e bm = (Err EINVAL, bm).
Proof. intros. rewrite /disk_array_set. zbool; simpl; done || lia. Qed.

Lemma disk_array_set_ok bm i e :
  da_inv this bm -> 0 <= i < da_nr_entry this -> length e = Z.to_nat (da_entry_size this) ->
  exists bm', disk_array_set this i e bm = (Ok tt, bm') /\
    da_inv this bm' /\ da_frame this bm bm' /\
    (forall j, 0 <= j < da_nr_entry this ->
      da_entry this bm' j = if decide (j = i) then Some e else da_entry this bm j).
Proof.
  intros (Hwf & Hok & Hm) Hi Hel.
  pose proof (da_owns_entry i Hwf Hi) as Hown.
  destruct (Hm _ Hown) as (d & Hd & Hl).
  pose proof (da_offset_bound i Hwf ltac:(lia)) as Ho.
  pose proof Hwf as (Hsz & _ & _).
  exists (bm_update (disk_array_entry_block this i)
       (splice (Z.to_nat (disk_array_entry_offset this i)) e d) bm).
  assert (Z.to_nat (disk_array_entry_offset this i) + length e <= length d)%nat as Hfit by lia.
  split; last split; last split.
  - rewrite /disk_array_set. do 2 ztest. simpl.
    rewrite /se_bind (dm_bm_write_lock_ok _ _ _ Hok Hd) /=.
    rewrite /bm_block in Hd. rewrite Hd /= take_ge //. lia.
  - split; last split; [done|by apply bm_ok_update|].
    intros b Hb. rewrite bm_block_update. case_decide; last by apply Hm.
    eexists. split; [done|]. by rewrite length_splice.
  - intros b Hb. apply bm_block_update_ne. by intros <-.
  - intros j Hj. rewrite /da_entry bm_block_update.
    case_decide as Hb; case_decide as Hij; subst; simpl.
    + by rewrite -Hel slice_splice_eq.
    + rewrite -Hb Hd /= slice_splice_ne // Hel.
      pose proof (da_offset_bound j Hwf ltac:(lia)).
      destruct (da_offset_disjoint i j Hwf); lia.
    + done.
    + done.
Qed.

(** A block of the array that is missing makes [disk_array_set] report the
    read error and [disk_array_get] report [EINVAL]; nothing is written. *)
Lemma disk_array_io_error bm i e :
  bm_ok bm -> 0 <= i < da_nr_entry this ->
  bm_block bm (disk_array_entry_block this i) = None ->
  disk_array_set this i e bm = (Err EIO, bm) /\ disk_array_get this i bm = (Err EINVAL, bm).
Proof.
  intros Hok Hi Hb. rewrite /disk_array_set /disk_array_get. do 2 ztest. simpl.
  by rewrite /se_bind /se_map_err (dm_bm_write_lock_fail _ _ Hok Hb) (dm_bm_read_lock_fail _ _ Hb).
Qed.
End disk_array_facts.

(** ** Formatting *)
Section format_facts.
Context (this : disk_array).

Lemma disk_array_format_loop_ok value n shift bm :
  bm_ok bm ->
  (forall b, da_start this + shift <= b < da_start this + shift + Z.of_nat n ->
     exists d, bm_block bm b = Some d /\ length d = Z.to_nat SWORNDISK_METADATA_BLOCK_SIZE) ->
  exists bm', disk_array_format_loop n this value shift
                (Z.of_nat n * SWORNDISK_METADATA_BLOCK_SIZE) bm = (Ok tt, bm') /\
    bm_ok bm' /\
    forall b, bm_block bm' b =
      if decide (da_start this + shift <= b < da_start this + shift + Z.of_nat n)
      then Some (replicate (Z.to_nat SWORNDISK_METADATA_BLOCK_SIZE) (if value then xff else x00))
      else bm_block bm b.
Proof.
  revert shift bm. induction n as [|n IH] => shift bm Hok Hm.
  { exists bm. split; [done|]. split; [done|]. intros b. case_decide; [lia|done]. }
  cbn [disk_array_format_loop]. set (T := Z.of_nat (S n) * SWORNDISK_METADATA_BLOCK_SIZE).
  assert (T = Z.of_nat n * SWORNDISK_METADATA_BLOCK_SIZE + SWORNDISK_METADATA_BLOCK_SIZE) as HT.
  { rewrite /T Nat2Z.inj_succ. lia. }
  assert (SWORNDISK_METADATA_BLOCK_SIZE = 4096) as HB by done.
  clearbody T. ztest. ztest.
  destruct (Hm (da_start this + shift)) as (d & Hd & Hl); [lia|].
  rewrite (dm_bm_rmw _ _ _ _ _ Hok Hd). set (d' := splice 0 _ d).
  replace (T - SWORNDISK_METADATA_BLOCK_SIZE)
    with (Z.of_nat n * SWORNDISK_METADATA_BLOCK_SIZE) by lia.
  assert (d' = replicate (Z.to_nat SWORNDISK_METADATA_BLOCK_SIZE) (if value then xff else x00)) as Hd'.
  { rewrite /d' /splice take_0 app_nil_l length_replicate drop_ge ?app_nil_r //. lia. }
  destruct (IH (shift + 1) (bm_update (da_start this + shift) d' bm)) as (bm' & Hrun & Hok' & Hb').
  { by apply bm_ok_update. }
  { intros b Hb. rewrite bm_block_update_ne; last lia. apply Hm. lia. }
  exists bm'. split; [done|]. split; [done|]. intros b. rewrite Hb' bm_block_update Hd'.
  repeat case_decide; try lia; done.
Qed.

Lemma disk_array_format_ok value bm :
  da_inv this bm ->
  exists bm', disk_array_format this value bm = (Ok tt, bm') /\
    da_inv this bm' /\ da_frame this bm bm' /\
    (forall i, 0 <= i < da_nr_entry this ->
       da_entry this bm' i =
         Some (replicate (Z.to_nat (da_entry_size this)) (if value then xff else x00))).
Proof.
  intros (Hwf & Hok & Hm).
  pose proof Hwf as (Hs & Hn & _).
  assert (0 <= disk_array_nr_block this) as Hnb.
  { rewrite /disk_array_nr_block /__disk_array_blocks. ztest.
    pose proof (Z.div_str_pos SWORNDISK_METADATA_BLOCK_SIZE (da_entry_size this) ltac:(lia)).
    pose proof (Z.div_pos (da_nr_entry this) (SWORNDISK_METADATA_BLOCK_SIZE / da_entry_size this)). lia. }
  destruct (disk_array_format_loop_ok value (Z.to_nat (disk_array_nr_block this)) 0 bm Hok)
    as (bm' & Hrun & Hok' & Hb).
  { intros b Hb. apply Hm. rewrite /da_owns. lia. }
  rewrite Z2Nat.id // in Hrun Hb. rewrite Z.add_0_r in Hb.
  exists bm'. split; [done|]. split; last split.
  - split; [done|]. split; [done|]. intros b Hown. rewrite Hb decide_True //.
    eexists. split; [done|]. by rewrite length_replicate.
  - intros b Hown. by rewrite Hb decide_False.
  - intros i Hi. rewrite /da_entry Hb decide_True; last by apply da_owns_entry.
    simpl. f_equal. apply slice_replicate.
    pose proof (da_offset_bound this i Hwf ltac:(lia)). lia.
Qed.
End format_facts.

(** Tables in disjoint block ranges do not interfere. *)
Lemma da_frame_entry this other bm bm' i :
  (forall b, da_owns this b -> ~ da_owns other b) ->
  da_wf this -> 0 <= i < da_nr_entry this ->
  da_frame other bm bm' -> da_entry this bm' i = da_entry this bm i.
Proof.
  intros Hd Hwf Hi Hf. rewrite /da_entry Hf //. apply Hd. by apply da_owns_entry.
Qed.

Lemma da_frame_inv this other bm bm' :
  (forall b, da_owns this b -> ~ da_owns other b) ->
  da_frame other bm bm' -> bm_ok bm' -> da_inv this bm -> da_inv this bm'.
Proof.
  intros Hd Hf Hok (Hwf & _ & Hm). split; [done|]. split; [done|].
  intros b Hb. rewrite Hf; last by apply Hd. by apply Hm.
Qed.

Lemma da_frame_refl this bm : da_frame this bm bm.
Proof. done. Qed.
Lemma da_frame_trans this bm1 bm2 bm3 :
  da_frame this bm1 bm2 -> da_frame this bm2 bm3 -> da_frame this bm1 bm3.
Proof. intros H1 H2 b Hb. by rewrite H2 // H1. Qed.
#[export] Hint Resolve da_frame_refl da_frame_trans : sworn.

(** ** Bit sets *)

(** [struct disk_bitset] is used through its function pointers; what its
    clients (the segment validators) rely on is this interface.  [bt_bits] is
    the table seen as a list of booleans. *)
Class BitTable (T S : Type) : Type := {
  bt_set : T -> Z -> SE S unit;
  bt_clear : T -> Z -> SE S unit;
  bt_get : T -> Z -> SE S bool;
  bt_format : T -> bool -> SE S unit;
  bt_inv : T -> S -> Prop;
  bt_bits : T -> S -> list bool;
  (** what an operation on [t] may change besides the bits of [t] *)
  bt_frame : T -> S -> S -> Prop
}.

Class BitTableOk (T S : Type) `{BitTable T S} : Prop := {
  bt_get_ok (t : T) (s : S) i b :
    bt_inv t s -> 0 <= i -> bt_bits t s !! Z.to_nat i = Some b -> bt_get t i s = (Ok b, s);
  bt_set_ok (t : T) (s : S) i :
    bt_inv t s -> 0 <= i < Z.of_nat (length (bt_bits t s)) ->
    exists s', bt_set t i s = (Ok tt, s') /\ bt_inv t s' /\ bt_frame t s s' /\
      bt_bits t s' = <[Z.to_nat i := true]> (bt_bits t s);
  bt_clear_ok (t : T) (s : S) i :
    bt_inv t s -> 0 <= i < Z.of_nat (length (bt_bits t s)) ->
    exists s', bt_clear t i s = (Ok tt, s') /\ bt_inv t s' /\ bt_frame t s s' /\
      bt_bits t s' = <[Z.to_nat i := false]> (bt_bits t s);
  bt_oob (t : T) (s : S) i :
    ~ (0 <= i < Z.of_nat (length (bt_bits t s))) -> bt_inv t s ->
    bt_set t i s = (Err EINVAL, s) /\ bt_clear t i s = (Err EINVAL, s);
  bt_format_ok (t : T) (s : S) b :
    bt_inv t s ->
    exists s', bt_format t b s = (Ok tt, s') /\ bt_inv t s' /\ bt_frame t s s' /\
      bt_bits t s' = replicate (length (bt_bits t s)) b
}.

(** Bit [i] of the table, read from its group. *)
Definition db_bit (this : disk_bitset) (bm : dm_block_manager) (i : Z) : bool :=
  Z.testbit (cdec c_u64 (default [] (da_entry (db_array this) bm (__disk_bitset_group i))))
    (__disk_bitset_offset i).

Definition db_bits (this : disk_bitset) (bm : dm_block_manager) : list bool :=
  db_bit this bm <$> seqZ 0 (db_nr_bit this).

Definition db_wf (this : disk_bitset) : Prop :=
  0 <= db_nr_bit this /\ da_wf (db_array this) /\
  da_entry_size (db_array this) = 8 /\
  da_nr_entry (db_array this) = __disk_bitset_nr_group (db_nr_bit this).

Definition db_inv (this : disk_bitset) (bm : dm_block_manager) : Prop :=
  db_wf this /\ da_inv (db_array this) bm.

Lemma disk_bitset_create_wf start n : 0 <= n -> db_wf (disk_bitset_create start n).
Proof.
  intros Hn. rewrite /disk_bitset_create. split_and!; simpl; try done.
  apply disk_array_create_wf; [|done]. rewrite /__disk_bitset_nr_group. zbool; [done|].
  pose proof (Z.div_pos (n - 1) BITS_PER_LONG). rewrite /BITS_PER_LONG in H *. lia.
Qed.

Section disk_bitset_facts.
Context (this : disk_bitset).
Implicit Types (bm : dm_block_manager).

Lemma length_db_bits bm : length (db_bits this bm) = Z.to_nat (db_nr_bit this).
Proof. by rewrite /db_bits length_fmap length_seqZ. Qed.

Lemma db_bits_lookup bm i :
  0 <= i < db_nr_bit this -> db_bits this bm !! Z.to_nat i = Some (db_bit this bm i).
Proof.
  intros Hi. rewrite /db_bits list_lookup_fmap lookup_seqZ_lt; last lia. simpl. do 2 f_equal. lia.
Qed.

Lemma db_bits_lookup_inv bm i b :
  0 <= i -> db_bits this bm !! Z.to_nat i = Some b ->
  0 <= i < db_nr_bit this /\ b = db_bit this bm i.
Proof.
  intros Hi Hb. pose proof (lookup_lt_Some _ _ _ Hb) as Hlt. rewrite length_db_bits in Hlt.
  assert (0 <= i < db_nr_bit this) as Hr by lia.
  rewrite db_bits_lookup // in Hb. by injection Hb as <-.
Qed.

Lemma db_group_range i :
  db_wf this -> 0 <= i < db_nr_bit this ->
  0 <= __disk_bitset_group i < da_nr_entry (db_array this).
Proof.
  intros (_ & _ & _ & ->) Hi. rewrite /__disk_bitset_group /__disk_bitset_nr_group /BITS_PER_LONG.
  ztest. pose proof (Z.div_pos i 64). pose proof (Z.div_le_mono i (db_nr_bit this - 1) 64). lia.
Qed.

Lemma db_offset_range i : 0 <= __disk_bitset_offset i < 64.
Proof. apply Z.mod_pos_bound. done. Qed.

Lemma db_group_offset_inj i j :
  __disk_bitset_group i = __disk_bitset_group j ->
  __disk_bitset_offset i = __disk_bitset_offset j -> i = j.
Proof.
  rewrite /__disk_bitset_group /__disk_bitset_offset /BITS_PER_LONG => Hg Ho.
  pose proof (Z.div_mod i 64). pose proof (Z.div_mod j 64). lia.
Qed.

Lemma disk_bitset_get_ok bm i b :
  db_inv this bm -> 0 <= i -> db_bits this bm !! Z.to_nat i = Some b ->
  disk_bitset_get this i bm = (Ok b, bm).
Proof.
  intros [Hwf Hda] H0 Hb. apply db_bits_lookup_inv in Hb as [Hi ->]; [|done].
  pose proof (db_group_range i Hwf Hi) as Hg.
  destruct (da_entry_is_some (db_array this) bm _ Hda Hg) as [e He].
  rewrite /disk_bitset_get (se_bind_ok _ _ _ _ _ (disk_array_get_ok _ _ _ _ Hda Hg He)).
  by rewrite /db_bit He.
Qed.

Lemma word_op_range (set : bool) o w :
  0 <= o < 64 -> 0 <= w < 2 ^ 64 ->
  0 <= (if set then set_bit else clear_bit) o w < 2 ^ 64.
Proof.
  intros Ho Hw.
  assert (forall z, 0 <= z -> (forall n, 64 <= n -> Z.testbit z n = false) -> z < 2 ^ 64) as Hb.
  { intros z Hz Hn. destruct (Z.eq_dec z 0) as [->|]; [done|].
    apply Z.log2_lt_pow2; [lia|]. destruct (Z.lt_ge_cases (Z.log2 z) 64) as [|Hge]; [done|].
    specialize (Hn _ Hge). rewrite Z.bit_log2 in Hn; [done|lia]. }
  assert (forall n, 64 <= n -> Z.testbit w n = false) as Hwn.
  { intros n Hn. destruct (Z.eq_dec w 0) as [->|]; [apply Z.testbit_0_l|].
    apply Z.bits_above_log2; [lia|]. apply Z.lt_le_trans with 64; [|done].
    apply Z.log2_lt_pow2; lia. }
  destruct set; rewrite /set_bit /clear_bit.
  - split; [rewrite Z.lor_nonneg Z.shiftl_nonneg; lia|]. apply Hb.
    + rewrite Z.lor_nonneg Z.shiftl_nonneg. lia.
    + intros n Hn. rewrite Z.lor_spec Hwn // Z.shiftl_spec; last lia.
      simpl. rewrite Z.bits_above_log2; [done|lia|]. simpl. lia.
  - split; [apply Z.ldiff_nonneg; lia|]. apply Hb.
    + apply Z.ldiff_nonneg. lia.
    + intros n Hn. by rewrite Z.ldiff_spec Hwn.
Qed.

Lemma word_op_spec (set : bool) o w n :
  0 <= o -> 0 <= n ->
  Z.testbit ((if set then set_bit else clear_bit) o w) n = if n =? o then set else Z.testbit w n.
Proof.
  intros Ho Hn.
  assert (Z.testbit (Z.shiftl 1 o) n = (n =? o)) as Hs.
  { rewrite Z.shiftl_spec //. destruct (Z.eqb_spec n o) as [->|].
    - by rewrite Z.sub_diag.
    - destruct (Z.lt_ge_cases n o); [by rewrite Z.testbit_neg_r; [|lia]|].
      rewrite Z.bits_above_log2 //. simpl. lia. }
  destruct set; rewrite /set_bit /clear_bit ?Z.lor_spec ?Z.ldiff_spec Hs.
  - by destruct (n =? o), (Z.testbit w n).
  - by destruct (n =? o), (Z.testbit w n).
Qed.

(** One group rewritten changes exactly the addressed bit. *)
Lemma db_bit_rewrite bm bm' i (e : list byte) (set : bool) :
  db_wf this -> 0 <= i < db_nr_bit this ->
  da_entry (db_array this) bm (__disk_bitset_group i) = Some e -> length e = 8%nat ->
  (forall g, 0 <= g < da_nr_entry (db_array this) ->
     da_entry (db_array this) bm' g =
       if decide (g = __disk_bitset_group i)
       then Some (cenc c_u64 ((if set then set_bit else clear_bit)
              (__disk_bitset_offset i) (cdec c_u64 e)))
       else da_entry (db_array this) bm g) ->
  forall j, 0 <= j < db_nr_bit this ->
    db_bit this bm' j = if j =? i then set else db_bit this bm j.
Proof.
  intros Hwf Hi He Hel Hent j Hj.
  pose proof (db_offset_range i) as Hoi. pose proof (db_offset_range j) as Hoj.
  rewrite /db_bit Hent; last by apply db_group_range.
  case_decide as Hg; last first.
  { destruct (Z.eqb_spec j i) as [->|]; [by destruct Hg|done]. }
  cbn [from_option default]. rewrite cdec_enc; last first.
  { apply word_op_range; [done|]. pose proof (le_dec_range e) as Hr. by rewrite Hel in Hr. }
  rewrite word_op_spec; [|lia|lia]. rewrite Hg He /=.
  destruct (Z.eqb_spec j i) as [->|Hne]; first by rewrite Z.eqb_refl.
  destruct (Z.eqb_spec (__disk_bitset_offset j) (__disk_bitset_offset i)); [|done].
  destruct Hne. by apply db_group_offset_inj.
Qed.

Lemma disk_bitset_operate_ok bm i (set : bool) :
  db_inv this bm -> 0 <= i < db_nr_bit this ->
  exists bm', __disk_bitset_operate this i set bm = (Ok tt, bm') /\
    db_inv this bm' /\ da_frame (db_array this) bm bm' /\
    db_bits this bm' = <[Z.to_nat i := set]> (db_bits this bm).
Proof.
  intros [Hwf Hda] Hi. pose proof (db_group_range i Hwf Hi) as Hg.
  pose proof Hwf as (_ & _ & Hes & _).
  destruct (da_entry_is_some (db_array this) bm _ Hda Hg) as [e He].
  pose proof (da_entry_length _ _ _ _ Hda Hg He) as Hel. rewrite Hes in Hel.
  destruct (disk_array_set_ok (db_array this) bm _
    (cenc c_u64 ((if set then set_bit else clear_bit) (__disk_bitset_offset i) (cdec c_u64 e)))
    Hda Hg) as (bm' & Hset & Hinv & Hfr & Hent).
  { rewrite Hes. apply length_le_enc. }
  exists bm'. split; [|split; [done|split; [done|]]].
  - rewrite /__disk_bitset_operate. do 2 ztest. simpl.
    by rewrite (se_bind_ok _ _ _ _ _ (disk_array_get_ok _ _ _ _ Hda Hg He)).
  - apply list_eq => k. rewrite list_lookup_insert length_db_bits.
    destruct (decide (k < Z.to_nat (db_nr_bit this))%nat) as [Hk|Hk]; last first.
    { rewrite decide_False; last lia. rewrite !lookup_ge_None_2 // length_db_bits; lia. }
    replace k with (Z.to_nat (Z.of_nat k)) by lia.
    rewrite !db_bits_lookup; [|lia|lia].
    rewrite (db_bit_rewrite bm bm' i e set) //; last lia.
    repeat case_decide; zbool; try lia; done.
Qed.

Lemma disk_bitset_operate_oob bm i set :
  ~ (0 <= i < db_nr_bit this) -> __disk_bitset_operate this i set bm = (Err EINVAL, bm).
Proof. intros. rewrite /__disk_bitset_operate. zbool; simpl; done || lia. Qed.
End disk_bitset_facts.

#[export] Instance disk_bitset_table : BitTable disk_bitset dm_block_manager := {|
  bt_set := disk_bitset_set;
  bt_clear := disk_bitset_clear;
  bt_get := disk_bitset_get;
  bt_format := disk_bitset_format;
  bt_inv := db_inv;
  bt_bits := db_bits;
  bt_frame := fun t s s' => da_frame (db_array t) s s'
|}.

(** The bits depend on the entries of the table alone. *)
Lemma db_bits_same this bm bm' :
  db_wf this ->
  (forall i, 0 <= i < da_nr_entry (db_array this) ->
     da_entry (db_array this) bm' i = da_entry (db_array this) bm i) ->
  db_bits this bm' = db_bits this bm.
Proof.
  intros Hwf Hsame. apply list_fmap_ext => k i Hi. apply lookup_seqZ in Hi as [-> Hk].
  rewrite /db_bit Hsame; [done|]. apply db_group_range; [done|lia].
Qed.

Lemma disk_bitset_format_ok this bm b :
  db_inv this bm ->
  exists bm', disk_bitset_format this b bm = (Ok tt, bm') /\ db_inv this bm' /\
    da_frame (db_array this) bm bm' /\
    db_bits this bm' = replicate (length (db_bits this bm)) b.
Proof.
  intros [Hwf Hda].
  destruct (disk_array_format_ok (db_array this) b bm Hda) as (bm' & Hrun & Hinv & Hfr & Hent).
  exists bm'. split; [done|]. split; [done|]. split; [done|].
  apply list_eq => k. rewrite length_db_bits.
  destruct (decide (k < Z.to_nat (db_nr_bit this))%nat) as [Hk|Hk]; last first.
  { rewrite !lookup_ge_None_2 // ?length_replicate ?length_db_bits; lia. }
  rewrite lookup_replicate_2 //. replace k with (Z.to_nat (Z.of_nat k)) by lia.
  rewrite db_bits_lookup; last lia. f_equal.
  pose proof (db_offset_range (Z.of_nat k)) as Ho.
  rewrite /db_bit Hent; last (apply db_group_range; [done|lia]).
  destruct Hwf as (_ & _ & -> & _). destruct b.
  - by apply (Z.ones_spec_low 64).
  - apply Z.testbit_0_l.
Qed.

#[export] Instance disk_bitset_table_ok : BitTableOk disk_bitset dm_block_manager.
Proof.
  split; simpl.
  - apply disk_bitset_get_ok.
  - intros t s i Hinv. rewrite length_db_bits => Hi. apply disk_bitset_operate_ok; [done|]. lia.
  - intros t s i Hinv. rewrite length_db_bits => Hi. apply disk_bitset_operate_ok; [done|]. lia.
  - intros t s i. rewrite length_db_bits => Hi [[? _] _].
    split; apply disk_bitset_operate_oob; lia.
  - apply disk_bitset_format_ok.
Qed.
