(* ===== verification/Crypto.v ===== *)
(** * The AEAD cipher (source/crypto.c)

    [aes_gcm_cipher] wraps the kernel's gcm(aes) transform.  The transform is
    kernel code outside this repository, so it is the interface [Gcm]; the
    wrapper (how a request is laid out: associated data is the 8-byte sequence
    number followed by the IV, the tag sits behind the payload, what is
    returned on each failure) is modelled from the source. *)
From S2P Require Import Prelude Codec.

Definition AES_GCM_KEY_SIZE : nat := 16.
Definition AES_GCM_IV_SIZE : nat := 12.
Definition AES_GCM_AUTH_SIZE : nat := 16.

(** The authenticated cipher of the kernel: [gcm_encrypt key iv ad data]
    returns the ciphertext and the tag, [gcm_decrypt key iv ad data tag] the
    plaintext, or [None] for [-EBADMSG]. *)
Class Gcm : Type := {
  gcm_encrypt : list byte -> list byte -> list byte -> list byte -> list byte * list byte;
  gcm_decrypt : list byte -> list byte -> list byte -> list byte -> list byte -> option (list byte)
}.

(** Its documented behaviour: decryption inverts encryption under the same
    key, IV and associated data; the ciphertext is as long as the plaintext
    and the tag has 16 bytes. *)
Class GcmOk `{Gcm} : Prop := {
  gcm_dec_enc key iv ad data :
    let '(ct, tag) := gcm_encrypt key iv ad data in
    gcm_decrypt key iv ad ct tag = Some data;
  gcm_enc_length key iv ad data : length (gcm_encrypt key iv ad data).1 = length data;
  gcm_tag_length key iv ad data : length (gcm_encrypt key iv ad data).2 = AES_GCM_AUTH_SIZE
}.

(** Integrity, the other half of authenticated encryption, stated for the
    clients that need it: a decryption that succeeds was produced by the
    encryption of its result. *)
Class GcmAuth `{Gcm} : Prop :=
  gcm_auth key iv ad ct tag data :
    gcm_decrypt key iv ad ct tag = Some data -> gcm_encrypt key iv ad data = (ct, tag).

(** The kernel's random pool: the bytes the [n]-th request for [len] bytes gets. *)
Class Rng : Type := rng_bytes : nat -> nat -> list byte.
Class RngOk `{Rng} : Prop := rng_bytes_length n len : length (rng_bytes n len) = len.

(** ** Life cycle *)

(** The handle of the kernel's transform, as far as the wrapper asks it. *)
Record crypto_aead : Type := { tfm_blocksize : nat; tfm_authsize : nat; tfm_ivsize : nat }.
Record aes_gcm_cipher : Type := {
  gc_tfm : crypto_aead;
  gc_key_size : nat;
  gc_block_size : nat;
  gc_auth_size : nat;
  gc_iv_size : nat
}.
(** What gcm(aes) reports. *)
Definition gcm_aes_tfm : crypto_aead :=
  {| tfm_blocksize := 1; tfm_authsize := AES_GCM_AUTH_SIZE; tfm_ivsize := AES_GCM_IV_SIZE |}.

(** [tfm] is what [crypto_alloc_aead] returned. *)
Definition aes_gcm_cipher_init (tfm : result crypto_aead) : result aes_gcm_cipher :=
  match tfm with
  | Err _ => Err ENOMEM
  | Ok tfm =>
      Ok {| gc_tfm := tfm; gc_key_size := AES_GCM_KEY_SIZE; gc_block_size := tfm_blocksize tfm;
            gc_auth_size := tfm_authsize tfm; gc_iv_size := tfm_ivsize tfm |}
  end.
Definition aes_gcm_cipher_create (kmalloc_ok : bool) (tfm : result crypto_aead) : option aes_gcm_cipher :=
  if kmalloc_ok then match aes_gcm_cipher_init tfm with Ok this => Some this | Err _ => None end else None.

(** A buffer one byte longer than asked for, with a zero behind the random bytes. *)
Definition __get_random_bytes `{Rng} (kzalloc_ok : bool) (n len : nat) : result (list byte) :=
  if kzalloc_ok then Ok (splice 0 (rng_bytes n len) (replicate (len + 1) Byte.x00)) else Err ENOMEM.
Definition aes_gcm_get_random_key `{Rng} (kzalloc_ok : bool) (n key_len : nat) : result (list byte) := __get_random_bytes kzalloc_ok n key_len.
Definition aes_gcm_get_random_iv `{Rng} (kzalloc_ok : bool) (n iv_len : nat) : result (list byte) := __get_random_bytes kzalloc_ok n iv_len.

Section cipher.
Context `{Gcm}.

(** What can go wrong before the transform runs: the interruptible mutex,
    the request allocation and the key schedule.  Each is an outcome of the
    environment, so it is an argument. *)
Record crypt_env : Type := {
  lock_err : Z;          (* mutex_lock_interruptible *)
  req_ok : bool;         (* aead_request_alloc succeeded *)
  setkey_err : Z         (* crypto_aead_setkey *)
}.
Definition crypt_env_ok : crypt_env := {| lock_err := 0; req_ok := true; setkey_err := 0 |}.

(** sg[0] || sg[1]: the associated data. *)
Definition aead_ad (this : aes_gcm_cipher) (seq : Z) (iv : list byte) : list byte := le_enc 8 seq ++ take (gc_iv_size this) iv.

(** Returns the code, and the contents of [out] and [mac] after the call.
    When the lock is interrupted the code is that error; when no request can
    be allocated [r] still holds the 0 of the lock call, and that is what is
    returned, with nothing encrypted. *)
Definition aes_gcm_cipher_encrypt (this : aes_gcm_cipher) (env : crypt_env) (data key iv mac : list byte) (seq : Z)
    (out : list byte) : Z * (list byte * list byte) :=
  if negb (lock_err env =? 0) then (lock_err env, (out, mac))
  else if negb (req_ok env) then (0, (out, mac))
  else if negb (setkey_err env =? 0) then (setkey_err env, (out, mac))
  else (0, gcm_encrypt (take (gc_key_size this) key) (take (gc_iv_size this) iv) (aead_ad this seq iv) data).

Definition aes_gcm_cipher_decrypt (this : aes_gcm_cipher) (env : crypt_env) (data key iv mac : list byte) (seq : Z)
    (out : list byte) : Z * list byte :=
  if negb (lock_err env =? 0) then (lock_err env, out)
  else if negb (req_ok env) then (0, out)
  else if negb (setkey_err env =? 0) then (setkey_err env, out)
  else
    match gcm_decrypt (take (gc_key_size this) key) (take (gc_iv_size this) iv) (aead_ad this seq iv) data
            (take (gc_auth_size this) mac) with
    | Some pt => (0, pt)
    | None => (- EBADMSG, out)
    end.

(** The cipher as the rest of the program calls it: the one [aes_gcm_cipher_create]
    makes of gcm(aes), in the environment where the lock, the allocation and
    the key schedule succeed. *)
Definition gcm_aes : aes_gcm_cipher :=
  {| gc_tfm := gcm_aes_tfm; gc_key_size := AES_GCM_KEY_SIZE; gc_block_size := 1; gc_auth_size := AES_GCM_AUTH_SIZE; gc_iv_size := AES_GCM_IV_SIZE |}.
Lemma gcm_aes_created : aes_gcm_cipher_create true (Ok gcm_aes_tfm) = Some gcm_aes.
Proof. done. Qed.
Definition encrypt (data key iv : list byte) (seq : Z) : list byte * list byte :=
  (aes_gcm_cipher_encrypt gcm_aes crypt_env_ok data key iv [] seq []).2.

Definition decrypt (data key iv mac : list byte) (seq : Z) : result (list byte) :=
  match aes_gcm_cipher_decrypt gcm_aes crypt_env_ok data key iv mac seq [] with
  | (0, pt) => Ok pt
  | (r, _) => Err (- r)
  end.

Lemma encrypt_gcm data key iv seq :
  encrypt data key iv seq =
    gcm_encrypt (take AES_GCM_KEY_SIZE key) (take AES_GCM_IV_SIZE iv) (aead_ad gcm_aes seq iv) data.
Proof. done. Qed.

Lemma decrypt_gcm data key iv mac seq :
  decrypt data key iv mac seq =
    match gcm_decrypt (take AES_GCM_KEY_SIZE key) (take AES_GCM_IV_SIZE iv) (aead_ad gcm_aes seq iv) data
            (take AES_GCM_AUTH_SIZE mac) with
    | Some pt => Ok pt | None => Err EBADMSG
    end.
Proof. rewrite /decrypt /aes_gcm_cipher_decrypt /=. by destruct (gcm_decrypt _ _ _ _ _). Qed.

Context `{!GcmOk}.

Lemma length_encrypt data key iv seq : length (encrypt data key iv seq).1 = length data.
Proof. apply gcm_enc_length. Qed.

Lemma length_encrypt_mac data key iv seq :
  length (encrypt data key iv seq).2 = AES_GCM_AUTH_SIZE.
Proof. apply gcm_tag_length. Qed.

Lemma decrypt_encrypt data key iv seq ct mac :
  encrypt data key iv seq = (ct, mac) -> decrypt ct key iv mac seq = Ok data.
Proof.
  intros E. pose proof (length_encrypt_mac data key iv seq) as Hl. rewrite E /= in Hl.
  rewrite encrypt_gcm in E. rewrite decrypt_gcm.
  pose proof (gcm_dec_enc (take AES_GCM_KEY_SIZE key) (take AES_GCM_IV_SIZE iv) (aead_ad gcm_aes seq iv) data) as Hd.
  rewrite E in Hd. rewrite (take_ge mac); last lia. by rewrite Hd.
Qed.

Lemma decrypt_auth `{!GcmAuth} ct key iv mac seq data :
  length mac = AES_GCM_AUTH_SIZE ->
  decrypt ct key iv mac seq = Ok data -> encrypt data key iv seq = (ct, mac).
Proof.
  intros Hl Hd. rewrite decrypt_gcm in Hd. rewrite (take_ge mac) in Hd; last lia.
  destruct (gcm_decrypt _ _ _ _ _) as [pt|] eqn:E; [|done]. injection Hd as ->.
  rewrite encrypt_gcm. by apply gcm_auth.
Qed.

Lemma length_decrypt `{!GcmAuth} ct key iv mac seq data :
  length mac = AES_GCM_AUTH_SIZE -> decrypt ct key iv mac seq = Ok data -> length data = length ct.
Proof.
  intros Hl Hd. apply decrypt_auth in Hd; [|done].
  by rewrite -(length_encrypt data key iv seq) Hd.
Qed.
End cipher.

(** ** A concrete transform, for evaluation

    A byte-wise additive stream with a tag that depends on every input: not
    secure, but an instance of the interface, which shows that its laws can be
    met and lets definitions over it be evaluated. *)
Module ToyGcm.
Definition sum (l : list byte) : Z := foldr (fun b a => byte_Z b + 31 * a) 7 l.
Definition pad (key iv : list byte) : Z := sum key + 3 * sum iv.
Definition shift (k : Z) (l : list byte) : list byte := (fun b => Z_byte (byte_Z b + k)) <$> l.
Definition tag (key iv ad data : list byte) : list byte :=
  le_enc 16 (sum key + 5 * sum iv + 7 * sum ad + 11 * sum data).

Definition enc (key iv ad data : list byte) : list byte * list byte :=
  (shift (pad key iv) data, tag key iv ad data).
Definition dec (key iv ad ct t : list byte) : option (list byte) :=
  let data := shift (- pad key iv) ct in
  if bool_decide (tag key iv ad data = t) then Some data else None.

#[export] Instance gcm : Gcm := {| gcm_encrypt := enc; gcm_decrypt := dec |}.

Lemma shift_shift k l : shift (- k) (shift k l) = l.
Proof.
  rewrite /shift -list_fmap_compose -{2}(list_fmap_id l). apply list_fmap_ext => i b _ /=.
  rewrite byte_Z_byte -Z_byte_mod Zplus_mod_idemp_l.
  rewrite (_ : byte_Z b + k + - k = byte_Z b); last lia. by rewrite Z_byte_mod Z_byte_Z.
Qed.

#[export] Instance gcm_ok : GcmOk.
Proof.
  split; intros; simpl.
  - rewrite /dec shift_shift. by rewrite bool_decide_eq_true_2.
  - by rewrite /shift length_fmap.
  - done.
Qed.

#[export] Instance gcm_auth_ok : GcmAuth.
Proof.
  intros key iv ad ct t data. simpl. rewrite /dec /enc. case_bool_decide as Ht; [|done].
  intros [= <-]. rewrite Ht. f_equal.
  rewrite -{2}(shift_shift (- pad key iv) ct). by rewrite Z.opp_involutive.
Qed.
End ToyGcm.
