(* ===== verification/BitNode.v ===== *)
(** * Records and nodes of a block index table (include/lsm_tree.h, lsm_tree.c)

    A block index table (BIT) file is a tree of encrypted nodes.  This file
    has the packed structures, their byte layout, the encryption of a node
    and the arithmetic that sizes a table. *)
From S2P Require Import Prelude Codec Crypto.

Definition DEFAULT_BIT_DEGREE : Z := 4.
Definition BIT_LEAF_LEN : Z := Z.shiftl DEFAULT_BIT_DEGREE 1.
Definition DEFAULT_LSM_FILE_CAPACITY : Z := 1048576.
Definition DEFAULT_LSM_LEVEL0_NR_FILE : Z := 4.
Definition DEFAULT_LSM_TREE_NR_DISK_LEVEL : Z := 2.
Definition BIT_BLOOM_FILTER_SIZE : Z := Z.shiftl DEFAULT_LSM_FILE_CAPACITY 1.

(** ** struct record: lba => (pba, key, iv, mac) *)
Record record : Type := {
  pba : Z;
  mac : list byte;
  key : list byte;
  iv : list byte
}.

#[export] Instance record_eq_dec : EqDecision record.
Proof. solve_decision. Defined.

Definition record_codec : codec record :=
  c_iso (c_pair c_u64 (c_pair (c_raw AES_GCM_AUTH_SIZE)
          (c_pair (c_raw AES_GCM_KEY_SIZE) (c_raw AES_GCM_IV_SIZE))))
    (fun r => (pba r, (mac r, (key r, iv r))))
    (fun t => {| pba := t.1; mac := t.2.1; key := t.2.2.1; iv := t.2.2.2 |}).

#[export] Instance record_codec_ok : CodecOk record_codec.
Proof. apply c_iso_ok; [apply _|by intros []]. Qed.

(** ** struct bit_pointer *)
Record bit_pointer : Type := {
  bp_pos : Z;
  bp_key : list byte;
  bp_iv : list byte
}.

Definition bit_pointer_codec : codec bit_pointer :=
  c_iso (c_pair c_u64 (c_pair (c_raw AES_GCM_KEY_SIZE) (c_raw AES_GCM_IV_SIZE)))
    (fun p => (bp_pos p, (bp_key p, bp_iv p)))
    (fun t => {| bp_pos := t.1; bp_key := t.2.1; bp_iv := t.2.2 |}).

#[export] Instance bit_pointer_codec_ok : CodecOk bit_pointer_codec.
Proof. apply c_iso_ok; [apply _|by intros []]. Qed.

(** ** struct bit_child *)
Record bit_child : Type := {
  bc_is_leaf : bool;
  bc_key : Z;
  bc_pointer : bit_pointer
}.

Definition bit_child_codec : codec bit_child :=
  c_iso (c_pair c_bit (c_pair c_u32 bit_pointer_codec))
    (fun c => (bc_is_leaf c, (bc_key c, bc_pointer c)))
    (fun t => {| bc_is_leaf := t.1; bc_key := t.2.1; bc_pointer := t.2.2 |}).

#[export] Instance bit_child_codec_ok : CodecOk bit_child_codec.
Proof. apply c_iso_ok; [apply _|by intros []]. Qed.

(** ** struct bit_leaf *)
Record bit_leaf : Type := {
  bl_nr_record : Z;
  bl_keys : list Z;
  bl_records : list record;
  bl_next : bit_pointer
}.

Definition bit_leaf_codec : codec bit_leaf :=
  c_iso (c_pair c_u64 (c_pair (c_array (Z.to_nat BIT_LEAF_LEN) c_u32)
          (c_pair (c_array (Z.to_nat BIT_LEAF_LEN) record_codec) bit_pointer_codec)))
    (fun l => (bl_nr_record l, (bl_keys l, (bl_records l, bl_next l))))
    (fun t => {| bl_nr_record := t.1; bl_keys := t.2.1; bl_records := t.2.2.1; bl_next := t.2.2.2 |}).

#[export] Instance bit_leaf_codec_ok : CodecOk bit_leaf_codec.
Proof. apply c_iso_ok; [apply _|by intros []]. Qed.

(** ** struct bit_inner *)
Record bit_inner : Type := {
  bi_nr_child : Z;
  bi_children : list bit_child
}.

Definition bit_inner_codec : codec bit_inner :=
  c_iso (c_pair c_u64 (c_array (Z.to_nat DEFAULT_BIT_DEGREE) bit_child_codec))
    (fun i => (bi_nr_child i, bi_children i))
    (fun t => {| bi_nr_child := t.1; bi_children := t.2 |}).

#[export] Instance bit_inner_codec_ok : CodecOk bit_inner_codec.
Proof. apply c_iso_ok; [apply _|by intros []]. Qed.

(** ** struct bit_node: the [is_leaf] bit and the union it selects *)
Inductive bit_node : Type :=
| BitLeaf (leaf : bit_leaf)
| BitInner (inner : bit_inner).

Definition bn_is_leaf (n : bit_node) : bool :=
  match n with BitLeaf _ => true | BitInner _ => false end.

(** The bytes in front of the tag, for each kind of node. *)
Definition leaf_body : codec (bool * bit_leaf) := c_pair c_bit bit_leaf_codec.
Definition inner_body : codec (bool * bit_inner) := c_pair c_bit bit_inner_codec.

Definition BIT_LEAF_NODE_SIZE : Z := Z.of_nat (csize leaf_body + AES_GCM_AUTH_SIZE).
Definition BIT_INNER_NODE_SIZE : Z := Z.of_nat (csize inner_body + AES_GCM_AUTH_SIZE).
(** [sizeof(struct bit_node)]: the union takes the larger of the two. *)
Definition BIT_NODE_SIZE : Z := Z.max BIT_LEAF_NODE_SIZE BIT_INNER_NODE_SIZE.

Lemma bit_sizes :
  BIT_LEAF_NODE_SIZE = 509 /\ BIT_INNER_NODE_SIZE = 189 /\ BIT_NODE_SIZE = 509 /\
  csize record_codec = 52%nat.
Proof. by vm_compute. Qed.

Definition bit_node_body (n : bit_node) : list byte :=
  match n with
  | BitLeaf l => cenc leaf_body (true, l)
  | BitInner i => cenc inner_body (false, i)
  end.

Definition bit_node_wf (n : bit_node) : Prop :=
  match n with
  | BitLeaf l => cwf bit_leaf_codec l
  | BitInner i => cwf bit_inner_codec i
  end.

Definition bit_node_size (n : bit_node) : Z :=
  if bn_is_leaf n then BIT_LEAF_NODE_SIZE else BIT_INNER_NODE_SIZE.

Section node_crypt.
Context `{Gcm}.

(** [bit_node_encode]: encrypt in place, tag right behind the body. *)
Definition bit_node_encode (n : bit_node) (k v : list byte) : list byte :=
  let '(ct, mac) := encrypt (bit_node_body n) k v 0 in ct ++ mac.

(** [bit_node_decode]: whether the node is a leaf is what the parent said. *)
Definition bit_node_decode (data : list byte) (is_leaf : bool) (k v : list byte)
    : result bit_node :=
  let len := Z.to_nat ((if is_leaf then BIT_LEAF_NODE_SIZE else BIT_INNER_NODE_SIZE)
               - Z.of_nat AES_GCM_AUTH_SIZE) in
  match decrypt (take len data) k v (slice len AES_GCM_AUTH_SIZE data) 0 with
  | Err e => Err e
  | Ok body => Ok (if is_leaf then BitLeaf (cdec leaf_body body).2
                   else BitInner (cdec inner_body body).2)
  end.

Context `{!GcmOk}.

Lemma length_bit_node_body n :
  bit_node_wf n -> Z.of_nat (length (bit_node_body n)) = bit_node_size n - Z.of_nat AES_GCM_AUTH_SIZE.
Proof.
  intros Hwf. destruct n as [l|i]; rewrite /bit_node_body /bit_node_size; cbn [bn_is_leaf].
  - rewrite (cenc_length (c := leaf_body) (true, l)); [|done].
    rewrite /BIT_LEAF_NODE_SIZE. lia.
  - rewrite (cenc_length (c := inner_body) (false, i)); [|done].
    rewrite /BIT_INNER_NODE_SIZE. lia.
Qed.

Lemma length_bit_node_encode n k v :
  bit_node_wf n -> Z.of_nat (length (bit_node_encode n k v)) = bit_node_size n.
Proof.
  intros Hwf. rewrite /bit_node_encode.
  pose proof (length_encrypt (bit_node_body n) k v 0) as H1.
  pose proof (length_encrypt_mac (bit_node_body n) k v 0) as H2.
  destruct (encrypt _ _ _ _) as [ct m]. simpl in *.
  pose proof (length_bit_node_body n Hwf). rewrite length_app. lia.
Qed.

(** Decoding a buffer that starts with an encoded node gives the node back,
    whatever follows it. *)
Lemma bit_node_decode_encode n k v rest :
  bit_node_wf n -> bit_node_decode (bit_node_encode n k v ++ rest) (bn_is_leaf n) k v = Ok n.
Proof.
  intros Hwf. rewrite /bit_node_decode /bit_node_encode.
  pose proof (length_encrypt (bit_node_body n) k v 0) as H1.
  pose proof (length_encrypt_mac (bit_node_body n) k v 0) as H2.
  pose proof (length_bit_node_body n Hwf) as H3.
  destruct (encrypt _ _ _ _) as [ct m] eqn:E. cbn [fst snd] in *.
  change (if bn_is_leaf n then BIT_LEAF_NODE_SIZE else BIT_INNER_NODE_SIZE) with (bit_node_size n).
  rewrite -H3 Nat2Z.id -H1 -(app_assoc ct) take_app_length.
  rewrite /slice drop_app_length -H2 take_app_length.
  rewrite (decrypt_encrypt _ _ _ _ _ _ E).
  destruct n as [l|i]; rewrite /bit_node_body; cbn [bn_is_leaf]; do 2 f_equal.
  - by rewrite (cdec_enc (c := leaf_body) (true, l)).
  - by rewrite (cdec_enc (c := inner_body) (false, i)).
Qed.
End node_crypt.

(** ** Table sizes *)

(** Number of leaves for [nr_record] records ([div_u64_rem] and the rounding). *)
Definition bit_nr_leaf (nr_record : Z) : Z :=
  nr_record / BIT_LEAF_LEN + (if nr_record mod BIT_LEAF_LEN =? 0 then 0 else 1).

(** [while (size < nr_leaf)]: 64 rounds are enough for any 64-bit count. *)
Fixpoint bit_height_loop (fuel : nat) (height size nr_leaf nr_degree : Z) : Z :=
  match fuel with
  | O => height
  | S fuel =>
      if size <? nr_leaf
      then bit_height_loop fuel (height + 1) (size * nr_degree) nr_leaf nr_degree
      else height
  end.

Definition __bit_height (nr_record nr_degree : Z) : Z :=
  if nr_record =? 0 then 0
  else bit_height_loop 64 1 1 (bit_nr_leaf nr_record) nr_degree.

Fixpoint bit_array_loop (fuel : nat) (len size nr_leaf nr_degree : Z) : Z :=
  match fuel with
  | O => len
  | S fuel =>
      if size <? nr_leaf
      then bit_array_loop fuel (len + size) (size * nr_degree) nr_leaf nr_degree
      else len
  end.

Definition __bit_array_len (nr_record nr_degree : Z) : Z :=
  if nr_record =? 0 then 0
  else bit_array_loop 64 0 1 (bit_nr_leaf nr_record) nr_degree + bit_nr_leaf nr_record.

Definition calculate_bit_size (nr_record nr_degree : Z) : Z :=
  if nr_record =? 0 then 0
  else
    let nr_leaf := bit_nr_leaf nr_record in
    (__bit_array_len nr_record nr_degree - nr_leaf) * BIT_INNER_NODE_SIZE
    + nr_leaf * BIT_LEAF_NODE_SIZE + BIT_BLOOM_FILTER_SIZE.

Lemma bit_nr_leaf_bounds n :
  0 < n -> 1 <= bit_nr_leaf n /\ (bit_nr_leaf n - 1) * BIT_LEAF_LEN < n <= bit_nr_leaf n * BIT_LEAF_LEN.
Proof.
  intros Hn. rewrite /bit_nr_leaf. change BIT_LEAF_LEN with 8.
  pose proof (Z.div_mod n 8 ltac:(lia)). pose proof (Z.mod_pos_bound n 8 ltac:(lia)).
  zbool; lia.
Qed.

Lemma bit_height_loop_spec fuel h L d :
  2 <= d -> 1 <= h -> L <= d ^ (h - 1 + Z.of_nat fuel) -> (h = 1 \/ d ^ (h - 2) < L) ->
  let r := bit_height_loop fuel h (d ^ (h - 1)) L d in
  h <= r /\ L <= d ^ (r - 1) /\ (r = 1 \/ d ^ (r - 2) < L).
Proof.
  intros Hd. revert h. induction fuel as [|fuel IH] => h Hh Hf Hlow /=.
  { rewrite Z.add_0_r in Hf. split_and!; [lia|done|done]. }
  destruct (Z.ltb_spec (d ^ (h - 1)) L) as [Hlt|Hge]; [|by split_and!].
  rewrite (_ : d ^ (h - 1) * d = d ^ (h + 1 - 1)); last first.
  { replace (h + 1 - 1) with (Z.succ (h - 1)) by lia. rewrite Z.pow_succ_r; lia. }
  destruct (IH (h + 1)) as (? & ? & ?).
  - lia.
  - replace (h + 1 - 1 + Z.of_nat fuel) with (h - 1 + Z.of_nat (S fuel)) by lia. done.
  - right. by replace (h + 1 - 2) with (h - 1) by lia.
  - split_and!; [lia|done|done].
Qed.

Lemma bit_array_loop_spec fuel k L d :
  2 <= d -> 0 <= k -> L <= d ^ (k + Z.of_nat fuel) ->
  exists r, k <= r /\ L <= d ^ r /\ (r = k \/ d ^ (r - 1) < L) /\
    forall a, (d - 1) * bit_array_loop fuel a (d ^ k) L d = (d - 1) * a + d ^ r - d ^ k.
Proof.
  intros Hd. revert k. induction fuel as [|fuel IH] => k Hk Hf /=.
  { exists k. rewrite Z.add_0_r in Hf. split_and!; [lia|done|by left|]. intros a. lia. }
  destruct (Z.ltb_spec (d ^ k) L) as [Hlt|Hge]; last first.
  { exists k. split_and!; [lia|done|by left|]. intros a. lia. }
  rewrite (_ : d ^ k * d = d ^ (k + 1)); last by rewrite Z.pow_add_r; lia.
  destruct (IH (k + 1)) as (r & Hr & HL & Hlow & Ha); [lia| |].
  { by replace (k + 1 + Z.of_nat fuel) with (k + Z.of_nat (S fuel)) by lia. }
  exists r. split_and!; [lia|done| |].
  - right. destruct Hlow as [->|]; [|done]. by replace (k + 1 - 1) with k by lia.
  - intros a. rewrite Ha. rewrite Z.pow_add_r; [|lia|lia]. lia.
Qed.
