(* ===== verification/Superblock.v ===== *)
(** * Superblock and layout of the metadata device (source/metadata.c)

    The superblock fixes where each metadata table lives.  This file has its
    byte layout, its I/O, its validation, and the arithmetic that places the
    regions when a fresh device is formatted. *)
From S2P Require Import Prelude Codec BlockManager DiskStructs BitNode.
Local Open Scope se_scope.

Definition SUPERBLOCK_LOCATION : Z := 0.
Definition SUPERBLOCK_MAGIC : Z := 0x22946.
Definition SUPERBLOCK_CSUM_XOR : Z := 0x3828.
Definition LSM_TREE_DISK_LEVEL_COMMON_RATIO : Z := 10.
Definition SECTORS_PER_BLOCK : Z := 8.
Definition BLOCKS_PER_SEGMENT : Z := 1024.
Definition SECTOES_PER_SEGMENT : Z := SECTORS_PER_BLOCK * BLOCKS_PER_SEGMENT.
Definition SECTOR_SIZE : Z := 512.
Definition DATA_BLOCK_SIZE : Z := SECTORS_PER_BLOCK * SECTOR_SIZE.

Record superblock : Type := {
  csum : Z;
  magic : Z;
  blocks_per_seg : Z;
  nr_segment : Z;
  common_ratio : Z;
  nr_disk_level : Z;
  max_disk_level_capacity : Z;
  index_region_start : Z;
  journal_size : Z;
  nr_journal : Z;
  journal_region_start : Z;
  seg_validity_table_start : Z;
  data_seg_table_start : Z;
  reverse_index_table_start : Z;
  block_index_table_catalogue_start : Z
}.

(** The fields from [magic] on: [SUPERBLOCK_ON_DISK_SIZE] bytes. *)
Definition superblock_tail : codec superblock :=
  c_iso
    (c_pair c_u64 (c_pair c_u32 (c_pair c_u64 (c_pair c_u32 (c_pair c_u32 (c_pair c_u64
    (c_pair c_u64 (c_pair c_u32 (c_pair c_u64 (c_pair c_u64 (c_pair c_u64 (c_pair c_u64
    (c_pair c_u64 c_u64)))))))))))))
    (fun s => (magic s, (blocks_per_seg s, (nr_segment s, (common_ratio s, (nr_disk_level s,
      (max_disk_level_capacity s, (index_region_start s, (journal_size s, (nr_journal s,
      (journal_region_start s, (seg_validity_table_start s, (data_seg_table_start s,
      (reverse_index_table_start s, block_index_table_catalogue_start s))))))))))))))
    (fun '(a, (b, (c, (d, (e, (f, (g, (h, (i, (j, (k, (l, (m, n))))))))))))) =>
      {| csum := 0; magic := a; blocks_per_seg := b; nr_segment := c; common_ratio := d;
         nr_disk_level := e; max_disk_level_capacity := f; index_region_start := g;
         journal_size := h; nr_journal := i; journal_region_start := j;
         seg_validity_table_start := k; data_seg_table_start := l;
         reverse_index_table_start := m; block_index_table_catalogue_start := n |}).

Definition sb_with_csum (c : Z) (s : superblock) : superblock :=
  {| csum := c; magic := magic s; blocks_per_seg := blocks_per_seg s;
     nr_segment := nr_segment s; common_ratio := common_ratio s;
     nr_disk_level := nr_disk_level s; max_disk_level_capacity := max_disk_level_capacity s;
     index_region_start := index_region_start s; journal_size := journal_size s;
     nr_journal := nr_journal s; journal_region_start := journal_region_start s;
     seg_validity_table_start := seg_validity_table_start s;
     data_seg_table_start := data_seg_table_start s;
     reverse_index_table_start := reverse_index_table_start s;
     block_index_table_catalogue_start := block_index_table_catalogue_start s |}.

Definition superblock_codec : codec superblock :=
  c_iso (c_pair c_u32 superblock_tail)
    (fun s => (csum s, sb_with_csum 0 s)) (fun t => sb_with_csum t.1 t.2).

Lemma superblock_tail_dec_enc s :
  cwf superblock_tail s -> cdec superblock_tail (cenc superblock_tail s) = sb_with_csum 0 s.
Proof.
  intros Hwf. rewrite /superblock_tail /c_iso. cbn [cdec cenc].
  rewrite cdec_enc; [done|]. exact Hwf.
Qed.

#[export] Instance superblock_codec_ok : CodecOk superblock_codec.
Proof.
  split; intros s [Hc Ht].
  - rewrite /superblock_codec /c_iso. cbn [cenc csize c_pair fst snd].
    rewrite length_app cenc_length; [|done]. rewrite /superblock_tail /c_iso. cbn [cenc csize].
    rewrite cenc_length; [done|]. exact Ht.
  - rewrite /superblock_codec /c_iso. cbn [cenc cdec c_pair fst snd csize].
    rewrite -{1}(cenc_length (c := c_u32) (csum s) Hc) take_app_length.
    rewrite -(cenc_length (c := c_u32) (csum s) Hc) drop_app_length.
    rewrite cdec_enc // superblock_tail_dec_enc //. by destruct s.
Qed.

Definition SUPERBLOCK_ON_DISK_SIZE : nat := csize superblock_tail.

Lemma superblock_sizes : SUPERBLOCK_ON_DISK_SIZE = 96%nat /\ csize superblock_codec = 100%nat.
Proof. done. Qed.

(** ** I/O *)
Section superblock_io.
(** The kernel's [crc32c]. *)
Context (crc32c : Z -> list byte -> Z).

Definition superblock_csum (this : superblock) : Z :=
  dm_bm_checksum crc32c (cenc superblock_tail this) SUPERBLOCK_CSUM_XOR.

Definition superblock_read : SE dm_block_manager superblock :=
  block <- se_map_err (fun _ => ENODATA) (dm_bm_read_lock SUPERBLOCK_LOCATION None) ;;
  data <- dm_block_data block ;;
  dm_bm_unlock block ;;;
  se_ret (cdec superblock_codec (take (csize superblock_codec) data)).

Definition superblock_write (this : superblock) : SE dm_block_manager unit :=
  block <- se_map_err (fun _ => EAGAIN) (dm_bm_write_lock SUPERBLOCK_LOCATION None) ;;
  data <- dm_block_data block ;;
  dm_block_store block
    (splice 0 (cenc superblock_codec (sb_with_csum (superblock_csum this) this)) data) ;;;
  dm_bm_unlock block ;;;
  dm_bm_flush.

Definition superblock_validate (this : superblock) : bool :=
  if negb (magic this =? SUPERBLOCK_MAGIC) then false
  else superblock_csum this =? csum this.
End superblock_io.

(** ** Layout arithmetic *)
Definition __bytes_to_block (bytes block_size : Z) : Z :=
  if bytes =? 0 then 0 else (bytes - 1) / block_size + 1.

(** [for (i = 1; i < nr_disk_level; ++i)], [n] rounds. *)
Fixpoint total_bit_loop (n : nat) (total capacity common_ratio : Z) : Z :=
  match n with
  | O => total
  | S n =>
      total_bit_loop n
        (total + (if capacity =? 0 then 0 else (capacity - 1) / DEFAULT_LSM_FILE_CAPACITY + 1))
        (capacity / common_ratio) common_ratio
  end.

Definition __total_bit (nr_disk_level common_ratio max_disk_level_capacity : Z) : Z :=
  total_bit_loop (Z.to_nat (nr_disk_level - 1)) 0 max_disk_level_capacity common_ratio
  + DEFAULT_LSM_LEVEL0_NR_FILE.

Definition __extra_bit (max_disk_level_capacity : Z) : Z :=
  __total_bit 2 LSM_TREE_DISK_LEVEL_COMMON_RATIO max_disk_level_capacity.

Definition __index_region_blocks (nr_disk_level common_ratio max_disk_level_capacity : Z) : Z :=
  let total_bit := __total_bit nr_disk_level common_ratio max_disk_level_capacity in
  let extra_bit := __extra_bit max_disk_level_capacity in
  __bytes_to_block
    ((total_bit + extra_bit) * calculate_bit_size DEFAULT_LSM_FILE_CAPACITY DEFAULT_BIT_DEGREE)
    SWORNDISK_METADATA_BLOCK_SIZE.

Definition __journal_region_blocks (nr_journal journal_size : Z) : Z :=
  __disk_array_blocks nr_journal journal_size SWORNDISK_METADATA_BLOCK_SIZE.

Definition __seg_validity_table_blocks (nr_segment : Z) : Z :=
  if nr_segment =? 0 then 0
  else (((nr_segment - 1) / BITS_PER_LONG + 1) * 8 - 1) / SWORNDISK_METADATA_BLOCK_SIZE + 1.

(** [sizeof(struct dst_entry)]: a counter and a 1024-bit map. *)
Definition DST_ENTRY_SIZE : Z := 8 + BLOCKS_PER_SEGMENT / 8.

Definition __data_seg_table_blocks (nr_segment : Z) : Z :=
  __disk_array_blocks nr_segment DST_ENTRY_SIZE SWORNDISK_METADATA_BLOCK_SIZE.

Definition __reverse_index_table_blocks (nr_segment blocks_per_seg : Z) : Z :=
  __disk_array_blocks (nr_segment * blocks_per_seg) 8 SWORNDISK_METADATA_BLOCK_SIZE.

(** [STRUCTURE_BLOCKS(struct superblock)]: the struct, five pointers included,
    fits one block. *)
Definition STRUCTURE_BLOCKS (size : Z) : Z :=
  if size =? 0 then 0 else (size - 1) / SWORNDISK_METADATA_BLOCK_SIZE + 1.
Definition SUPERBLOCK_STRUCT_SIZE : Z := Z.of_nat (csize superblock_codec) + 5 * 8.

(** The fields [superblock_init] assigns on a device of [NR_SEGMENT] segments. *)
Definition superblock_defaults (NR_SEGMENT : Z) (csum0 : Z) : superblock :=
  let max_cap := NR_SEGMENT * BLOCKS_PER_SEGMENT in
  let index_start := SUPERBLOCK_LOCATION + STRUCTURE_BLOCKS SUPERBLOCK_STRUCT_SIZE in
  let journal_start := index_start +
    __index_region_blocks DEFAULT_LSM_TREE_NR_DISK_LEVEL LSM_TREE_DISK_LEVEL_COMMON_RATIO max_cap in
  let svt_start := journal_start + __journal_region_blocks 0 0 in
  let dst_start := svt_start + __seg_validity_table_blocks NR_SEGMENT in
  let rit_start := dst_start + __data_seg_table_blocks NR_SEGMENT in
  let bitc_start := rit_start + __reverse_index_table_blocks NR_SEGMENT BLOCKS_PER_SEGMENT in
  {| csum := csum0; magic := SUPERBLOCK_MAGIC; blocks_per_seg := BLOCKS_PER_SEGMENT;
     nr_segment := NR_SEGMENT; common_ratio := LSM_TREE_DISK_LEVEL_COMMON_RATIO;
     nr_disk_level := DEFAULT_LSM_TREE_NR_DISK_LEVEL; max_disk_level_capacity := max_cap;
     index_region_start := index_start; journal_size := 0; nr_journal := 0;
     journal_region_start := journal_start; seg_validity_table_start := svt_start;
     data_seg_table_start := dst_start; reverse_index_table_start := rit_start;
     block_index_table_catalogue_start := bitc_start |}.

(** Returns the superblock and [should_format]. *)
Definition superblock_init (crc32c : Z -> list byte -> Z) (NR_SEGMENT : Z)
    : SE dm_block_manager (superblock * bool) :=
  this <- superblock_read ;;
  if superblock_validate crc32c this then se_ret (this, false)
  else
    let this := superblock_defaults NR_SEGMENT (csum this) in
    se_ignore (superblock_write crc32c this) ;;;
    se_ret (this, true).

(** ** The superblock survives a write and a read *)
Section superblock_facts.
Context (crc32c : Z -> list byte -> Z).
(** [crc32c] returns a [u32]. *)
Hypothesis crc32c_u32 : forall seed l, 0 <= crc32c seed l < 2 ^ 32.

Lemma lxor_u32 a b : 0 <= a < 2 ^ 32 -> 0 <= b < 2 ^ 32 -> 0 <= Z.lxor a b < 2 ^ 32.
Proof.
  intros Ha Hb. split; [apply Z.lxor_nonneg; lia|].
  destruct (Z.eq_dec (Z.lxor a b) 0) as [->|Hne]; [done|].
  assert (0 <= Z.lxor a b) by (apply Z.lxor_nonneg; lia).
  apply Z.log2_lt_pow2; [lia|]. eapply Z.le_lt_trans; [apply Z.log2_lxor; lia|].
  apply Z.max_lub_lt.
  - destruct (Z.eq_dec a 0) as [->|]; [done|]. apply Z.log2_lt_pow2; lia.
  - destruct (Z.eq_dec b 0) as [->|]; [done|]. apply Z.log2_lt_pow2; lia.
Qed.

Lemma superblock_csum_range s : 0 <= superblock_csum crc32c s < 2 ^ 32.
Proof. apply lxor_u32; [done|by vm_compute]. Qed.

(** The checksum does not cover itself. *)
Lemma superblock_csum_with_csum c s :
  superblock_csum crc32c (sb_with_csum c s) = superblock_csum crc32c s.
Proof. done. Qed.

Lemma superblock_write_ok bm d s :
  bm_ok bm -> bufio_write_error (bufio bm) = 0 ->
  bm_block bm SUPERBLOCK_LOCATION = Some d -> (csize superblock_codec <= length d)%nat ->
  cwf superblock_tail s ->
  exists bm', superblock_write crc32c s bm = (Ok tt, bm') /\ bm_ok bm' /\
    superblock_read bm' = (Ok (sb_with_csum (superblock_csum crc32c s) s), bm') /\
    (forall b, b <> SUPERBLOCK_LOCATION -> bm_block bm' b = bm_block bm b) /\
    bufio_dirty (bufio bm') = ∅.
Proof.
  intros Hok Herr Hd Hlen Hwf.
  set (s' := sb_with_csum (superblock_csum crc32c s) s).
  assert (cwf superblock_codec s') as Hwf' by (split; [apply superblock_csum_range|exact Hwf]).
  pose proof (cenc_length s' Hwf') as Hl.
  set (bm1 := bm_update SUPERBLOCK_LOCATION (splice 0 (cenc superblock_codec s') d) bm).
  destruct (dm_bm_flush_ok bm1) as (bm' & Hfl & Hok' & Hb' & Hdirty); [done|done|].
  exists bm'. split; [|split; [done|split; [|split; [|done]]]].
  - rewrite /superblock_write /se_bind /se_map_err (dm_bm_write_lock_ok _ _ _ Hok Hd).
    rewrite /= -/bm1. rewrite /bm_block in Hd. rewrite Hd. exact Hfl.
  - assert (bm_block bm' SUPERBLOCK_LOCATION = Some (splice 0 (cenc superblock_codec s') d)) as Hd'.
    { rewrite Hb'. apply bm_block_update_eq. }
    rewrite /superblock_read /se_bind /se_map_err (dm_bm_read_lock_ok _ _ _ Hok' Hd').
    cbn [dm_block_data dm_block_location]. rewrite /bm_block in Hd'. rewrite Hd'.
    cbn [from_option default]. rewrite /splice take_0 app_nil_l -Hl take_app_length.
    by rewrite cdec_enc.
  - intros b Hb. rewrite Hb'. by apply bm_block_update_ne.
Qed.
End superblock_facts.

(** ** Layout facts *)

Lemma file_size_value : calculate_bit_size DEFAULT_LSM_FILE_CAPACITY DEFAULT_BIT_DEGREE = 85327809.
Proof. by vm_compute. Qed.

Lemma __disk_array_blocks_pos n sz :
  0 <= n -> 0 < sz <= SWORNDISK_METADATA_BLOCK_SIZE ->
  1 <= __disk_array_blocks n sz SWORNDISK_METADATA_BLOCK_SIZE <= n + 1.
Proof.
  intros Hn Hs. rewrite /__disk_array_blocks. ztest.
  pose proof (Z.div_str_pos SWORNDISK_METADATA_BLOCK_SIZE sz ltac:(lia)).
  pose proof (Z.div_pos n (SWORNDISK_METADATA_BLOCK_SIZE / sz)).
  pose proof (Z.div_le_upper_bound n (SWORNDISK_METADATA_BLOCK_SIZE / sz) n). nia.
Qed.

(** The validity table needs [ceil (groups / 512)] blocks. *)
Lemma seg_validity_blocks_groups n :
  0 < n -> __seg_validity_table_blocks n = (__disk_bitset_nr_group n - 1) / 512 + 1.
Proof.
  intros Hn. rewrite /__seg_validity_table_blocks /__disk_bitset_nr_group.
  rewrite /BITS_PER_LONG /SWORNDISK_METADATA_BLOCK_SIZE. ztest.
  set (g := (n - 1) / 64 + 1).
  replace (g * 8 - 1) with (7 + (g - 1) * 8) by lia.
  rewrite -(Z.div_div _ 8 512); [|lia|lia]. by rewrite Z.div_add.
Qed.

Lemma bitset_nr_group_pos n : 0 < n -> 1 <= __disk_bitset_nr_group n.
Proof.
  intros. rewrite /__disk_bitset_nr_group /BITS_PER_LONG. ztest.
  pose proof (Z.div_pos (n - 1) 64). lia.
Qed.

(** Every bit of the table lies inside its region. *)
Lemma seg_validity_bit_block start n i :
  0 <= i < n ->
  start <= disk_array_entry_block (db_array (disk_bitset_create start n)) (__disk_bitset_group i)
    < start + __seg_validity_table_blocks n.
Proof.
  intros Hi. rewrite seg_validity_blocks_groups; last lia.
  rewrite /disk_array_entry_block /=. change (SWORNDISK_METADATA_BLOCK_SIZE / 8) with 512.
  pose proof (db_group_range (disk_bitset_create start n) i
    (disk_bitset_create_wf start n ltac:(lia)) Hi) as Hg. simpl in Hg.
  pose proof (Z.div_pos (__disk_bitset_group i) 512).
  pose proof (Z.div_le_mono (__disk_bitset_group i) (__disk_bitset_nr_group n - 1) 512). lia.
Qed.
