(* ===== verification/SegValidator.v ===== *)
(** * Segment validators (source/metadata.c)

    A [seg_validator] hands out free slots of a bit table by a rotating scan.
    SwornDisk uses one for data segments and one for BIT files.  It reaches its
    table only through the function pointers of [struct disk_bitset], so it is
    modelled against the [BitTable] interface; the state is the validator and
    the store its table lives in. *)
From S2P Require Import Prelude DiskStructs.
Local Open Scope se_scope.

Record seg_validator (T : Type) : Type := {
  sv_nr_segment : Z;
  sv_cur_segment : Z;
  seg_validity_table : T
}.
Arguments sv_nr_segment {T}.
Arguments sv_cur_segment {T}.
Arguments seg_validity_table {T}.

Definition sv_set_cur {T} (c : Z) (v : seg_validator T) : seg_validator T :=
  {| sv_nr_segment := sv_nr_segment v; sv_cur_segment := c;
     seg_validity_table := seg_validity_table v |}.

Section seg_validator.
Context {T S : Type} `{BitTable T S}.

Definition sv_state : Type := seg_validator T * S.
Definition sv_lift {A} (m : T -> SE S A) : SE sv_state A := fun st =>
  let '(r, s) := m (seg_validity_table st.1) st.2 in (r, (st.1, s)).
Definition sv_move (f : Z -> Z) : SE sv_state unit :=
  se_modify (fun st => (sv_set_cur (f (sv_cur_segment st.1)) st.1, st.2)).

Definition seg_validator_take (seg : Z) : SE sv_state unit :=
  sv_lift (fun t => bt_set t seg) ;;;
  sv_move (fun c => c + 1).

(** [while (cur_segment < nr_segment)], one round per unit of fuel. *)
Fixpoint seg_validator_scan (fuel : nat) : SE sv_state (option Z) :=
  match fuel with
  | O => se_ret None
  | Datatypes.S fuel =>
      st <- se_get ;;
      let this := st.1 in
      if sv_cur_segment this <? sv_nr_segment this then
        r <- se_try (sv_lift (fun t => bt_get t (sv_cur_segment this))) ;;
        match r with
        | Ok false => se_ret (Some (sv_cur_segment this))
        | _ => sv_move (fun c => c + 1) ;;; seg_validator_scan fuel
        end
      else se_ret None
  end.

Definition seg_validator_next : SE sv_state Z :=
  st <- se_get ;;
  r <- seg_validator_scan (Z.to_nat (sv_nr_segment st.1 - sv_cur_segment st.1)) ;;
  match r with
  | Some seg => se_ret seg
  | None =>
      sv_move (fun _ => 0) ;;;
      r <- seg_validator_scan (Z.to_nat (sv_nr_segment st.1)) ;;
      match r with
      | Some seg => se_ret seg
      | None => se_fail ENODATA
      end
  end.

Definition seg_validator_test_and_return (seg : Z) : SE sv_state bool :=
  valid <- sv_lift (fun t => bt_get t seg) ;;
  sv_lift (fun t => bt_clear t seg) ;;;
  se_ret valid.

Definition seg_validator_format : SE sv_state unit :=
  sv_lift (fun t => bt_format t false) ;;;
  sv_move (fun _ => 0).

(** [for (segno = 0; segno < nr_segment; ++segno)]: [n] rounds from [segno]. *)
Fixpoint valid_segment_loop (n : nat) (segno count : Z) : SE sv_state Z :=
  match n with
  | O => se_ret count
  | Datatypes.S n =>
      valid <- sv_lift (fun t => bt_get t segno) ;;
      valid_segment_loop n (segno + 1) (count + (if valid : bool then 1 else 0))
  end.

Definition seg_validator_valid_segment_count : SE sv_state Z :=
  st <- se_get ;;
  valid_segment_loop (Z.to_nat (sv_nr_segment st.1)) 0 0.

(** [next] followed by [take]: how both allocators use the validator. *)
Definition seg_validator_alloc : SE sv_state Z :=
  seg <- seg_validator_next ;;
  seg_validator_take seg ;;;
  se_ret seg.

(** ** Specification *)
Definition sv_bits (st : sv_state) : list bool := bt_bits (seg_validity_table st.1) st.2.
Definition sv_inv (st : sv_state) : Prop :=
  bt_inv (seg_validity_table st.1) st.2 /\
  Z.of_nat (length (sv_bits st)) = sv_nr_segment st.1 /\
  0 <= sv_cur_segment st.1.
(** A step leaves the table in place, and the store changes only where the
    table may change it. *)
Definition sv_frame (st st' : sv_state) : Prop :=
  seg_validity_table st'.1 = seg_validity_table st.1 /\
  sv_nr_segment st'.1 = sv_nr_segment st.1 /\
  bt_frame (seg_validity_table st.1) st.2 st'.2.

Context `{!BitTableOk T S}.

Lemma sv_bits_set_cur c v (s : S) : sv_bits (sv_set_cur c v, s) = sv_bits (v, s).
Proof. done. Qed.

Lemma sv_bits_is_some v (s : S) i :
  sv_inv (v, s) -> 0 <= i < sv_nr_segment v -> is_Some (sv_bits (v, s) !! Z.to_nat i).
Proof. intros (_ & Hl & _) Hi. simpl in *. apply lookup_lt_is_Some. lia. Qed.

(** The scan stops at the first free slot at or after the cursor. *)
Lemma seg_validator_scan_spec n v (s : S) :
  sv_inv (v, s) -> Z.of_nat n = Z.max 0 (sv_nr_segment v - sv_cur_segment v) ->
  exists c o, seg_validator_scan n (v, s) = (Ok o, (sv_set_cur c v, s)) /\
    sv_cur_segment v <= c /\
    (forall j, sv_cur_segment v <= j < c -> j < sv_nr_segment v ->
       sv_bits (v, s) !! Z.to_nat j = Some true) /\
    match o with
    | Some seg => seg = c /\ c < sv_nr_segment v /\ sv_bits (v, s) !! Z.to_nat c = Some false
    | None => sv_nr_segment v <= c
    end.
Proof.
  revert v. induction n as [|n IH] => v Hinv Hn.
  { exists (sv_cur_segment v), None. split; [by destruct v|]. split_and!; solve [done | lia | intros; lia]. }
  cbn [seg_validator_scan]. rewrite /se_bind /se_get. cbn [fst].
  ztest. pose proof Hinv as (Hbt & Hl & Hc). simpl in Hbt, Hl, Hc.
  destruct (sv_bits_is_some v s (sv_cur_segment v) Hinv ltac:(lia)) as [b Hb].
  rewrite /se_try /sv_lift. cbn [fst snd]. rewrite (bt_get_ok _ _ _ b) //.
  destruct b; last first.
  { exists (sv_cur_segment v), (Some (sv_cur_segment v)).
    split; [by destruct v|]. split_and!; solve [done | lia | intros; lia]. }
  cbn [sv_move se_modify fst snd].
  destruct (IH (sv_set_cur (sv_cur_segment v + 1) v)) as (c & o & Hrun & Hle & Hall & Ho).
  { split_and!; simpl; [done|done|lia]. }
  { simpl. lia. }
  exists c, o. simpl in *. split; [exact Hrun|]. split_and!; [lia| |done].
  intros j Hj Hjn. destruct (decide (j = sv_cur_segment v)) as [->|]; [done|]. apply Hall; lia.
Qed.

Lemma seg_validator_next_spec v (s : S) :
  sv_inv (v, s) ->
  exists c r, seg_validator_next (v, s) = (r, (sv_set_cur c v, s)) /\ 0 <= c /\
    match r with
    | Ok seg => seg = c /\ c < sv_nr_segment v /\ sv_bits (v, s) !! Z.to_nat seg = Some false
    | Err e => e = ENODATA /\ Forall (fun b => b = true) (sv_bits (v, s))
    end.
Proof.
  intros Hinv. pose proof Hinv as (_ & Hl & Hc). simpl in Hl, Hc.
  rewrite /seg_validator_next /se_bind /se_get. cbn [fst].
  destruct (seg_validator_scan_spec (Z.to_nat (sv_nr_segment v - sv_cur_segment v)) v s)
    as (c & o & -> & Hle & Hall & Ho); [done|lia|].
  destruct o as [seg|]; simpl.
  { destruct Ho as (-> & ? & ?). exists c, (Ok c). split_and!; done || lia. }
  destruct (seg_validator_scan_spec (Z.to_nat (sv_nr_segment v))
    (sv_set_cur 0 (sv_set_cur c v)) s) as (c' & o' & -> & Hle' & Hall' & Ho').
  { split_and!; simpl; [apply Hinv|done|done]. }
  { simpl. lia. }
  simpl in *. destruct o' as [seg'|]; simpl.
  - destruct Ho' as (-> & ? & ?). exists c', (Ok c'). split_and!; done || lia.
  - exists c', (Err ENODATA). split_and!; [done|lia|done|].
    apply Forall_lookup => i b Hb. pose proof (lookup_lt_Some _ _ _ Hb) as Hlt.
    specialize (Hall' (Z.of_nat i) ltac:(lia) ltac:(lia)).
    rewrite Nat2Z.id in Hall'. rewrite sv_bits_set_cur in Hall'. rewrite Hall' in Hb. congruence.
Qed.

Lemma seg_validator_take_spec v (s : S) seg :
  sv_inv (v, s) -> 0 <= seg < sv_nr_segment v ->
  exists st', seg_validator_take seg (v, s) = (Ok tt, st') /\ sv_inv st' /\
    sv_frame (v, s) st' /\ sv_bits st' = <[Z.to_nat seg := true]> (sv_bits (v, s)).
Proof.
  intros (Hbt & Hl & Hc) Hseg. rewrite /sv_bits in Hl. simpl in *.
  destruct (bt_set_ok (seg_validity_table v) s seg Hbt) as (s' & Hset & Hinv' & Hfr & Hbits).
  { lia. }
  exists (sv_set_cur (sv_cur_segment v + 1) v, s').
  rewrite /seg_validator_take /se_bind /sv_lift /= Hset /=.
  rewrite /sv_inv /sv_frame /sv_bits /= Hbits length_insert. split_and!; solve [done | lia].
Qed.

(** Allocation returns a slot that was free and marks it, and fails, without
    touching the table, only when no slot is free. *)
Lemma seg_validator_alloc_spec v (s : S) :
  sv_inv (v, s) ->
  match seg_validator_alloc (v, s) with
  | (Ok seg, st') =>
      0 <= seg < sv_nr_segment v /\ sv_bits (v, s) !! Z.to_nat seg = Some false /\
      sv_bits st' = <[Z.to_nat seg := true]> (sv_bits (v, s)) /\
      sv_inv st' /\ sv_frame (v, s) st'
  | (Err e, st') =>
      e = ENODATA /\ Forall (fun b => b = true) (sv_bits (v, s)) /\
      sv_bits st' = sv_bits (v, s) /\ sv_inv st' /\ st'.2 = s
  end.
Proof.
  intros Hinv. destruct (seg_validator_next_spec v s Hinv) as (c & r & Hrun & Hc & Hr).
  rewrite /seg_validator_alloc /se_bind Hrun. destruct r as [seg|e].
  - destruct Hr as (-> & Hlt & Hfree).
    assert (sv_inv (sv_set_cur c v, s)) as Hinv1 by (destruct Hinv as (? & ? & ?); done).
    destruct (seg_validator_take_spec (sv_set_cur c v) s c Hinv1) as (st' & -> & Hi & Hf & Hb); [done|].
    split_and!; try done; apply Hf.
  - destruct Hr as [-> Hall]. destruct Hinv as (? & ? & ?). by split_and!.
Qed.

Lemma seg_validator_test_and_return_spec v (s : S) seg :
  sv_inv (v, s) -> 0 <= seg < sv_nr_segment v ->
  exists old st', seg_validator_test_and_return seg (v, s) = (Ok old, st') /\
    sv_bits (v, s) !! Z.to_nat seg = Some old /\ sv_inv st' /\ sv_frame (v, s) st' /\
    sv_bits st' = <[Z.to_nat seg := false]> (sv_bits (v, s)).
Proof.
  intros Hinv Hseg. destruct (sv_bits_is_some v s seg Hinv Hseg) as [b Hb].
  destruct Hinv as (Hbt & Hl & Hc). rewrite /sv_bits in Hl. simpl in *.
  destruct (bt_clear_ok (seg_validity_table v) s seg Hbt) as (s' & Hclr & Hinv' & Hfr & Hbits).
  { lia. }
  exists b, (v, s').
  rewrite /seg_validator_test_and_return /se_bind /sv_lift. cbn [fst snd].
  rewrite (bt_get_ok _ _ _ b) //; last lia. rewrite Hclr.
  rewrite /sv_inv /sv_frame /sv_bits /= Hbits length_insert. split_and!; solve [done | lia].
Qed.

Lemma seg_validator_format_spec v (s : S) :
  sv_inv (v, s) ->
  exists s', seg_validator_format (v, s) = (Ok tt, (sv_set_cur 0 v, s')) /\
    sv_inv (sv_set_cur 0 v, s') /\ bt_frame (seg_validity_table v) s s' /\
    sv_bits (v, s') = replicate (length (sv_bits (v, s))) false.
Proof.
  intros (Hbt & Hl & Hc). cbn [fst snd] in *.
  destruct (bt_format_ok (seg_validity_table v) s false Hbt) as (s' & Hrun & Hinv & Hfr & Hb).
  exists s'. split; [by rewrite /seg_validator_format /se_bind /sv_lift /= Hrun|].
  split; [|done]. split; [done|]. split; [|done].
  rewrite /sv_bits /= Hb length_replicate. exact Hl.
Qed.

Lemma valid_segment_loop_spec n v (s : S) segno count :
  sv_inv (v, s) -> 0 <= segno -> segno + Z.of_nat n = sv_nr_segment v ->
  valid_segment_loop n segno count (v, s) =
    (Ok (count + count_true (drop (Z.to_nat segno) (sv_bits (v, s)))), (v, s)).
Proof.
  intros Hinv. pose proof Hinv as (Hbt & Hl & _). simpl in Hbt, Hl.
  revert segno count. induction n as [|n IH] => segno count H0 Hn.
  { rewrite drop_ge; last lia. rewrite count_true_nil Z.add_0_r. done. }
  destruct (sv_bits_is_some v s segno Hinv ltac:(lia)) as [b Hb].
  cbn [valid_segment_loop]. rewrite /se_bind /sv_lift. cbn [fst snd].
  rewrite (bt_get_ok _ _ _ b) //. rewrite IH; [|lia|lia].
  rewrite (drop_S _ b (Z.to_nat segno)) // count_true_cons.
  replace (Z.to_nat (segno + 1)) with (Datatypes.S (Z.to_nat segno)) by lia.
  do 2 f_equal. lia.
Qed.
End seg_validator.
Arguments sv_state : clear implicits.

Definition seg_validator_create (start nr_segment : Z) : seg_validator disk_bitset :=
  {| sv_nr_segment := nr_segment; sv_cur_segment := 0;
     seg_validity_table := disk_bitset_create start nr_segment |}.
