(* ===== verification/Dst.v ===== *)
(** * Data segment table and reverse index table (source/metadata.c)

    The data segment table (DST) keeps, per segment, how many of its blocks
    are valid and which; segments with an invalid block are also kept in
    memory as GC victims, ordered by their number of valid blocks.  The kernel
    red-black tree is modelled by its in-order sequence: [rb_add] puts a node
    behind every node that does not compare greater, [rb_first] is the head.
    The reverse index table (RIT) maps a physical block to its logical one. *)
From S2P Require Import Prelude Codec BlockManager DiskStructs Superblock.
Local Open Scope se_scope.

(** ** struct dst_entry *)
Record dst_entry : Type := {
  de_nr_valid_block : Z;
  de_block_validity_table : list bool
}.

Definition dst_entry_codec : codec dst_entry :=
  c_iso (c_pair c_u64 (c_bits (Z.to_nat (BLOCKS_PER_SEGMENT / 8))))
    (fun e => (de_nr_valid_block e, de_block_validity_table e))
    (fun t => {| de_nr_valid_block := t.1; de_block_validity_table := t.2 |}).

#[export] Instance dst_entry_codec_ok : CodecOk dst_entry_codec.
Proof. apply c_iso_ok; [apply _|by intros []]. Qed.

Lemma dst_entry_size : Z.of_nat (csize dst_entry_codec) = DST_ENTRY_SIZE.
Proof. done. Qed.

(** ** struct victim *)
Record victim : Type := {
  vi_segno : Z;
  vi_nr_valid_block : Z;
  vi_block_validity_table : list bool
}.

Definition victim_create (segno nr_valid : Z) (bvt : list bool) : victim :=
  {| vi_segno := segno; vi_nr_valid_block := nr_valid; vi_block_validity_table := bvt |}.

Definition victim_less (v1 v2 : victim) : bool := vi_nr_valid_block v1 <? vi_nr_valid_block v2.

(** [rb_add], [rb_erase] and [rb_first] on the in-order sequence. *)
Fixpoint rb_add (v : victim) (l : list victim) : list victim :=
  match l with
  | [] => [v]
  | x :: l => if victim_less v x then v :: x :: l else x :: rb_add v l
  end.
Definition rb_erase (v : victim) (l : list victim) : list victim :=
  filter (fun x => vi_segno x <> vi_segno v) l.
Definition rb_first (l : list victim) : option victim := head l.

(** ** struct dst; [node_list] maps a segment to the victim node it points to *)
Record dst : Type := {
  dst_start : Z;
  dst_nr_segment : Z;
  dst_array : disk_array;
  dst_node_list : gmap Z victim;
  dst_victims : list victim
}.

Definition dst_with (n : gmap Z victim) (v : list victim) (d : dst) : dst :=
  {| dst_start := dst_start d; dst_nr_segment := dst_nr_segment d; dst_array := dst_array d;
     dst_node_list := n; dst_victims := v |}.

Definition dst_state : Type := dst * dm_block_manager.

Definition dst_lift {A} (m : disk_array -> SE dm_block_manager A) : SE dst_state A := fun st =>
  let '(r, bm) := m (dst_array st.1) st.2 in (r, (st.1, bm)).

(** [array->get] and [array->set] of a [struct dst_entry]. *)
Definition dst_get_entry (segno : Z) : SE dst_state dst_entry :=
  raw <- dst_lift (fun a => disk_array_get a segno) ;;
  se_ret (cdec dst_entry_codec raw).
Definition dst_set_entry (segno : Z) (e : dst_entry) : SE dst_state unit :=
  dst_lift (fun a => disk_array_set a segno (cenc dst_entry_codec e)).

Definition dst_remove_victim (segno : Z) : SE dst_state (option victim) := fun st =>
  match dst_node_list st.1 !! segno with
  | Some v => (Ok (Some v),
      (dst_with (delete segno (dst_node_list st.1)) (rb_erase v (dst_victims st.1)) st.1, st.2))
  | None => (Ok None, st)
  end.

(** [victim_destroy (remove_victim segno)]. *)
Definition dst_destroy_victim (segno : Z) : SE dst_state unit :=
  dst_remove_victim segno ;;; se_ret tt.

Definition dst_add_victim (segno nr_valid : Z) (bvt : list bool) : SE dst_state unit :=
  let v := victim_create segno nr_valid bvt in
  se_modify (fun st =>
    (dst_with (<[segno := v]> (dst_node_list st.1)) (rb_add v (dst_victims st.1)) st.1, st.2)).

(** [for (segno = 0; segno < nr_segment; ++segno)]: [n] rounds from [segno]. *)
Fixpoint dst_load_loop (n : nat) (segno : Z) : SE dst_state unit :=
  match n with
  | O => se_ret tt
  | S n =>
      entry <- se_map_err (fun _ => ENODATA) (dst_get_entry segno) ;;
      (if de_nr_valid_block entry <? BLOCKS_PER_SEGMENT
       then dst_add_victim segno (de_nr_valid_block entry) (de_block_validity_table entry)
       else se_ret tt) ;;;
      dst_load_loop n (segno + 1)
  end.

Definition dst_load : SE dst_state unit :=
  st <- se_get ;;
  dst_load_loop (Z.to_nat (dst_nr_segment st.1)) 0.

Definition __block_to_segment (block_id : Z) : Z := block_id / BLOCKS_PER_SEGMENT.
Definition __block_offset_whthin_segment (block_id : Z) : Z := block_id mod BLOCKS_PER_SEGMENT.

Definition dst_update_victim (segno nr_valid : Z) (bvt : list bool) : SE dst_state unit :=
  dst_destroy_victim segno ;;;
  if BLOCKS_PER_SEGMENT <=? nr_valid then se_ret tt
  else dst_add_victim segno nr_valid bvt.

Definition dst_take_segment (segno : Z) : SE dst_state unit :=
  entry <- dst_get_entry segno ;;
  if negb (de_nr_valid_block entry =? 0) then se_fail EINVAL
  else
    dst_set_entry segno
      {| de_nr_valid_block := BLOCKS_PER_SEGMENT;
         de_block_validity_table := replicate (Z.to_nat BLOCKS_PER_SEGMENT) true |} ;;;
    dst_destroy_victim segno.

Definition dst_take_block (blkaddr : Z) : SE dst_state unit :=
  let segno := __block_to_segment blkaddr in
  let offset := __block_offset_whthin_segment blkaddr in
  entry <- dst_get_entry segno ;;
  if BLOCKS_PER_SEGMENT <=? de_nr_valid_block entry then se_fail EINVAL
  else
    let entry :=
      {| de_nr_valid_block := de_nr_valid_block entry + 1;
         de_block_validity_table := <[Z.to_nat offset := true]> (de_block_validity_table entry) |} in
    dst_set_entry segno entry ;;;
    dst_update_victim segno (de_nr_valid_block entry) (de_block_validity_table entry).

Definition dst_return_block (blkaddr : Z) : SE dst_state unit :=
  let segno := __block_to_segment blkaddr in
  let offset := __block_offset_whthin_segment blkaddr in
  entry <- dst_get_entry segno ;;
  if de_nr_valid_block entry =? 0 then se_fail EINVAL
  else
    let entry :=
      {| de_nr_valid_block := de_nr_valid_block entry - 1;
         de_block_validity_table := <[Z.to_nat offset := false]> (de_block_validity_table entry) |} in
    dst_set_entry segno entry ;;;
    dst_update_victim segno (de_nr_valid_block entry) (de_block_validity_table entry).

Definition dst_victim_empty (d : dst) : bool :=
  match dst_victims d with [] => true | _ => false end.
Definition dst_peek_victim (d : dst) : option victim := rb_first (dst_victims d).

Definition dst_pop_victim : SE dst_state (option victim) :=
  st <- se_get ;;
  match dst_peek_victim st.1 with
  | None => se_ret None
  | Some v => dst_remove_victim (vi_segno v)
  end.

Definition should_threaded_logging (d : dst) : bool :=
  if dst_victim_empty d then false
  else match rb_first (dst_victims d) with
       | Some v => BLOCKS_PER_SEGMENT / 4 * 3 <? vi_nr_valid_block v
       | None => false
       end.

(** [dst_init]: a fresh descriptor, then [load]. *)
Definition dst_blank (start nr_segment : Z) : dst :=
  {| dst_start := start; dst_nr_segment := nr_segment;
     dst_array := disk_array_create start nr_segment DST_ENTRY_SIZE;
     dst_node_list := ∅; dst_victims := [] |}.

Definition dst_init (start nr_segment : Z) : SE dst_state unit :=
  se_modify (fun st => (dst_blank start nr_segment, st.2)) ;;;
  dst_load.

(** [while (!RB_EMPTY_ROOT(&victims)) victim_destroy(pop_victim())]: one round
    per victim, with fuel for their number. *)
Fixpoint dst_drain (fuel : nat) : SE dst_state unit :=
  match fuel with
  | O => se_ret tt
  | S fuel =>
      st <- se_get ;;
      if dst_victim_empty st.1 then se_ret tt
      else dst_pop_victim ;;; dst_drain fuel
  end.

Definition dst_format : SE dst_state unit :=
  dst_lift (fun a => disk_array_format a false) ;;;
  st <- se_get ;;
  dst_drain (length (dst_victims st.1)) ;;;
  dst_init (dst_start st.1) (dst_nr_segment st.1).

(** ** Reverse index table *)
Record reverse_index_table : Type := {
  rit_nr_block : Z;
  rit_array : disk_array
}.

Definition reverse_index_table_create (start nr_block : Z) : reverse_index_table :=
  {| rit_nr_block := nr_block; rit_array := disk_array_create start nr_block 8 |}.

Definition reverse_index_table_format (this : reverse_index_table) : SE dm_block_manager unit :=
  disk_array_format (rit_array this) false.
Definition __reverse_index_table_set_entry (this : reverse_index_table) (pba : Z) (entry : list byte)
    : SE dm_block_manager unit := disk_array_set (rit_array this) pba entry.
Definition reverse_index_table_set (this : reverse_index_table) (pba lba : Z)
    : SE dm_block_manager unit :=
  __reverse_index_table_set_entry this pba (cenc c_u64 lba).
Definition __reverse_index_table_get_entry (this : reverse_index_table) (pba : Z)
    : SE dm_block_manager (list byte) := disk_array_get (rit_array this) pba.
Definition reverse_index_table_get (this : reverse_index_table) (pba : Z) : SE dm_block_manager Z :=
  entry <- __reverse_index_table_get_entry this pba ;;
  se_ret (cdec c_u64 entry).

(** ** The victim sequence *)
Definition victim_le (v1 v2 : victim) : Prop := vi_nr_valid_block v1 <= vi_nr_valid_block v2.

Lemma elem_of_rb_add v l x : x ∈ rb_add v l <-> x = v \/ x ∈ l.
Proof.
  induction l as [|y l IH]; simpl; [set_solver|].
  destruct (victim_less v y); rewrite !elem_of_cons ?IH; naive_solver.
Qed.

Lemma rb_add_sorted v l :
  StronglySorted victim_le l -> StronglySorted victim_le (rb_add v l).
Proof.
  induction 1 as [|x l Hs IH Hx]; simpl; [by repeat constructor|].
  rewrite /victim_less. destruct (Z.ltb_spec (vi_nr_valid_block v) (vi_nr_valid_block x)).
  - constructor; [by constructor|]. constructor; [rewrite /victim_le; lia|].
    eapply Forall_impl; [exact Hx|]. rewrite /victim_le. lia.
  - constructor; [done|]. apply Forall_forall => y /elem_of_rb_add [->|Hy]; [done|].
    by eapply Forall_forall in Hx.
Qed.

Lemma rb_add_segnos v l :
  vi_segno v ∉ vi_segno <$> l -> NoDup (vi_segno <$> l) -> NoDup (vi_segno <$> rb_add v l).
Proof.
  induction l as [|x l IH]; simpl; [intros; by repeat constructor; auto using not_elem_of_nil|].
  intros Hnin [Hx Hnd]%NoDup_cons. destruct (victim_less v x); simpl.
  - by repeat constructor.
  - constructor; [|apply IH; set_solver].
    rewrite list_elem_of_fmap. intros (y & Hy & [->|Hin]%elem_of_rb_add); [set_solver|].
    apply Hx. rewrite Hy. by apply list_elem_of_fmap_2.
Qed.

(** The victims of a table with entries [E]: ordered by valid blocks, one per
    segment, indexed by [node_list], each a copy of its segment's entry. *)
Definition victim_entry (v : victim) : dst_entry :=
  {| de_nr_valid_block := vi_nr_valid_block v;
     de_block_validity_table := vi_block_validity_table v |}.

Definition victims_ok (nr : Z) (E : Z -> option dst_entry)
    (nl : gmap Z victim) (vs : list victim) : Prop :=
  StronglySorted victim_le vs /\ NoDup (vi_segno <$> vs) /\
  (forall s v, nl !! s = Some v <-> v ∈ vs /\ vi_segno v = s) /\
  (forall v, v ∈ vs -> 0 <= vi_segno v < nr /\ vi_nr_valid_block v < BLOCKS_PER_SEGMENT /\
     E (vi_segno v) = Some (victim_entry v)).

Lemma victims_ok_nil nr E : victims_ok nr E ∅ [].
Proof.
  split_and!; [constructor|constructor| |].
  - intros s v. rewrite lookup_empty. set_solver.
  - set_solver.
Qed.

Lemma victims_ok_erase nr E E' nl vs seg :
  victims_ok nr E nl vs -> (forall s, s <> seg -> E' s = E s) ->
  victims_ok nr E' (delete seg nl) (filter (fun x => vi_segno x <> seg) vs).
Proof.
  intros (Hs & Hnd & Hnl & Hv) HE. split_and!.
  - by apply filter_sorted.
  - eapply sublist_NoDup; [exact Hnd|]. apply fmap_sublist, sublist_filter.
  - intros s v. rewrite lookup_delete_Some Hnl list_elem_of_filter. naive_solver.
  - intros v [Hne Hin]%list_elem_of_filter. destruct (Hv v Hin) as (? & ? & ?).
    split; [done|]. split; [done|]. by rewrite HE.
Qed.

Lemma victims_ok_add nr E nl vs seg v :
  victims_ok nr E nl vs -> nl !! seg = None -> vi_segno v = seg -> 0 <= seg < nr ->
  vi_nr_valid_block v < BLOCKS_PER_SEGMENT -> E seg = Some (victim_entry v) ->
  victims_ok nr E (<[seg := v]> nl) (rb_add v vs).
Proof.
  intros (Hs & Hnd & Hnl & Hv) Hnone Hseg Hr Hlt HE.
  assert (forall x, x ∈ vs -> vi_segno x <> seg) as Hfresh.
  { intros x Hx Heq. assert (nl !! seg = Some x) by (by apply Hnl). congruence. }
  split_and!.
  - by apply rb_add_sorted.
  - apply rb_add_segnos; [|done]. rewrite list_elem_of_fmap. intros (x & Hx & Hin).
    apply (Hfresh x Hin). congruence.
  - intros s x. rewrite lookup_insert_Some Hnl elem_of_rb_add. subst seg. split.
    + intros [[<- <-]|(? & ? & ?)]; eauto.
    + intros [[->|Hin] <-]; [by left|]. right. split; [|done]. intros Heq. by apply (Hfresh x Hin).
  - intros x [->|Hin]%elem_of_rb_add; [|by apply Hv]. subst seg. done.
Qed.

(** ** Invariant *)
Definition dst_entry_at (st : dst_state) (segno : Z) : option dst_entry :=
  cdec dst_entry_codec <$> da_entry (dst_array st.1) st.2 segno.

(** The counter of an entry is the number of its valid blocks. *)
Definition dst_entry_ok (e : dst_entry) : Prop :=
  length (de_block_validity_table e) = Z.to_nat BLOCKS_PER_SEGMENT /\
  de_nr_valid_block e = count_true (de_block_validity_table e).

Definition dst_wf (d : dst) : Prop :=
  0 <= dst_nr_segment d /\
  dst_array d = disk_array_create (dst_start d) (dst_nr_segment d) DST_ENTRY_SIZE.

Definition dst_entries_ok (st : dst_state) : Prop :=
  forall s, 0 <= s < dst_nr_segment st.1 -> exists e, dst_entry_at st s = Some e /\ dst_entry_ok e.

Definition dst_inv (st : dst_state) : Prop :=
  dst_wf st.1 /\ da_inv (dst_array st.1) st.2 /\ dst_entries_ok st /\
  victims_ok (dst_nr_segment st.1) (dst_entry_at st) (dst_node_list st.1) (dst_victims st.1).

(** What a DST operation on segment [seg] may change. *)
Definition dst_step (seg : Z) (st st' : dst_state) : Prop :=
  dst_start st'.1 = dst_start st.1 /\ dst_nr_segment st'.1 = dst_nr_segment st.1 /\
  dst_array st'.1 = dst_array st.1 /\
  da_frame (dst_array st.1) st.2 st'.2 /\
  (forall s, 0 <= s < dst_nr_segment st.1 -> s <> seg -> dst_entry_at st' s = dst_entry_at st s).

Lemma dst_entry_ok_wf e : dst_entry_ok e -> cwf dst_entry_codec e.
Proof.
  intros [Hl Hc]. pose proof (count_true_bound (de_block_validity_table e)) as Hb.
  split; simpl; [|done]. rewrite Hc. rewrite Hl in Hb.
  change (Z.of_nat (Z.to_nat BLOCKS_PER_SEGMENT)) with 1024 in Hb. lia.
Qed.

Section dst_facts.
Implicit Types (st : dst_state) (e : dst_entry).

Lemma dst_array_geom st :
  dst_wf st.1 -> da_nr_entry (dst_array st.1) = dst_nr_segment st.1 /\
                 da_entry_size (dst_array st.1) = DST_ENTRY_SIZE.
Proof. by intros [_ ->]. Qed.

Lemma dst_get_entry_ok st seg e :
  dst_wf st.1 -> da_inv (dst_array st.1) st.2 -> 0 <= seg < dst_nr_segment st.1 ->
  dst_entry_at st seg = Some e -> dst_get_entry seg st = (Ok e, st).
Proof.
  intros Hwf Hda Hs He. destruct (dst_array_geom st Hwf) as [Hn _].
  rewrite /dst_entry_at fmap_Some in He. destruct He as (raw & Hraw & ->).
  rewrite /dst_get_entry /se_bind /dst_lift.
  rewrite (disk_array_get_ok _ _ _ raw Hda) //; [by destruct st|]. by rewrite Hn.
Qed.

Lemma dst_get_entry_oob st seg :
  dst_wf st.1 -> ~ (0 <= seg < dst_nr_segment st.1) -> dst_get_entry seg st = (Err EINVAL, st).
Proof.
  intros Hwf Hs. destruct (dst_array_geom st Hwf) as [Hn _].
  rewrite /dst_get_entry /se_bind /dst_lift disk_array_get_oob ?Hn //. by destruct st.
Qed.

Lemma dst_set_entry_ok st seg e :
  dst_wf st.1 -> da_inv (dst_array st.1) st.2 -> 0 <= seg < dst_nr_segment st.1 ->
  dst_entry_ok e ->
  exists bm', dst_set_entry seg e st = (Ok tt, (st.1, bm')) /\
    da_inv (dst_array st.1) bm' /\ da_frame (dst_array st.1) st.2 bm' /\
    (forall s, 0 <= s < dst_nr_segment st.1 ->
       dst_entry_at (st.1, bm') s = if decide (s = seg) then Some e else dst_entry_at st s).
Proof.
  intros Hwf Hda Hs He. destruct (dst_array_geom st Hwf) as [Hn Hsz].
  pose proof (dst_entry_ok_wf e He) as Hwfe.
  destruct (disk_array_set_ok (dst_array st.1) st.2 seg (cenc dst_entry_codec e) Hda)
    as (bm' & Hset & Hinv & Hfr & Hent).
  { by rewrite Hn. }
  { rewrite Hsz. by rewrite cenc_length. }
  exists bm'. split; [by rewrite /dst_set_entry /dst_lift Hset|]. split; [done|]. split; [done|].
  intros s Hr. rewrite /dst_entry_at. cbn [fst snd]. rewrite Hent; last by rewrite Hn.
  case_decide; [|done]. rewrite (_ : cdec dst_entry_codec <$> Some (cenc dst_entry_codec e) =
    Some (cdec dst_entry_codec (cenc dst_entry_codec e))) //. by rewrite cdec_enc.
Qed.

(** [dst_destroy_victim] in one formula: removing an absent victim removes
    nothing. *)
Lemma dst_destroy_victim_run st E seg :
  victims_ok (dst_nr_segment st.1) E (dst_node_list st.1) (dst_victims st.1) ->
  dst_destroy_victim seg st =
    (Ok tt, (dst_with (delete seg (dst_node_list st.1))
               (filter (fun x => vi_segno x <> seg) (dst_victims st.1)) st.1, st.2)).
Proof.
  intros (_ & _ & Hnl & _). rewrite /dst_destroy_victim /se_bind /dst_remove_victim.
  destruct (dst_node_list st.1 !! seg) as [v|] eqn:E'.
  - apply Hnl in E' as [_ Hseg]. by rewrite /rb_erase Hseg.
  - rewrite delete_id // filter_all; [by destruct st as [[] ?]|].
    apply Forall_forall => x Hx Heq. assert (dst_node_list st.1 !! seg = Some x) by (by apply Hnl).
    congruence.
Qed.

(** Writing an entry and refreshing the victim of its segment. *)
Lemma dst_store_ok st seg e :
  dst_inv st -> 0 <= seg < dst_nr_segment st.1 -> dst_entry_ok e ->
  exists st',
    (dst_set_entry seg e ;;;
     dst_update_victim seg (de_nr_valid_block e) (de_block_validity_table e)) st = (Ok tt, st') /\
    dst_inv st' /\ dst_step seg st st' /\ dst_entry_at st' seg = Some e /\
    (forall v, v ∈ dst_victims st'.1 <->
       (v ∈ dst_victims st.1 /\ vi_segno v <> seg) \/
       (de_nr_valid_block e < BLOCKS_PER_SEGMENT /\
        v = victim_create seg (de_nr_valid_block e) (de_block_validity_table e))).
Proof.
  intros (Hwf & Hda & Hent & Hvic) Hseg He.
  destruct (dst_set_entry_ok st seg e Hwf Hda Hseg He) as (bm' & Hset & Hda' & Hfr & Hent').
  rewrite (se_bind_ok _ _ _ _ _ Hset) /dst_update_victim.
  rewrite (se_bind_ok _ _ _ _ _ (dst_destroy_victim_run (st.1, bm') (dst_entry_at st) seg Hvic)).
  cbn [fst snd].
  set (d1 := dst_with _ _ st.1).
  set (E' := fun s => if decide (s = seg) then Some e else dst_entry_at st s).
  assert (victims_ok (dst_nr_segment st.1) E' (dst_node_list d1) (dst_victims d1)) as Hvic1.
  { apply victims_ok_erase with (dst_entry_at st); [done|]. intros s Hs. rewrite /E'. by case_decide. }
  assert (forall nl vs, victims_ok (dst_nr_segment st.1) E' nl vs ->
            dst_inv (dst_with nl vs d1, bm') /\ dst_step seg st (dst_with nl vs d1, bm') /\
            dst_entry_at (dst_with nl vs d1, bm') seg = Some e) as Hdone.
  { intros nl vs (? & ? & ? & Hv).
    assert (forall s, 0 <= s < dst_nr_segment st.1 ->
      dst_entry_at (dst_with nl vs d1, bm') s = E' s) as HE by exact Hent'.
    split; [|split]; [split; [done|split; [done|split; [|split; [done|split; [done|split; [done|]]]]]]| |].
    - intros s Hs. rewrite HE // /E'. case_decide; [by exists e|]. by apply Hent.
    - intros v Hin. destruct (Hv v Hin) as (Hr & ? & Hev).
      split; [done|]. split; [done|]. by rewrite HE.
    - split; [done|]. split; [done|]. split; [done|]. split; [done|].
      intros s Hs Hne. rewrite HE // /E'. by case_decide.
    - rewrite HE // /E'. by case_decide. }
  destruct (Z.leb_spec BLOCKS_PER_SEGMENT (de_nr_valid_block e)).
  - exists (d1, bm'). split; [done|].
    destruct (Hdone (dst_node_list d1) (dst_victims d1) Hvic1) as (? & ? & ?).
    split; [done|]. split; [done|]. split; [done|]. intros v. cbn [d1 dst_with dst_victims fst].
    rewrite list_elem_of_filter. split; [naive_solver|]. intros [[? ?]|[? _]]; [done|lia].
  - eexists. split; [done|]. cbn [fst snd].
    destruct (Hdone (<[seg := victim_create seg (de_nr_valid_block e) (de_block_validity_table e)]>
       (dst_node_list d1)) (rb_add (victim_create seg (de_nr_valid_block e)
         (de_block_validity_table e)) (dst_victims d1))) as (? & ? & ?).
    { apply victims_ok_add; try done.
      - apply lookup_delete_eq.
      - rewrite /E' decide_True //. by destruct e. }
    split; [done|]. split; [done|]. split; [done|]. intros v. cbn [d1 dst_with dst_victims fst].
    rewrite elem_of_rb_add list_elem_of_filter. naive_solver.
Qed.
End dst_facts.

Section dst_ops.
Implicit Types (st : dst_state) (e : dst_entry).

Definition full_entry : dst_entry :=
  {| de_nr_valid_block := BLOCKS_PER_SEGMENT;
     de_block_validity_table := replicate (Z.to_nat BLOCKS_PER_SEGMENT) true |}.

(** Entry [e] with block [off] marked (in)valid and the counter adjusted. *)
Definition entry_mark (off : Z) (b : bool) (e : dst_entry) : dst_entry :=
  {| de_nr_valid_block := de_nr_valid_block e + (if b then 1 else - 1);
     de_block_validity_table := <[Z.to_nat off := b]> (de_block_validity_table e) |}.

Lemma full_entry_ok : dst_entry_ok full_entry.
Proof. split; [apply length_replicate|]. by rewrite /= count_true_replicate. Qed.

Lemma entry_mark_ok off (b : bool) e :
  dst_entry_ok e -> de_block_validity_table e !! Z.to_nat off = Some (negb b) ->
  dst_entry_ok (entry_mark off b e).
Proof.
  intros [Hl Hc] Hb. split; simpl; [by rewrite length_insert|].
  rewrite (count_true_insert _ _ (negb b)) // -Hc. destruct b; simpl; lia.
Qed.

Lemma entry_count_bounds e :
  dst_entry_ok e -> 0 <= de_nr_valid_block e <= BLOCKS_PER_SEGMENT.
Proof.
  intros [Hl Hc]. pose proof (count_true_bound (de_block_validity_table e)) as Hb.
  rewrite Hl in Hb. change (Z.of_nat (Z.to_nat BLOCKS_PER_SEGMENT)) with BLOCKS_PER_SEGMENT in Hb. lia.
Qed.

(** A block that is valid (invalid) makes the counter nonzero (not full). *)
Lemma entry_count_bit (off : nat) (b : bool) e :
  dst_entry_ok e -> de_block_validity_table e !! off = Some b ->
  if b then 0 < de_nr_valid_block e else de_nr_valid_block e < BLOCKS_PER_SEGMENT.
Proof.
  intros [Hl Hc] Hb. rewrite Hc.
  pose proof (count_true_insert _ off b (negb b) Hb) as Hi.
  pose proof (count_true_bound (<[off := negb b]> (de_block_validity_table e))) as Hbd.
  rewrite length_insert Hl in Hbd.
  change (Z.of_nat (Z.to_nat BLOCKS_PER_SEGMENT)) with BLOCKS_PER_SEGMENT in Hbd.
  destruct b; simpl in *; lia.
Qed.

Lemma block_offset_range blk :
  0 <= __block_offset_whthin_segment blk < BLOCKS_PER_SEGMENT.
Proof. by apply Z.mod_pos_bound. Qed.

Lemma dst_entry_inv st seg :
  dst_inv st -> 0 <= seg < dst_nr_segment st.1 ->
  exists e, dst_entry_at st seg = Some e /\ dst_entry_ok e /\ dst_get_entry seg st = (Ok e, st).
Proof.
  intros (Hwf & Hda & Hent & _) Hs. destruct (Hent seg Hs) as (e & He & Hok).
  exists e. split; [done|]. split; [done|]. by apply dst_get_entry_ok.
Qed.

Lemma dst_take_segment_busy st seg e :
  dst_inv st -> 0 <= seg < dst_nr_segment st.1 -> dst_entry_at st seg = Some e ->
  de_nr_valid_block e <> 0 -> dst_take_segment seg st = (Err EINVAL, st).
Proof.
  intros Hinv Hs He Hne. destruct (dst_entry_inv st seg Hinv Hs) as (e' & He' & _ & Hget).
  rewrite He in He'. injection He' as <-.
  rewrite /dst_take_segment (se_bind_ok _ _ _ _ _ Hget). ztest. done.
Qed.

Lemma dst_take_segment_ok st seg e :
  dst_inv st -> 0 <= seg < dst_nr_segment st.1 -> dst_entry_at st seg = Some e ->
  de_nr_valid_block e = 0 ->
  exists st', dst_take_segment seg st = (Ok tt, st') /\ dst_inv st' /\ dst_step seg st st' /\
    dst_entry_at st' seg = Some full_entry /\
    (forall v, v ∈ dst_victims st'.1 <-> v ∈ dst_victims st.1 /\ vi_segno v <> seg).
Proof.
  intros Hinv Hs He H0. destruct (dst_entry_inv st seg Hinv Hs) as (e' & He' & _ & Hget).
  rewrite He in He'. injection He' as <-.
  destruct (dst_store_ok st seg full_entry Hinv Hs full_entry_ok) as (st' & Hrun & Hi & Hst & Hent & Hv).
  exists st'. split; [|split; [done|split; [done|split; [done|]]]].
  - rewrite /dst_take_segment (se_bind_ok _ _ _ _ _ Hget) H0 /=. rewrite -Hrun.
    rewrite /se_bind /dst_update_victim /full_entry.
    destruct (dst_set_entry seg _ st) as [[]?]; [|done].
    rewrite /se_bind. destruct (dst_destroy_victim seg _) as [[[]|] ?]; done.
  - intros v. rewrite Hv. naive_solver lia.
Qed.

Lemma dst_take_block_full st blk e :
  dst_inv st -> 0 <= __block_to_segment blk < dst_nr_segment st.1 ->
  dst_entry_at st (__block_to_segment blk) = Some e ->
  de_nr_valid_block e = BLOCKS_PER_SEGMENT -> dst_take_block blk st = (Err EINVAL, st).
Proof.
  intros Hinv Hs He Hne. destruct (dst_entry_inv st _ Hinv Hs) as (e' & He' & _ & Hget).
  rewrite He in He'. injection He' as <-.
  rewrite /dst_take_block (se_bind_ok _ _ _ _ _ Hget). ztest. done.
Qed.

Lemma dst_take_block_ok st blk e :
  dst_inv st -> 0 <= __block_to_segment blk < dst_nr_segment st.1 ->
  dst_entry_at st (__block_to_segment blk) = Some e ->
  de_block_validity_table e !! Z.to_nat (__block_offset_whthin_segment blk) = Some false ->
  let e' := entry_mark (__block_offset_whthin_segment blk) true e in
  exists st', dst_take_block blk st = (Ok tt, st') /\ dst_inv st' /\
    dst_step (__block_to_segment blk) st st' /\
    dst_entry_at st' (__block_to_segment blk) = Some e' /\
    (forall v, v ∈ dst_victims st'.1 <->
       (v ∈ dst_victims st.1 /\ vi_segno v <> __block_to_segment blk) \/
       (de_nr_valid_block e' < BLOCKS_PER_SEGMENT /\
        v = victim_create (__block_to_segment blk) (de_nr_valid_block e') (de_block_validity_table e'))).
Proof.
  intros Hinv Hs He Hb e'. destruct (dst_entry_inv st _ Hinv Hs) as (e0 & He0 & Hok & Hget).
  rewrite He in He0. injection He0 as <-.
  destruct (dst_store_ok st _ e' Hinv Hs) as (st' & Hrun & ?).
  { by apply entry_mark_ok. }
  exists st'. split; [|done]. rewrite /dst_take_block (se_bind_ok _ _ _ _ _ Hget).
  pose proof (entry_count_bit _ _ _ Hok Hb) as Hlt. simpl in Hlt. ztest. exact Hrun.
Qed.

Lemma dst_return_block_ok st blk e :
  dst_inv st -> 0 <= __block_to_segment blk < dst_nr_segment st.1 ->
  dst_entry_at st (__block_to_segment blk) = Some e ->
  de_block_validity_table e !! Z.to_nat (__block_offset_whthin_segment blk) = Some true ->
  let e' := entry_mark (__block_offset_whthin_segment blk) false e in
  exists st', dst_return_block blk st = (Ok tt, st') /\ dst_inv st' /\
    dst_step (__block_to_segment blk) st st' /\
    dst_entry_at st' (__block_to_segment blk) = Some e' /\
    (forall v, v ∈ dst_victims st'.1 <->
       (v ∈ dst_victims st.1 /\ vi_segno v <> __block_to_segment blk) \/
       v = victim_create (__block_to_segment blk) (de_nr_valid_block e') (de_block_validity_table e')).
Proof.
  intros Hinv Hs He Hb e'. destruct (dst_entry_inv st _ Hinv Hs) as (e0 & He0 & Hok & Hget).
  rewrite He in He0. injection He0 as <-.
  destruct (dst_store_ok st _ e' Hinv Hs) as (st' & Hrun & Hi & Hst & Hent & Hv).
  { by apply entry_mark_ok. }
  pose proof (entry_count_bit _ _ _ Hok Hb) as Hlt. simpl in Hlt.
  pose proof (entry_count_bounds _ Hok) as Hbd.
  exists st'. split; [|split; [done|split; [done|split; [done|]]]].
  - rewrite /dst_return_block (se_bind_ok _ _ _ _ _ Hget). ztest. exact Hrun.
  - intros v. rewrite Hv. assert (de_nr_valid_block e' < BLOCKS_PER_SEGMENT) by (simpl; lia). naive_solver.
Qed.

(** ** Loading the victims from the table *)
Lemma dst_load_loop_ok n segno st :
  dst_inv st -> 0 <= segno -> segno + Z.of_nat n = dst_nr_segment st.1 ->
  (forall v, v ∈ dst_victims st.1 -> vi_segno v < segno) ->
  exists st', dst_load_loop n segno st = (Ok tt, st') /\ dst_inv st' /\ st'.2 = st.2 /\
    dst_start st'.1 = dst_start st.1 /\ dst_nr_segment st'.1 = dst_nr_segment st.1 /\
    (forall v, v ∈ dst_victims st'.1 <-> v ∈ dst_victims st.1 \/
       (segno <= vi_segno v < dst_nr_segment st.1 /\ vi_nr_valid_block v < BLOCKS_PER_SEGMENT /\
        dst_entry_at st (vi_segno v) = Some (victim_entry v))).
Proof.
  revert segno st. induction n as [|n IH] => segno st Hinv H0 Hn Hlt.
  { exists st. split; [done|]. do 4 (split; [done|]). intros v. split; [naive_solver|].
    intros [?|(? & _)]; [done|lia]. }
  cbn [dst_load_loop].
  destruct (dst_entry_inv st segno Hinv ltac:(lia)) as (e & He & Hok & Hget).
  rewrite /se_bind /se_map_err Hget.
  pose proof Hinv as (Hwf & Hda & Hent & Hvic). pose proof Hvic as (_ & _ & Hnl & _).
  destruct (Z.ltb_spec (de_nr_valid_block e) BLOCKS_PER_SEGMENT) as [Hlt'|Hge].
  - cbn [dst_add_victim se_modify].
    set (v0 := victim_create segno (de_nr_valid_block e) (de_block_validity_table e)).
    set (st1 := (dst_with (<[segno := v0]> (dst_node_list st.1)) (rb_add v0 (dst_victims st.1)) st.1, st.2)).
    assert (dst_node_list st.1 !! segno = None) as Hnone.
    { destruct (dst_node_list st.1 !! segno) as [x|] eqn:E; [|done].
      apply Hnl in E as [Hin Hx]. specialize (Hlt x Hin). lia. }
    destruct (IH (segno + 1) st1) as (st' & Hrun & Hi & Hb & Hs1 & Hs2 & Hv).
    { split; [done|]. split; [done|]. split; [done|].
      apply (victims_ok_add (dst_nr_segment st.1) (dst_entry_at st)); [done|done|done| |done|].
      - lia.
      - rewrite He. by destruct e. }
    { lia. }
    { simpl. lia. }
    { intros v [->|Hin]%elem_of_rb_add; [simpl; lia|]. specialize (Hlt v Hin). lia. }
    exists st'. split; [exact Hrun|]. do 4 (split; [done|]).
    intros v. rewrite Hv. cbn [st1 fst dst_with dst_victims dst_nr_segment]. rewrite elem_of_rb_add.
    change (dst_entry_at st1 (vi_segno v)) with (dst_entry_at st (vi_segno v)). split.
    + intros [[->|?]|(? & ? & ?)]; [right|by left|right].
      * simpl. rewrite He. split; [lia|]. split; [done|]. by destruct e.
      * split; [lia|done].
    + intros [?|(Hr & Hn' & Hev)]; [by left; right|].
      destruct (decide (vi_segno v = segno)) as [Heq|].
      * left; left. rewrite Heq He in Hev. injection Hev as ->. by destruct v; simpl in *; subst.
      * right. split; [lia|done].
  - cbn [se_ret].
    destruct (IH (segno + 1) st) as (st' & Hrun & Hi & Hb & Hs1 & Hs2 & Hv); [done|lia|lia| |].
    { intros v Hin. specialize (Hlt v Hin). lia. }
    exists st'. split; [exact Hrun|]. do 4 (split; [done|]).
    intros v. rewrite Hv. split.
    + intros [?|(? & ? & ?)]; [by left|right]. split; [lia|done].
    + intros [?|(Hr & Hn' & Hev)]; [by left|right]. split; [|done].
      destruct (decide (vi_segno v = segno)) as [Heq|]; [|lia].
      rewrite Heq He in Hev. injection Hev as ->. simpl in Hge. lia.
Qed.

Lemma dst_init_ok st start nr :
  0 <= nr -> da_inv (dst_array (dst_blank start nr)) st.2 ->
  dst_entries_ok (dst_blank start nr, st.2) ->
  exists st', dst_init start nr st = (Ok tt, st') /\ dst_inv st' /\ st'.2 = st.2 /\
    dst_start st'.1 = start /\ dst_nr_segment st'.1 = nr /\
    (forall v, v ∈ dst_victims st'.1 <->
       (0 <= vi_segno v < nr /\ vi_nr_valid_block v < BLOCKS_PER_SEGMENT /\
        dst_entry_at (dst_blank start nr, st.2) (vi_segno v) = Some (victim_entry v))).
Proof.
  intros Hnr Hda Hent.
  destruct (dst_load_loop_ok (Z.to_nat nr) 0 (dst_blank start nr, st.2)) as (st' & Hrun & Hi & Hb & Hs & Hn & Hv).
  { split; [done|]. split; [done|]. split; [done|]. apply victims_ok_nil. }
  { lia. }
  { simpl. lia. }
  { intros v Hv. by apply not_elem_of_nil in Hv. }
  exists st'. split; [exact Hrun|]. do 4 (split; [done|]).
  intros v. rewrite Hv. cbn [fst dst_blank dst_victims dst_nr_segment].
  split; [intros [Hin|?]; [by apply not_elem_of_nil in Hin|done]|by right].
Qed.

Lemma dst_peek_victim_first st v x :
  dst_inv st -> dst_peek_victim st.1 = Some v -> x ∈ dst_victims st.1 ->
  vi_nr_valid_block v <= vi_nr_valid_block x.
Proof.
  intros (_ & _ & _ & Hs & _) Hp Hin. rewrite /dst_peek_victim /rb_first in Hp.
  destruct (dst_victims st.1) as [|y l]; [done|]. injection Hp as ->.
  apply elem_of_cons in Hin as [->|Hin]; [done|].
  apply StronglySorted_inv in Hs as [_ Hall]. by eapply Forall_forall in Hall.
Qed.

Lemma dst_remove_victim_ok st seg :
  dst_inv st ->
  exists o st', dst_remove_victim seg st = (Ok o, st') /\ dst_inv st' /\ st'.2 = st.2 /\
    o = dst_node_list st.1 !! seg /\ dst_step seg st st' /\
    (forall v, v ∈ dst_victims st'.1 <-> v ∈ dst_victims st.1 /\ vi_segno v <> seg).
Proof.
  intros (Hwf & Hda & Hent & Hvic).
  pose proof (dst_destroy_victim_run st _ seg Hvic) as Hrun.
  rewrite /dst_destroy_victim /se_bind in Hrun.
  exists (dst_node_list st.1 !! seg).
  destruct (dst_remove_victim seg st) as [r st'] eqn:E.
  assert (r = Ok (dst_node_list st.1 !! seg)) as ->.
  { rewrite /dst_remove_victim in E. by destruct (dst_node_list st.1 !! seg); simplify_eq. }
  injection Hrun as ->. eexists. split; [done|].
  split; [|split; [done|split; [done|split]]].
  - split; [done|]. split; [done|]. split; [done|].
    by apply victims_ok_erase with (dst_entry_at st).
  - by split_and!.
  - intros v. cbn [fst dst_with dst_victims]. rewrite list_elem_of_filter. naive_solver.
Qed.

(** The invariant depends on the device through the table's entries only. *)
Lemma dst_inv_same d bm bm' :
  dst_inv (d, bm) -> da_inv (dst_array d) bm' ->
  (forall s, 0 <= s < dst_nr_segment d -> dst_entry_at (d, bm') s = dst_entry_at (d, bm) s) ->
  dst_inv (d, bm').
Proof.
  intros (Hwf & Hda & Hent & Hs & Hnd & Hnl & Hv) Hda' Hsame. cbn [fst snd] in *.
  split; [done|]. split; [done|]. split.
  - intros s Hr. rewrite Hsame //. by apply Hent.
  - split; [done|]. split; [done|]. split; [done|]. intros v Hin.
    destruct (Hv v Hin) as (Hr & Hlt & He). split; [done|]. split; [done|]. by rewrite Hsame.
Qed.

(** ** Formatting: what the table held before does not matter *)
Lemma dst_load_loop_total n segno st :
  da_inv (dst_array st.1) st.2 -> 0 <= segno -> segno + Z.of_nat n <= da_nr_entry (dst_array st.1) ->
  exists d', dst_load_loop n segno st = (Ok tt, (d', st.2)) /\ dst_start d' = dst_start st.1 /\
    dst_nr_segment d' = dst_nr_segment st.1 /\ dst_array d' = dst_array st.1.
Proof.
  revert segno st. induction n as [|n IH] => segno [d bm] Hda H0 Hn; cbn [fst snd] in *.
  { by exists d. }
  destruct (da_entry_is_some _ _ segno Hda ltac:(lia)) as [e He].
  pose proof (disk_array_get_ok _ _ segno e Hda ltac:(lia) He) as Hget.
  cbn [dst_load_loop]. rewrite /se_bind /se_map_err /dst_get_entry /se_bind /dst_lift.
  cbn [fst snd]. rewrite Hget. cbn [se_ret].
  destruct (_ <? _).
  - rewrite /dst_add_victim /se_modify. cbn [fst snd].
    match goal with |- context [dst_load_loop n (segno + 1) ?s1] =>
      destruct (IH (segno + 1) s1 Hda ltac:(lia) ltac:(simpl; lia)) as (d' & -> & ?) end.
    by exists d'.
  - destruct (IH (segno + 1) (d, bm) Hda ltac:(lia) ltac:(simpl; lia)) as (d' & Hrun & ?).
    exists d'. by rewrite /se_ret Hrun.
Qed.

Lemma dst_drain_total n st :
  exists d', dst_drain n st = (Ok tt, (d', st.2)).
Proof.
  revert st. induction n as [|n IH] => st; [by exists st.1; destruct st|].
  cbn [dst_drain]. rewrite /se_bind /se_get. destruct (dst_victim_empty st.1); [by exists st.1; destruct st|].
  assert (exists o d1, dst_pop_victim st = (Ok o, (d1, st.2))) as (o & d1 & ->); [|by apply (IH (d1, st.2))].
  rewrite /dst_pop_victim /se_bind /se_get. destruct (dst_peek_victim st.1) as [v|];
    [|by exists None, st.1; destruct st].
  rewrite /dst_remove_victim. destruct (dst_node_list st.1 !! vi_segno v); [by eexists _, _|].
  by exists None, st.1; destruct st.
Qed.

Definition empty_entry : dst_entry :=
  {| de_nr_valid_block := 0; de_block_validity_table := replicate (Z.to_nat BLOCKS_PER_SEGMENT) false |}.

Lemma empty_entry_dec :
  cdec dst_entry_codec (replicate (Z.to_nat DST_ENTRY_SIZE) Byte.x00) = empty_entry.
Proof. by vm_compute. Qed.

Lemma dst_format_ok st :
  dst_wf st.1 -> da_inv (dst_array st.1) st.2 ->
  exists st', dst_format st = (Ok tt, st') /\ dst_inv st' /\ da_frame (dst_array st.1) st.2 st'.2 /\
    dst_start st'.1 = dst_start st.1 /\ dst_nr_segment st'.1 = dst_nr_segment st.1 /\
    (forall s, 0 <= s < dst_nr_segment st.1 -> dst_entry_at st' s = Some empty_entry).
Proof.
  destruct st as [d bm]. intros [Hnr Harr] Hda; cbn [fst snd] in *.
  destruct (disk_array_format_ok (dst_array d) false bm Hda) as (bm' & Hrun & Hda' & Hfr & Hent).
  rewrite /dst_format /se_bind /dst_lift. cbn [fst snd]. rewrite Hrun. cbn [se_get fst snd].
  destruct (dst_drain_total (length (dst_victims d)) (d, bm')) as (d1 & ->). cbn [snd].
  assert (forall s, 0 <= s < dst_nr_segment d ->
    dst_entry_at (dst_blank (dst_start d) (dst_nr_segment d), bm') s = Some empty_entry) as Hz.
  { intros s Hs. rewrite /dst_entry_at. cbn [fst snd dst_blank dst_array]. rewrite -Harr Hent; last first.
    { rewrite Harr. exact Hs. }
    rewrite Harr. cbn [disk_array_create da_entry_size]. rewrite -empty_entry_dec. done. }
  destruct (dst_init_ok (d1, bm') (dst_start d) (dst_nr_segment d)) as (st' & Hini & Hi & Hb & Hs1 & Hs2 & _).
  { done. }
  { cbn [snd dst_blank dst_array]. by rewrite -Harr. }
  { intros s Hs. exists empty_entry. split; [by apply Hz|]. by vm_compute. }
  exists st'. split; [exact Hini|]. split; [done|]. rewrite Hb. split; [done|].
  split; [done|]. split; [done|]. intros s Hs.
  destruct Hi as ([_ Ha] & _). rewrite /dst_entry_at Ha Hs1 Hs2 Hb. by apply Hz.
Qed.
End dst_ops.
