(* ===== verification/Catalogue.v ===== *)
(** * The catalogue of BIT files (source/metadata.c)

    The catalogue records which BIT files of the index region are in use (a
    segment validator over a bit table) and, per file, its root, level,
    version and key range (a disk array of [struct file_stat]).  It is the
    [struct lsm_catalogue] the LSM tree is given. *)
From S2P Require Import Prelude Codec BlockManager DiskStructs Crypto BitNode Superblock SegValidator.
Local Open Scope se_scope.

(** ** struct file_stat; [fs_node] is the list link, stored as raw bytes *)
Record file_stat : Type := {
  fs_root : Z;
  fs_filter_begin : Z;
  fs_root_key : list byte;
  fs_root_iv : list byte;
  fs_id : Z;
  fs_level : Z;
  fs_version : Z;
  fs_first_key : Z;
  fs_last_key : Z;
  fs_node : list byte
}.

Definition file_stat_codec : codec file_stat :=
  c_iso
    (c_pair c_u64 (c_pair c_u64 (c_pair (c_raw AES_GCM_KEY_SIZE) (c_pair (c_raw AES_GCM_IV_SIZE)
    (c_pair c_u64 (c_pair c_u64 (c_pair c_u64 (c_pair c_u32 (c_pair c_u32 (c_raw 16))))))))))
    (fun s => (fs_root s, (fs_filter_begin s, (fs_root_key s, (fs_root_iv s, (fs_id s, (fs_level s,
      (fs_version s, (fs_first_key s, (fs_last_key s, fs_node s))))))))))
    (fun '(a, (b, (c, (d, (e, (f, (g, (h, (i, j))))))))) =>
      {| fs_root := a; fs_filter_begin := b; fs_root_key := c; fs_root_iv := d; fs_id := e;
         fs_level := f; fs_version := g; fs_first_key := h; fs_last_key := i; fs_node := j |}).

#[export] Instance file_stat_codec_ok : CodecOk file_stat_codec.
Proof. apply c_iso_ok; [apply _|by intros []]. Qed.

Definition FILE_STAT_SIZE : Z := Z.of_nat (csize file_stat_codec).

Lemma file_stat_size : FILE_STAT_SIZE = 92.
Proof. done. Qed.

(** ** struct bit_catalogue, with the fields of its [struct lsm_catalogue] *)
Record bit_catalogue : Type := {
  bc_start : Z;
  bc_index_region_start : Z;
  bc_nr_bit : Z;
  bc_max_version : Z;
  bc_bit_validity_table : seg_validator disk_bitset;
  bc_file_stats : disk_array;
  lc_start : Z;
  lc_nr_disk_level : Z;
  lc_common_ratio : Z;
  lc_max_level_nr_file : Z;
  lc_total_file : Z;
  lc_file_size : Z
}.

Definition bc_set_validity (v : seg_validator disk_bitset) (c : bit_catalogue) : bit_catalogue :=
  {| bc_start := bc_start c; bc_index_region_start := bc_index_region_start c;
     bc_nr_bit := bc_nr_bit c; bc_max_version := bc_max_version c;
     bc_bit_validity_table := v; bc_file_stats := bc_file_stats c;
     lc_start := lc_start c; lc_nr_disk_level := lc_nr_disk_level c;
     lc_common_ratio := lc_common_ratio c; lc_max_level_nr_file := lc_max_level_nr_file c;
     lc_total_file := lc_total_file c; lc_file_size := lc_file_size c |}.

Definition bc_set_max_version (m : Z) (c : bit_catalogue) : bit_catalogue :=
  {| bc_start := bc_start c; bc_index_region_start := bc_index_region_start c;
     bc_nr_bit := bc_nr_bit c; bc_max_version := m;
     bc_bit_validity_table := bc_bit_validity_table c; bc_file_stats := bc_file_stats c;
     lc_start := lc_start c; lc_nr_disk_level := lc_nr_disk_level c;
     lc_common_ratio := lc_common_ratio c; lc_max_level_nr_file := lc_max_level_nr_file c;
     lc_total_file := lc_total_file c; lc_file_size := lc_file_size c |}.

Definition bc_state : Type := bit_catalogue * dm_block_manager.

(** Run an operation of the validator, or of the block manager, in place. *)
Definition bc_sv {A} (m : SE (sv_state disk_bitset dm_block_manager) A) : SE bc_state A :=
  se_zoom (fun st => (bc_bit_validity_table st.1, st.2))
          (fun s st => (bc_set_validity s.1 st.1, s.2)) m.
Definition bc_bm {A} (m : bit_catalogue -> SE dm_block_manager A) : SE bc_state A := fun st =>
  let '(r, bm) := m st.1 st.2 in (r, (st.1, bm)).

Definition bitc_alloc_file : SE bc_state Z :=
  fd <- bc_sv seg_validator_next ;;
  bc_sv (seg_validator_take fd) ;;;
  se_ret fd.

Definition bitc_release_file (fd : Z) : SE bc_state unit :=
  bc_sv (seg_validator_test_and_return fd) ;;;
  se_ret tt.

Definition bitc_set_file_stats (fd : Z) (stats : file_stat) : SE bc_state unit :=
  bc_bm (fun c => disk_array_set (bc_file_stats c) fd (cenc file_stat_codec stats)).

(** [file_stats->get] into a [struct file_stat]. *)
Definition bitc_read_stat (fd : Z) : SE bc_state file_stat :=
  raw <- bc_bm (fun c => disk_array_get (bc_file_stats c) fd) ;;
  se_ret (cdec file_stat_codec raw).

Definition bitc_get_file_stats (fd : Z) : SE bc_state file_stat :=
  se_map_err (fun _ => ENODATA) (bitc_read_stat fd).

(** [for (i = 0; i < nr_segment; ++i)]: [n] rounds from [i].  The list is an
    output even when the loop stops at an unreadable bit, so it is returned
    with the error code; a file whose stat cannot be read is skipped. *)
Fixpoint bitc_stats_loop (n : nat) (i : Z) (stats : list file_stat)
    : SE bc_state (list file_stat * Z) :=
  match n with
  | O => se_ret (stats, 0)
  | S n =>
      r <- se_try (bc_bm (fun c => disk_bitset_get (seg_validity_table (bc_bit_validity_table c)) i)) ;;
      match r with
      | Err e => se_ret (stats, e)
      | Ok false => bitc_stats_loop n (i + 1) stats
      | Ok true =>
          r <- se_try (bitc_read_stat i) ;;
          bitc_stats_loop n (i + 1) (match r with Ok stat => stats ++ [stat] | Err _ => stats end)
      end
  end.

Definition bitc_get_all_file_stats : SE bc_state (list file_stat * Z) :=
  st <- se_get ;;
  bitc_stats_loop (Z.to_nat (sv_nr_segment (bc_bit_validity_table st.1))) 0 [].

Definition bitc_get_next_version : SE bc_state Z :=
  st <- se_get ;;
  se_modify (fun st => (bc_set_max_version (u64 (bc_max_version st.1 + 1)) st.1, st.2)) ;;;
  se_ret (bc_max_version st.1).

Definition bit_catalogue_format : SE bc_state unit :=
  bc_sv seg_validator_format ;;;
  bc_bm (fun c => disk_array_format (bc_file_stats c) false).

(** [list_for_each_entry]: [if (max_version < info->version) max_version = info->version + 1]. *)
Definition version_step (max_version : Z) (info : file_stat) : Z :=
  if max_version <? fs_version info then u64 (fs_version info + 1) else max_version.

(** The error code of [bitc_get_all_file_stats] is not looked at. *)
Definition bitc_get_current_version : SE bc_state Z :=
  r <- bitc_get_all_file_stats ;;
  se_ret (foldl version_step 0 r.1).

(** The descriptor [bit_catalogue_init] fills in before it reads the device. *)
Definition bit_catalogue_blank (sb : superblock) : bit_catalogue :=
  let nr_bit := __total_bit (nr_disk_level sb) (common_ratio sb) (max_disk_level_capacity sb) in
  let max_fd := nr_bit + __extra_bit (max_disk_level_capacity sb) in
  let start := block_index_table_catalogue_start sb in
  {| bc_start := start; bc_index_region_start := index_region_start sb;
     bc_nr_bit := nr_bit; bc_max_version := 0;
     bc_bit_validity_table := seg_validator_create start max_fd;
     bc_file_stats := disk_array_create (start + __seg_validity_table_blocks max_fd) max_fd FILE_STAT_SIZE;
     lc_start := index_region_start sb * SWORNDISK_METADATA_BLOCK_SIZE;
     lc_nr_disk_level := nr_disk_level sb; lc_common_ratio := common_ratio sb;
     lc_max_level_nr_file := __total_bit 2 (common_ratio sb) (max_disk_level_capacity sb);
     lc_total_file := nr_bit;
     lc_file_size := calculate_bit_size DEFAULT_LSM_FILE_CAPACITY DEFAULT_BIT_DEGREE |}.

Definition bit_catalogue_init (sb : superblock) : SE bc_state unit :=
  se_modify (fun st => (bit_catalogue_blank sb, st.2)) ;;;
  v <- bitc_get_current_version ;;
  se_modify (fun st => (bc_set_max_version v st.1, st.2)).

(** ** The catalogue as a partial map from file descriptors to stats *)
Definition bc_bits (st : bc_state) : list bool := sv_bits (bc_bit_validity_table st.1, st.2).
Definition bc_stat (st : bc_state) (fd : Z) : option file_stat :=
  cdec file_stat_codec <$> da_entry (bc_file_stats st.1) st.2 fd.
Definition bc_live (st : bc_state) (fd : Z) : option file_stat :=
  match bc_bits st !! Z.to_nat fd with Some true => bc_stat st fd | _ => None end.
Definition bc_max_fd (st : bc_state) : Z := sv_nr_segment (bc_bit_validity_table st.1).

Definition bc_wf (c : bit_catalogue) : Prop :=
  da_wf (bc_file_stats c) /\ da_entry_size (bc_file_stats c) = FILE_STAT_SIZE /\
  da_nr_entry (bc_file_stats c) = sv_nr_segment (bc_bit_validity_table c).
(** The two tables share no block. *)
Definition bc_disjoint (c : bit_catalogue) : Prop :=
  forall b, da_owns (db_array (seg_validity_table (bc_bit_validity_table c))) b ->
    ~ da_owns (bc_file_stats c) b.
Definition bc_inv (st : bc_state) : Prop :=
  bc_wf st.1 /\ sv_inv (bc_bit_validity_table st.1, st.2) /\ da_inv (bc_file_stats st.1) st.2.

Section catalogue_facts.
Implicit Types (st : bc_state).

Lemma bc_sv_bind {A B} (m : SE (sv_state disk_bitset dm_block_manager) A) (k : A -> SE _ B) st :
  se_bind (bc_sv m) (fun a => bc_sv (k a)) st = bc_sv (se_bind m k) st.
Proof.
  rewrite /se_bind /bc_sv /se_zoom. destruct (m _) as [[a|e] s]; [|done].
  cbn [fst snd bc_set_validity bc_bit_validity_table]. by destruct s; destruct (k a _).
Qed.

Lemma bitc_alloc_file_sv st : bitc_alloc_file st = bc_sv seg_validator_alloc st.
Proof.
  rewrite /bitc_alloc_file /seg_validator_alloc.
  rewrite -bc_sv_bind. rewrite /se_bind /bc_sv /se_zoom.
  destruct (seg_validator_next _) as [[a|e] s]; [|done].
  cbn [fst snd bc_set_validity bc_bit_validity_table]. destruct s.
  by destruct (seg_validator_take a _) as [[[]|] ?].
Qed.

(** What an operation on the validity table leaves alone. *)
Lemma bc_inv_frame st v bm :
  bc_inv st -> bc_disjoint st.1 -> sv_inv (v, bm) ->
  sv_frame (bc_bit_validity_table st.1, st.2) (v, bm) ->
  bc_inv (bc_set_validity v st.1, bm) /\ bc_disjoint (bc_set_validity v st.1) /\
  (forall fd, 0 <= fd < bc_max_fd st -> bc_stat (bc_set_validity v st.1, bm) fd = bc_stat st fd).
Proof.
  intros ((Hwf & Hsz & Hn) & Hsv & Hda) Hd Hsv' (Ht & Hnr & Hfr). simpl in *.
  split; [|split].
  - split; [|split; [done|]].
    + split; [done|]. split; [done|]. cbn [bc_set_validity bc_bit_validity_table bc_file_stats].
      by rewrite Hnr.
    + apply (da_frame_inv _ (db_array (seg_validity_table (bc_bit_validity_table st.1))) st.2);
        [by intros b Hb ?; apply (Hd b)|done| |done].
      by destruct Hsv' as ((? & _ & ? & _) & _).
  - rewrite /bc_disjoint. cbn [bc_set_validity bc_bit_validity_table bc_file_stats]. by rewrite Ht.
  - intros fd Hfd. rewrite /bc_stat /=. f_equal.
    eapply da_frame_entry; [by intros b Hb ?; apply (Hd b)|done| |exact Hfr].
    rewrite Hn. exact Hfd.
Qed.

Lemma bitc_alloc_file_spec st :
  bc_inv st -> bc_disjoint st.1 ->
  match bitc_alloc_file st with
  | (Ok fd, st') =>
      0 <= fd < bc_max_fd st /\ bc_live st fd = None /\
      bc_bits st' = <[Z.to_nat fd := true]> (bc_bits st) /\ bc_inv st' /\ bc_disjoint st'.1 /\
      (forall fd', 0 <= fd' < bc_max_fd st -> fd' <> fd -> bc_live st' fd' = bc_live st fd')
  | (Err e, st') =>
      e = ENODATA /\ Forall (fun b => b = true) (bc_bits st) /\ bc_bits st' = bc_bits st
  end.
Proof.
  intros Hinv Hd. rewrite bitc_alloc_file_sv /bc_sv /se_zoom.
  pose proof Hinv as (_ & Hsv & _).
  pose proof (seg_validator_alloc_spec _ _ Hsv) as Hsp.
  destruct (seg_validator_alloc _) as [[fd|e] [v bm]]; simpl in *.
  - destruct Hsp as (Hr & Hb & Hb' & Hsv' & Hfr).
    destruct (bc_inv_frame st v bm Hinv Hd Hsv' Hfr) as (Hi & Hdj & Hst).
    split; [done|]. split; [by rewrite /bc_live /bc_bits Hb|].
    split; [exact Hb'|]. split; [done|]. split; [done|]. intros fd' Hfd' Hne. rewrite /bc_live Hst //.
    rewrite {1}/bc_bits /= Hb' list_lookup_insert_ne; [done|]. lia.
  - by destruct Hsp as (-> & Hall & Hb & _).
Qed.

Lemma bitc_release_file_spec st fd :
  bc_inv st -> bc_disjoint st.1 -> 0 <= fd < bc_max_fd st ->
  exists st', bitc_release_file fd st = (Ok tt, st') /\ bc_inv st' /\ bc_disjoint st'.1 /\
    bc_bits st' = <[Z.to_nat fd := false]> (bc_bits st) /\ bc_live st' fd = None /\
    (forall fd', 0 <= fd' < bc_max_fd st -> fd' <> fd -> bc_live st' fd' = bc_live st fd').
Proof.
  intros Hinv Hd Hfd. pose proof Hinv as (_ & Hsv & _).
  destruct (seg_validator_test_and_return_spec _ _ fd Hsv Hfd) as (old & [v bm] & Hrun & Ho & Hsv' & Hfr & Hb).
  destruct (bc_inv_frame st v bm Hinv Hd Hsv' Hfr) as (Hi & Hdj & Hst).
  exists (bc_set_validity v st.1, bm). split.
  { by rewrite /bitc_release_file /se_bind /bc_sv /se_zoom Hrun. }
  split; [done|]. split; [done|]. split; [exact Hb|]. split.
  - rewrite /bc_live /bc_bits Hb list_lookup_insert_eq; [done|].
    destruct Hsv as (_ & Hl & _). cbn [fst] in Hl. rewrite /bc_max_fd in Hfd. lia.
  - intros fd' Hfd' Hne. rewrite /bc_live Hst //.
    change (bc_bits (bc_set_validity v st.1, bm)) with (sv_bits (v, bm)).
    rewrite Hb list_lookup_insert_ne; [done|]. lia.
Qed.

Lemma bitc_read_stat_ok st fd s :
  bc_inv st -> 0 <= fd < bc_max_fd st -> bc_stat st fd = Some s ->
  bitc_read_stat fd st = (Ok s, st).
Proof.
  intros ((_ & _ & Hn) & _ & Hda) Hfd Hs. rewrite /bc_stat fmap_Some in Hs.
  destruct Hs as (raw & Hraw & ->). rewrite /bitc_read_stat /se_bind /bc_bm.
  rewrite (disk_array_get_ok _ _ _ _ Hda _ Hraw); [by destruct st|]. rewrite Hn. exact Hfd.
Qed.

Lemma bc_stat_is_some st fd : bc_inv st -> 0 <= fd < bc_max_fd st -> is_Some (bc_stat st fd).
Proof.
  intros ((_ & _ & Hn) & _ & Hda) Hfd. rewrite /bc_stat fmap_is_Some.
  apply da_entry_is_some; [done|]. rewrite Hn. exact Hfd.
Qed.

Lemma bitc_set_file_stats_ok st fd s :
  bc_inv st -> bc_disjoint st.1 -> 0 <= fd < bc_max_fd st -> cwf file_stat_codec s ->
  exists st', bitc_set_file_stats fd s st = (Ok tt, st') /\ bc_inv st' /\ bc_disjoint st'.1 /\
    bc_bits st' = bc_bits st /\ bc_max_fd st' = bc_max_fd st /\
    (forall fd', 0 <= fd' < bc_max_fd st ->
       bc_stat st' fd' = if decide (fd' = fd) then Some s else bc_stat st fd').
Proof.
  intros ((Hwf & Hsz & Hn) & Hsv & Hda) Hd Hfd Hcwf.
  destruct (disk_array_set_ok (bc_file_stats st.1) st.2 fd (cenc file_stat_codec s))
    as (bm' & Hrun & Hda' & Hfr & Hent); [done|by rewrite Hn| |].
  { by rewrite cenc_length // Hsz /FILE_STAT_SIZE Nat2Z.id. }
  pose proof Hsv as ((Hdb & Hdai) & Hl & Hc). cbn [fst] in Hl, Hc.
  assert (forall i, 0 <= i < da_nr_entry (db_array (seg_validity_table (bc_bit_validity_table st.1))) ->
    da_entry (db_array (seg_validity_table (bc_bit_validity_table st.1))) bm' i =
    da_entry (db_array (seg_validity_table (bc_bit_validity_table st.1))) st.2 i) as Hsame.
  { intros i Hi. eapply da_frame_entry; [exact Hd|apply Hdb|done|exact Hfr]. }
  assert (sv_bits (bc_bit_validity_table st.1, bm') = bc_bits st) as Hbits.
  { rewrite /bc_bits /sv_bits /=. apply db_bits_same; [apply Hdb|exact Hsame]. }
  exists (st.1, bm'). split; [by rewrite /bitc_set_file_stats /bc_bm Hrun|].
  split; [split; [done|split; [|done]]|].
  - split; [split; [done|]|]; [|split; [|done]].
    + eapply da_frame_inv; [exact Hd|exact Hfr|apply Hda'|done].
    + rewrite Hbits. exact Hl.
  - split; [done|]. split; [exact Hbits|]. split; [done|]. intros fd' Hfd'. rewrite /bc_stat /=.
    rewrite Hent; [|by rewrite Hn]. case_decide; [|done].
    change (Some (cdec file_stat_codec (cenc file_stat_codec s)) = Some s). by rewrite cdec_enc.
Qed.

(** The walk returns the stats of the live files, in the order of their
    descriptors, and no error. *)
Definition bc_live_from (st : bc_state) (i : Z) (n : nat) : list file_stat :=
  omap (bc_live st) (seqZ i (Z.of_nat n)).

Lemma bitc_stats_loop_ok n st i acc :
  bc_inv st -> 0 <= i -> i + Z.of_nat n = bc_max_fd st ->
  bitc_stats_loop n i acc st = (Ok (acc ++ bc_live_from st i n, 0), st).
Proof.
  intros Hinv. revert i acc. induction n as [|n IH] => i acc H0 Hn.
  { rewrite /bc_live_from /= app_nil_r. done. }
  pose proof Hinv as (_ & Hsv & _).
  destruct (sv_bits_is_some _ _ i Hsv) as [b Hb]; [rewrite /bc_max_fd in Hn; lia|].
  assert (bc_live_from st i (S n) =
    (if b then default [] ((fun x => [x]) <$> bc_stat st i) else []) ++ bc_live_from st (i + 1) n) as ->.
  { rewrite /bc_live_from seqZ_cons; last lia. cbn [omap list_omap].
    rewrite {1}/bc_live /bc_bits Hb. replace (Z.pred (Z.of_nat (S n))) with (Z.of_nat n) by lia.
    rewrite /Z.succ. destruct b; [|done]. by destruct (bc_stat st i). }
  cbn [bitc_stats_loop]. destruct (bc_stat_is_some st i Hinv ltac:(lia)) as [s Hs].
  pose proof (bitc_read_stat_ok st i s Hinv ltac:(lia) Hs) as Hrd. rewrite Hs.
  destruct st as [c bm]. rewrite /se_bind /se_try /bc_bm. cbn [fst snd].
  rewrite (disk_bitset_get_ok (seg_validity_table (bc_bit_validity_table c)) bm i b (proj1 Hsv) H0 Hb).
  destruct b.
  - rewrite Hrd IH; [|lia|lia]. by rewrite -app_assoc.
  - by rewrite IH; [|lia|lia].
Qed.

Lemma bitc_get_all_file_stats_ok st :
  bc_inv st ->
  bitc_get_all_file_stats st = (Ok (bc_live_from st 0 (Z.to_nat (bc_max_fd st)), 0), st).
Proof.
  intros Hinv. rewrite /bitc_get_all_file_stats /se_bind /se_get.
  assert (0 <= bc_max_fd st).
  { destruct Hinv as (_ & (_ & Hl & _) & _). rewrite /bc_max_fd. cbn [fst] in Hl. lia. }
  apply (bitc_stats_loop_ok (Z.to_nat (bc_max_fd st)) st 0 []); [done|lia|lia].
Qed.

(** ** Versions *)
Lemma version_fold_bound l m :
  Forall (fun s => 0 <= fs_version s < 2 ^ 64 - 1) l -> 0 <= m ->
  m <= foldl version_step m l /\ Forall (fun s => fs_version s <= foldl version_step m l) l.
Proof.
  revert m. induction l as [|s l IH] => m Hl Hm; [split; [simpl; lia|constructor]|].
  apply Forall_cons in Hl as [Hs Hl]. cbn beta in Hs. cbn [foldl].
  assert (m <= version_step m s /\ fs_version s <= version_step m s) as [H1 H2].
  { rewrite /version_step. zbool; [rewrite u64_small; lia|lia]. }
  destruct (IH (version_step m s) Hl ltac:(lia)) as [Hle Hall]. split; [lia|].
  constructor; [lia|done].
Qed.

Lemma elem_of_live_from st s :
  s ∈ bc_live_from st 0 (Z.to_nat (bc_max_fd st)) <->
  exists fd, 0 <= fd < bc_max_fd st /\ bc_live st fd = Some s.
Proof.
  rewrite /bc_live_from list_elem_of_omap. split; intros (fd & Hfd & Hs); exists fd; split; try done.
  - apply elem_of_seqZ in Hfd. lia.
  - apply elem_of_seqZ. lia.
Qed.
End catalogue_facts.
