(* ===== verification/Metadata.v ===== *)
(** * The metadata device (source/metadata.c)

    [struct metadata] ties the superblock and the four tables of the
    checkpoint region to one block manager.  Opening a device whose superblock
    does not validate lays the regions out afresh and formats every table. *)
From S2P Require Import Prelude Codec BlockManager DiskStructs BitNode Superblock SegValidator Dst Catalogue.
Local Open Scope se_scope.

Record metadata : Type := {
  md_superblock : superblock;
  md_seg_validator : seg_validator disk_bitset;
  md_rit : reverse_index_table;
  md_dst : dst;
  md_bit_catalogue : bit_catalogue
}.

Definition md_state : Type := metadata * dm_block_manager.

Definition md_sv {A} (m : SE (sv_state disk_bitset dm_block_manager) A) : SE md_state A :=
  se_zoom (fun st => (md_seg_validator st.1, st.2))
    (fun s st => ({| md_superblock := md_superblock st.1; md_seg_validator := s.1;
                     md_rit := md_rit st.1; md_dst := md_dst st.1;
                     md_bit_catalogue := md_bit_catalogue st.1 |}, s.2)) m.
Definition md_on_rit {A} (m : reverse_index_table -> SE dm_block_manager A) : SE md_state A := fun st =>
  let '(r, bm) := m (md_rit st.1) st.2 in (r, (st.1, bm)).
Definition md_on_dst {A} (m : SE dst_state A) : SE md_state A :=
  se_zoom (fun st => (md_dst st.1, st.2))
    (fun s st => ({| md_superblock := md_superblock st.1; md_seg_validator := md_seg_validator st.1;
                     md_rit := md_rit st.1; md_dst := s.1;
                     md_bit_catalogue := md_bit_catalogue st.1 |}, s.2)) m.
Definition md_on_bitc {A} (m : SE bc_state A) : SE md_state A :=
  se_zoom (fun st => (md_bit_catalogue st.1, st.2))
    (fun s st => ({| md_superblock := md_superblock st.1; md_seg_validator := md_seg_validator st.1;
                     md_rit := md_rit st.1; md_dst := md_dst st.1;
                     md_bit_catalogue := s.1 |}, s.2)) m.

Definition metadata_format : SE md_state unit :=
  md_sv seg_validator_format ;;;
  md_on_rit reverse_index_table_format ;;;
  md_on_dst dst_format ;;;
  md_on_bitc bit_catalogue_format.

(** The descriptors [metadata_init] allocates for a given superblock, before
    [dst_create] and [bit_catalogue_create] read the device. *)
Definition metadata_blank (sb : superblock) : metadata :=
  {| md_superblock := sb;
     md_seg_validator := seg_validator_create (seg_validity_table_start sb) (nr_segment sb);
     md_rit := reverse_index_table_create (reverse_index_table_start sb) (nr_segment sb * blocks_per_seg sb);
     md_dst := dst_blank (data_seg_table_start sb) (nr_segment sb);
     md_bit_catalogue := bit_catalogue_blank sb |}.

Definition metadata_open (sb : superblock) (should_format : bool) : SE md_state unit :=
  md_on_dst (dst_init (data_seg_table_start sb) (nr_segment sb)) ;;;
  md_on_bitc (bit_catalogue_init sb) ;;;
  if should_format then metadata_format else se_ret tt.

(** Every failure is reported as [-EAGAIN]. *)
Definition metadata_init (crc32c : Z -> list byte -> Z) (NR_SEGMENT : Z)
    : SE dm_block_manager metadata := fun bm =>
  match superblock_init crc32c NR_SEGMENT bm with
  | (Err _, bm) => (Err EAGAIN, bm)
  | (Ok (sb, should_format), bm) =>
      match metadata_open sb should_format (metadata_blank sb, bm) with
      | (Err _, st) => (Err EAGAIN, st.2)
      | (Ok _, st) => (Ok st.1, st.2)
      end
  end.

(** The block manager is flushed and closed; the flush's result is not looked at. *)
Definition metadata_destroy : SE dm_block_manager unit := se_ignore dm_bm_flush.

(** ** Regions *)
Definition bm_mapped (lo hi : Z) (bm : dm_block_manager) : Prop :=
  forall b, lo <= b < hi ->
    exists d, bm_block bm b = Some d /\ length d = Z.to_nat SWORNDISK_METADATA_BLOCK_SIZE.

(** The block after the last one of the catalogue. *)
Definition md_limit (sb : superblock) : Z :=
  let c := bit_catalogue_blank sb in
  da_start (bc_file_stats c) + disk_array_nr_block (bc_file_stats c).

(** The ends of the tables follow each other. *)
Record md_layout (sb : superblock) : Prop := {
  ml_nr : 0 < nr_segment sb;
  ml_bps : 0 <= blocks_per_seg sb;
  ml_fd : 0 < sv_nr_segment (bc_bit_validity_table (bit_catalogue_blank sb));
  ml_svt : SUPERBLOCK_LOCATION < seg_validity_table_start sb;
  ml_dst : seg_validity_table_start sb + __seg_validity_table_blocks (nr_segment sb)
             <= data_seg_table_start sb;
  ml_rit : data_seg_table_start sb + __data_seg_table_blocks (nr_segment sb)
             <= reverse_index_table_start sb;
  ml_bitc : reverse_index_table_start sb + __reverse_index_table_blocks (nr_segment sb) (blocks_per_seg sb)
             <= block_index_table_catalogue_start sb
}.

Section metadata_facts.
Implicit Types (bm : dm_block_manager).

Lemma bm_mapped_frame lo hi this bm bm' :
  bm_mapped lo hi bm -> da_frame this bm bm' -> da_inv this bm' -> bm_mapped lo hi bm'.
Proof.
  intros Hm Hfr (_ & _ & Hm') b Hb.
  destruct (decide (da_start this <= b < da_start this + disk_array_nr_block this)) as [Ho|Ho].
  - by apply Hm'.
  - rewrite Hfr; [by apply Hm|done].
Qed.

Lemma bm_mapped_da_inv lo hi this bm :
  bm_mapped lo hi bm -> bm_ok bm -> da_wf this -> lo <= da_start this ->
  da_start this + disk_array_nr_block this <= hi -> da_inv this bm.
Proof. intros Hm Hok Hwf Hlo Hhi. do 2 (split; [done|]). intros b Hb. apply Hm. rewrite /da_owns in Hb. lia. Qed.

(** An entry survives a change confined to an array that starts behind it or
    ends before it. *)
Lemma da_entry_apart this other bm bm' i :
  da_frame other bm bm' ->
  disk_array_entry_block this i < da_start other \/
  da_start other + disk_array_nr_block other <= disk_array_entry_block this i ->
  da_entry this bm' i = da_entry this bm i.
Proof. intros Hfr Hd. rewrite /da_entry Hfr; [done|]. rewrite /da_owns. lia. Qed.

Lemma seg_group_block start n g :
  0 < n -> 0 <= g < __disk_bitset_nr_group n ->
  start <= disk_array_entry_block (db_array (disk_bitset_create start n)) g
    < start + __seg_validity_table_blocks n.
Proof.
  intros Hn Hg.
  assert (g * 64 < n) as Hlt.
  { move: Hg. rewrite /__disk_bitset_nr_group /BITS_PER_LONG. ztest.
    pose proof (Z.mul_div_le (n - 1) 64). nia. }
  pose proof (seg_validity_bit_block start n (g * 64) ltac:(lia)) as H.
  by rewrite /__disk_bitset_group /BITS_PER_LONG Z.div_mul in H.
Qed.

Lemma seg_validity_span n :
  0 < n -> __seg_validity_table_blocks n <=
    disk_array_nr_block (db_array (disk_bitset_create 0 n)) <= __seg_validity_table_blocks n + 1.
Proof.
  intros Hn. rewrite seg_validity_blocks_groups //.
  rewrite /disk_array_nr_block /__disk_array_blocks /=. change (SWORNDISK_METADATA_BLOCK_SIZE / 8) with 512.
  pose proof (bitset_nr_group_pos n Hn).
  pose proof (Z.div_le_mono (__disk_bitset_nr_group n - 1) (__disk_bitset_nr_group n) 512).
  pose proof (Z.div_le_mono (__disk_bitset_nr_group n) (__disk_bitset_nr_group n - 1 + 1 * 512) 512).
  rewrite Z.div_add in H1; lia.
Qed.

Lemma sv_inv_same v bm bm' :
  sv_inv (v, bm) -> da_inv (db_array (seg_validity_table v)) bm' ->
  (forall i, 0 <= i < da_nr_entry (db_array (seg_validity_table v)) ->
     da_entry (db_array (seg_validity_table v)) bm' i = da_entry (db_array (seg_validity_table v)) bm i) ->
  sv_inv (v, bm') /\ sv_bits (v, bm') = sv_bits (v, bm).
Proof.
  intros ([Hwf Hda] & Hl & Hc) Hda' Hsame. cbn [fst snd] in *.
  assert (sv_bits (v, bm') = sv_bits (v, bm)) as Hb by (by apply db_bits_same).
  split; [|done]. split; [done|]. split; [|done]. cbn [fst]. by rewrite Hb.
Qed.

(** One bit table formatted in a mapped range. *)
Lemma sv_format_stage lo hi start n bm :
  0 < n -> bm_ok bm -> bm_mapped lo hi bm -> lo <= start ->
  start + __seg_validity_table_blocks n + 1 <= hi ->
  exists bm', seg_validator_format (seg_validator_create start n, bm) = (Ok tt, (seg_validator_create start n, bm')) /\
    bm_ok bm' /\ bm_mapped lo hi bm' /\
    sv_inv (seg_validator_create start n, bm') /\
    sv_bits (seg_validator_create start n, bm') = replicate (Z.to_nat n) false /\
    da_frame (db_array (disk_bitset_create start n)) bm bm'.
Proof.
  intros Hn Hok Hm Hlo Hhi. pose proof (seg_validity_span n Hn) as Hsp.
  assert (db_inv (disk_bitset_create start n) bm) as Hdb.
  { split; [apply disk_bitset_create_wf; lia|].
    eapply bm_mapped_da_inv; [done|done| |done|].
    - apply disk_bitset_create_wf. lia.
    - etrans; [|exact Hhi]. cbn [disk_bitset_create db_array disk_array_create da_start].
      rewrite /disk_array_nr_block in Hsp |- *. cbn [disk_bitset_create db_array disk_array_create] in *.
      simpl in *. lia. }
  assert (sv_inv (seg_validator_create start n, bm)) as Hsv.
  { split; [done|]. split; [|done]. change (sv_bits _) with (db_bits (disk_bitset_create start n) bm).
    rewrite length_db_bits. simpl. lia. }
  destruct (seg_validator_format_spec _ _ Hsv) as (bm' & Hrun & Hsv' & Hfr & Hb).
  exists bm'. split; [exact Hrun|].
  pose proof Hsv' as ([_ Hda'] & _). split; [apply Hda'|].
  split; [exact (bm_mapped_frame lo hi _ bm bm' Hm Hfr Hda')|]. split; [done|]. split; [|done].
  rewrite Hb. change (sv_bits _) with (db_bits (disk_bitset_create start n) bm).
  by rewrite length_db_bits.
Qed.
End metadata_facts.

(** ** Formatting *)

(** The descriptors of [md] are those of the superblock [sb]; the cursors, the
    victims and the version counter are whatever loading produced. *)
Definition md_describes (sb : superblock) (md : metadata) : Prop :=
  md_superblock md = sb /\
  md_seg_validator md = seg_validator_create (seg_validity_table_start sb) (nr_segment sb) /\
  md_rit md = reverse_index_table_create (reverse_index_table_start sb) (nr_segment sb * blocks_per_seg sb) /\
  (dst_wf (md_dst md) /\ dst_start (md_dst md) = data_seg_table_start sb /\
   dst_nr_segment (md_dst md) = nr_segment sb) /\
  (exists v, md_bit_catalogue md = bc_set_max_version v (bit_catalogue_blank sb)).

(** Every table is in its freshly formatted state. *)
Definition md_fresh (sb : superblock) (st : md_state) : Prop :=
  (sv_inv (md_seg_validator st.1, st.2) /\
   sv_bits (md_seg_validator st.1, st.2) = replicate (Z.to_nat (nr_segment sb)) false) /\
  (da_inv (rit_array (md_rit st.1)) st.2 /\
   forall pba, 0 <= pba < nr_segment sb * blocks_per_seg sb ->
     reverse_index_table_get (md_rit st.1) pba st.2 = (Ok 0, st.2)) /\
  (dst_inv (md_dst st.1, st.2) /\
   forall s, 0 <= s < nr_segment sb -> dst_entry_at (md_dst st.1, st.2) s = Some empty_entry) /\
  (bc_inv (md_bit_catalogue st.1, st.2) /\
   forall fd, bc_live (md_bit_catalogue st.1, st.2) fd = None).

Section format_facts.
Context (sb : superblock) (Hlay : md_layout sb).
Implicit Types (bm : dm_block_manager).

Let N := nr_segment sb.
Let max_fd := sv_nr_segment (bc_bit_validity_table (bit_catalogue_blank sb)).
Let stats_start := block_index_table_catalogue_start sb + __seg_validity_table_blocks max_fd.
Let svt := db_array (disk_bitset_create (seg_validity_table_start sb) N).
Let dsta := disk_array_create (data_seg_table_start sb) N DST_ENTRY_SIZE.
Let rita := disk_array_create (reverse_index_table_start sb) (N * blocks_per_seg sb) 8.
Let bitv := db_array (disk_bitset_create (block_index_table_catalogue_start sb) max_fd).
Let stats := disk_array_create stats_start max_fd FILE_STAT_SIZE.

Lemma table_blocks_pos :
  1 <= __data_seg_table_blocks N /\ 1 <= __reverse_index_table_blocks N (blocks_per_seg sb) /\
  1 <= disk_array_nr_block stats /\ 1 <= __seg_validity_table_blocks N /\
  1 <= __seg_validity_table_blocks max_fd.
Proof.
  destruct Hlay.
  split; [|split; [|split; [|split]]].
  - apply (__disk_array_blocks_pos N DST_ENTRY_SIZE); [rewrite /N; lia|done].
  - apply (__disk_array_blocks_pos (N * blocks_per_seg sb) 8); [rewrite /N; nia|done].
  - apply (__disk_array_blocks_pos max_fd FILE_STAT_SIZE); [rewrite /max_fd; lia|done].
  - rewrite seg_validity_blocks_groups //. pose proof (bitset_nr_group_pos N ml_nr0).
    pose proof (Z.div_pos (__disk_bitset_nr_group N - 1) 512). lia.
  - rewrite seg_validity_blocks_groups //. pose proof (bitset_nr_group_pos max_fd ml_fd0).
    pose proof (Z.div_pos (__disk_bitset_nr_group max_fd - 1) 512). lia.
Qed.

(** The array of [array_entry_block] stays inside the blocks it owns. *)
Lemma entry_block_owned this i :
  da_wf this -> 0 <= i < da_nr_entry this ->
  da_start this <= disk_array_entry_block this i < da_start this + disk_array_nr_block this.
Proof. apply da_owns_entry. Qed.

Lemma array_format_stage lo hi this bm :
  da_wf this -> bm_ok bm -> bm_mapped lo hi bm -> lo <= da_start this ->
  da_start this + disk_array_nr_block this <= hi ->
  exists bm', disk_array_format this false bm = (Ok tt, bm') /\ bm_ok bm' /\ bm_mapped lo hi bm' /\
    da_frame this bm bm' /\
    (forall i, 0 <= i < da_nr_entry this ->
       da_entry this bm' i = Some (replicate (Z.to_nat (da_entry_size this)) Byte.x00)).
Proof.
  intros Hwf Hok Hm Hlo Hhi.
  destruct (disk_array_format_ok this false bm) as (bm' & Hrun & Hda & Hfr & Hent).
  { by eapply bm_mapped_da_inv. }
  exists bm'. split; [done|]. split; [apply Hda|]. split; [by eapply bm_mapped_frame|]. done.
Qed.

(** The five formatting steps of [metadata_format], with what each leaves. *)
Record format_run (bm0 bm1 bm2 bm3 bm4 bm5 : dm_block_manager) (d3 : dst) : Prop := {
  fr_ok : bm_ok bm5;
  fr_mapped : bm_mapped (seg_validity_table_start sb) (md_limit sb) bm5;
  fr_svt : sv_inv (seg_validator_create (seg_validity_table_start sb) N, bm1) /\
           sv_bits (seg_validator_create (seg_validity_table_start sb) N, bm1) = replicate (Z.to_nat N) false;
  fr_rit : da_frame rita bm1 bm2 /\
           forall i, 0 <= i < N * blocks_per_seg sb -> da_entry rita bm2 i = Some (replicate 8 Byte.x00);
  fr_dst : da_frame dsta bm2 bm3 /\ dst_inv (d3, bm3) /\ dst_array d3 = dsta /\ dst_nr_segment d3 = N /\
           dst_start d3 = data_seg_table_start sb /\
           forall s, 0 <= s < N -> dst_entry_at (d3, bm3) s = Some empty_entry;
  fr_bitv : da_frame bitv bm3 bm4 /\
            sv_inv (seg_validator_create (block_index_table_catalogue_start sb) max_fd, bm4) /\
            sv_bits (seg_validator_create (block_index_table_catalogue_start sb) max_fd, bm4)
              = replicate (Z.to_nat max_fd) false;
  fr_stats : da_frame stats bm4 bm5;
  fr_front : forall b, b < seg_validity_table_start sb -> bm_block bm5 b = bm_block bm0 b
}.

Lemma tables_wf : da_wf dsta /\ da_wf rita /\ da_wf stats.
Proof.
  destruct Hlay. split; [|split]; apply disk_array_create_wf; try done; rewrite ?/N ?/max_fd; nia.
Qed.

Lemma md_limit_stats : md_limit sb = stats_start + disk_array_nr_block stats.
Proof. done. Qed.

Lemma metadata_format_run st :
  md_describes sb st.1 -> bm_ok st.2 ->
  bm_mapped (seg_validity_table_start sb) (md_limit sb) st.2 ->
  exists bm1 bm2 bm3 bm4 bm5 d3, format_run st.2 bm1 bm2 bm3 bm4 bm5 d3 /\
    metadata_format st = (Ok tt,
      ({| md_superblock := sb; md_seg_validator := md_seg_validator st.1; md_rit := md_rit st.1;
          md_dst := d3; md_bit_catalogue := md_bit_catalogue st.1 |}, bm5)).
Proof.
  destruct st as [[sb0 sv rit d bc] bm0]. cbn [fst snd].
  intros (Hsb & Hsv & Hrit & (Hdwf & Hds & Hdn) & (vv & Hbc)) Hok0 Hm0.
  cbn [md_superblock md_seg_validator md_rit md_dst md_bit_catalogue] in *. subst sb0 sv rit bc.
  pose proof table_blocks_pos as (P1 & P2 & P3 & P4 & P5). pose proof Hlay as [L1 L2 L3 L4 L5 L6 L7].
  pose proof tables_wf as (Wd & Wr & Ws). pose proof md_limit_stats as Hlim.
  rewrite /stats_start in Hlim. rewrite -/N -/max_fd in L1 L2 L3 L4 L5 L6 L7.
  assert (disk_array_nr_block dsta = __data_seg_table_blocks N) as Hnd by done.
  assert (disk_array_nr_block rita = __reverse_index_table_blocks N (blocks_per_seg sb)) as Hnr by done.
  assert (dst_array d = dsta) as Hda by (by destruct Hdwf as [_ ->]; rewrite Hds Hdn).
  destruct (sv_format_stage (seg_validity_table_start sb) (md_limit sb) (seg_validity_table_start sb) N bm0)
    as (bm1 & R1 & Hok1 & Hm1 & I1 & B1 & F1); [done|done|done|lia|lia|].
  destruct (array_format_stage (seg_validity_table_start sb) (md_limit sb) rita bm1)
    as (bm2 & R2 & Hok2 & Hm2 & F2 & E2); [done|done|done|simpl; lia|simpl; lia|].
  destruct (dst_format_ok (d, bm2)) as ([d3 bm3] & R3 & I3 & F3 & Ds3 & Dn3 & E3); [done| |].
  { cbn [fst snd]. rewrite Hda. eapply bm_mapped_da_inv; [exact Hm2|done|done|simpl; lia|simpl; lia]. }
  cbn [fst snd] in *. rewrite Hda in F3. pose proof I3 as ([_ Ha3] & Dda3 & _). cbn [fst snd] in *.
  rewrite Ds3 Dn3 Hds Hdn -/N -/dsta in Ha3. rewrite Ha3 in Dda3.
  assert (bm_mapped (seg_validity_table_start sb) (md_limit sb) bm3) as Hm3 by (by eapply bm_mapped_frame).
  destruct (sv_format_stage (seg_validity_table_start sb) (md_limit sb) (block_index_table_catalogue_start sb) max_fd bm3)
    as (bm4 & R4 & Hok4 & Hm4 & I4 & B4 & F4); [done|apply Dda3|done|lia|lia|].
  destruct (array_format_stage (seg_validity_table_start sb) (md_limit sb) stats bm4)
    as (bm5 & R5 & Hok5 & Hm5 & F5 & E5); [done|done|done|simpl; rewrite /stats_start; lia|simpl; rewrite /stats_start; lia|].
  exists bm1, bm2, bm3, bm4, bm5, d3. split.
  { split; try done; [split; [done|]; split; [done|]; split; [done|]|].
    { rewrite Dn3 Ds3 Hds Hdn. split; [done|]. split; [done|]. intros s Hs. apply E3. by rewrite Hdn. }
    intros b Hb. rewrite (F5 b) ?(F4 b) ?(F3 b) ?(F2 b) ?(F1 b) // /da_owns; cbn -[disk_array_nr_block]; rewrite ?/stats_start; lia. }
  rewrite /metadata_format /se_bind /md_sv /se_zoom. cbn [fst snd md_seg_validator]. rewrite -/N R1.
  rewrite /md_on_rit. cbn [fst snd md_rit]. change (reverse_index_table_format _ bm1) with (disk_array_format rita false bm1).
  rewrite R2. rewrite /md_on_dst /se_zoom. cbn [fst snd md_dst]. rewrite R3.
  rewrite /md_on_bitc /se_zoom /bit_catalogue_format /se_bind /bc_sv /se_zoom. cbn [fst snd md_bit_catalogue].
  change (bc_bit_validity_table (bc_set_max_version vv (bit_catalogue_blank sb)))
    with (seg_validator_create (block_index_table_catalogue_start sb) max_fd). rewrite R4.
  rewrite /bc_bm. cbn [fst snd]. change (bc_file_stats (bc_set_validity _ _)) with stats. by rewrite R5.
Qed.

(** The segment validity bits survive the later steps. *)
Lemma format_run_svt bm0 bm1 bm2 bm3 bm4 bm5 d3 :
  format_run bm0 bm1 bm2 bm3 bm4 bm5 d3 ->
  let v := seg_validator_create (seg_validity_table_start sb) N in
  sv_inv (v, bm5) /\ sv_bits (v, bm5) = replicate (Z.to_nat N) false.
Proof.
  intros [Hok Hm [I1 B1] [F2 _] (F3 & _) (F4 & _) F5] v.
  pose proof table_blocks_pos as (P1 & P2 & P3 & P4 & P5). pose proof Hlay as [L1 L2 L3 L4 L5 L6 L7].
  pose proof (seg_validity_span N L1) as S1. pose proof md_limit_stats as Hlim. rewrite /stats_start in Hlim.
  rewrite -/N -/max_fd in L1 L2 L3 L4 L5 L6 L7.
  assert (disk_array_nr_block svt <= __seg_validity_table_blocks N + 1) as S1' by apply S1.
  rewrite -B1. apply sv_inv_same; [done| |].
  - eapply bm_mapped_da_inv; [exact Hm|done|apply disk_bitset_create_wf; lia|done|].
    change (seg_validity_table_start sb + disk_array_nr_block svt <= md_limit sb). lia.
  - intros i Hi. pose proof (seg_group_block (seg_validity_table_start sb) N i L1 Hi) as Hb.
    change (seg_validity_table v) with (disk_bitset_create (seg_validity_table_start sb) N) in *.
    rewrite -/svt in Hb |- *.
    rewrite (da_entry_apart svt stats bm4 bm5 i); [|done|simpl; rewrite /stats_start; lia].
    rewrite (da_entry_apart svt bitv bm3 bm4 i); [|done|simpl; lia].
    rewrite (da_entry_apart svt dsta bm2 bm3 i); [|done|simpl; lia].
    rewrite (da_entry_apart svt rita bm1 bm2 i); [done|done|simpl; lia].
Qed.

Lemma format_run_rit bm0 bm1 bm2 bm3 bm4 bm5 d3 pba :
  format_run bm0 bm1 bm2 bm3 bm4 bm5 d3 -> 0 <= pba < N * blocks_per_seg sb ->
  reverse_index_table_get (reverse_index_table_create (reverse_index_table_start sb) (N * blocks_per_seg sb)) pba bm5
    = (Ok 0, bm5).
Proof.
  intros [Hok Hm _ [F2 E2] (F3 & _) (F4 & _) F5] Hp.
  pose proof table_blocks_pos as (P1 & P2 & P3 & P4 & P5). pose proof Hlay as [L1 L2 L3 L4 L5 L6 L7].
  pose proof tables_wf as (Wd & Wr & Ws). pose proof md_limit_stats as Hlim. rewrite /stats_start in Hlim.
  rewrite -/N -/max_fd in L1 L2 L3 L4 L5 L6 L7.
  pose proof (entry_block_owned rita pba Wr Hp) as Hb.
  change (disk_array_nr_block rita) with (__reverse_index_table_blocks N (blocks_per_seg sb)) in Hb.
  cbn [rita disk_array_create da_start] in Hb.
  rewrite /reverse_index_table_get /se_bind /__reverse_index_table_get_entry.
  cbn [reverse_index_table_create rit_array]. rewrite -/rita.
  rewrite (disk_array_get_ok rita bm5 pba (replicate 8 Byte.x00)); [done| |done|].
  - eapply bm_mapped_da_inv; [exact Hm|done|done|simpl; lia|].
    change (reverse_index_table_start sb + __reverse_index_table_blocks N (blocks_per_seg sb) <= md_limit sb). lia.
  - rewrite (da_entry_apart rita stats bm4 bm5 pba); [|done|simpl; rewrite /stats_start; lia].
    rewrite (da_entry_apart rita bitv bm3 bm4 pba); [|done|simpl; lia].
    rewrite (da_entry_apart rita dsta bm2 bm3 pba); [by apply E2|done|].
    right. change (data_seg_table_start sb + __data_seg_table_blocks N <= disk_array_entry_block rita pba). lia.
Qed.

Lemma format_run_dst bm0 bm1 bm2 bm3 bm4 bm5 d3 :
  format_run bm0 bm1 bm2 bm3 bm4 bm5 d3 ->
  dst_inv (d3, bm5) /\ forall s, 0 <= s < N -> dst_entry_at (d3, bm5) s = Some empty_entry.
Proof.
  intros [Hok Hm _ _ (F3 & I3 & Ha & Hn & Hs & E3) (F4 & _) F5].
  pose proof table_blocks_pos as (P1 & P2 & P3 & P4 & P5). pose proof Hlay as [L1 L2 L3 L4 L5 L6 L7].
  pose proof tables_wf as (Wd & Wr & Ws). pose proof md_limit_stats as Hlim. rewrite /stats_start in Hlim.
  rewrite -/N -/max_fd in L1 L2 L3 L4 L5 L6 L7.
  assert (forall s, 0 <= s < N -> dst_entry_at (d3, bm5) s = dst_entry_at (d3, bm3) s) as Hsame.
  { intros s Hr. rewrite /dst_entry_at. cbn [fst snd]. rewrite Ha. f_equal.
    pose proof (entry_block_owned dsta s Wd Hr) as Hb.
    change (disk_array_nr_block dsta) with (__data_seg_table_blocks N) in Hb.
    cbn [dsta disk_array_create da_start] in Hb.
    rewrite (da_entry_apart dsta stats bm4 bm5 s); [|done|simpl; rewrite /stats_start; lia].
    rewrite (da_entry_apart dsta bitv bm3 bm4 s); [done|done|simpl; lia]. }
  split; [|by intros s Hr; rewrite Hsame // E3].
  apply (dst_inv_same d3 bm3); [done| |by rewrite Hn].
  rewrite Ha. eapply bm_mapped_da_inv; [exact Hm|done|done|simpl; lia|].
  change (data_seg_table_start sb + __data_seg_table_blocks N <= md_limit sb). lia.
Qed.

Lemma format_run_bitc bm0 bm1 bm2 bm3 bm4 bm5 d3 v :
  format_run bm0 bm1 bm2 bm3 bm4 bm5 d3 ->
  let c := bc_set_max_version v (bit_catalogue_blank sb) in
  bc_inv (c, bm5) /\ forall fd, bc_live (c, bm5) fd = None.
Proof.
  intros [Hok Hm _ _ _ (F4 & I4 & B4) F5 _] c.
  pose proof table_blocks_pos as (P1 & P2 & P3 & P4 & P5). pose proof Hlay as [L1 L2 L3 L4 L5 L6 L7].
  pose proof tables_wf as (Wd & Wr & Ws). pose proof md_limit_stats as Hlim. rewrite /stats_start in Hlim.
  rewrite -/N -/max_fd in L1 L2 L3 L4 L5 L6 L7. pose proof (seg_validity_span max_fd L3) as S2.
  assert (disk_array_nr_block bitv <= __seg_validity_table_blocks max_fd + 1) as S2' by apply S2.
  destruct (sv_inv_same (seg_validator_create (block_index_table_catalogue_start sb) max_fd) bm4 bm5)
    as [I5 B5]; [done| | |].
  - eapply bm_mapped_da_inv; [exact Hm|done|apply disk_bitset_create_wf; lia|simpl; lia|].
    change (block_index_table_catalogue_start sb + disk_array_nr_block bitv <= md_limit sb). lia.
  - intros i Hi. pose proof (seg_group_block (block_index_table_catalogue_start sb) max_fd i L3 Hi) as Hb.
    change (seg_validity_table _) with (disk_bitset_create (block_index_table_catalogue_start sb) max_fd).
    rewrite -/bitv in Hb |- *.
    rewrite (da_entry_apart bitv stats bm4 bm5 i); [done|done|]. left. simpl. rewrite /stats_start. lia.
  - split.
    + split; [split; [exact Ws|done]|]. split; [exact I5|].
      eapply bm_mapped_da_inv; [exact Hm|done|exact Ws|change (seg_validity_table_start sb <= stats_start); rewrite /stats_start; lia|].
      change (stats_start + disk_array_nr_block stats <= md_limit sb). lia.
    + intros fd. rewrite /bc_live. change (bc_bits (c, bm5)) with
        (sv_bits (seg_validator_create (block_index_table_catalogue_start sb) max_fd, bm5)).
      rewrite B5 B4. destruct (replicate _ _ !! _) as [b|] eqn:E; [|done].
      by apply lookup_replicate in E as [-> _].
Qed.

Lemma format_run_rit_inv bm0 bm1 bm2 bm3 bm4 bm5 d3 : format_run bm0 bm1 bm2 bm3 bm4 bm5 d3 -> da_inv rita bm5.
Proof.
  intros [Hok Hm _ _ _ _ _ _]. pose proof table_blocks_pos as (P1 & P2 & P3 & P4 & P5). pose proof Hlay as [L1 L2 L3 L4 L5 L6 L7].
  pose proof tables_wf as (_ & Wr & _). pose proof md_limit_stats as Hlim. rewrite /stats_start in Hlim.
  rewrite -/N -/max_fd in L1 L2 L3 L4 L5 L6 L7. eapply bm_mapped_da_inv; [exact Hm|done|done|simpl; lia|].
  change (reverse_index_table_start sb + __reverse_index_table_blocks N (blocks_per_seg sb) <= md_limit sb). lia.
Qed.

Lemma metadata_format_ok st :
  md_describes sb st.1 -> bm_ok st.2 ->
  bm_mapped (seg_validity_table_start sb) (md_limit sb) st.2 ->
  exists st', metadata_format st = (Ok tt, st') /\ md_describes sb st'.1 /\ md_fresh sb st' /\
    md_bit_catalogue st'.1 = md_bit_catalogue st.1 /\ bm_ok st'.2 /\
    (forall b, b < seg_validity_table_start sb -> bm_block st'.2 b = bm_block st.2 b).
Proof.
  intros Hdesc Hok Hm.
  destruct (metadata_format_run st Hdesc Hok Hm) as (bm1 & bm2 & bm3 & bm4 & bm5 & d3 & Hrun & Hfmt).
  eexists. split; [exact Hfmt|]. destruct Hdesc as (_ & Hsv & Hrit & _ & (vv & Hbc)).
  pose proof (format_run_dst _ _ _ _ _ _ _ Hrun) as [Hdi He]. split.
  - split; [done|]. split; [done|]. split; [done|]. split; [|by exists vv].
    cbn [fst md_dst]. destruct Hrun as [_ _ _ _ (_ & _ & _ & ? & ? & _) _ _ _]. by destruct Hdi as (? & _).
  - split; [|split; [done|split; [apply Hrun|exact (fr_front _ _ _ _ _ _ _ Hrun)]]]. split; [cbn [fst snd md_seg_validator]; rewrite Hsv; exact (format_run_svt _ _ _ _ _ _ _ Hrun)|].
    split.
    { cbn [fst snd md_rit]. rewrite Hrit. split; [|intros pba Hp; by eapply format_run_rit]. by eapply format_run_rit_inv. }
    split; [done|]. cbn [fst snd md_bit_catalogue]. rewrite Hbc. exact (format_run_bitc _ _ _ _ _ _ _ vv Hrun).
Qed.
End format_facts.

(** ** The default layout *)
Section default_layout.
Context (n c : Z) (Hn : 0 < n <= 2 ^ 32).
Let sb := superblock_defaults n c.

Lemma default_total_bit lvl : lvl = 2 ->
  1 <= __total_bit lvl LSM_TREE_DISK_LEVEL_COMMON_RATIO (n * BLOCKS_PER_SEGMENT) <= n + 5.
Proof.
  intros ->. rewrite /__total_bit /BLOCKS_PER_SEGMENT /DEFAULT_LSM_LEVEL0_NR_FILE /DEFAULT_LSM_FILE_CAPACITY /=.
  change (Z.to_nat 1) with 1%nat. cbn [total_bit_loop]. ztest.
  pose proof (Z.div_pos (n * 1024 - 1) DEFAULT_LSM_FILE_CAPACITY).
  pose proof (Z.div_le_upper_bound (n * 1024 - 1) DEFAULT_LSM_FILE_CAPACITY n).
  rewrite /DEFAULT_LSM_FILE_CAPACITY in H H0 |- *. lia.
Qed.

Lemma bytes_to_block_bound x : 0 <= x -> 0 <= __bytes_to_block x SWORNDISK_METADATA_BLOCK_SIZE <= x + 1.
Proof.
  intros Hx. rewrite /__bytes_to_block. zbool; [lia|].
  pose proof (Z.div_pos (x - 1) SWORNDISK_METADATA_BLOCK_SIZE).
  pose proof (Z.div_le_upper_bound (x - 1) SWORNDISK_METADATA_BLOCK_SIZE x).
  rewrite /SWORNDISK_METADATA_BLOCK_SIZE in H H0 |- *. lia.
Qed.

Lemma default_region_sizes :
  let cap := n * BLOCKS_PER_SEGMENT in
  0 <= __index_region_blocks DEFAULT_LSM_TREE_NR_DISK_LEVEL LSM_TREE_DISK_LEVEL_COMMON_RATIO cap <= 2 ^ 61 /\
  1 <= __seg_validity_table_blocks n <= n + 1 /\
  1 <= __data_seg_table_blocks n <= n + 1 /\
  1 <= __reverse_index_table_blocks n BLOCKS_PER_SEGMENT <= n * BLOCKS_PER_SEGMENT + 1.
Proof.
  intros cap. split; [|split; [|split]].
  - rewrite /__index_region_blocks /__extra_bit file_size_value.
    pose proof (default_total_bit DEFAULT_LSM_TREE_NR_DISK_LEVEL eq_refl) as H1.
    pose proof (default_total_bit 2 eq_refl) as H2. rewrite -/cap in H1 H2.
    set (a := __total_bit DEFAULT_LSM_TREE_NR_DISK_LEVEL _ cap) in *.
    set (b := __total_bit 2 _ cap) in *.
    pose proof (bytes_to_block_bound ((a + b) * 85327809) ltac:(lia)). lia.
  - rewrite seg_validity_blocks_groups; last lia. pose proof (bitset_nr_group_pos n ltac:(lia)) as Hg.
    assert (__disk_bitset_nr_group n <= n).
    { rewrite /__disk_bitset_nr_group /BITS_PER_LONG. ztest.
      pose proof (Z.div_le_upper_bound (n - 1) 64 (n - 1)). lia. }
    pose proof (Z.div_pos (__disk_bitset_nr_group n - 1) 512).
    pose proof (Z.div_le_upper_bound (__disk_bitset_nr_group n - 1) 512 n). lia.
  - apply (__disk_array_blocks_pos n DST_ENTRY_SIZE); [lia|done].
  - apply (__disk_array_blocks_pos (n * BLOCKS_PER_SEGMENT) 8); [rewrite /BLOCKS_PER_SEGMENT; lia|done].
Qed.

Lemma default_starts :
  0 < index_region_start sb /\ index_region_start sb <= journal_region_start sb /\
  journal_region_start sb <= seg_validity_table_start sb /\
  seg_validity_table_start sb + __seg_validity_table_blocks n = data_seg_table_start sb /\
  data_seg_table_start sb + __data_seg_table_blocks n = reverse_index_table_start sb /\
  reverse_index_table_start sb + __reverse_index_table_blocks n BLOCKS_PER_SEGMENT
    = block_index_table_catalogue_start sb /\
  block_index_table_catalogue_start sb < 2 ^ 64.
Proof.
  pose proof default_region_sizes as (H1 & H2 & H3 & H4). cbn zeta in *.
  rewrite /sb. cbn [superblock_defaults index_region_start journal_region_start seg_validity_table_start
    data_seg_table_start reverse_index_table_start block_index_table_catalogue_start].
  change (SUPERBLOCK_LOCATION + STRUCTURE_BLOCKS SUPERBLOCK_STRUCT_SIZE) with 1.
  change (__journal_region_blocks 0 0) with 0.
  rewrite /BLOCKS_PER_SEGMENT in H1 H4 |- *. lia.
Qed.

Lemma default_layout_ok : md_layout sb.
Proof.
  pose proof default_starts as (H1 & H2 & H3 & H4 & H5 & H6 & H7).
  split; [simpl; lia|done| |change (0 < seg_validity_table_start sb); lia
    |by apply Z.eq_le_incl|by apply Z.eq_le_incl|by apply Z.eq_le_incl].
  pose proof (default_total_bit 2 eq_refl).
  change (0 < __total_bit 2 LSM_TREE_DISK_LEVEL_COMMON_RATIO (n * BLOCKS_PER_SEGMENT)
    + __total_bit 2 LSM_TREE_DISK_LEVEL_COMMON_RATIO (n * BLOCKS_PER_SEGMENT)). lia.
Qed.

(** Every field fits the width it has on disk. *)
Lemma default_cwf : cwf superblock_tail sb.
Proof.
  pose proof default_starts as (H1 & H2 & H3 & H4 & H5 & H6 & H7).
  pose proof default_region_sizes as (R1 & R2 & R3 & R4). cbn zeta in *.
  cbn [superblock_tail c_iso cwf c_pair c_le fst snd].
  change (256 ^ Z.of_nat 8) with (2 ^ 64). change (256 ^ Z.of_nat 4) with (2 ^ 32).
  assert (nr_segment sb = n /\ max_disk_level_capacity sb = n * 1024) as [-> ->] by done.
  repeat match goal with |- _ /\ _ => split end; try lia; by vm_compute.
Qed.
End default_layout.

(** ** Opening a device *)
Section open_facts.
Context (crc32c : Z -> list byte -> Z).
Hypothesis crc32c_u32 : forall seed l, 0 <= crc32c seed l < 2 ^ 32.

(** A device whose block 0 does not hold a valid superblock. *)
Definition sb_unformatted (bm : dm_block_manager) : Prop :=
  exists d, bm_block bm SUPERBLOCK_LOCATION = Some d /\
    length d = Z.to_nat SWORNDISK_METADATA_BLOCK_SIZE /\
    superblock_validate crc32c (cdec superblock_codec (take (csize superblock_codec) d)) = false.

Lemma superblock_read_ok bm d :
  bm_ok bm -> bm_block bm SUPERBLOCK_LOCATION = Some d ->
  superblock_read bm = (Ok (cdec superblock_codec (take (csize superblock_codec) d)), bm).
Proof.
  intros Hok Hd. rewrite /superblock_read /se_bind /se_map_err (dm_bm_read_lock_ok _ _ _ Hok Hd).
  cbn [dm_block_data dm_block_location]. rewrite /bm_block in Hd. by rewrite Hd.
Qed.

Lemma superblock_read_same bm bm' r :
  bm_ok bm -> bm_ok bm' -> bm_block bm' SUPERBLOCK_LOCATION = bm_block bm SUPERBLOCK_LOCATION ->
  superblock_read bm = (Ok r, bm) -> superblock_read bm' = (Ok r, bm').
Proof.
  intros Hok Hok' Hsame. destruct (bm_block bm SUPERBLOCK_LOCATION) as [d|] eqn:E.
  - rewrite (superblock_read_ok bm d Hok E) (superblock_read_ok bm' d Hok' Hsame). intros H. apply (f_equal fst) in H. cbn [fst] in H. by rewrite H.
  - rewrite /superblock_read /se_bind /se_map_err (dm_bm_read_lock_fail _ _ E). done.
Qed.

Lemma superblock_init_fresh bm n :
  bm_ok bm -> bufio_write_error (bufio bm) = 0 -> 0 < n <= 2 ^ 32 -> sb_unformatted bm ->
  exists c bm', superblock_init crc32c n bm = (Ok (superblock_defaults n c, true), bm') /\
    bm_ok bm' /\
    superblock_read bm' = (Ok (superblock_defaults n (superblock_csum crc32c (superblock_defaults n c))), bm') /\
    (forall b, b <> SUPERBLOCK_LOCATION -> bm_block bm' b = bm_block bm b).
Proof.
  intros Hok Hwe Hn (d & Hd & Hl & Hval).
  set (c := csum (cdec superblock_codec (take (csize superblock_codec) d))).
  destruct (superblock_write_ok crc32c crc32c_u32 bm d (superblock_defaults n c))
    as (bm' & Hrun & Hok' & Hrd & Hfr & _); [done|done|done|rewrite Hl; by apply Nat.leb_le| |].
  { by apply default_cwf. }
  exists c, bm'. split; [|split; [done|split; [exact Hrd|done]]].
  rewrite /superblock_init /se_bind (superblock_read_ok bm d Hok Hd) Hval.
  rewrite /se_ignore. fold c. by rewrite Hrun.
Qed.

(** The version counter [bit_catalogue_init] derives from what it finds on the
    device; formatting does not reset it. *)
Definition loaded_version (sb : superblock) (bm : dm_block_manager) : Z :=
  let c := bit_catalogue_blank sb in
  foldl version_step 0 (bc_live_from (c, bm) 0 (Z.to_nat (sv_nr_segment (bc_bit_validity_table c)))).

(** The blocks the catalogue reads lie behind the superblock. *)
Lemma loaded_version_same sb bm bm' :
  md_layout sb -> (forall b, b <> SUPERBLOCK_LOCATION -> bm_block bm' b = bm_block bm b) -> loaded_version sb bm' = loaded_version sb bm.
Proof.
  intros Hlay Hsame. pose proof (table_blocks_pos sb Hlay) as (P1 & P2 & P3 & P4 & P5). pose proof Hlay as [L1 L2 L3 L4 L5 L6 L7].
  pose proof (tables_wf sb Hlay) as (_ & _ & Ws). set (c := bit_catalogue_blank sb) in *.
  assert (SUPERBLOCK_LOCATION < bc_start c) as Hst by (cbn; lia).
  assert (forall a i, da_wf a -> bc_start c <= da_start a -> 0 <= i < da_nr_entry a -> da_entry a bm' i = da_entry a bm i) as Hent.
  { intros a i Hw Ha Hi. rewrite /da_entry Hsame //. pose proof (da_owns_entry a i Hw Hi) as Ho. rewrite /da_owns in Ho. lia. }
  assert (db_wf (disk_bitset_create (bc_start c) (sv_nr_segment (bc_bit_validity_table c)))) as Hdb by (apply disk_bitset_create_wf; lia).
  rewrite /loaded_version -/c. f_equal. apply list_omap_ext, Forall_Forall2_diag, Forall_forall. intros fd Hfd%elem_of_seqZ. rewrite /bc_live.
  assert (bc_bits (c, bm') = bc_bits (c, bm)) as ->.
  { apply (db_bits_same (disk_bitset_create (bc_start c) (sv_nr_segment (bc_bit_validity_table c)))); [done|].
    intros i Hi. apply Hent; [apply Hdb|done|done]. }
  destruct (bc_bits (c, bm) !! Z.to_nat fd) as [[]|]; [|done|done]. rewrite /bc_stat. f_equal. apply Hent; [exact Ws| |].
  - change (bc_start c <= bc_start c + __seg_validity_table_blocks (sv_nr_segment (bc_bit_validity_table c))). lia.
  - change (0 <= fd < sv_nr_segment (bc_bit_validity_table c)). lia.
Qed.

Lemma bit_catalogue_init_ok sb bc bm :
  md_layout sb -> bm_ok bm -> bm_mapped (seg_validity_table_start sb) (md_limit sb) bm ->
  bit_catalogue_init sb (bc, bm) = (Ok tt, (bc_set_max_version (loaded_version sb bm) (bit_catalogue_blank sb), bm)).
Proof.
  intros Hlay Hok Hm.
  pose proof (table_blocks_pos sb Hlay) as (P1 & P2 & P3 & P4 & P5). pose proof Hlay as [L1 L2 L3 L4 L5 L6 L7].
  pose proof (tables_wf sb Hlay) as (Wd & Wr & Ws). pose proof (md_limit_stats sb) as Hlim.
  set (max_fd := sv_nr_segment (bc_bit_validity_table (bit_catalogue_blank sb))) in *.
  pose proof (seg_validity_span max_fd L3) as S2.
  set (bitv := disk_bitset_create (block_index_table_catalogue_start sb) max_fd).
  assert (disk_array_nr_block (db_array bitv) <= __seg_validity_table_blocks max_fd + 1) as S2' by apply S2.
  assert (bc_inv (bit_catalogue_blank sb, bm)) as Hinv.
  { split; [split; [exact Ws|done]|]. split.
    - split; [split; [apply disk_bitset_create_wf; exact (Z.lt_le_incl _ _ L3)|]|].
      + eapply bm_mapped_da_inv; [exact Hm|done|apply disk_bitset_create_wf; exact (Z.lt_le_incl _ _ L3)| |].
        * change (seg_validity_table_start sb <= block_index_table_catalogue_start sb). lia.
        * change (block_index_table_catalogue_start sb + disk_array_nr_block (db_array bitv) <= md_limit sb). lia.
      + split; [|done]. change (sv_bits _) with (db_bits bitv bm). rewrite length_db_bits.
        change (db_nr_bit bitv) with max_fd. apply Z2Nat.id. exact (Z.lt_le_incl _ _ L3).
    - eapply bm_mapped_da_inv; [exact Hm|done|exact Ws| |].
      + change (seg_validity_table_start sb <= block_index_table_catalogue_start sb + __seg_validity_table_blocks max_fd). lia.
      + rewrite Hlim. done. }
  rewrite /bit_catalogue_init /se_bind /se_modify /bitc_get_current_version /se_bind. cbn [snd].
  by rewrite (bitc_get_all_file_stats_ok _ Hinv).
Qed.

(** Opening, up to the point where formatting may start, changes no block. *)
Lemma metadata_load_ok sb bm :
  md_layout sb -> bm_ok bm -> bm_mapped (seg_validity_table_start sb) (md_limit sb) bm ->
  exists md, md_describes sb md /\ bc_max_version (md_bit_catalogue md) = loaded_version sb bm /\
    forall f, metadata_open sb f (metadata_blank sb, bm) =
      (if f then metadata_format else se_ret tt) (md, bm).
Proof.
  intros Hlay Hok Hm.
  pose proof (table_blocks_pos sb Hlay) as (P1 & P2 & P3 & P4 & P5). pose proof Hlay as [L1 L2 L3 L4 L5 L6 L7].
  pose proof (tables_wf sb Hlay) as (Wd & Wr & Ws). pose proof (md_limit_stats sb) as Hlim.
  destruct (dst_load_loop_total (Z.to_nat (nr_segment sb)) 0
    (dst_blank (data_seg_table_start sb) (nr_segment sb), bm)) as (d' & Hrun & Hs & Hn & Ha).
  { eapply bm_mapped_da_inv; [exact Hm|done|exact Wd|simpl; lia|].
    change (data_seg_table_start sb + __data_seg_table_blocks (nr_segment sb) <= md_limit sb). lia. }
  { done. }
  { simpl. lia. }
  pose proof (bit_catalogue_init_ok sb (bit_catalogue_blank sb) bm Hlay Hok Hm) as Hbc. set (v := loaded_version sb bm) in *.
  exists {| md_superblock := sb; md_seg_validator := md_seg_validator (metadata_blank sb);
            md_rit := md_rit (metadata_blank sb); md_dst := d';
            md_bit_catalogue := bc_set_max_version v (bit_catalogue_blank sb) |}.
  split.
  - split; [done|]. split; [done|]. split; [done|]. split; [|by exists v].
    split; [|done]. cbn [md_dst]. split; [rewrite Hn; cbn; lia|]. rewrite Ha Hs Hn. done.
  - split; [done|]. intros f. rewrite /metadata_open /se_bind /md_on_dst /se_zoom. cbn [fst snd metadata_blank md_dst].
    rewrite /dst_init /se_bind /se_modify /dst_load /se_bind /se_get. cbn [fst snd].
    change (dst_nr_segment (dst_blank (data_seg_table_start sb) (nr_segment sb))) with (nr_segment sb).
    rewrite Hrun. rewrite /md_on_bitc /se_zoom. cbn [fst snd md_bit_catalogue]. rewrite Hbc. by destruct f.
Qed.

Lemma metadata_init_fresh_ok bm n :
  bm_ok bm -> bufio_write_error (bufio bm) = 0 -> 0 < n <= 2 ^ 32 -> sb_unformatted bm ->
  bm_mapped 0 (md_limit (superblock_defaults n 0)) bm ->
  exists md bm' c, metadata_init crc32c n bm = (Ok md, bm') /\
    md_describes (superblock_defaults n c) md /\ md_fresh (superblock_defaults n c) (md, bm') /\
    bc_max_version (md_bit_catalogue md) = loaded_version (superblock_defaults n 0) bm /\
    superblock_read bm' = (Ok (superblock_defaults n (superblock_csum crc32c (superblock_defaults n c))), bm').
Proof.
  intros Hok Hwe Hn Hunf Hm.
  destruct (superblock_init_fresh bm n Hok Hwe Hn Hunf) as (c & bm1 & Hsb & Hok1 & Hrd & Hfr).
  pose proof (default_layout_ok n c Hn) as Hlay.
  assert (bm_mapped (seg_validity_table_start (superblock_defaults n c)) (md_limit (superblock_defaults n c)) bm1) as Hm1.
  { intros b Hb. destruct Hlay as [? ? ? Hlt ? ? ?]. rewrite Hfr; [|lia]. apply Hm.
    split; [rewrite /SUPERBLOCK_LOCATION in Hlt; lia|]. apply Hb. }
  destruct (metadata_load_ok _ bm1 Hlay Hok1 Hm1) as (md & Hdesc & Hver & Hopen).
  destruct (metadata_format_ok _ Hlay (md, bm1) Hdesc Hok1 Hm1) as ([md' bm'] & Hfmt & Hdesc' & Hfresh & Hbc & Hok' & Hfront).
  cbn [fst snd] in Hok', Hfront. exists md', bm', c. split; [|split; [done|split; [done|split]]]; last first.
  { apply (superblock_read_same bm1); [done|done| |done]. apply Hfront. apply (ml_svt _ Hlay). }
  { cbn [fst] in Hbc. rewrite Hbc Hver. exact (loaded_version_same _ bm bm1 Hlay Hfr). }
  rewrite /metadata_init Hsb (Hopen true) Hfmt. done.
Qed.
End open_facts.
