(* ===== verification/DiskMeta.v ===== *)
(** * The metadata tables on one device (struct metadata)

    The segment validity table, the data segment table, the reverse index and
    the catalogue live on one block manager.  In disjoint ranges they do not
    disturb each other, so that each call through [struct metadata] changes one
    of the views below and nothing else. *)
From S2P Require Import Prelude Codec BlockManager DiskStructs BitNode Superblock SegValidator Dst Catalogue Metadata.

(** ** Tables in disjoint ranges *)
Definition apart (t1 t2 : disk_array) : Prop := forall b, da_owns t1 b -> ~ da_owns t2 b.
Lemma apart_sym t1 t2 : apart t1 t2 -> apart t2 t1.
Proof. intros H b H2 H1. by apply (H b). Qed.

Definition svt_array (md : metadata) : disk_array := db_array (seg_validity_table (md_seg_validator md)).
Definition bitv_array (md : metadata) : disk_array := db_array (seg_validity_table (bc_bit_validity_table (md_bit_catalogue md))).
Definition stats_array (md : metadata) : disk_array := bc_file_stats (md_bit_catalogue md).
(** The arrays of the five tables; no call through [struct metadata] changes them. *)
Definition md_arrays (md : metadata) : disk_array * disk_array * disk_array * disk_array * disk_array :=
  (svt_array md, dst_array (md_dst md), rit_array (md_rit md), bitv_array md, stats_array md).

Record md_apart (md : metadata) : Prop := {
  ma_svt_dst : apart (svt_array md) (dst_array (md_dst md));
  ma_svt_rit : apart (svt_array md) (rit_array (md_rit md));
  ma_svt_bitv : apart (svt_array md) (bitv_array md);
  ma_svt_stats : apart (svt_array md) (stats_array md);
  ma_dst_rit : apart (dst_array (md_dst md)) (rit_array (md_rit md));
  ma_dst_bitv : apart (dst_array (md_dst md)) (bitv_array md);
  ma_dst_stats : apart (dst_array (md_dst md)) (stats_array md);
  ma_rit_bitv : apart (rit_array (md_rit md)) (bitv_array md);
  ma_rit_stats : apart (rit_array (md_rit md)) (stats_array md);
  ma_bitv_stats : apart (bitv_array md) (stats_array md)
}.

Lemma md_apart_same md md' : md_arrays md' = md_arrays md -> md_apart md -> md_apart md'.
Proof.
  rewrite /md_arrays. intros [= H1 H2 H3 H4 H5] [A1 A2 A3 A4 A5 A6 A7 A8 A9 A10].
  split; by rewrite ?H1 ?H2 ?H3 ?H4 ?H5.
Qed.

Record md_inv (N : Z) (st : md_state) : Prop := {
  mi_sv : sv_inv (md_seg_validator st.1, st.2);
  mi_sv_nr : sv_nr_segment (md_seg_validator st.1) = N;
  mi_dst : dst_inv (md_dst st.1, st.2);
  mi_dst_nr : dst_nr_segment (md_dst st.1) = N;
  mi_rit : da_inv (rit_array (md_rit st.1)) st.2;
  mi_rit_nr : da_nr_entry (rit_array (md_rit st.1)) = N * BLOCKS_PER_SEGMENT;
  mi_rit_size : da_entry_size (rit_array (md_rit st.1)) = 8;
  mi_bc : bc_inv (md_bit_catalogue st.1, st.2);
  mi_apart : md_apart st.1
}.

(** ** The views *)
Definition md_used (st : md_state) (i : Z) : bool :=
  (0 <=? i) && default false (sv_bits (md_seg_validator st.1, st.2) !! Z.to_nat i).
(** Block [b] is valid: its bit of the data segment table. *)
Definition entry_bit (e : dst_entry) (off : Z) : bool := default false (de_block_validity_table e !! Z.to_nat off).
Definition md_valid (N : Z) (st : md_state) (b : Z) : bool :=
  if (0 <=? b) && (b <? N * BLOCKS_PER_SEGMENT) then
    match dst_entry_at (md_dst st.1, st.2) (__block_to_segment b) with
    | Some e => entry_bit e (__block_offset_whthin_segment b)
    | None => false
    end
  else false.
Definition md_lba (N : Z) (st : md_state) (b : Z) : Z :=
  if (0 <=? b) && (b <? N * BLOCKS_PER_SEGMENT) then
    match da_entry (rit_array (md_rit st.1)) st.2 b with Some e => cdec c_u64 e | None => 0 end
  else 0.
Definition md_victims (st : md_state) : gset Z := list_to_set (vi_segno <$> dst_victims (md_dst st.1)).

(** What is seen of the catalogue. *)
Definition md_bc (st : md_state) : bc_state := (md_bit_catalogue st.1, st.2).
Record bc_same (c c' : bc_state) : Prop := {
  bs_geom : (lc_start c'.1, lc_file_size c'.1, lc_nr_disk_level c'.1, lc_common_ratio c'.1, lc_max_level_nr_file c'.1) =
            (lc_start c.1, lc_file_size c.1, lc_nr_disk_level c.1, lc_common_ratio c.1, lc_max_level_nr_file c.1);
  bs_max_fd : bc_max_fd c' = bc_max_fd c;
  bs_version : bc_max_version c'.1 = bc_max_version c.1;
  bs_bits : bc_bits c' = bc_bits c;
  bs_stat fd : 0 <= fd < bc_max_fd c -> bc_stat c' fd = bc_stat c fd
}.

(** What no call changes: where the tables are, the shape of the catalogue, and
    the blocks outside the tables. *)
Definition md_geom (md : metadata) :=
  let c := md_bit_catalogue md in
  (md_arrays md, sv_nr_segment (bc_bit_validity_table c),
   (lc_start c, lc_file_size c, lc_nr_disk_level c, lc_common_ratio c, lc_max_level_nr_file c)).
Definition md_outside (md : metadata) (b : Z) : Prop :=
  ~ da_owns (svt_array md) b /\ ~ da_owns (dst_array (md_dst md)) b /\ ~ da_owns (rit_array (md_rit md)) b /\
  ~ da_owns (bitv_array md) b /\ ~ da_owns (stats_array md) b.
Definition md_rooted (st st' : md_state) : Prop :=
  md_geom st'.1 = md_geom st.1 /\ forall b, md_outside st.1 b -> bm_block st'.2 b = bm_block st.2 b.

Lemma md_outside_geom md md' b : md_geom md' = md_geom md -> md_outside md' b <-> md_outside md b.
Proof. intros [= H1 H2 H3 H4 H5 _]. by rewrite /md_outside H1 H2 H3 H4 H5. Qed.
Lemma md_rooted_refl st : md_rooted st st.
Proof. done. Qed.
Lemma md_rooted_trans st1 st2 st3 : md_rooted st1 st2 -> md_rooted st2 st3 -> md_rooted st1 st3.
Proof. intros [H1 H2] [I1 I2]. split; [congruence|]. intros b Hb. rewrite I2; [by apply H2|]. by rewrite (md_outside_geom _ _ _ H1). Qed.

(** A step of one table: the views afterwards, and the catalogue as before. *)
Record md_step (N : Z) (st st' : md_state) (used valid : Z -> bool) (lba : Z -> Z) (vs : gset Z) : Prop := {
  ms_inv : md_inv N st';
  ms_used i : md_used st' i = used i;
  ms_valid b : md_valid N st' b = valid b;
  ms_lba b : md_lba N st' b = lba b;
  ms_victims : md_victims st' = vs;
  ms_bc : bc_same (md_bc st) (md_bc st');
  ms_root : md_rooted st st'
}.
Definition md_same (N : Z) (st st' : md_state) : Prop :=
  md_step N st st' (md_used st) (md_valid N st) (md_lba N st) (md_victims st).

Section frames.
Context (N : Z).
Implicit Types (st : md_state) (bm : dm_block_manager).

(** ** Each table when another one is written *)
Lemma sv_other v bm bm' t :
  apart (db_array (seg_validity_table v)) t -> da_frame t bm bm' -> bm_ok bm' -> sv_inv (v, bm) ->
  sv_inv (v, bm') /\ sv_bits (v, bm') = sv_bits (v, bm).
Proof.
  intros Ha Hf Hok Hi. pose proof Hi as ([Hwf Hda] & _). apply sv_inv_same; [done|by eapply da_frame_inv|].
  intros i Hr. eapply da_frame_entry; [exact Ha| |done|done]. by destruct Hda as (? & _).
Qed.

Lemma dst_other d bm bm' t :
  apart (dst_array d) t -> da_frame t bm bm' -> bm_ok bm' -> dst_inv (d, bm) ->
  dst_inv (d, bm') /\ forall s, 0 <= s < dst_nr_segment d -> dst_entry_at (d, bm') s = dst_entry_at (d, bm) s.
Proof.
  intros Ha Hf Hok Hi. pose proof Hi as (Hwf & Hda & _). cbn [fst snd] in Hwf, Hda.
  assert (forall s, 0 <= s < dst_nr_segment d -> dst_entry_at (d, bm') s = dst_entry_at (d, bm) s) as Hsame.
  { intros s Hs. rewrite /dst_entry_at. f_equal. cbn [fst snd]. eapply da_frame_entry; [exact Ha|by destruct Hda as (? & _)| |done].
    destruct Hwf as [_ ->]. exact Hs. }
  split; [|done]. apply (dst_inv_same d bm bm' Hi); [|done]. eapply da_frame_inv; [exact Ha|done|done|exact Hda].
Qed.

Lemma bc_other c bm bm' t :
  apart (db_array (seg_validity_table (bc_bit_validity_table c))) t -> apart (bc_file_stats c) t -> da_frame t bm bm' -> bm_ok bm' ->
  bc_inv (c, bm) -> bc_inv (c, bm') /\ bc_same (c, bm) (c, bm').
Proof.
  intros H1 H2 Hf Hok (Hwf & Hsv & Hda). destruct (sv_other _ _ _ _ H1 Hf Hok Hsv) as [Hsv' Hb]. pose proof Hwf as (Hw & _ & Hn).
  split.
  - split; [done|]. split; [exact Hsv'|]. eapply da_frame_inv; [exact H2|done|done|exact Hda].
  - split; try done. intros fd Hfd. rewrite /bc_stat. f_equal. eapply da_frame_entry; [exact H2|done| |done].
    cbn [fst] in Hn |- *. rewrite Hn. exact Hfd.
Qed.

Lemma bc_same_refl c : bc_same c c.
Proof. done. Qed.

(** The views depend on the entries of their tables. *)
Lemma md_valid_ext st st' : dst_nr_segment (md_dst st.1) = N ->
  (forall s, 0 <= s < N -> dst_entry_at (md_dst st'.1, st'.2) s = dst_entry_at (md_dst st.1, st.2) s) ->
  forall b, md_valid N st' b = md_valid N st b.
Proof.
  intros HN H b. rewrite /md_valid. destruct (_ && _) eqn:E; [|done]. apply andb_true_iff in E as [?%Z.leb_le ?%Z.ltb_lt].
  rewrite H //. rewrite /__block_to_segment. change BLOCKS_PER_SEGMENT with 1024 in *. split; [apply Z.div_pos; lia|apply Z.div_lt_upper_bound; lia].
Qed.
Lemma md_lba_ext st st' : (forall b, 0 <= b < N * BLOCKS_PER_SEGMENT ->
    da_entry (rit_array (md_rit st'.1)) st'.2 b = da_entry (rit_array (md_rit st.1)) st.2 b) ->
  forall b, md_lba N st' b = md_lba N st b.
Proof.
  intros H b. rewrite /md_lba. destruct (_ && _) eqn:E; [|done]. apply andb_true_iff in E as [?%Z.leb_le ?%Z.ltb_lt]. by rewrite H.
Qed.
Lemma rit_other a bm bm' t : apart a t -> da_frame t bm bm' -> bm_ok bm' -> da_inv a bm ->
  da_inv a bm' /\ forall b, 0 <= b < da_nr_entry a -> da_entry a bm' b = da_entry a bm b.
Proof.
  intros Ha Hf Hok Hi. split; [by eapply da_frame_inv|]. intros b Hb. eapply da_frame_entry; [exact Ha|by destruct Hi|done|done].
Qed.
End frames.

(** ** The calls *)
Definition md_with_sv (v : seg_validator disk_bitset) (md : metadata) : metadata :=
  {| md_superblock := md_superblock md; md_seg_validator := v; md_rit := md_rit md; md_dst := md_dst md;
     md_bit_catalogue := md_bit_catalogue md |}.
Definition md_with_dst (d : dst) (md : metadata) : metadata :=
  {| md_superblock := md_superblock md; md_seg_validator := md_seg_validator md; md_rit := md_rit md; md_dst := d;
     md_bit_catalogue := md_bit_catalogue md |}.
Definition md_with_bc (c : bit_catalogue) (md : metadata) : metadata :=
  {| md_superblock := md_superblock md; md_seg_validator := md_seg_validator md; md_rit := md_rit md; md_dst := md_dst md;
     md_bit_catalogue := c |}.

Section calls.
Context (N : Z).
Implicit Types (st : md_state) (bm : dm_block_manager).

Lemma md_same_refl st : md_inv N st -> md_same N st st.
Proof. done. Qed.

(** *** Segment validity table *)
Lemma md_sv_frame st v bm : md_inv N st -> sv_inv (v, bm) -> sv_frame (md_seg_validator st.1, st.2) (v, bm) ->
  md_step N st (md_with_sv v st.1, bm) (fun i => (0 <=? i) && default false (sv_bits (v, bm) !! Z.to_nat i))
    (md_valid N st) (md_lba N st) (md_victims st).
Proof.
  intros [I1 I2 I3 I4 I5 I6 I7 I8 I9] Hsv (Ht & Hn & Hf). cbn [fst snd] in Ht, Hn, Hf.
  assert (bm_ok bm) as Hok by (by destruct Hsv as ((_ & _ & ? & _) & _)). pose proof I9 as [A1 A2 A3 A4 A5 A6 A7 A8 A9 A10].
  destruct (dst_other _ _ _ _ (apart_sym _ _ A1) Hf Hok I3) as [D1 D2].
  destruct (rit_other _ _ _ _ (apart_sym _ _ A2) Hf Hok I5) as [R1 R2].
  destruct (bc_other _ _ _ _ (apart_sym _ _ A3) (apart_sym _ _ A4) Hf Hok I8) as [B1 B2].
  split; try done.
  - split; try done; cbn [md_with_sv fst snd md_seg_validator]; [by rewrite Hn|].
    apply (md_apart_same st.1); [|done]. rewrite /md_arrays /svt_array. cbn [md_with_sv md_seg_validator]. by rewrite Ht.
  - apply md_valid_ext; [done|]. intros s Hs. apply D2. by rewrite I4.
  - apply md_lba_ext. intros b Hb. apply R2. by rewrite I6.
  - split; [rewrite /md_geom /md_arrays /svt_array; cbn [fst md_with_sv md_seg_validator]; by rewrite Ht|]. intros b Hb. apply Hf, Hb.
Qed.

Lemma md_sv_next_ok st : md_inv N st ->
  match md_sv seg_validator_next st with
  | (Ok seg, st') => 0 <= seg < N /\ md_used st seg = false /\ md_same N st st'
  | (Err _, st') => md_same N st st' /\ forall i, 0 <= i < N -> md_used st i = true
  end.
Proof.
  intros Hi. pose proof (mi_sv _ _ Hi) as Hsv. rewrite /md_sv /se_zoom.
  destruct (seg_validator_next_spec _ _ Hsv) as (c & r & -> & Hc & Hr). cbn [fst snd].
  assert (md_same N st (md_with_sv (sv_set_cur c (md_seg_validator st.1)) st.1, st.2)) as Hs.
  { apply md_sv_frame; [done|by destruct Hsv as (? & ? & ?)|done]. }
  rewrite (mi_sv_nr _ _ Hi) in Hr. destruct r as [seg|e].
  - destruct Hr as (-> & Hlt & Hb). split; [done|]. split; [|done]. by rewrite /md_used Hb andb_false_r.
  - destruct Hr as [_ Hall]. split; [done|]. intros i Hir.
    destruct (sv_bits_is_some _ _ i Hsv) as [b Hb]; [by rewrite (mi_sv_nr _ _ Hi)|].
    rewrite /md_used Hb (proj2 (Z.leb_le 0 i)); [|lia]. eapply Forall_lookup_1 in Hall; [|exact Hb]. by subst b.
Qed.

Lemma sv_insert_used st seg b l : 0 <= seg < N -> l = <[Z.to_nat seg := b]> (sv_bits (md_seg_validator st.1, st.2)) -> md_inv N st ->
  forall i, (0 <=? i) && default false (l !! Z.to_nat i) = if i =? seg then b else md_used st i.
Proof.
  intros Hseg -> Hi i. destruct (mi_sv _ _ Hi) as (_ & Hl & _). cbn [fst] in Hl. rewrite (mi_sv_nr _ _ Hi) in Hl. rewrite /md_used.
  destruct (Z.leb_spec 0 i); cbn [andb]; [|by rewrite (proj2 (Z.eqb_neq _ _)); [|lia]].
  destruct (Z.eqb_spec i seg) as [->|Hne]; [by rewrite list_lookup_insert_eq; [|lia]|]. rewrite list_lookup_insert_ne //. lia.
Qed.

Lemma md_step_used st st' u u' v l vs : md_step N st st' u v l vs -> (forall i, u i = u' i) -> md_step N st st' u' v l vs.
Proof. intros [H1 H2 H3 H4 H5 H6 H7] Hu. split; try done. intros i. by rewrite H2. Qed.

Lemma md_sv_take_ok st seg : md_inv N st -> 0 <= seg < N ->
  exists st', md_sv (seg_validator_take seg) st = (Ok tt, st') /\
    md_step N st st' (fun i => (i =? seg) || md_used st i) (md_valid N st) (md_lba N st) (md_victims st).
Proof.
  intros Hi Hseg. destruct (seg_validator_take_spec _ _ seg (mi_sv _ _ Hi)) as ([v bm] & Hrun & Hsv & Hfr & Hb); [by rewrite (mi_sv_nr _ _ Hi)|].
  eexists. split; [by rewrite /md_sv /se_zoom Hrun|]. eapply md_step_used; [by apply md_sv_frame|].
  intros i. cbn beta. by rewrite (sv_insert_used st seg true).
Qed.

Lemma md_sv_return_ok st seg : md_inv N st -> 0 <= seg < N ->
  exists st', md_sv (seg_validator_test_and_return seg) st = (Ok (md_used st seg), st') /\
    md_step N st st' (fun i => negb (i =? seg) && md_used st i) (md_valid N st) (md_lba N st) (md_victims st).
Proof.
  intros Hi Hseg. destruct (seg_validator_test_and_return_spec _ _ seg (mi_sv _ _ Hi)) as (old & [v bm] & Hrun & Ho & Hsv & Hfr & Hb);
    [by rewrite (mi_sv_nr _ _ Hi)|].
  eexists. split; [rewrite /md_sv /se_zoom Hrun /md_used Ho (proj2 (Z.leb_le 0 seg)); [reflexivity|lia]|]. eapply md_step_used; [by apply md_sv_frame|].
  intros i. cbn beta. rewrite (sv_insert_used st seg false); [|done..]. by destruct (i =? seg).
Qed.

Lemma md_sv_count_ok st : md_inv N st ->
  md_sv seg_validator_valid_segment_count st = (Ok (count_true (md_used st <$> seqZ 0 N)), st).
Proof.
  intros Hi. pose proof (mi_sv _ _ Hi) as Hsv. pose proof (mi_sv_nr _ _ Hi) as Hn. rewrite /md_sv /se_zoom /seg_validator_valid_segment_count /se_bind /se_get.
  pose proof Hsv as (_ & Hl & _). cbn [fst snd] in Hl |- *.
  rewrite (valid_segment_loop_spec _ _ _ 0 0 Hsv); [|lia|lia]. rewrite drop_0 Z.add_0_l. destruct st as [[sb sv rit d bc] bm]. cbn [fst snd md_superblock md_seg_validator md_rit md_dst md_bit_catalogue] in *.
  do 2 f_equal. f_equal. apply list_eq => i. destruct (decide (Z.of_nat i < N)) as [Hlt|Hge].
  - rewrite list_lookup_fmap lookup_seqZ_lt //. cbn. rewrite /md_used. cbn [fst snd md_seg_validator]. rewrite Nat2Z.id.
    destruct (lookup_lt_is_Some_2 (sv_bits (sv, bm)) i) as [b Hb]; [lia|]. rewrite Hb (proj2 (Z.leb_le 0 _)); [done|lia].
  - rewrite (lookup_ge_None_2 (sv_bits _)); [|lia]. rewrite lookup_ge_None_2 //. rewrite length_fmap length_seqZ. lia.
Qed.

(** *** Data segment table *)
Lemma md_dst_frame st seg d bm : md_inv N st -> dst_inv (d, bm) -> dst_step seg (md_dst st.1, st.2) (d, bm) ->
  let st' := (md_with_dst d st.1, bm) in
  md_step N st st' (md_used st) (md_valid N st') (md_lba N st) (md_victims st').
Proof.
  intros [I1 I2 I3 I4 I5 I6 I7 I8 I9] Hd (Hs & Hn & Ha & Hf & _) st'. cbn [fst snd] in Hs, Hn, Ha, Hf.
  assert (bm_ok bm) as Hok by (by destruct Hd as (_ & (_ & ? & _) & _)). pose proof I9 as [A1 A2 A3 A4 A5 A6 A7 A8 A9 A10].
  destruct (sv_other _ _ _ _ A1 Hf Hok I1) as [S1 S2].
  destruct (rit_other _ _ _ _ (apart_sym _ _ A5) Hf Hok I5) as [R1 R2].
  destruct (bc_other _ _ _ _ (apart_sym _ _ A6) (apart_sym _ _ A7) Hf Hok I8) as [B1 B2].
  split; try done.
  - split; try done; cbn [st' md_with_dst fst snd md_dst]; [by rewrite Hn|].
    apply (md_apart_same st.1); [|done]. rewrite /md_arrays. cbn [md_with_dst md_dst]. by rewrite Ha.
  - intros i. rewrite /md_used. cbn [st' md_with_dst fst snd md_seg_validator]. by rewrite S2.
  - apply md_lba_ext. intros b Hb. apply R2. by rewrite I6.
  - split; [rewrite /md_geom /md_arrays; cbn [st' fst md_with_dst md_dst]; by rewrite Ha|]. intros b Hb. apply Hf, Hb.
Qed.

Lemma md_valid_at st e b : 0 <= b < N * BLOCKS_PER_SEGMENT -> dst_entry_at (md_dst st.1, st.2) (__block_to_segment b) = Some e ->
  md_valid N st b = entry_bit e (__block_offset_whthin_segment b).
Proof. intros Hb He. rewrite /md_valid He. rewrite (proj2 (Z.leb_le 0 b)); [|lia]. by rewrite (proj2 (Z.ltb_lt b _)); [|lia]. Qed.
Lemma block_segment b : 0 <= b < N * BLOCKS_PER_SEGMENT <-> 0 <= __block_to_segment b < N.
Proof.
  rewrite /__block_to_segment. change BLOCKS_PER_SEGMENT with 1024. pose proof (Z.div_mod b 1024 ltac:(done)).
  pose proof (Z.mod_pos_bound b 1024 ltac:(done)). split; intros; split; nia.
Qed.
Lemma md_valid_out st b : ~ 0 <= b < N * BLOCKS_PER_SEGMENT -> md_valid N st b = false.
Proof. intros Hb. rewrite /md_valid. destruct (Z.leb_spec 0 b), (Z.ltb_spec b (N * BLOCKS_PER_SEGMENT)); done || lia. Qed.

(** The validity of a block after its segment's entry was replaced by [e]. *)
Lemma md_valid_step st seg d bm e b :
  md_inv N st -> 0 <= seg < N -> dst_inv (d, bm) -> dst_step seg (md_dst st.1, st.2) (d, bm) -> dst_entry_at (d, bm) seg = Some e ->
  md_valid N (md_with_dst d st.1, bm) b =
    if __block_to_segment b =? seg then entry_bit e (__block_offset_whthin_segment b) else md_valid N st b.
Proof.
  intros Hi Hseg Hd (_ & _ & _ & _ & Hoth) He. cbn [fst] in Hoth. rewrite (mi_dst_nr _ _ Hi) in Hoth.
  destruct (decide (0 <= b < N * BLOCKS_PER_SEGMENT)) as [Hb|Hb].
  - pose proof (proj1 (block_segment b) Hb) as Hsr. destruct (Z.eqb_spec (__block_to_segment b) seg) as [Heq|Hne].
    + apply md_valid_at; [done|]. cbn [md_with_dst fst snd md_dst]. by rewrite Heq.
    + destruct (mi_dst _ _ Hi) as (_ & _ & Hent & _). cbn [fst] in Hent. rewrite /dst_entries_ok (mi_dst_nr _ _ Hi) in Hent.
      destruct (Hent _ Hsr) as (e0 & He0 & _). rewrite (md_valid_at st e0 b Hb He0).
      apply md_valid_at; [done|]. cbn [md_with_dst fst snd md_dst]. by rewrite Hoth.
  - rewrite !md_valid_out //. destruct (Z.eqb_spec (__block_to_segment b) seg) as [Heq|]; [|done]. exfalso. apply Hb, block_segment. by rewrite Heq.
Qed.

Lemma elem_md_victims st i : i ∈ md_victims st <-> exists v, v ∈ dst_victims (md_dst st.1) /\ vi_segno v = i.
Proof. rewrite /md_victims elem_of_list_to_set list_elem_of_fmap. naive_solver. Qed.

Lemma md_step_dst st st' u v v' l vs vs' : md_step N st st' u v l vs -> (forall b, v b = v' b) -> vs = vs' -> md_step N st st' u v' l vs'.
Proof. intros [H1 H2 H3 H4 H5 H6 H7] Hv <-. split; try done. intros b. by rewrite H3. Qed.

(** A segment whose blocks are all valid is full, and one without a valid block empty. *)
Lemma md_segment_all st seg e (x : bool) : 0 <= seg < N -> dst_entry_at (md_dst st.1, st.2) seg = Some e -> dst_entry_ok e ->
  (forall b, __block_to_segment b = seg -> md_valid N st b = x) -> de_nr_valid_block e = if x then BLOCKS_PER_SEGMENT else 0.
Proof.
  intros Hseg He [Hl ->] Hall. change (Z.to_nat BLOCKS_PER_SEGMENT) with 1024%nat in Hl.
  assert (de_block_validity_table e = replicate 1024 x) as ->; [|by rewrite count_true_replicate; destruct x].
  apply list_eq => i. destruct (decide (i < 1024)%nat) as [Hlt|Hge]; [|rewrite !lookup_ge_None_2 // ?length_replicate; lia].
  rewrite lookup_replicate_2 //. destruct (lookup_lt_is_Some_2 (de_block_validity_table e) i) as [y Hy]; [lia|]. rewrite Hy.
  assert (__block_to_segment (seg * 1024 + Z.of_nat i) = seg) as Hbs.
  { rewrite /__block_to_segment. change BLOCKS_PER_SEGMENT with 1024. symmetry. apply (Z.div_unique _ _ _ (Z.of_nat i)); lia. }
  specialize (Hall (seg * 1024 + Z.of_nat i) Hbs). rewrite (md_valid_at st e) in Hall.
  - rewrite /entry_bit /__block_offset_whthin_segment in Hall. change BLOCKS_PER_SEGMENT with 1024 in Hall.
    rewrite Z.add_comm Z.mod_add // Z.mod_small in Hall; [|lia]. rewrite Nat2Z.id Hy in Hall. by cbn in Hall; subst y.
  - change BLOCKS_PER_SEGMENT with 1024. lia.
  - by rewrite Hbs.
Qed.

Lemma md_take_segment_ok st seg : md_inv N st -> 0 <= seg < N ->
  (forall b, __block_to_segment b = seg -> md_valid N st b = false) ->
  exists st', md_on_dst (dst_take_segment seg) st = (Ok tt, st') /\
    md_step N st st' (md_used st) (fun b => (__block_to_segment b =? seg) || md_valid N st b) (md_lba N st) (md_victims st ∖ {[seg]}).
Proof.
  intros Hi Hseg Hfree. pose proof (mi_dst _ _ Hi) as Hd. pose proof (mi_dst_nr _ _ Hi) as Hn.
  destruct (dst_entry_inv _ seg Hd ltac:(cbn [fst]; lia)) as (e & He & Hok & _).
  assert (de_nr_valid_block e = 0) as H0 by (by rewrite (md_segment_all st seg e false)).
  destruct (dst_take_segment_ok _ seg e Hd ltac:(cbn [fst]; lia) He H0) as ([d bm] & Hrun & Hd' & Hst & He' & Hv). cbn [fst] in Hv.
  eexists. split; [by rewrite /md_on_dst /se_zoom Hrun|]. eapply md_step_dst; [by eapply md_dst_frame|..].
  - intros b. rewrite (md_valid_step st seg d bm full_entry b) //. destruct (Z.eqb_spec (__block_to_segment b) seg); [|done].
    pose proof (block_offset_range b). rewrite /entry_bit lookup_replicate_2 //. change BLOCKS_PER_SEGMENT with 1024 in *. lia.
  - apply set_eq => i. rewrite elem_of_difference elem_of_singleton !elem_md_victims. cbn [md_with_dst fst md_dst]. split.
    + intros (v & [Hin Hne]%Hv & <-). split; [by exists v|done].
    + intros [(v & Hin & <-) Hne]. exists v. split; [by apply Hv|done].
Qed.

(** One bit of an entry is changed. *)
Lemma md_valid_mark st b (x : bool) d bm e b' :
  md_inv N st -> 0 <= b < N * BLOCKS_PER_SEGMENT -> dst_inv (d, bm) -> dst_step (__block_to_segment b) (md_dst st.1, st.2) (d, bm) ->
  dst_entry_at (md_dst st.1, st.2) (__block_to_segment b) = Some e -> dst_entry_ok e ->
  dst_entry_at (d, bm) (__block_to_segment b) = Some (entry_mark (__block_offset_whthin_segment b) x e) ->
  md_valid N (md_with_dst d st.1, bm) b' = if b' =? b then x else md_valid N st b'.
Proof.
  intros Hi Hb Hd' Hst He [Hl _] He'. pose proof (proj1 (block_segment b) Hb) as Hseg. pose proof (block_offset_range b) as Hoff.
  rewrite (md_valid_step st (__block_to_segment b) d bm _ b' Hi Hseg Hd' Hst He').
  destruct (Z.eqb_spec (__block_to_segment b') (__block_to_segment b)) as [Heq|Hne].
  - rewrite /entry_bit /entry_mark. cbn [de_block_validity_table].
    assert (0 <= b' < N * BLOCKS_PER_SEGMENT) as Hb' by (apply block_segment; by rewrite Heq).
    rewrite (md_valid_at st e b' Hb') ?Heq // /entry_bit. pose proof (block_offset_range b') as Hoff'.
    destruct (Z.eqb_spec b' b) as [->|Hbne].
    + rewrite list_lookup_insert_eq //. rewrite Hl. change (Z.to_nat BLOCKS_PER_SEGMENT) with 1024%nat. change BLOCKS_PER_SEGMENT with 1024 in Hoff. lia.
    + rewrite list_lookup_insert_ne //. intros Hx. apply Hbne. rewrite /__block_to_segment /__block_offset_whthin_segment in Heq, Hx, Hoff, Hoff'.
      change BLOCKS_PER_SEGMENT with 1024 in *. pose proof (Z.div_mod b 1024). pose proof (Z.div_mod b' 1024). lia.
  - destruct (Z.eqb_spec b' b) as [->|]; done.
Qed.

(** The entry of a block, with the bit its validity shows. *)
Lemma md_entry_bit st b : md_inv N st -> 0 <= b < N * BLOCKS_PER_SEGMENT ->
  exists e, dst_entry_at (md_dst st.1, st.2) (__block_to_segment b) = Some e /\ dst_entry_ok e /\
    de_block_validity_table e !! Z.to_nat (__block_offset_whthin_segment b) = Some (md_valid N st b).
Proof.
  intros Hi Hb. pose proof (proj1 (block_segment b) Hb) as Hseg. pose proof (mi_dst_nr _ _ Hi) as Hn.
  destruct (dst_entry_inv _ (__block_to_segment b) (mi_dst _ _ Hi) ltac:(cbn [fst]; lia)) as (e & He & Hok & _). pose proof (block_offset_range b) as Hoff.
  exists e. split; [done|]. split; [done|]. rewrite (md_valid_at st e b Hb He) /entry_bit. destruct Hok as [Hl _].
  destruct (lookup_lt_is_Some_2 (de_block_validity_table e) (Z.to_nat (__block_offset_whthin_segment b))) as [x ->]; [rewrite Hl; lia|done].
Qed.

Lemma md_return_block_ok st b : md_inv N st -> 0 <= b < N * BLOCKS_PER_SEGMENT -> md_valid N st b = true ->
  md_step N st (md_on_dst (dst_return_block b) st).2 (md_used st) (fun b' => negb (b' =? b) && md_valid N st b') (md_lba N st)
    ({[__block_to_segment b]} ∪ md_victims st).
Proof.
  intros Hi Hb Hv0. pose proof (mi_dst _ _ Hi) as Hd. pose proof (mi_dst_nr _ _ Hi) as Hn. pose proof (proj1 (block_segment b) Hb) as Hseg.
  destruct (md_entry_bit st b Hi Hb) as (e & He & Hok & Ex). rewrite Hv0 in Ex.
  destruct (dst_return_block_ok _ b e Hd ltac:(cbn [fst]; lia) He Ex) as ([d bm] & Hrun & Hd' & Hst & He' & Hv). cbn [fst] in Hv.
  rewrite /md_on_dst /se_zoom Hrun. cbn [snd fst]. eapply md_step_dst; [by eapply md_dst_frame|..].
  - intros b'. rewrite (md_valid_mark st b false d bm e b' Hi Hb Hd' Hst He Hok He'). by destruct (b' =? b).
  - apply set_eq => i. rewrite elem_of_union elem_of_singleton !elem_md_victims. cbn [md_with_dst fst md_dst]. split.
    + intros (v & [[Hin Hne]| ->]%Hv & <-); [right; by exists v|by left].
    + intros [->|(v & Hin & <-)]; [eexists; split; [apply Hv; by right|done]|].
      destruct (decide (vi_segno v = __block_to_segment b)) as [Heq|Hne]; [eexists; split; [apply Hv; by right|by rewrite Heq]|].
      exists v. split; [apply Hv; by left|done].
Qed.

Lemma md_take_block_ok st b : md_inv N st -> 0 <= b < N * BLOCKS_PER_SEGMENT -> md_valid N st b = false ->
  let st' := (md_on_dst (dst_take_block b) st).2 in
  md_victims st' ⊆ {[__block_to_segment b]} ∪ md_victims st /\
  (forall e, dst_entry_at (md_dst st'.1, st'.2) (__block_to_segment b) = Some e -> de_nr_valid_block e < BLOCKS_PER_SEGMENT -> __block_to_segment b ∈ md_victims st') /\
  md_step N st st' (md_used st) (fun b' => (b' =? b) || md_valid N st b') (md_lba N st) (md_victims st').
Proof.
  intros Hi Hb Hv0. pose proof (mi_dst _ _ Hi) as Hd. pose proof (mi_dst_nr _ _ Hi) as Hn. pose proof (proj1 (block_segment b) Hb) as Hseg.
  destruct (md_entry_bit st b Hi Hb) as (e & He & Hok & Ex). rewrite Hv0 in Ex.
  destruct (dst_take_block_ok _ b e Hd ltac:(cbn [fst]; lia) He Ex) as ([d bm] & Hrun & Hd' & Hst & He' & Hv). cbn [fst] in Hv.
  rewrite /md_on_dst /se_zoom Hrun. cbn [snd fst]. split; [|split].
  - intros i. rewrite elem_of_union elem_of_singleton !elem_md_victims. cbn [md_with_dst fst md_dst].
    intros (v & [[Hin _]|[_ ->]]%Hv & <-); [right; by exists v|by left].
  - intros e' He0 Hlt. apply elem_md_victims. cbn [md_with_dst fst snd md_dst] in He0 |- *. rewrite He' in He0. injection He0 as <-.
    eexists. split; [apply Hv; right; split; [exact Hlt|reflexivity]|done].
  - eapply md_step_dst; [by eapply md_dst_frame| |done].
    intros b'. rewrite (md_valid_mark st b true d bm e b' Hi Hb Hd' Hst He Hok He'). by destruct (b' =? b).
Qed.

Lemma md_remove_victim_ok st seg : md_inv N st ->
  md_step N st (md_on_dst (dst_remove_victim seg) st).2 (md_used st) (md_valid N st) (md_lba N st) (md_victims st ∖ {[seg]}).
Proof.
  intros Hi. pose proof (mi_dst _ _ Hi) as Hd. pose proof (mi_dst_nr _ _ Hi) as Hn.
  destruct (dst_remove_victim_ok _ seg Hd) as (o & [d bm] & Hrun & Hd' & Hbm & _ & Hst & Hv). cbn [fst snd] in Hv, Hbm. subst bm.
  rewrite /md_on_dst /se_zoom Hrun. cbn [snd fst]. eapply md_step_dst; [by eapply md_dst_frame|..].
  - apply md_valid_ext; [done|]. intros s Hs. cbn [md_with_dst fst snd md_dst]. destruct Hst as (_ & _ & Ha & _). cbn [fst snd] in Ha.
    by rewrite /dst_entry_at /= Ha.
  - apply set_eq => i. rewrite elem_of_difference elem_of_singleton !elem_md_victims. cbn [md_with_dst fst md_dst]. split.
    + intros (v & [Hin Hne]%Hv & <-). split; [by exists v|done].
    + intros [(v & Hin & <-) Hne]. exists v. split; [by apply Hv|done].
Qed.

(** *** Reverse index table *)
Lemma md_rit_set_ok st b lba : md_inv N st -> 0 <= b < N * BLOCKS_PER_SEGMENT -> 0 <= lba < 2 ^ 64 ->
  md_step N st (md_on_rit (fun t => reverse_index_table_set t b lba) st).2 (md_used st) (md_valid N st)
    (fun b' => if b' =? b then lba else md_lba N st b') (md_victims st).
Proof.
  intros [I1 I2 I3 I4 I5 I6 I7 I8 I9] Hb Hl.
  destruct (disk_array_set_ok (rit_array (md_rit st.1)) st.2 b (cenc c_u64 lba) I5) as (bm & Hrun & Hda & Hf & Hent); [by rewrite I6|by rewrite I7|].
  rewrite /md_on_rit /reverse_index_table_set /__reverse_index_table_set_entry Hrun. cbn [snd].
  assert (bm_ok bm) as Hok by (by destruct Hda as (_ & ? & _)). pose proof I9 as [A1 A2 A3 A4 A5 A6 A7 A8 A9 A10].
  destruct (sv_other _ _ _ _ A2 Hf Hok I1) as [S1 S2]. destruct (dst_other _ _ _ _ A5 Hf Hok I3) as [D1 D2].
  destruct (bc_other _ _ _ _ (apart_sym _ _ A8) (apart_sym _ _ A9) Hf Hok I8) as [B1 B2].
  split; try done.
  - intros i. rewrite /md_used. cbn [fst snd]. by rewrite S2.
  - apply md_valid_ext; [done|]. intros s Hs. apply D2. by rewrite I4.
  - intros b'. rewrite /md_lba. cbn [fst snd]. destruct ((0 <=? b') && (b' <? N * BLOCKS_PER_SEGMENT)) eqn:E.
    + apply andb_true_iff in E as [?%Z.leb_le ?%Z.ltb_lt]. rewrite Hent; [|by rewrite I6].
      destruct (Z.eqb_spec b' b) as [->|Hne]; [rewrite decide_True // cdec_enc //|by rewrite decide_False].
    + destruct (Z.eqb_spec b' b) as [->|]; [|done]. rewrite (proj2 (Z.leb_le 0 b)) in E; [|lia]. by rewrite (proj2 (Z.ltb_lt b _)) in E; [|lia].
  - split; [done|]. intros b' Hb'. apply Hf, Hb'.
Qed.

Lemma md_rit_get_ok st b : md_inv N st -> 0 <= b < N * BLOCKS_PER_SEGMENT ->
  md_on_rit (fun t => reverse_index_table_get t b) st = (Ok (md_lba N st b), st).
Proof.
  intros [I1 I2 I3 I4 I5 I6 I7 I8 I9] Hb. destruct (da_entry_is_some _ st.2 b I5) as [e He]; [by rewrite I6|].
  rewrite /md_on_rit /reverse_index_table_get /se_bind /__reverse_index_table_get_entry (disk_array_get_ok _ _ _ _ I5 ltac:(by rewrite I6) He).
  rewrite /md_lba He. rewrite (proj2 (Z.leb_le 0 b)); [|lia]. rewrite (proj2 (Z.ltb_lt b _)); [|lia]. by destruct st.
Qed.
End calls.
