(* ===== verification/Area.v ===== *)
(** * Byte-addressed areas

    The index file, and the buffers that are written to it, are addressed by
    byte offset: [kernel_read] and [kernel_write] copy ranges of them.  An area
    is the function from an offset to the byte stored there. *)
From S2P Require Import Prelude Codec.

Definition area : Type := Z -> byte.

Definition area_zero : area := fun _ => Byte.x00.
Definition area_write (off : Z) (data : list byte) (a : area) : area := fun i =>
  if (off <=? i) && (i <? off + Z.of_nat (length data))
  then default (a i) (data !! Z.to_nat (i - off)) else a i.
Definition area_read (off : Z) (len : nat) (a : area) : list byte :=
  (fun k => a (off + Z.of_nat k)) <$> seq 0 len.

Lemma length_area_read off len a : length (area_read off len a) = len.
Proof. by rewrite /area_read length_fmap length_seq. Qed.

Lemma area_read_lookup off len a (k : nat) :
  (k < len)%nat -> area_read off len a !! k = Some (a (off + Z.of_nat k)).
Proof. intros Hk. rewrite /area_read list_lookup_fmap lookup_seq_lt; [done|]. lia. Qed.

(** Reading depends on the bytes of the range only. *)
Lemma area_read_ext off len a a' :
  (forall i, off <= i < off + Z.of_nat len -> a' i = a i) ->
  area_read off len a' = area_read off len a.
Proof.
  intros Heq. apply list_fmap_ext => k x Hx. apply lookup_seq in Hx as [-> Hk]. apply Heq. lia.
Qed.

Lemma area_write_out off data a i :
  ~ (off <= i < off + Z.of_nat (length data)) -> area_write off data a i = a i.
Proof. intros Hi. rewrite /area_write. zbool; simpl; done || lia. Qed.

Lemma area_write_in off data a i b :
  off <= i -> data !! Z.to_nat (i - off) = Some b -> area_write off data a i = b.
Proof.
  intros Ho Hb. pose proof (lookup_lt_Some _ _ _ Hb) as Hl. rewrite /area_write.
  do 2 ztest. by rewrite /= Hb.
Qed.

Lemma area_read_write_eq off data a : area_read off (length data) (area_write off data a) = data.
Proof.
  apply list_eq_same_length with (length data); [done|by rewrite length_area_read|].
  intros k x y Hk Hx Hy. rewrite area_read_lookup // in Hx. injection Hx as <-.
  apply area_write_in; [lia|]. by replace (off + Z.of_nat k - off) with (Z.of_nat k) by lia; rewrite Nat2Z.id.
Qed.

Lemma area_read_write_ne off off' len data a :
  off' + Z.of_nat len <= off \/ off + Z.of_nat (length data) <= off' ->
  area_read off' len (area_write off data a) = area_read off' len a.
Proof. intros Hd. apply area_read_ext => i Hi. apply area_write_out. lia. Qed.

(** Copying a whole range from one area to another. *)
Lemma area_copy_in off len src dst i off' :
  off <= i < off + Z.of_nat len ->
  area_write off (area_read off' len src) dst i = src (off' + (i - off)).
Proof.
  intros Hi. apply area_write_in; [lia|]. rewrite area_read_lookup; [|lia]. do 2 f_equal. lia.
Qed.

(** [memcpy] of a range of one area into another. *)
Definition area_copy (doff : Z) (src : area) (soff len : Z) (dst : area) : area := fun i =>
  if (doff <=? i) && (i <? doff + len) then src (soff + (i - doff)) else dst i.

Lemma area_copy_inside doff src soff len dst i :
  doff <= i < doff + len -> area_copy doff src soff len dst i = src (soff + (i - doff)).
Proof. intros Hi. rewrite /area_copy. by do 2 ztest. Qed.
Lemma area_copy_outside doff src soff len dst i :
  ~ (doff <= i < doff + len) -> area_copy doff src soff len dst i = dst i.
Proof. intros Hi. rewrite /area_copy. zbool; simpl; done || lia. Qed.

Lemma area_read_slice base (k n m : nat) a :
  (k + n <= m)%nat -> area_read (base + Z.of_nat k) n a = slice k n (area_read base m a).
Proof.
  intros Hle. apply list_eq_same_length with n.
  - rewrite length_slice // length_area_read //.
  - by rewrite length_area_read.
  - intros i x y Hi. rewrite area_read_lookup // /slice lookup_take_lt // lookup_drop area_read_lookup; [|lia].
    intros [= <-] [= <-]. f_equal. lia.
Qed.

(** Reading a range that a write falls into. *)
Lemma area_read_splice base (k m : nat) l a :
  (k + length l <= m)%nat -> area_read base m (area_write (base + Z.of_nat k) l a) = splice k l (area_read base m a).
Proof.
  intros Hle. apply list_eq_same_length with m.
  - rewrite length_splice length_area_read //.
  - by rewrite length_area_read.
  - intros i x y Hi. rewrite area_read_lookup // /splice. intros [= <-].
    destruct (decide (i < k)%nat); [|destruct (decide (i < k + length l)%nat)].
    + rewrite lookup_app_l ?length_take ?length_area_read; [|lia]. rewrite lookup_take_lt // area_read_lookup //.
      intros [= <-]. apply area_write_out. lia.
    + rewrite lookup_app_r ?length_take ?length_area_read; [|lia]. rewrite lookup_app_l; [|lia]. intros Hy.
      apply area_write_in; [lia|]. rewrite -Hy. f_equal. lia.
    + rewrite lookup_app_r ?length_take ?length_area_read; [|lia]. rewrite lookup_app_r; [|lia].
      rewrite lookup_drop area_read_lookup; [|lia]. intros [= <-]. rewrite area_write_out; [|lia]. f_equal. lia.
Qed.
