(* ===== verification/Bloom.v ===== *)
(** * Bloom filter (source/bloom_filter.c)

    Every BIT file carries a Bloom filter over its keys.  The bit array is a
    byte area of [bf_size] bytes; [set_bit] and [test_bit] address bit
    [n mod 8] of byte [n / 8], as on a little-endian machine. *)
From S2P Require Import Prelude Codec Area.

Definition hash_func_t : Type := list byte -> Z.

Record bloom_filter : Type := {
  bf_hash_funcs : list hash_func_t;
  bf_bits : area;
  bf_size : Z
}.

Definition BITS_PER_BYTE : Z := 8.

Definition area_test_bit (n : Z) (a : area) : bool :=
  Z.testbit (byte_Z (a (n / BITS_PER_BYTE))) (n mod BITS_PER_BYTE).
Definition area_set_bit (n : Z) (a : area) : area := fun i =>
  if i =? n / BITS_PER_BYTE
  then Z_byte (Z.lor (byte_Z (a i)) (Z.shiftl 1 (n mod BITS_PER_BYTE))) else a i.

Definition bf_set_bits (b : area) (f : bloom_filter) : bloom_filter :=
  {| bf_hash_funcs := bf_hash_funcs f; bf_bits := b; bf_size := bf_size f |}.

Definition bloom_filter_create (size : Z) : bloom_filter :=
  {| bf_hash_funcs := []; bf_bits := area_zero; bf_size := size |}.

(** [list_add] puts the new function first. *)
Definition bloom_filter_add_hash (this : bloom_filter) (func : hash_func_t) : bloom_filter :=
  {| bf_hash_funcs := func :: bf_hash_funcs this; bf_bits := bf_bits this; bf_size := bf_size this |}.

Definition bloom_offset (this : bloom_filter) (f : hash_func_t) (data : list byte) : Z :=
  f data mod (bf_size this * BITS_PER_BYTE).

Definition bloom_filter_add (this : bloom_filter) (data : list byte) : bloom_filter :=
  bf_set_bits
    (foldl (fun bits f => area_set_bit (bloom_offset this f data) bits) (bf_bits this) (bf_hash_funcs this))
    this.

Fixpoint bloom_contains_loop (this : bloom_filter) (fs : list hash_func_t) (data : list byte) : bool :=
  match fs with
  | [] => true
  | f :: fs =>
      if negb (area_test_bit (bloom_offset this f data) (bf_bits this)) then false
      else bloom_contains_loop this fs data
  end.
Definition bloom_filter_contains (this : bloom_filter) (data : list byte) : bool :=
  bloom_contains_loop this (bf_hash_funcs this) data.

(** [kernel_read (file, this->bits, this->size, &begin)]. *)
Definition bloom_filter_load (this : bloom_filter) (file : area) (begin : Z) : bloom_filter :=
  bf_set_bits (area_write 0 (area_read begin (Z.to_nat (bf_size this)) file) (bf_bits this)) this.

(** ** The hash functions; [char] is signed *)
Definition djb2 (str : list byte) : Z :=
  foldl (fun hash c => u64 (u64 (Z.shiftl hash 5 + hash) + byte_sZ c)) 5381 str.

Definition jenkins (key : list byte) : Z :=
  let hash := foldl (fun hash c =>
    let hash := u32 (hash + byte_sZ c) in
    let hash := u32 (hash + u32 (Z.shiftl hash 10)) in
    Z.lxor hash (Z.shiftr hash 6)) 0 key in
  let hash := u32 (hash + u32 (Z.shiftl hash 3)) in
  let hash := Z.lxor hash (Z.shiftr hash 11) in
  u32 (hash + u32 (Z.shiftl hash 15)).

Definition shash (word : list byte) : Z :=
  foldl (fun hash c => u64 (u64 (31 * hash) + byte_Z c)) 0 word.

(** ** Bits *)
Lemma area_set_bit_spec n m a :
  0 <= n -> 0 <= m ->
  area_test_bit m (area_set_bit n a) = (m =? n) || area_test_bit m a.
Proof.
  intros Hn Hm. rewrite /area_test_bit /area_set_bit /BITS_PER_BYTE.
  pose proof (Z.mod_pos_bound n 8 ltac:(lia)). pose proof (Z.mod_pos_bound m 8 ltac:(lia)).
  destruct (Z.eqb_spec (m / 8) (n / 8)) as [Hq|Hq]; last first.
  { destruct (Z.eqb_spec m n); [congruence|done]. }
  rewrite byte_Z_byte. change 256 with (2 ^ 8). rewrite Z.mod_pow2_bits_low; [|lia].
  rewrite Z.lor_spec Z.shiftl_spec; [|lia]. rewrite orb_comm. f_equal.
  destruct (Z.eqb_spec m n) as [->|Hne].
  - by rewrite Z.sub_diag.
  - assert (m mod 8 <> n mod 8).
    { intros He. apply Hne. rewrite (Z.div_mod m 8) // (Z.div_mod n 8) //. lia. }
    destruct (Z.ltb_spec (m mod 8) (n mod 8)).
    + rewrite Z.testbit_neg_r; [done|lia].
    + destruct (m mod 8 - n mod 8) as [|p|p] eqn:E; [lia|by destruct p|lia].
Qed.

Section bloom_facts.
Implicit Types (this : bloom_filter) (data x : list byte).

(** Offsets are bit indices of the array. *)
Lemma bloom_offset_range this f data :
  0 < bf_size this -> 0 <= bloom_offset this f data < bf_size this * BITS_PER_BYTE.
Proof. intros. apply Z.mod_pos_bound. rewrite /BITS_PER_BYTE. lia. Qed.

Lemma bloom_contains_forall this fs data :
  bloom_contains_loop this fs data = true <->
  Forall (fun f => area_test_bit (bloom_offset this f data) (bf_bits this) = true) fs.
Proof.
  induction fs as [|f fs IH]; simpl; [done|]. rewrite Forall_cons -IH.
  destruct (area_test_bit _ _); simpl; naive_solver.
Qed.

Lemma bloom_set_all this data fs bits n :
  0 < bf_size this -> 0 <= n ->
  area_test_bit n (foldl (fun b f => area_set_bit (bloom_offset this f data) b) bits fs) = true <->
  area_test_bit n bits = true \/ exists f, f ∈ fs /\ n = bloom_offset this f data.
Proof.
  intros Hs Hn. revert bits. induction fs as [|f fs IH] => bits; simpl; [set_solver|].
  rewrite IH area_set_bit_spec; [|apply bloom_offset_range; done|done].
  rewrite orb_true_iff Z.eqb_eq. setoid_rewrite elem_of_cons. naive_solver.
Qed.

Lemma bloom_add_bits this data n :
  0 < bf_size this -> 0 <= n ->
  area_test_bit n (bf_bits (bloom_filter_add this data)) = true <->
  area_test_bit n (bf_bits this) = true \/
  exists f, f ∈ bf_hash_funcs this /\ n = bloom_offset this f data.
Proof. apply bloom_set_all. Qed.

Lemma bloom_add_contains this data :
  0 < bf_size this -> bloom_filter_contains (bloom_filter_add this data) data = true.
Proof.
  intros Hs. apply bloom_contains_forall, Forall_forall => f Hf.
  apply bloom_add_bits; [done|apply bloom_offset_range; done|]. right. by exists f.
Qed.

Lemma bloom_add_mono this data x :
  0 < bf_size this -> bloom_filter_contains this x = true ->
  bloom_filter_contains (bloom_filter_add this data) x = true.
Proof.
  intros Hs Hc. apply bloom_contains_forall, Forall_forall => f Hf.
  apply bloom_add_bits; [done|apply bloom_offset_range; done|]. left.
  eapply Forall_forall in Hf; last by apply bloom_contains_forall, Hc. done.
Qed.

Lemma bloom_add_size this data : bf_size (bloom_filter_add this data) = bf_size this.
Proof. done. Qed.
Lemma bloom_add_hashes this data : bf_hash_funcs (bloom_filter_add this data) = bf_hash_funcs this.
Proof. done. Qed.

Lemma bloom_adds_contains this xs x :
  0 < bf_size this -> x ∈ xs \/ bloom_filter_contains this x = true ->
  bloom_filter_contains (foldl bloom_filter_add this xs) x = true.
Proof.
  revert this. induction xs as [|y xs IH] => this Hs Hx; simpl.
  - destruct Hx as [Hx|Hx]; [by apply not_elem_of_nil in Hx|done].
  - apply IH; [done|]. destruct Hx as [Hx|Hx]; [|right; by apply bloom_add_mono].
    apply elem_of_cons in Hx as [->|Hx]; [right; by apply bloom_add_contains|by left].
Qed.

(** A filter that was written to a file and loaded answers as before. *)
Lemma bloom_contains_ext this this' x :
  0 < bf_size this -> bf_size this' = bf_size this -> bf_hash_funcs this' = bf_hash_funcs this ->
  (forall i, 0 <= i < bf_size this -> bf_bits this' i = bf_bits this i) ->
  bloom_filter_contains this' x = bloom_filter_contains this x.
Proof.
  intros Hs Hsz Hf Hb. rewrite /bloom_filter_contains Hf.
  generalize (bf_hash_funcs this) as fs. induction fs as [|f fs IH]; [done|].
  cbn [bloom_contains_loop]. rewrite IH /bloom_offset Hsz /area_test_bit Hb; [done|].
  pose proof (bloom_offset_range this f x Hs) as Hr. rewrite /bloom_offset in Hr.
  rewrite /BITS_PER_BYTE in Hr |- *. split; [apply Z.div_pos; lia|].
  apply Z.div_lt_upper_bound; lia.
Qed.

Lemma bloom_load_contains this other file begin x :
  0 < bf_size this -> bf_size other = bf_size this -> bf_hash_funcs other = bf_hash_funcs this ->
  area_read begin (Z.to_nat (bf_size this)) file = area_read 0 (Z.to_nat (bf_size this)) (bf_bits this) ->
  bloom_filter_contains (bloom_filter_load other file begin) x = bloom_filter_contains this x.
Proof.
  intros Hs Hsz Hf Hrd. apply bloom_contains_ext; [done|done|done|].
  intros i Hi. cbn [bloom_filter_load bf_set_bits bf_bits]. rewrite Hsz Hrd.
  rewrite area_copy_in; [|lia]. f_equal. lia.
Qed.

Lemma bloom_load_ext this file file' begin :
  (forall i, begin <= i < begin + bf_size this -> file' i = file i) ->
  bloom_filter_load this file begin = bloom_filter_load this file' begin.
Proof.
  intros He. rewrite /bloom_filter_load. do 2 f_equal. apply area_read_ext => i Hi. symmetry. apply He. lia.
Qed.
End bloom_facts.

(** ** Ranges of the hash functions *)
Lemma foldl_range {A} (f : Z -> A -> Z) (m : Z) l z :
  0 <= z < m -> (forall h a, 0 <= h < m -> 0 <= f h a < m) -> 0 <= foldl f z l < m.
Proof. intros Hz Hf. revert z Hz. induction l as [|a l IH] => z Hz; [done|]. simpl. apply IH. by apply Hf. Qed.

(** The three hash functions return a value of their
    declared width for every input: [djb2] and [shash] a [uint64_t], [jenkins]
    a 32-bit value. *)
Theorem hash_funcs_range data :
  0 <= djb2 data < 2 ^ 64 /\ 0 <= shash data < 2 ^ 64 /\ 0 <= jenkins data < 2 ^ 32.
Proof.
  split; [|split].
  - apply foldl_range; [lia|]. intros. apply u64_range.
  - apply foldl_range; [lia|]. intros. apply u64_range.
  - apply u32_range.
Qed.

(** C29: a Bloom filter never denies a key: after any
    sequence of additions, in any order and with any hash functions installed,
    every key that was added is reported present, also by a filter that was
    loaded back from the file the bits were written to. *)
Theorem bloom_no_false_negative (this other : bloom_filter) (xs : list (list byte)) (file : area) (begin : Z) :
  let filter := foldl bloom_filter_add this xs in
  0 < bf_size this -> bf_size other = bf_size this -> bf_hash_funcs other = bf_hash_funcs this ->
  area_read begin (Z.to_nat (bf_size this)) file = area_read 0 (Z.to_nat (bf_size this)) (bf_bits filter) ->
  forall x, x ∈ xs -> bloom_filter_contains filter x = true /\
    bloom_filter_contains (bloom_filter_load other file begin) x = true.
Proof.
  intros filter Hs Hsz Hf Hrd x Hx.
  assert (bf_size filter = bf_size this /\ bf_hash_funcs filter = bf_hash_funcs this) as [Hfs Hff].
  { rewrite /filter. clear. revert this. induction xs as [|y xs IH] => this; [done|]. by destruct (IH (bloom_filter_add this y)). }
  assert (bloom_filter_contains filter x = true) as Hc by (apply bloom_adds_contains; [done|by left]).
  split; [done|]. rewrite (bloom_load_contains filter); congruence.
Qed.

Definition bloom_sample : bloom_filter :=
  bloom_filter_add_hash (bloom_filter_add_hash (bloom_filter_add_hash (bloom_filter_create 32) djb2) jenkins) shash.

Lemma bloom_no_false_negative_witness :
  let filter := foldl bloom_filter_add bloom_sample [le_enc 4 7; le_enc 4 1000] in
  bloom_filter_contains filter (le_enc 4 1000) = true /\ bloom_filter_contains filter (le_enc 4 70000) = false /\
  bloom_filter_contains (bloom_filter_load bloom_sample (bf_bits filter) 0) (le_enc 4 1000) = true.
Proof.
  intros filter.
  destruct (bloom_no_false_negative bloom_sample bloom_sample [le_enc 4 7; le_enc 4 1000] (bf_bits filter) 0
    eq_refl eq_refl eq_refl eq_refl (le_enc 4 1000)) as [H1 H2].
  { right. left. }
  split; [exact H1|]. split; [vm_compute; reflexivity|exact H2].
Defined.
