(* ===== verification/Hashtable.v ===== *)
(** * Linked hash table (source/hashtable.c)

    A chained hash table with [int64_t] keys whose bucket array doubles when
    the table fills up.  A bucket is the list of its nodes in [hlist] order.
    The kernel's [hash_64_generic] is a parameter; all the table needs of it is
    that it returns a value of the asked number of bits. *)
From S2P Require Import Prelude.
Local Open Scope se_scope.

Class Hash64 : Type := hash_64_generic : Z -> Z -> Z.
Class Hash64Ok `{Hash64} : Prop :=
  hash_64_range val bits : 0 < bits <= 64 -> 0 <= hash_64_generic val bits < 2 ^ bits.

Definition MAX_LINKED_HASHTABLE_CAPACITY : Z := Z.shiftl 1 20.
Definition DEFAULT_LINKED_HASHTABLE_CAPACITY : Z := 16.

Definition rehash_threadhold (capacity : Z) : Z := capacity / 5 * 4.

Record linked_node (V : Type) : Type := { ln_key : Z; ln_val : V }.
Arguments ln_key {V}.
Arguments ln_val {V}.
Arguments Build_linked_node {V}.

Record linked_hashtable (V : Type) : Type := {
  lh_capacity : Z;
  lh_buckets : list (list (linked_node V));
  lh_size : Z
}.
Arguments lh_capacity {V}.
Arguments lh_buckets {V}.
Arguments lh_size {V}.
Arguments Build_linked_hashtable {V}.

(** [struct entry]: what iterators return; its key is a [uint32_t]. *)
Record entry (V : Type) : Type := { e_key : Z; e_val : V }.
Arguments e_key {V}.
Arguments e_val {V}.
Definition __entry {V} (key : Z) (val : V) : entry V := {| e_key := u32 key; e_val := val |}.

Section hashtable.
Context {V : Type} `{Hash64}.
Implicit Types (this : linked_hashtable V) (buckets : list (list (linked_node V))).

(** [hash(x, capacity)] *)
Definition hash (x capacity : Z) : Z := hash_64_generic (u64 x) (Z.log2 capacity).

Definition init_buckets (capacity : Z) : list (list (linked_node V)) :=
  replicate (Z.to_nat capacity) [].

(** [hlist_add_head (node, &buckets[slot])] *)
Definition hlist_add_head (slot : Z) (node : linked_node V) buckets :=
  alter (fun bucket => node :: bucket) (Z.to_nat slot) buckets.

(** [hash_for_each_safe] over the old buckets, each node moved to the new ones. *)
Definition rehash_move (new_capacity : Z) buckets new_buckets :=
  foldl (fun nb bucket =>
    foldl (fun nb node => hlist_add_head (hash (ln_key node) new_capacity) node nb) nb bucket)
    new_buckets buckets.

Definition linked_hashtable_rehash this : linked_hashtable V :=
  if MAX_LINKED_HASHTABLE_CAPACITY <=? lh_capacity this then this
  else
    let new_capacity := Z.shiftl (lh_capacity this) 1 in
    {| lh_capacity := new_capacity;
       lh_buckets := rehash_move new_capacity (lh_buckets this) (init_buckets new_capacity);
       lh_size := lh_size this |}.

Fixpoint search_bucket (key : Z) (bucket : list (linked_node V)) : option (linked_node V) :=
  match bucket with
  | [] => None
  | node :: bucket => if ln_key node =? key then Some node else search_bucket key bucket
  end.

Definition bucket_at this (slot : Z) : list (linked_node V) :=
  default [] (lh_buckets this !! Z.to_nat slot).

Definition linked_hashtable_search_node this (key : Z) : option (linked_node V) :=
  search_bucket key (bucket_at this (hash key (lh_capacity this))).

(** [node->val = val] on the node the search returned. *)
Fixpoint bucket_set_val (key : Z) (val : V) (bucket : list (linked_node V)) : list (linked_node V) :=
  match bucket with
  | [] => []
  | node :: bucket =>
      if ln_key node =? key then Build_linked_node (ln_key node) val :: bucket
      else node :: bucket_set_val key val bucket
  end.

(** [hlist_del_init] of the node the search returned. *)
Fixpoint bucket_del (key : Z) (bucket : list (linked_node V)) : list (linked_node V) :=
  match bucket with
  | [] => []
  | node :: bucket => if ln_key node =? key then bucket else node :: bucket_del key bucket
  end.

Definition lh_with buckets (size : Z) this : linked_hashtable V :=
  {| lh_capacity := lh_capacity this; lh_buckets := buckets; lh_size := size |}.

(** Returns the value it replaces. *)
Definition linked_hashtable_put (key : Z) (val : V) this : option V * linked_hashtable V :=
  let this := if rehash_threadhold (lh_capacity this) <=? lh_size this
              then linked_hashtable_rehash this else this in
  let slot := hash key (lh_capacity this) in
  match linked_hashtable_search_node this key with
  | Some node =>
      (Some (ln_val node),
       lh_with (alter (bucket_set_val key val) (Z.to_nat slot) (lh_buckets this)) (lh_size this) this)
  | None =>
      (None, lh_with (hlist_add_head slot (Build_linked_node key val) (lh_buckets this))
               (u64 (lh_size this + 1)) this)
  end.

Definition linked_hashtable_get this (key : Z) : result V :=
  match linked_hashtable_search_node this key with
  | None => Err ENODATA
  | Some node => Ok (ln_val node)
  end.

Definition linked_hashtable_contains this (key : Z) : bool :=
  match linked_hashtable_search_node this key with Some _ => true | None => false end.

Definition linked_hashtable_remove (key : Z) this : option V * linked_hashtable V :=
  match linked_hashtable_search_node this key with
  | None => (None, this)
  | Some node =>
      (Some (ln_val node),
       lh_with (alter (bucket_del key) (Z.to_nat (hash key (lh_capacity this))) (lh_buckets this))
         (u64 (lh_size this - 1)) this)
  end.

Definition linked_hashtable_clear this : linked_hashtable V :=
  lh_with (init_buckets (lh_capacity this)) 0 this.

(** [size] is not assigned: it holds what [kmalloc] returned. *)
Definition linked_hashtable_create (garbage : Z) : linked_hashtable V :=
  {| lh_capacity := DEFAULT_LINKED_HASHTABLE_CAPACITY;
     lh_buckets := init_buckets DEFAULT_LINKED_HASHTABLE_CAPACITY; lh_size := garbage |}.

(** ** Iterator: the slot, and the rest of its chain from [hlist] on *)
Record linked_hash_iter : Type := { li_slot : Z; li_hlist : list (linked_node V) }.

(** [while (slot < capacity - 1 && !hlist)], one round per slot. *)
Fixpoint iter_skip (fuel : nat) this (it : linked_hash_iter) : linked_hash_iter :=
  match fuel with
  | O => it
  | S fuel =>
      if (li_slot it <? lh_capacity this - 1) && (match li_hlist it with [] => true | _ => false end)
      then iter_skip fuel this {| li_slot := li_slot it + 1; li_hlist := bucket_at this (li_slot it + 1) |}
      else it
  end.

Definition linked_hash_iter_init this : linked_hash_iter :=
  iter_skip (Z.to_nat (lh_capacity this)) this {| li_slot := 0; li_hlist := bucket_at this 0 |}.

Definition linked_hash_iter_has_next (it : linked_hash_iter) : bool :=
  match li_hlist it with [] => false | _ => true end.

Definition linked_hash_iter_next this (it : linked_hash_iter) : result (entry V) * linked_hash_iter :=
  match li_hlist it with
  | [] => (Err ENODATA, it)
  | node :: rest =>
      (Ok (__entry (ln_key node) (ln_val node)),
       iter_skip (Z.to_nat (lh_capacity this)) this {| li_slot := li_slot it; li_hlist := rest |})
  end.

(** [while (iter->has_next(iter)) iter->next(iter, &entry)]. *)
Fixpoint iter_collect (fuel : nat) this (it : linked_hash_iter) : list (entry V) :=
  match fuel with
  | O => []
  | S fuel =>
      if linked_hash_iter_has_next it then
        match linked_hash_iter_next this it with
        | (Ok e, it) => e :: iter_collect fuel this it
        | (Err _, it) => iter_collect fuel this it
        end
      else []
  end.

(** ** Invariant and abstraction *)
Definition lh_nodes this : list (linked_node V) := concat (lh_buckets this).
Definition lh_pairs (l : list (linked_node V)) : list (Z * V) := (fun n => (ln_key n, ln_val n)) <$> l.
Definition lh_map this : gmap Z V := list_to_map (lh_pairs (lh_nodes this)).

Definition buckets_ok (capacity : Z) buckets : Prop :=
  length buckets = Z.to_nat capacity /\
  (forall slot bucket n, buckets !! slot = Some bucket -> n ∈ bucket ->
     Z.to_nat (hash (ln_key n) capacity) = slot).
Definition lh_inv this : Prop :=
  (exists k, 4 <= k <= 20 /\ lh_capacity this = 2 ^ k) /\
  buckets_ok (lh_capacity this) (lh_buckets this) /\
  NoDup (ln_key <$> lh_nodes this).
End hashtable.
Arguments linked_hash_iter : clear implicits.

(** ** Buckets *)
Section bucket_facts.
Context {V : Type}.
Implicit Types (l : list (linked_node V)) (bs : list (list (linked_node V))).

Lemma concat_alter bs (i : nat) b :
  bs !! i = Some b ->
  exists l1 l2, concat bs = l1 ++ b ++ l2 /\ forall f, concat (alter f i bs) = l1 ++ f b ++ l2.
Proof.
  revert i. induction bs as [|x bs IH] => i Hi; [done|]. destruct i as [|i].
  - injection Hi as ->. exists [], (concat bs). done.
  - destruct (IH i Hi) as (l1 & l2 & H1 & H2). exists (x ++ l1), l2.
    split; [by rewrite /= H1 app_assoc|]. intros f. cbn [alter list_alter concat]. rewrite -app_assoc.
    f_equal. apply H2.
Qed.

Lemma elem_of_concat bs n : n ∈ concat bs <-> exists i b, bs !! i = Some b /\ n ∈ b.
Proof.
  induction bs as [|x bs IH]; simpl; [set_solver|]. rewrite elem_of_app IH. split.
  - intros [?|(i & b & ? & ?)]; [by exists 0%nat, x|by exists (S i), b].
  - intros ([|i] & b & Hb & ?); [injection Hb as ->; by left|right; by exists i, b].
Qed.

Lemma search_bucket_Some key l n : search_bucket key l = Some n -> n ∈ l /\ ln_key n = key.
Proof.
  induction l as [|x l IH]; simpl; [done|]. destruct (Z.eqb_spec (ln_key x) key).
  - intros [= ->]. split; [left|done].
  - intros Hs. destruct (IH Hs). split; [by right|done].
Qed.

Lemma search_bucket_None key l : search_bucket key l = None -> key ∉ ln_key <$> l.
Proof.
  induction l as [|x l IH]; simpl; [set_solver|]. destruct (Z.eqb_spec (ln_key x) key); set_solver.
Qed.

Lemma bucket_set_val_app key val l n :
  search_bucket key l = Some n ->
  exists l1 l2, l = l1 ++ n :: l2 /\ bucket_set_val key val l = l1 ++ Build_linked_node key val :: l2 /\
    bucket_del key l = l1 ++ l2.
Proof.
  induction l as [|x l IH]; simpl; [done|]. destruct (Z.eqb_spec (ln_key x) key) as [He|He].
  - intros [= ->]. exists [], l. by rewrite -He.
  - intros Hs. destruct (IH Hs) as (l1 & l2 & -> & -> & ->). by exists (x :: l1), l2.
Qed.

Lemma list_to_map_middle (l1 l2 : list (Z * V)) k v :
  k ∉ l1.*1 -> (list_to_map (l1 ++ (k, v) :: l2) : gmap Z V) = <[k := v]> (list_to_map (l1 ++ l2)).
Proof.
  intros Hk. apply map_eq => j. rewrite lookup_insert. case_decide as Hj; [subst j|].
  - rewrite list_to_map_app lookup_union_r; [by rewrite /= lookup_insert_eq|].
    by apply not_elem_of_list_to_map_1.
  - rewrite !list_to_map_app !lookup_union /=. by rewrite lookup_insert_ne.
Qed.

Lemma lh_pairs_keys l : (lh_pairs l).*1 = ln_key <$> l.
Proof. rewrite /lh_pairs -list_fmap_compose. by apply list_fmap_ext. Qed.
Lemma lh_pairs_app l k : lh_pairs (l ++ k) = lh_pairs l ++ lh_pairs k.
Proof. apply fmap_app. Qed.
End bucket_facts.

Section hashtable_facts.
Context {V : Type} `{Hash64Ok}.
Implicit Types (this : linked_hashtable V).

Lemma hash_range key k : 4 <= k <= 21 -> 0 <= hash key (2 ^ k) < 2 ^ k.
Proof. intros Hk. rewrite /hash Z.log2_pow2; [|lia]. apply hash_64_range. lia. Qed.

Lemma lh_slot this key : lh_inv this -> exists b,
  lh_buckets this !! Z.to_nat (hash key (lh_capacity this)) = Some b /\
  bucket_at this (hash key (lh_capacity this)) = b.
Proof.
  intros ((k & Hk & Hc) & [Hl _] & _).
  pose proof (hash_range key k ltac:(lia)) as Hr. rewrite -Hc in Hr.
  destruct (lookup_lt_is_Some_2 (lh_buckets this) (Z.to_nat (hash key (lh_capacity this)))) as [b Hb]; [lia|].
  exists b. by rewrite /bucket_at Hb.
Qed.

(** The search looks at one bucket, which holds every node of that key. *)
Lemma search_node_spec this key :
  lh_inv this ->
  match linked_hashtable_search_node this key with
  | Some n => lh_map this !! key = Some (ln_val n)
  | None => lh_map this !! key = None
  end.
Proof.
  intros Hinv. destruct (lh_slot this key Hinv) as (b & Hb & Hat).
  pose proof Hinv as (_ & [_ Hh] & Hnd).
  rewrite /linked_hashtable_search_node Hat. destruct (search_bucket key b) as [n|] eqn:E.
  - apply search_bucket_Some in E as [Hin <-]. rewrite /lh_map.
    apply elem_of_list_to_map_1; [by rewrite lh_pairs_keys|].
    apply list_elem_of_fmap. exists n. split; [done|]. apply elem_of_concat. eauto.
  - apply search_bucket_None in E. apply not_elem_of_list_to_map_1. rewrite lh_pairs_keys.
    intros (n & Hk & (i & b' & Hb' & Hin)%elem_of_concat)%list_elem_of_fmap.
    pose proof (Hh i b' n Hb' Hin) as Hi. rewrite -Hk in Hi. subst i. apply E.
    rewrite Hb in Hb'. injection Hb' as <-. rewrite Hk. by apply list_elem_of_fmap_2.
Qed.

Lemma lh_get_spec this key :
  lh_inv this ->
  linked_hashtable_get this key = match lh_map this !! key with Some v => Ok v | None => Err ENODATA end.
Proof.
  intros Hinv. pose proof (search_node_spec this key Hinv). rewrite /linked_hashtable_get.
  by destruct (linked_hashtable_search_node this key); simplify_option_eq.
Qed.

(** ** Moving nodes *)
Lemma add_head_ok capacity bs n :
  buckets_ok capacity bs -> 0 <= hash (ln_key n) capacity < capacity ->
  buckets_ok capacity (hlist_add_head (hash (ln_key n) capacity) n bs) /\
  concat (hlist_add_head (hash (ln_key n) capacity) n bs) ≡ₚ n :: concat (bs : list (list (linked_node V))).
Proof.
  intros [Hl Hh] Hr.
  destruct (lookup_lt_is_Some_2 bs (Z.to_nat (hash (ln_key n) capacity))) as [b Hb]; [lia|].
  split; [split|].
  - by rewrite length_alter.
  - intros slot bucket x Hx Hin. rewrite /hlist_add_head list_lookup_alter in Hx. case_decide as Hs.
    + subst slot. rewrite Hb in Hx. injection Hx as <-.
      apply elem_of_cons in Hin as [->|Hin]; [done|by eapply Hh].
    + by eapply Hh.
  - destruct (concat_alter bs _ b Hb) as (l1 & l2 & -> & Hf). rewrite /hlist_add_head Hf.
    by rewrite -Permutation_middle.
Qed.

Lemma rehash_move_ok capacity (bs nb : list (list (linked_node V))) :
  (forall key, 0 <= hash key capacity < capacity) -> buckets_ok capacity nb ->
  buckets_ok capacity (rehash_move capacity bs nb) /\
  concat (rehash_move capacity bs nb) ≡ₚ concat bs ++ concat nb.
Proof.
  intros Hr. revert nb. induction bs as [|b bs IH] => nb Hnb; [done|].
  assert (buckets_ok capacity (foldl (fun nb node => hlist_add_head (hash (ln_key node) capacity) node nb) nb b) /\
    concat (foldl (fun nb node => hlist_add_head (hash (ln_key node) capacity) node nb) nb b) ≡ₚ b ++ concat nb)
    as [H1 H2].
  { clear IH. revert nb Hnb. induction b as [|n b IH] => nb Hnb; [done|]. simpl.
    destruct (add_head_ok capacity nb n Hnb (Hr _)) as [Ha Hp].
    destruct (IH _ Ha) as [? Hp']. split; [done|]. rewrite Hp' Hp. by rewrite -Permutation_middle. }
  destruct (IH _ H1) as [H3 H4]. split; [done|].
  change (concat (rehash_move capacity bs (foldl (fun nb node =>
    hlist_add_head (hash (ln_key node) capacity) node nb) nb b)) ≡ₚ concat (b :: bs) ++ concat nb).
  rewrite H4 H2 /=. rewrite app_assoc. by rewrite (Permutation_app_comm (concat bs) b).
Qed.

Lemma init_buckets_ok capacity : buckets_ok capacity (init_buckets (V := V) capacity).
Proof.
  split; [by rewrite /init_buckets length_replicate|].
  intros slot b n Hb Hin. apply lookup_replicate in Hb as [-> _]. by apply not_elem_of_nil in Hin.
Qed.
Lemma concat_init_buckets capacity : concat (init_buckets (V := V) capacity) = [].
Proof. rewrite /init_buckets. by induction (Z.to_nat capacity). Qed.

Lemma lh_map_perm this this' :
  lh_nodes this' ≡ₚ lh_nodes this -> NoDup (ln_key <$> lh_nodes this) -> lh_map this' = lh_map this.
Proof.
  intros Hp Hnd. rewrite /lh_map. apply list_to_map_proper.
  - rewrite lh_pairs_keys. by rewrite Hp.
  - by apply fmap_Permutation.
Qed.

Lemma rehash_ok this :
  lh_inv this -> lh_inv (linked_hashtable_rehash this) /\
    lh_map (linked_hashtable_rehash this) = lh_map this.
Proof.
  intros Hinv. rewrite /linked_hashtable_rehash.
  destruct (Z.leb_spec MAX_LINKED_HASHTABLE_CAPACITY (lh_capacity this)) as [|Hlt]; [done|].
  pose proof Hinv as ((k & Hk & Hc) & _ & Hnd).
  assert (k < 20) as Hk20.
  { rewrite Hc in Hlt. change MAX_LINKED_HASHTABLE_CAPACITY with (2 ^ 20) in Hlt.
    apply Z.pow_lt_mono_r_iff in Hlt; lia. }
  assert (Z.shiftl (lh_capacity this) 1 = 2 ^ (k + 1)) as Hc'.
  { rewrite Z.shiftl_mul_pow2 // Hc Z.pow_add_r; lia. }
  destruct (rehash_move_ok (2 ^ (k + 1)) (lh_buckets this) (init_buckets (2 ^ (k + 1)))) as [H1 H2].
  { intros key. apply hash_range. lia. }
  { apply init_buckets_ok. }
  rewrite concat_init_buckets app_nil_r in H2. rewrite Hc'. split.
  - split; [exists (k + 1); split; [lia|done]|]. split; [done|].
    rewrite /lh_nodes. cbn [lh_buckets]. by rewrite H2.
  - by apply lh_map_perm.
Qed.

(** ** put and remove *)
Lemma bucket_replace this key n mid f :
  lh_inv this -> linked_hashtable_search_node this key = Some n ->
  (forall b, search_bucket key b = Some n -> exists l1 l2, b = l1 ++ n :: l2 /\ f b = l1 ++ mid ++ l2) ->
  Forall (fun x => ln_key x = key) mid ->
  let slot := Z.to_nat (hash key (lh_capacity this)) in
  buckets_ok (lh_capacity this) (alter f slot (lh_buckets this)) /\
  exists L1 L2, lh_nodes this = L1 ++ n :: L2 /\
    concat (alter f slot (lh_buckets this)) = L1 ++ mid ++ L2.
Proof.
  intros Hinv Hs Hf Hmid slot. destruct (lh_slot this key Hinv) as (b & Hb & Hat).
  pose proof Hinv as (_ & [Hl Hh] & _). rewrite /linked_hashtable_search_node Hat in Hs.
  destruct (Hf b Hs) as (l1 & l2 & Hbe & Hfb). split.
  - split; [by rewrite length_alter|]. intros s bucket x Hx Hin.
    rewrite list_lookup_alter in Hx. case_decide as Hsl; [subst s|by eapply Hh].
    rewrite Hb in Hx. injection Hx as <-. rewrite Hfb !elem_of_app in Hin.
    destruct Hin as [Hin|[Hin|Hin]].
    + eapply Hh; [exact Hb|]. rewrite Hbe. apply elem_of_app. by left.
    + eapply Forall_forall in Hmid as ->; done.
    + eapply Hh; [exact Hb|]. rewrite Hbe. apply elem_of_app. right. by right.
  - destruct (concat_alter (lh_buckets this) _ b Hb) as (L1 & L2 & Hn & Ha).
    exists (L1 ++ l1), (l2 ++ L2). rewrite /lh_nodes Hn Ha Hfb Hbe. by rewrite -!app_assoc.
Qed.

Lemma put_existing_ok this key val n :
  lh_inv this -> linked_hashtable_search_node this key = Some n ->
  let this' := lh_with (alter (bucket_set_val key val) (Z.to_nat (hash key (lh_capacity this)))
                 (lh_buckets this)) (lh_size this) this in
  lh_inv this' /\ lh_map this' = <[key := val]> (lh_map this).
Proof.
  intros Hinv Hs this'.
  assert (ln_key n = key) as Hk.
  { rewrite /linked_hashtable_search_node in Hs. by apply search_bucket_Some in Hs as [_ ?]. }
  destruct (bucket_replace this key n [Build_linked_node key val] (bucket_set_val key val))
    as [Hbo (L1 & L2 & Hn & Hn')]; [done|done| |by constructor|].
  { intros b Hb. destruct (bucket_set_val_app key val b n Hb) as (l1 & l2 & ? & ? & _). eauto. }
  pose proof Hinv as (Hc & _ & Hnd). rewrite Hn fmap_app fmap_cons Hk in Hnd.
  assert (key ∉ (lh_pairs L1).*1) as Hnin.
  { rewrite lh_pairs_keys. apply NoDup_app in Hnd as (_ & Hd & _). intros Hin. apply (Hd key Hin). left. }
  split; [split; [done|split; [done|]]|].
  - rewrite /lh_nodes Hn' fmap_app. exact Hnd.
  - rewrite /lh_map /lh_nodes. cbn [this' lh_with lh_buckets]. rewrite Hn' -/(lh_nodes this) Hn.
    rewrite !lh_pairs_app. cbn [lh_pairs fmap list_fmap app ln_key ln_val].
    rewrite Hk !list_to_map_middle //. by rewrite insert_insert_eq.
Qed.

Lemma put_new_ok this key val s :
  lh_inv this -> lh_map this !! key = None ->
  let this' := lh_with (hlist_add_head (hash key (lh_capacity this)) (Build_linked_node key val)
                 (lh_buckets this)) s this in
  lh_inv this' /\ lh_map this' = <[key := val]> (lh_map this).
Proof.
  intros Hinv Hnone this'. pose proof Hinv as ((k & Hk & Hc) & Hbo & Hnd).
  destruct (add_head_ok (lh_capacity this) (lh_buckets this) (Build_linked_node key val) Hbo) as [Hb Hp].
  { rewrite Hc. apply hash_range. lia. }
  assert (NoDup (ln_key <$> Build_linked_node key val :: lh_nodes this)) as Hnd'.
  { rewrite fmap_cons. constructor; [|done]. rewrite -lh_pairs_keys.
    by apply not_elem_of_list_to_map_2 in Hnone. }
  split; [split; [by exists k|split; [done|]]|].
  - rewrite /lh_nodes. cbn [this' lh_with lh_buckets]. by rewrite Hp.
  - rewrite /lh_map. change (<[key := val]> (list_to_map (lh_pairs (lh_nodes this))) : gmap Z V)
      with (list_to_map (lh_pairs (Build_linked_node key val :: lh_nodes this)) : gmap Z V).
    symmetry. apply list_to_map_proper; [by rewrite lh_pairs_keys|].
    apply fmap_Permutation. by rewrite /lh_nodes Hp.
Qed.

Lemma lh_put_ok this key val :
  lh_inv this ->
  let '(old, this') := linked_hashtable_put key val this in
  lh_inv this' /\ old = lh_map this !! key /\ lh_map this' = <[key := val]> (lh_map this).
Proof.
  intros Hinv. rewrite /linked_hashtable_put. cbn zeta.
  set (t := if rehash_threadhold (lh_capacity this) <=? lh_size this then linked_hashtable_rehash this else this).
  assert (lh_inv t /\ lh_map t = lh_map this) as [Ht <-].
  { rewrite /t. case_match; [by apply rehash_ok|done]. }
  pose proof (search_node_spec t key Ht) as Hs.
  destruct (linked_hashtable_search_node t key) as [n|] eqn:E.
  - destruct (put_existing_ok t key val n Ht E). by rewrite Hs.
  - destruct (put_new_ok t key val (u64 (lh_size t + 1)) Ht Hs). by rewrite Hs.
Qed.

Lemma lh_remove_ok this key :
  lh_inv this ->
  let '(old, this') := linked_hashtable_remove key this in
  lh_inv this' /\ old = lh_map this !! key /\ lh_map this' = delete key (lh_map this).
Proof.
  intros Hinv. rewrite /linked_hashtable_remove. pose proof (search_node_spec this key Hinv) as Hs.
  destruct (linked_hashtable_search_node this key) as [n|] eqn:E; last first.
  { split; [done|]. split; [done|]. by rewrite delete_id. }
  assert (ln_key n = key) as Hk.
  { rewrite /linked_hashtable_search_node in E. by apply search_bucket_Some in E as [_ ?]. }
  destruct (bucket_replace this key n [] (bucket_del key))
    as [Hbo (L1 & L2 & Hn & Hn')]; [done|done| |by constructor|].
  { intros b Hb. destruct (bucket_set_val_app key (ln_val n) b n Hb) as (l1 & l2 & ? & _ & ?). eauto. }
  pose proof Hinv as (Hc & _ & Hnd). rewrite Hn fmap_app fmap_cons Hk in Hnd.
  pose proof Hnd as (Hd1 & Hd & Hd2)%NoDup_app.
  assert (key ∉ (lh_pairs (L1 ++ L2)).*1) as Hnin.
  { rewrite lh_pairs_keys fmap_app elem_of_app. intros [Hin|Hin].
    - apply (Hd key Hin). left.
    - apply NoDup_cons in Hd2 as [? _]. done. }
  split; [split; [done|split; [done|]]|split; [done|]].
  - rewrite /lh_nodes Hn' fmap_app. apply NoDup_app. split; [done|]. apply NoDup_cons in Hd2 as [_ ?].
    split; [|done]. intros x Hx Hx'. apply (Hd x Hx). by right.
  - rewrite /lh_map /lh_nodes. cbn [lh_with lh_buckets]. rewrite Hn' -/(lh_nodes this) Hn.
    rewrite [in RHS]lh_pairs_app. cbn [lh_pairs fmap list_fmap]. rewrite Hk list_to_map_middle; last first.
    { rewrite lh_pairs_app fmap_app elem_of_app in Hnin. rewrite -/(lh_pairs L1). tauto. }
    rewrite delete_insert_id; [by rewrite -/(lh_pairs L1) -/(lh_pairs L2) -lh_pairs_app|].
    rewrite -/(lh_pairs L1) -/(lh_pairs L2) -lh_pairs_app. by apply not_elem_of_list_to_map_1.
Qed.

Lemma lh_create_inv g : lh_inv (linked_hashtable_create (V := V) g) /\ lh_map (linked_hashtable_create (V := V) g) = ∅.
Proof.
  split.
  - split; [by exists 4|]. split; [apply init_buckets_ok|]. rewrite /lh_nodes concat_init_buckets. constructor.
  - done.
Qed.

Lemma lh_clear_inv this : lh_inv this -> lh_inv (linked_hashtable_clear this) /\ lh_map (linked_hashtable_clear this) = ∅.
Proof.
  intros (Hc & _ & _). split.
  - split; [done|]. split; [apply init_buckets_ok|]. rewrite /lh_nodes concat_init_buckets. constructor.
  - rewrite /lh_map /lh_nodes. by rewrite concat_init_buckets.
Qed.

(** ** Iteration visits every node once, bucket by bucket *)
Definition iter_rest this (it : linked_hash_iter V) : list (linked_node V) :=
  li_hlist it ++ concat (drop (S (Z.to_nat (li_slot it))) (lh_buckets this)).

Lemma iter_skip_rest fuel this it :
  length (lh_buckets this) = Z.to_nat (lh_capacity this) -> 0 <= li_slot it ->
  iter_rest this (iter_skip fuel this it) = iter_rest this it /\ 0 <= li_slot (iter_skip fuel this it) /\
  (lh_capacity this - 1 - li_slot it < Z.of_nat fuel -> li_hlist (iter_skip fuel this it) = [] ->
     iter_rest this it = []).
Proof.
  intros Hl. revert it. induction fuel as [|fuel IH] => it Hs0.
  { split; [done|]. split; [done|]. intros Hf He. rewrite /iter_rest He drop_ge; [done|]. lia. }
  cbn [iter_skip]. destruct (Z.ltb_spec (li_slot it) (lh_capacity this - 1)) as [Hlt|Hge]; simpl; last first.
  { split; [done|]. split; [done|]. intros _ He. rewrite /iter_rest He drop_ge; [done|]. lia. }
  destruct (li_hlist it) as [|x r] eqn:E; last first.
  { split; [done|]. split; [done|]. intros _ He. congruence. }
  destruct (lookup_lt_is_Some_2 (lh_buckets this) (Z.to_nat (li_slot it + 1))) as [b Hb]; [lia|].
  assert (iter_rest this {| li_slot := li_slot it + 1; li_hlist := bucket_at this (li_slot it + 1) |}
    = iter_rest this it) as Hr.
  { rewrite /iter_rest. cbn [li_slot li_hlist]. rewrite E /bucket_at Hb /=.
    replace (S (Z.to_nat (li_slot it))) with (Z.to_nat (li_slot it + 1)) by lia.
    by rewrite (drop_S (lh_buckets this) b (Z.to_nat (li_slot it + 1)) Hb). }
  destruct (IH {| li_slot := li_slot it + 1; li_hlist := bucket_at this (li_slot it + 1) |}) as (H1 & H2 & H3); [simpl; lia|].
  rewrite Hr in H1 H3. split; [done|]. split; [done|]. intros Hf. apply H3. cbn [li_slot]. lia.
Qed.

Lemma iter_collect_spec fuel this it :
  length (lh_buckets this) = Z.to_nat (lh_capacity this) -> 0 <= lh_capacity this -> 0 <= li_slot it ->
  (li_hlist it = [] -> iter_rest this it = []) -> (length (iter_rest this it) <= fuel)%nat ->
  iter_collect fuel this it = (fun n => __entry (ln_key n) (ln_val n)) <$> iter_rest this it.
Proof.
  intros Hl Hc. revert it. induction fuel as [|fuel IH] => it Hs0 He Hf.
  { rewrite (nil_length_inv (iter_rest this it)); [done|lia]. }
  cbn [iter_collect]. rewrite /linked_hash_iter_has_next /linked_hash_iter_next.
  destruct (li_hlist it) as [|n r] eqn:E; [by rewrite He|].
  assert (iter_rest this it = n :: iter_rest this {| li_slot := li_slot it; li_hlist := r |}) as Hr.
  { by rewrite /iter_rest E. }
  destruct (iter_skip_rest (Z.to_nat (lh_capacity this)) this {| li_slot := li_slot it; li_hlist := r |} Hl Hs0)
    as (H1 & H2 & H3).
  rewrite Hr in Hf |- *. cbn [fmap list_fmap]. f_equal. rewrite -H1. apply IH; [done| |rewrite H1; simpl in Hf; lia].
  intros He'. rewrite H1. apply H3; [cbn [li_slot]; lia|done].
Qed.

Lemma lh_iterate_ok this fuel :
  lh_inv this -> (length (lh_nodes this) <= fuel)%nat ->
  iter_collect fuel this (linked_hash_iter_init this) =
    (fun n => __entry (ln_key n) (ln_val n)) <$> lh_nodes this.
Proof.
  intros ((k & Hk & Hc) & [Hl _] & _) Hf.
  assert (0 < lh_capacity this) as Hp by (rewrite Hc; lia).
  assert (iter_rest this {| li_slot := 0; li_hlist := bucket_at this 0 |} = lh_nodes this) as Hr.
  { rewrite /iter_rest /bucket_at /lh_nodes. cbn [li_slot li_hlist].
    destruct (lh_buckets this) as [|b bs]; [simpl in Hl; lia|]. done. }
  destruct (iter_skip_rest (Z.to_nat (lh_capacity this)) this {| li_slot := 0; li_hlist := bucket_at this 0 |})
    as (H1 & H2 & H3); [done|done|]. rewrite Hr in H1 H3.
  rewrite /linked_hash_iter_init (iter_collect_spec fuel); [by rewrite H1|done|lia|done| |by rewrite H1].
  intros He. rewrite H1. apply H3; [cbn [li_slot]; lia|done].
Qed.
End hashtable_facts.
