(* ===== verification/Memtable.v ===== *)
(** * In-memory tables (source/memtable.c)

    The LSM tree collects new records in a memtable.  The repository has two:
    one on the linked hash table, one on the kernel red-black tree.  Both are
    used through the function pointers of [struct memtable], which is the
    [Memtable] class here; [MemtableOk] is what its clients rely on.  Stored
    values are non-NULL, as the pointers the LSM tree stores are. *)
From S2P Require Import Prelude Hashtable.

Record memtable_entry (V : Type) : Type := { me_key : Z; me_val : V }.
Arguments me_key {V}.
Arguments me_val {V}.
Arguments Build_memtable_entry {V}.

(** [int memtable_entry_cmp]: an [int64_t] difference returned as [int]. *)
Definition memtable_entry_cmp {V} (entry1 entry2 : memtable_entry V) : Z :=
  s32 (me_key entry1 - me_key entry2).
(** [int memtable_entry_cmp_rb_key]: the key is read as an [int]. *)
Definition memtable_entry_cmp_rb_key {V} (key : Z) (entry : memtable_entry V) : Z :=
  s32 (s32 key - me_key entry).

(** ** The interface *)
Class Memtable (M V : Type) : Type := {
  mt_put : Z -> V -> M -> option V * M;
  mt_get : M -> Z -> result V;
  mt_get_all_entry : M -> list (memtable_entry V);
  mt_remove : Z -> M -> option V * M;
  mt_clear : M -> M;
  mt_size : M -> Z;
  (** invariant, and the table as a finite map *)
  mt_inv : M -> Prop;
  mt_map : M -> gmap Z V
}.

(** Keys below [2^31] compare as integers. *)
Definition mt_key_ok (key : Z) : Prop := 0 <= key < 2 ^ 31.

Definition me_pair {V} (e : memtable_entry V) : Z * V := (me_key e, me_val e).
Definition entries_lt {V} (e1 e2 : memtable_entry V) : Prop := me_key e1 < me_key e2.

Class MemtableOk (M V : Type) `{Memtable M V} : Prop := {
  mt_put_ok m key val : mt_inv m -> mt_key_ok key -> 0 <= mt_size m < 2 ^ 64 - 1 ->
    let '(old, m') := mt_put key val m in
    mt_inv m' /\ old = mt_map m !! key /\ mt_map m' = <[key := val]> (mt_map m);
  mt_get_ok m key : mt_inv m -> mt_key_ok key ->
    mt_get m key = match mt_map m !! key with Some v => Ok v | None => Err ENODATA end;
  mt_remove_ok m key : mt_inv m -> mt_key_ok key ->
    let '(old, m') := mt_remove key m in
    mt_inv m' /\ old = mt_map m !! key /\ mt_map m' = delete key (mt_map m);
  mt_clear_ok m : mt_inv m -> mt_inv (mt_clear m) /\ mt_map (mt_clear m) = ∅;
  mt_size_ok m : mt_inv m -> mt_size m = Z.of_nat (size (mt_map m));
  (** the entries are handed out in strictly increasing key order *)
  mt_entries_ok m : mt_inv m ->
    StronglySorted entries_lt (mt_get_all_entry m) /\
    (list_to_map (me_pair <$> mt_get_all_entry m) : gmap Z V) = mt_map m
}.

(** ** Comparison *)
Section cmp.
Context {V : Type}.
Implicit Types (e : memtable_entry V).

Lemma memtable_entry_cmp_small e1 e2 :
  mt_key_ok (me_key e1) -> mt_key_ok (me_key e2) ->
  memtable_entry_cmp e1 e2 = me_key e1 - me_key e2.
Proof. rewrite /mt_key_ok /memtable_entry_cmp => ??. apply s32_small. lia. Qed.

Lemma memtable_entry_cmp_rb_key_small key e :
  mt_key_ok key -> mt_key_ok (me_key e) -> memtable_entry_cmp_rb_key key e = key - me_key e.
Proof.
  rewrite /mt_key_ok /memtable_entry_cmp_rb_key => ??. rewrite (s32_small key); [|lia].
  apply s32_small. lia.
Qed.
End cmp.

Lemma sorted_lt_nodup {V} (l : list (memtable_entry V)) :
  StronglySorted entries_lt l -> NoDup (me_key <$> l).
Proof.
  induction 1 as [|e l Hs IH Hall]; [constructor|]. rewrite fmap_cons. constructor; [|done].
  intros (x & Hx & Hin)%list_elem_of_fmap. eapply Forall_forall in Hall; [|done].
  rewrite /entries_lt in Hall. lia.
Qed.

Lemma me_pair_keys {V} (l : list (memtable_entry V)) : (me_pair <$> l).*1 = me_key <$> l.
Proof. rewrite -list_fmap_compose. by apply list_fmap_ext. Qed.

(** ** Hash memtable *)

(** The kernel's [sort]: it permutes the array, and orders it when the
    comparison is that of an integer key. *)
Class KSort : Type := ksort : forall {A : Type}, (A -> A -> Z) -> list A -> list A.
Class KSortOk `{KSort} : Prop := {
  ksort_perm {A} (cmp : A -> A -> Z) l : ksort cmp l ≡ₚ l;
  ksort_sorted {A} (cmp : A -> A -> Z) (key : A -> Z) l :
    (forall a b, a ∈ l -> b ∈ l -> cmp a b = key a - key b) ->
    StronglySorted (fun a b => key a <= key b) (ksort cmp l)
}.

Record hash_memtable (V : Type) : Type := {
  hm_hashtable : linked_hashtable (memtable_entry V);
  hm_size : Z
}.
Arguments hm_hashtable {V}.
Arguments hm_size {V}.
Arguments Build_hash_memtable {V}.

Section hash_memtable.
Context {V : Type} `{Hash64} `{KSort}.
Implicit Types (this : hash_memtable V).

Definition hash_memtable_put (key : Z) (val : V) this : option V * hash_memtable V :=
  let '(old_entry, ht) := linked_hashtable_put key (Build_memtable_entry key val) (hm_hashtable this) in
  let old_val := me_val <$> old_entry in
  (old_val,
   {| hm_hashtable := ht;
      hm_size := match old_val with None => u64 (hm_size this + 1) | Some _ => hm_size this end |}).

Definition hash_memtable_get this (key : Z) : result V :=
  match linked_hashtable_get (hm_hashtable this) key with
  | Ok entry => Ok (me_val entry)
  | Err e => Err e
  end.

(** The values the hash table's iterator returns, in its order; the last unit of
    fuel is for the [has_next] that ends the loop. *)
Definition hash_memtable_collect this : list (memtable_entry V) :=
  e_val <$> iter_collect (S (length (lh_nodes (hm_hashtable this)))) (hm_hashtable this)
              (linked_hash_iter_init (hm_hashtable this)).

Definition hash_memtable_get_all_entry this : list (memtable_entry V) :=
  ksort memtable_entry_cmp (hash_memtable_collect this).

Definition hash_memtable_remove (key : Z) this : option V * hash_memtable V :=
  match linked_hashtable_remove key (hm_hashtable this) with
  | (None, ht) => (None, {| hm_hashtable := ht; hm_size := hm_size this |})
  | (Some entry, ht) => (Some (me_val entry), {| hm_hashtable := ht; hm_size := u64 (hm_size this - 1) |})
  end.

Definition hash_memtable_clear this : hash_memtable V :=
  {| hm_hashtable := linked_hashtable_clear (hm_hashtable this); hm_size := 0 |}.

Definition hash_memtable_create (garbage : Z) : hash_memtable V :=
  {| hm_hashtable := linked_hashtable_create garbage; hm_size := 0 |}.

Definition hm_map this : gmap Z V := me_val <$> lh_map (hm_hashtable this).
Definition hm_inv this : Prop :=
  lh_inv (hm_hashtable this) /\
  (forall k e, lh_map (hm_hashtable this) !! k = Some e -> me_key e = k /\ mt_key_ok k) /\
  hm_size this = Z.of_nat (size (lh_map (hm_hashtable this))) /\ hm_size this < 2 ^ 64.

#[export] Instance hash_memtable_memtable : Memtable (hash_memtable V) V := {|
  mt_put := hash_memtable_put; mt_get := hash_memtable_get;
  mt_get_all_entry := hash_memtable_get_all_entry; mt_remove := hash_memtable_remove;
  mt_clear := hash_memtable_clear; mt_size := hm_size; mt_inv := hm_inv; mt_map := hm_map
|}.
End hash_memtable.

Section hash_memtable_facts.
Context {V : Type} `{Hash64Ok} `{KSortOk}.
Implicit Types (this : hash_memtable V).

Lemma hm_put_ok this key val :
  hm_inv this -> mt_key_ok key -> 0 <= hm_size this < 2 ^ 64 - 1 ->
  let '(old, m') := hash_memtable_put key val this in
  hm_inv m' /\ old = hm_map this !! key /\ hm_map m' = <[key := val]> (hm_map this).
Proof.
  intros (Hlh & Hk & Hsz & Hlt) Hkey Hov. rewrite /hash_memtable_put.
  pose proof (lh_put_ok (hm_hashtable this) key (Build_memtable_entry key val) Hlh) as Hput.
  destruct (linked_hashtable_put _ _ _) as [old ht]. destruct Hput as (Hi & -> & Hm).
  split; [|split].
  - split; [done|]. cbn [hm_hashtable hm_size]. rewrite Hm. split.
    + intros k e. rewrite lookup_insert. case_decide; [|by apply Hk].
      intros [= <-]. by subst.
    + destruct (lh_map (hm_hashtable this) !! key) as [e|] eqn:E; simpl.
      * rewrite map_size_insert_Some; [done|by rewrite E].
      * rewrite map_size_insert_None // u64_small; lia.
  - by rewrite /hm_map lookup_fmap.
  - rewrite /hm_map. cbn [hm_hashtable]. by rewrite Hm fmap_insert.
Qed.

Lemma hm_remove_ok this key :
  hm_inv this ->
  let '(old, m') := hash_memtable_remove key this in
  hm_inv m' /\ old = hm_map this !! key /\ hm_map m' = delete key (hm_map this).
Proof.
  intros (Hlh & Hk & Hsz & Hlt). rewrite /hash_memtable_remove.
  pose proof (lh_remove_ok (hm_hashtable this) key Hlh) as Hrm.
  destruct (linked_hashtable_remove _ _) as [old ht]. destruct Hrm as (Hi & Ho & Hm).
  assert (forall k e, lh_map ht !! k = Some e -> me_key e = k /\ mt_key_ok k) as Hk'.
  { intros k e. rewrite Hm lookup_delete_Some => -[_ ?]. by apply Hk. }
  destruct old as [e|]; (split; [|split]); rewrite ?/hm_map; cbn [hm_hashtable].
  - split; [done|]. split; [done|]. cbn [hm_hashtable hm_size]. rewrite Hm map_size_delete_Some; [|by rewrite -Ho].
    assert (size (lh_map (hm_hashtable this)) <> 0%nat).
    { intros Hz%map_size_empty_inv. by rewrite Hz lookup_empty in Ho. }
    rewrite u64_small; lia.
  - by rewrite lookup_fmap -Ho.
  - by rewrite Hm fmap_delete.
  - split; [done|]. split; [done|]. cbn [hm_hashtable hm_size]. rewrite Hm delete_id; [done|by rewrite -Ho].
  - by rewrite lookup_fmap -Ho.
  - by rewrite Hm fmap_delete.
Qed.

Lemma hm_collect_perm this :
  hm_inv this -> hash_memtable_collect this ≡ₚ (map_to_list (lh_map (hm_hashtable this))).*2.
Proof.
  intros (Hlh & Hk & _). rewrite /hash_memtable_collect lh_iterate_ok //; [|lia].
  rewrite -list_fmap_compose.
  change (e_val ∘ (fun n => __entry (ln_key n) (ln_val n))) with (@ln_val (memtable_entry V)).
  destruct Hlh as (_ & _ & Hnd). rewrite /lh_map map_to_list_to_map; [|by rewrite lh_pairs_keys].
  rewrite /lh_pairs -list_fmap_compose. done.
Qed.

Lemma hm_entries_ok this :
  hm_inv this ->
  StronglySorted entries_lt (hash_memtable_get_all_entry this) /\
  (list_to_map (me_pair <$> hash_memtable_get_all_entry this) : gmap Z V) = hm_map this.
Proof.
  intros Hinv. pose proof (hm_collect_perm this Hinv) as Hp. pose proof Hinv as (Hlh & Hk & _).
  set (l := hash_memtable_get_all_entry this).
  assert (l ≡ₚ (map_to_list (lh_map (hm_hashtable this))).*2) as Hl by (by rewrite /l /hash_memtable_get_all_entry ksort_perm).
  assert (forall e, e ∈ l -> lh_map (hm_hashtable this) !! me_key e = Some e /\ mt_key_ok (me_key e)) as Hin.
  { intros e. rewrite Hl. intros ([k e'] & -> & Hm%elem_of_map_to_list)%list_elem_of_fmap.
    destruct (Hk k e' Hm) as [<- ?]. done. }
  assert (NoDup (me_key <$> l)) as Hnd.
  { rewrite Hl -list_fmap_compose. erewrite list_fmap_ext; [apply NoDup_fst_map_to_list|].
    intros i [k e] Hx%list_elem_of_lookup_2%elem_of_map_to_list. by destruct (Hk k e Hx). }
  split.
  - assert (StronglySorted (fun a b : memtable_entry V => me_key a <= me_key b) l) as Hs.
    { apply ksort_sorted. intros a b Ha Hb.
      apply memtable_entry_cmp_small; apply Hin; by rewrite /l /hash_memtable_get_all_entry ksort_perm. }
    clear -Hs Hnd. induction Hs as [|e l Hs IH Hall]; [constructor|].
    rewrite fmap_cons in Hnd. apply NoDup_cons in Hnd as [Hn Hnd]. constructor; [by apply IH|].
    apply Forall_forall => x Hx. eapply Forall_forall in Hall; [|exact Hx]. rewrite /entries_lt. simpl in Hall.
    assert (me_key e <> me_key x); [|lia]. intros Heq. apply Hn. rewrite Heq. by apply list_elem_of_fmap_2.
  - apply map_eq => k. rewrite /hm_map lookup_fmap.
    destruct (lh_map (hm_hashtable this) !! k) as [e|] eqn:E; simpl.
    + destruct (Hk k e E) as [He _].
      apply elem_of_list_to_map_1; [by rewrite me_pair_keys|].
      apply list_elem_of_fmap. exists e. split; [by rewrite /me_pair He|]. rewrite Hl.
      apply list_elem_of_fmap. exists (k, e). split; [done|]. by apply elem_of_map_to_list.
    + apply not_elem_of_list_to_map_1. rewrite me_pair_keys.
      intros (e & -> & He)%list_elem_of_fmap. destruct (Hin e He). congruence.
Qed.

#[export] Instance hash_memtable_ok : MemtableOk (hash_memtable V) V.
Proof.
  split; simpl.
  - apply hm_put_ok.
  - intros m key (Hlh & _) _. rewrite /hash_memtable_get lh_get_spec // /hm_map lookup_fmap.
    by destruct (lh_map (hm_hashtable m) !! key).
  - intros m key Hinv _. by apply hm_remove_ok.
  - intros m (Hlh & _). destruct (lh_clear_inv _ Hlh) as [Hi Hm]. split; [|by rewrite /hm_map /= Hm fmap_empty].
    split; [done|]. cbn [hash_memtable_clear hm_hashtable hm_size]. rewrite Hm. split; [done|]. done.
  - intros m (_ & _ & -> & _). by rewrite /hm_map map_size_fmap.
  - apply hm_entries_ok.
Qed.
End hash_memtable_facts.
