(* ===== verification/RbMemtable.v ===== *)
(** * Red-black tree memtable (source/memtable.c)

    The memtable the LSM tree uses.  The tree is the kernel's; its descents
    ([rb_find], [rb_find_add], the search loop) are modelled on the tree, and
    the rebalancing of [rb_insert_color] and [rb_erase] is a parameter that
    keeps the in-order sequence. *)
From S2P Require Import Prelude Hashtable Memtable.

Inductive rb_tree (V : Type) : Type :=
| rb_leaf
| rb_node (left : rb_tree V) (entry : memtable_entry V) (right : rb_tree V).
Arguments rb_leaf {V}.
Arguments rb_node {V}.

Fixpoint rb_inorder {V} (t : rb_tree V) : list (memtable_entry V) :=
  match t with
  | rb_leaf => []
  | rb_node l e r => rb_inorder l ++ e :: rb_inorder r
  end.

(** [rb_insert_color] rebalances; [rb_erase] unlinks the node of the given key. *)
Class RbOps : Type := {
  rb_insert_color {V} : rb_tree V -> rb_tree V;
  rb_erase {V} : Z -> rb_tree V -> rb_tree V
}.
Class RbOpsOk `{RbOps} : Prop := {
  rb_insert_color_ok {V} (t : rb_tree V) : rb_inorder (rb_insert_color t) = rb_inorder t;
  rb_erase_ok {V} key (t : rb_tree V) :
    NoDup (me_key <$> rb_inorder t) ->
    rb_inorder (rb_erase key t) = filter (fun e => me_key e <> key) (rb_inorder t)
}.

Record rbtree_memtable (V : Type) : Type := { rm_root : rb_tree V; rm_size : Z }.
Arguments rm_root {V}.
Arguments rm_size {V}.
Arguments Build_rbtree_memtable {V}.

Section rbtree_memtable.
Context {V : Type} `{RbOps}.
Implicit Types (this : rbtree_memtable V) (t : rb_tree V).

Fixpoint __rbtree_memtable_search t (key : Z) : option V :=
  match t with
  | rb_leaf => None
  | rb_node l cur r =>
      if key <? me_key cur then __rbtree_memtable_search l key
      else if me_key cur <? key then __rbtree_memtable_search r key
      else Some (me_val cur)
  end.

(** The descent of [rb_find_add]: the equal node it meets, or the tree with
    the new node linked in. *)
Fixpoint rb_link (new_entry : memtable_entry V) t : memtable_entry V + rb_tree V :=
  match t with
  | rb_leaf => inr (rb_node rb_leaf new_entry rb_leaf)
  | rb_node l e r =>
      let c := memtable_entry_cmp new_entry e in
      if c <? 0 then
        match rb_link new_entry l with inl n => inl n | inr l' => inr (rb_node l' e r) end
      else if 0 <? c then
        match rb_link new_entry r with inl n => inl n | inr r' => inr (rb_node l e r') end
      else inl e
  end.
Definition rb_find_add (new_entry : memtable_entry V) t : option (memtable_entry V) * rb_tree V :=
  match rb_link new_entry t with
  | inl old => (Some old, t)
  | inr t' => (None, rb_insert_color t')
  end.

Fixpoint rb_find (key : Z) t : option (memtable_entry V) :=
  match t with
  | rb_leaf => None
  | rb_node l e r =>
      let c := memtable_entry_cmp_rb_key key e in
      if c <? 0 then rb_find key l else if 0 <? c then rb_find key r else Some e
  end.

(** [next: ... goto next]: every round but the last erases a node. *)
Fixpoint rb_put_loop (fuel : nat) (new_entry : memtable_entry V) t (old_val : option V)
    : option V * rb_tree V :=
  match fuel with
  | O => (old_val, t)
  | S fuel =>
      match rb_find_add new_entry t with
      | (Some old_entry, t) =>
          rb_put_loop fuel new_entry (rb_erase (me_key old_entry) t) (Some (me_val old_entry))
      | (None, t) => (old_val, t)
      end
  end.

Definition rbtree_memtable_put (key : Z) (val : V) this : option V * rbtree_memtable V :=
  let '(old_val, t) := rb_put_loop (S (length (rb_inorder (rm_root this))))
                         (Build_memtable_entry key val) (rm_root this) None in
  (old_val,
   {| rm_root := t;
      rm_size := match old_val with None => u64 (rm_size this + 1) | Some _ => rm_size this end |}).

Definition rbtree_memtable_get this (key : Z) : result V :=
  match __rbtree_memtable_search (rm_root this) key with
  | Some val => Ok val
  | None => Err ENODATA
  end.

Definition rbtree_memtable_remove (key : Z) this : option V * rbtree_memtable V :=
  match rb_find key (rm_root this) with
  | None => (None, this)
  | Some entry =>
      (Some (me_val entry),
       {| rm_root := rb_erase (me_key entry) (rm_root this); rm_size := u64 (rm_size this - 1) |})
  end.

Definition rbtree_memtable_contains this (key : Z) : bool :=
  match __rbtree_memtable_search (rm_root this) key with Some _ => true | None => false end.

(** [for (node = rb_first(); node; node = rb_next(node))]. *)
Definition rbtree_memtable_get_all_entry this : list (memtable_entry V) := rb_inorder (rm_root this).

(** [while (!RB_EMPTY_ROOT(root)) rb_erase(rb_first(root))]. *)
Fixpoint rb_clear_loop (fuel : nat) t : rb_tree V :=
  match fuel with
  | O => t
  | S fuel =>
      match rb_inorder t with
      | [] => t
      | e :: _ => rb_clear_loop fuel (rb_erase (me_key e) t)
      end
  end.
Definition rbtree_memtable_clear this : rbtree_memtable V :=
  {| rm_root := rb_clear_loop (length (rb_inorder (rm_root this))) (rm_root this); rm_size := 0 |}.

Definition rbtree_memtable_init : rbtree_memtable V := {| rm_root := rb_leaf; rm_size := 0 |}.

(** ** Invariant *)
Definition rb_sorted t : Prop :=
  StronglySorted entries_lt (rb_inorder t) /\ Forall (fun e => mt_key_ok (me_key e)) (rb_inorder t).
Definition rb_map t : gmap Z V := list_to_map (me_pair <$> rb_inorder t).
Definition rm_map this : gmap Z V := rb_map (rm_root this).
Definition rm_inv this : Prop :=
  rb_sorted (rm_root this) /\ rm_size this = Z.of_nat (length (rb_inorder (rm_root this))) /\
  rm_size this < 2 ^ 64.

#[export] Instance rbtree_memtable_memtable : Memtable (rbtree_memtable V) V := {|
  mt_put := rbtree_memtable_put; mt_get := rbtree_memtable_get;
  mt_get_all_entry := rbtree_memtable_get_all_entry; mt_remove := rbtree_memtable_remove;
  mt_clear := rbtree_memtable_clear; mt_size := rm_size; mt_inv := rm_inv; mt_map := rm_map
|}.
End rbtree_memtable.

Section sorted_facts.
Context {V : Type}.
Implicit Types (l k : list (memtable_entry V)) (e : memtable_entry V).

Lemma sorted_app_inv l e k :
  StronglySorted entries_lt (l ++ e :: k) ->
  StronglySorted entries_lt l /\ StronglySorted entries_lt k /\
  Forall (fun x => me_key x < me_key e) l /\ Forall (fun x => me_key e < me_key x) k.
Proof.
  induction l as [|x l IH]; simpl.
  - intros [Hs Hall]%StronglySorted_inv. split; [constructor|]. by split; [|split].
  - intros [Hs Hall]%StronglySorted_inv. destruct (IH Hs) as (H1 & H2 & H3 & H4).
    apply Forall_app in Hall as [Ha Hb]. apply Forall_cons in Hb as [Hb _].
    split; [by constructor|]. split; [done|]. split; [by constructor|done].
Qed.

Lemma entries_sorted_app l e k :
  StronglySorted entries_lt l -> StronglySorted entries_lt k ->
  Forall (fun x => me_key x < me_key e) l -> Forall (fun x => me_key e < me_key x) k ->
  StronglySorted entries_lt (l ++ e :: k).
Proof.
  intros Hl Hk H1 H2. induction Hl as [|x l Hs IH Hall]; simpl; [by constructor|].
  apply Forall_cons in H1 as [Hx H1]. constructor; [by apply IH|].
  apply Forall_app. split; [done|]. constructor; [done|].
  eapply Forall_impl; [exact H2|]. rewrite /entries_lt. simpl. lia.
Qed.

Lemma list_to_map_lookup l key (Hs : StronglySorted entries_lt l) :
  (list_to_map (me_pair <$> l) : gmap Z V) !! key = None <-> Forall (fun x => me_key x <> key) l.
Proof.
  rewrite Forall_forall. split.
  - intros Hn x Hx <-. apply not_elem_of_list_to_map_2 in Hn. apply Hn.
    rewrite me_pair_keys. by apply list_elem_of_fmap_2.
  - intros Hall. apply not_elem_of_list_to_map_1. rewrite me_pair_keys.
    intros (x & -> & Hx)%list_elem_of_fmap. by apply (Hall x).
Qed.

Lemma list_to_map_elem l e :
  StronglySorted entries_lt l -> e ∈ l ->
  (list_to_map (me_pair <$> l) : gmap Z V) !! me_key e = Some (me_val e).
Proof.
  intros Hs He. apply elem_of_list_to_map_1; [rewrite me_pair_keys; by apply sorted_lt_nodup|].
  by apply (list_elem_of_fmap_2 me_pair).
Qed.
End sorted_facts.

Section rbtree_facts.
Context {V : Type} `{RbOpsOk}.
Implicit Types (this : rbtree_memtable V) (t : rb_tree V).

(** Both descents end at the node of the key, if the tree has one. *)
Lemma rb_search_spec t key :
  StronglySorted entries_lt (rb_inorder t) -> __rbtree_memtable_search t key = rb_map t !! key.
Proof.
  rewrite /rb_map. induction t as [|l IHl e r IHr]; simpl; [done|].
  intros (Hl & Hr & H1 & H2)%sorted_app_inv. rewrite fmap_app fmap_cons list_to_map_app /=.
  rewrite Forall_forall in H1. rewrite Forall_forall in H2.
  destruct (Z.ltb_spec key (me_key e)); [|destruct (Z.ltb_spec (me_key e) key)].
  - rewrite IHl // lookup_union_l; [done|]. rewrite /me_pair lookup_insert_ne; [|simpl; lia].
    apply list_to_map_lookup; [done|]. apply Forall_forall => x Hx. specialize (H2 x Hx). lia.
  - rewrite IHr // lookup_union_r; [by rewrite /me_pair lookup_insert_ne; [|simpl; lia]|].
    apply list_to_map_lookup; [done|]. apply Forall_forall => x Hx. specialize (H1 x Hx). lia.
  - rewrite lookup_union_r; [by rewrite /me_pair; replace key with (me_key e) by lia; rewrite lookup_insert_eq|].
    apply list_to_map_lookup; [done|]. apply Forall_forall => x Hx. specialize (H1 x Hx). lia.
Qed.

Lemma rb_find_spec t key :
  rb_sorted t -> mt_key_ok key ->
  match rb_find key t with
  | Some e => e ∈ rb_inorder t /\ me_key e = key
  | None => Forall (fun e => me_key e <> key) (rb_inorder t)
  end.
Proof.
  intros Hs Hk. induction t as [|l IHl e r IHr]; simpl; [constructor|].
  destruct Hs as [Hs Hall]. simpl in Hs, Hall. apply sorted_app_inv in Hs as (Hl & Hr & H1 & H2).
  apply Forall_app in Hall as [Ha Hb]. apply Forall_cons in Hb as [He Hb].
  rewrite memtable_entry_cmp_rb_key_small //.
  destruct (Z.ltb_spec (key - me_key e) 0); [|destruct (Z.ltb_spec 0 (key - me_key e))].
  - specialize (IHl (conj Hl Ha)). destruct (rb_find key l) as [x|].
    + destruct IHl. split; [|done]. apply elem_of_app. by left.
    + apply Forall_app. split; [done|]. constructor; [lia|]. eapply Forall_impl; [exact H2|]. simpl. lia.
  - specialize (IHr (conj Hr Hb)). destruct (rb_find key r) as [x|].
    + destruct IHr. split; [|done]. apply elem_of_app. right. by right.
    + apply Forall_app. split; [eapply Forall_impl; [exact H1|]; simpl; lia|]. constructor; [lia|done].
  - split; [|lia]. apply elem_of_app. right. left.
Qed.

(** Linking a node keeps the order and adds just that node. *)
Lemma rb_link_spec t ne :
  rb_sorted t -> mt_key_ok (me_key ne) ->
  match rb_link ne t with
  | inl e => e ∈ rb_inorder t /\ me_key e = me_key ne
  | inr t' => exists l1 l2, rb_inorder t = l1 ++ l2 /\ rb_inorder t' = l1 ++ ne :: l2 /\
      Forall (fun x => me_key x < me_key ne) l1 /\ Forall (fun x => me_key ne < me_key x) l2
  end.
Proof.
  intros Hs Hk. induction t as [|l IHl e r IHr]; simpl; [by exists [], []|].
  destruct Hs as [Hs Hall]. simpl in Hs, Hall. apply sorted_app_inv in Hs as (Hl & Hr & H1 & H2).
  apply Forall_app in Hall as [Ha Hb]. apply Forall_cons in Hb as [He Hb].
  rewrite memtable_entry_cmp_small //.
  destruct (Z.ltb_spec (me_key ne - me_key e) 0); [|destruct (Z.ltb_spec 0 (me_key ne - me_key e))].
  - specialize (IHl (conj Hl Ha)). destruct (rb_link ne l) as [x|l'].
    + destruct IHl. split; [|done]. apply elem_of_app. by left.
    + destruct IHl as (l1 & l2 & -> & Hi & Hf1 & Hf2). exists l1, (l2 ++ e :: rb_inorder r).
      split; [by rewrite -app_assoc|]. split; [simpl; by rewrite Hi -app_assoc|]. split; [done|].
      apply Forall_app. split; [done|]. constructor; [lia|]. eapply Forall_impl; [exact H2|]. simpl. lia.
  - specialize (IHr (conj Hr Hb)). destruct (rb_link ne r) as [x|r'].
    + destruct IHr. split; [|done]. apply elem_of_app. right. by right.
    + destruct IHr as (l1 & l2 & -> & Hi & Hf1 & Hf2). exists (rb_inorder l ++ e :: l1), l2.
      split; [by rewrite -app_assoc|]. split; [simpl; by rewrite Hi -app_assoc|]. split; [|done].
      apply Forall_app. split; [eapply Forall_impl; [exact H1|]; simpl; lia|]. by constructor; [lia|].
  - split; [|lia]. apply elem_of_app. right. left.
Qed.

Lemma rb_erase_sorted t key : rb_sorted t -> rb_sorted (rb_erase key t) /\
  rb_inorder (rb_erase key t) = filter (fun e => me_key e <> key) (rb_inorder t).
Proof.
  intros [Hs Hall]. pose proof (rb_erase_ok key t (sorted_lt_nodup _ Hs)) as He. split; [|done].
  split; rewrite He; [by apply filter_sorted|]. apply Forall_forall => x /list_elem_of_filter [_ Hx].
  by eapply Forall_forall in Hall.
Qed.

Lemma rb_map_erase t key : rb_sorted t -> rb_map (rb_erase key t) = delete key (rb_map t).
Proof.
  intros Hs. destruct (rb_erase_sorted t key Hs) as [[Hs' _] He]. destruct Hs as [Hs _].
  apply map_eq => j. rewrite /rb_map lookup_delete. rewrite He in Hs' |- *.
  case_decide as Hj; [subst j|].
  - apply list_to_map_lookup; [done|]. apply Forall_forall => x /list_elem_of_filter [? _] //.
  - destruct ((list_to_map (me_pair <$> rb_inorder t) : gmap Z V) !! j) as [v|] eqn:E.
    + apply elem_of_list_to_map_2, list_elem_of_fmap in E as (x & Hx & Hin).
      rewrite /me_pair in Hx. injection Hx as -> ->. apply list_to_map_elem; [done|].
      apply list_elem_of_filter. done.
    + apply list_to_map_lookup in E; [|done]. apply list_to_map_lookup; [done|].
      apply Forall_forall => x /list_elem_of_filter [_ Hx]. by eapply Forall_forall in E.
Qed.

(** Linking a node whose key is not in the tree. *)
Lemma rb_find_add_fresh t ne :
  rb_sorted t -> mt_key_ok (me_key ne) -> Forall (fun e => me_key e <> me_key ne) (rb_inorder t) ->
  exists t', rb_find_add ne t = (None, t') /\ rb_sorted t' /\
    rb_map t' = <[me_key ne := me_val ne]> (rb_map t) /\
    length (rb_inorder t') = S (length (rb_inorder t)).
Proof.
  intros Hs Hk Hf. pose proof (rb_link_spec t ne Hs Hk) as Hl. rewrite /rb_find_add.
  destruct (rb_link ne t) as [e|t0].
  { destruct Hl as [Hin He]. eapply Forall_forall in Hf; [|exact Hin]. by destruct (Hf He). }
  destruct Hl as (l1 & l2 & H1 & H2 & Hf1 & Hf2). exists (rb_insert_color t0). split; [done|].
  destruct Hs as [Hs Hall].
  assert (StronglySorted entries_lt (l1 ++ ne :: l2)) as Hs'.
  { rewrite H1 in Hs. apply entries_sorted_app; try done.
    - clear -Hs. induction l1 as [|x l1 IH]; [constructor|]. apply StronglySorted_inv in Hs as [Hs Hx].
      constructor; [by apply IH|]. by apply Forall_app in Hx as [? _].
    - clear -Hs. induction l1 as [|x l1 IH]; [done|]. apply StronglySorted_inv in Hs as [Hs _]. by apply IH. }
  split; [|split].
  - split; rewrite rb_insert_color_ok H2; [done|]. rewrite H1 in Hall.
    apply Forall_app in Hall as [? ?]. apply Forall_app. split; [done|]. by constructor.
  - rewrite /rb_map rb_insert_color_ok H2 H1 !fmap_app fmap_cons.
    apply list_to_map_middle. rewrite me_pair_keys. intros (x & Hx & Hin)%list_elem_of_fmap.
    eapply Forall_forall in Hf1; [|exact Hin]. simpl in Hf1. rewrite Hx in Hf1. lia.
  - rewrite rb_insert_color_ok H2 H1 !length_app /=. lia.
Qed.

Lemma rb_find_add_old t ne e :
  rb_sorted t -> mt_key_ok (me_key ne) -> e ∈ rb_inorder t -> me_key e = me_key ne ->
  exists e', rb_find_add ne t = (Some e', t) /\ me_key e' = me_key ne /\ rb_map t !! me_key ne = Some (me_val e').
Proof.
  intros Hs Hk Hin He. pose proof (rb_link_spec t ne Hs Hk) as Hl. rewrite /rb_find_add.
  destruct (rb_link ne t) as [e'|t0].
  - destruct Hl as [Hin' He']. exists e'. split; [done|]. split; [done|]. rewrite -He'.
    apply list_to_map_elem; [apply Hs|done].
  - destruct Hl as (l1 & l2 & H1 & _ & Hf1 & Hf2). rewrite H1 in Hin.
    rewrite Forall_forall in Hf1. rewrite Forall_forall in Hf2.
    apply elem_of_app in Hin as [Hin|Hin]; [specialize (Hf1 e Hin)|specialize (Hf2 e Hin)]; lia.
Qed.

Lemma size_rb_map t : rb_sorted t -> size (rb_map t) = length (rb_inorder t).
Proof.
  intros [Hs _]. rewrite /rb_map. rewrite map_size_list_to_map; [by rewrite length_fmap|].
  rewrite me_pair_keys. by apply sorted_lt_nodup.
Qed.

Lemma rb_put_ok t key val :
  rb_sorted t -> mt_key_ok key ->
  let '(old, t') := rb_put_loop (S (length (rb_inorder t))) (Build_memtable_entry key val) t None in
  rb_sorted t' /\ old = rb_map t !! key /\ rb_map t' = <[key := val]> (rb_map t).
Proof.
  intros Hs Hk. set (ne := Build_memtable_entry key val).
  destruct (rb_map t !! key) as [v|] eqn:E; cbn [rb_put_loop].
  - pose proof E as (x & Hx & Hin)%elem_of_list_to_map_2%list_elem_of_fmap.
    injection Hx as Hkx Hvx.
    destruct (rb_find_add_old t ne x Hs Hk Hin) as (e' & -> & He' & Hm); [done|].
    destruct (rb_inorder t) as [|y l] eqn:El; [by apply not_elem_of_nil in Hin|]. cbn [length rb_put_loop].
    destruct (rb_erase_sorted t (me_key e') Hs) as [Hs' Hi].
    destruct (rb_find_add_fresh (rb_erase (me_key e') t) ne Hs' Hk) as (t' & -> & Ht' & Hmap & _).
    { rewrite Hi He'. apply Forall_forall => z /list_elem_of_filter [? _] //. }
    rewrite Hmap rb_map_erase // He'. cbn [ne me_key me_val] in *. split; [done|].
    split; [congruence|]. by rewrite insert_delete_eq.
  - destruct (rb_find_add_fresh t ne Hs Hk) as (t' & -> & Ht' & Hmap & _); [|done].
    apply (list_to_map_lookup (rb_inorder t)); [apply Hs|exact E].
Qed.

Lemma rb_clear_ok fuel t : rb_sorted t -> (length (rb_inorder t) <= fuel)%nat ->
  rb_inorder (rb_clear_loop fuel t) = [].
Proof.
  revert t. induction fuel as [|fuel IH] => t Hs Hf; cbn [rb_clear_loop].
  { apply nil_length_inv. lia. }
  destruct (rb_inorder t) as [|e l] eqn:E; [done|].
  destruct (rb_erase_sorted t (me_key e) Hs) as [Hs' Hi]. apply IH; [done|].
  rewrite Hi E filter_cons_False; [|naive_solver].
  pose proof (length_filter (fun x => me_key x <> me_key e) l). simpl in Hf. lia.
Qed.

Lemma rm_size_map this : rm_inv this -> rm_size this = Z.of_nat (size (rm_map this)).
Proof. intros (Hs & -> & _). by rewrite /rm_map size_rb_map. Qed.

Lemma rm_put_ok this key val :
  rm_inv this -> mt_key_ok key -> 0 <= rm_size this < 2 ^ 64 - 1 ->
  let '(old, m') := rbtree_memtable_put key val this in
  rm_inv m' /\ old = rm_map this !! key /\ rm_map m' = <[key := val]> (rm_map this).
Proof.
  intros Hinv Hk Hb. pose proof Hinv as (Hs & Hsz & _). pose proof (rb_put_ok (rm_root this) key val Hs Hk) as Hp.
  rewrite /rbtree_memtable_put. destruct (rb_put_loop _ _ _ _) as [old t]. destruct Hp as (Ht & -> & Hm).
  split; [|done]. split; [done|]. cbn [rm_root rm_size].
  rewrite -(size_rb_map t) // Hm. rewrite -size_rb_map // in Hsz.
  destruct (rb_map (rm_root this) !! key) eqn:E.
  - rewrite map_size_insert_Some; [|by rewrite E]. split; [done|lia].
  - rewrite map_size_insert_None // u64_small; lia.
Qed.

Lemma rm_remove_ok this key :
  rm_inv this -> mt_key_ok key ->
  let '(old, m') := rbtree_memtable_remove key this in
  rm_inv m' /\ old = rm_map this !! key /\ rm_map m' = delete key (rm_map this).
Proof.
  intros Hinv Hk. pose proof Hinv as (Hs & Hsz & Hlt). pose proof (rb_find_spec (rm_root this) key Hs Hk) as Hf.
  rewrite /rbtree_memtable_remove. destruct (rb_find key (rm_root this)) as [e|].
  - destruct Hf as [Hin <-]. destruct (rb_erase_sorted (rm_root this) (me_key e) Hs) as [Hs' _].
    assert (rm_map this !! me_key e = Some (me_val e)) as E by (apply list_to_map_elem; [apply Hs|done]).
    assert (rm_map {| rm_root := rb_erase (me_key e) (rm_root this); rm_size := u64 (rm_size this - 1) |}
      = delete (me_key e) (rm_map this)) as Hm by (by apply rb_map_erase).
    split; [|done]. split; [done|]. cbn [rm_root rm_size].
    rewrite -size_rb_map // -/(rm_map (Build_rbtree_memtable _ 0)). rewrite -size_rb_map // in Hsz.
    rewrite /rm_map in Hm. cbn [rm_root] in Hm. rewrite /rm_map. cbn [rm_root]. rewrite Hm map_size_delete_Some; [|by rewrite -/(rm_map this) E].
    assert (size (rb_map (rm_root this)) <> 0%nat).
    { intros Hz%map_size_empty_inv. by rewrite /rm_map Hz lookup_empty in E. }
    rewrite u64_small; lia.
  - assert (rm_map this !! key = None) as E by (by apply list_to_map_lookup; [apply Hs|]).
    split; [done|]. split; [done|]. by rewrite delete_id.
Qed.

#[export] Instance rbtree_memtable_ok : MemtableOk (rbtree_memtable V) V.
Proof.
  split; simpl.
  - apply rm_put_ok.
  - intros m key ([Hs _] & _) _. by rewrite /rbtree_memtable_get rb_search_spec.
  - apply rm_remove_ok.
  - intros m (Hs & _). pose proof (rb_clear_ok _ _ Hs (le_n _)) as He.
    split; [|by rewrite /rm_map /rb_map /= He]. split; [|by rewrite /= He].
    split; rewrite /= He; constructor.
  - apply rm_size_map.
  - intros m ([Hs _] & _). done.
Qed.

Lemma rbtree_memtable_init_ok : rm_inv (rbtree_memtable_init (V := V)) /\ rm_map (rbtree_memtable_init (V := V)) = ∅.
Proof. split; [|done]. by split; [split; constructor|]. Qed.
End rbtree_facts.
