(* ===== verification/Cache.v ===== *)
(** * LRU cache (source/cache.c)

    A node is reachable both from the radix tree and from the recency list;
    it is identified by its key.  [lc_root] is the radix tree (key to the
    node's value), [lc_entries] the keys of the nodes in list order, most
    recently used first. *)
From S2P Require Import Prelude.

Record lru_cache (V : Type) : Type := {
  lc_size : Z;
  lc_capacity : Z;
  lc_root : gmap Z V;
  lc_entries : list Z
}.
Arguments lc_size {V}.
Arguments lc_capacity {V}.
Arguments lc_root {V}.
Arguments lc_entries {V}.

Section cache.
Context {V : Type}.
Implicit Types (this : lru_cache V).

Definition list_del (key : Z) (l : list Z) : list Z := filter (fun k => k <> key) l.
Definition list_add (key : Z) (l : list Z) : list Z := key :: l.

(** One round of the eviction loop; [list_last_entry] of an empty list is
    undefined, so the model stops there. *)
Definition lru_cache_evict this : option (lru_cache V) :=
  match last (lc_entries this) with
  | None => None
  | Some key =>
      Some {| lc_size := u64 (lc_size this - 1); lc_capacity := lc_capacity this;
              lc_root := delete key (lc_root this); lc_entries := list_del key (lc_entries this) |}
  end.

(** [while (size >= capacity)]: one node goes per round. *)
Fixpoint lru_cache_shrink (fuel : nat) this : option (lru_cache V) :=
  match fuel with
  | O => Some this
  | S fuel =>
      if lc_capacity this <=? lc_size this
      then match lru_cache_evict this with None => None | Some this => lru_cache_shrink fuel this end
      else Some this
  end.

Definition lru_cache_put (key : Z) (val : V) this : option (lru_cache V) :=
  match lc_root this !! key with
  | Some _ =>
      Some {| lc_size := lc_size this; lc_capacity := lc_capacity this;
              lc_root := <[key := val]> (lc_root this);
              lc_entries := list_add key (list_del key (lc_entries this)) |}
  | None =>
      match lru_cache_shrink (S (length (lc_entries this))) this with
      | None => None
      | Some this =>
          Some {| lc_size := u64 (lc_size this + 1); lc_capacity := lc_capacity this;
                  lc_root := <[key := val]> (lc_root this); lc_entries := list_add key (lc_entries this) |}
      end
  end.

Definition lru_cache_get (key : Z) this : option V * lru_cache V :=
  match lc_root this !! key with
  | None => (None, this)
  | Some val =>
      (Some val,
       {| lc_size := lc_size this; lc_capacity := lc_capacity this; lc_root := lc_root this;
          lc_entries := list_add key (list_del key (lc_entries this)) |})
  end.

Definition lru_cache_delete (key : Z) this : lru_cache V :=
  match lc_root this !! key with
  | None => this
  | Some _ =>
      {| lc_size := u64 (lc_size this - 1); lc_capacity := lc_capacity this;
         lc_root := delete key (lc_root this); lc_entries := list_del key (lc_entries this) |}
  end.

Definition lru_cache_init (capacity : Z) : lru_cache V :=
  {| lc_size := 0; lc_capacity := capacity; lc_root := ∅; lc_entries := [] |}.

(** ** Abstract cache: the bindings in order of recency *)
Definition lru : Type := list (Z * V).
Definition lru_drop (key : Z) (l : lru) : lru := filter (fun p => p.1 <> key) l.
Definition lru_spec_put (cap : nat) (key : Z) (val : V) (l : lru) : lru :=
  take cap ((key, val) :: lru_drop key l).
Definition lru_spec_get (key : Z) (l : lru) : option V * lru :=
  match (list_to_map l : gmap Z V) !! key with
  | Some v => (Some v, (key, v) :: lru_drop key l)
  | None => (None, l)
  end.
Definition lru_spec_delete (key : Z) (l : lru) : lru := lru_drop key l.

Definition lru_rel this (l : lru) : Prop :=
  lc_entries this = l.*1 /\ lc_root this = list_to_map l /\ NoDup l.*1 /\
  lc_size this = Z.of_nat (length l) /\ lc_size this <= lc_capacity this /\ 0 < lc_capacity this < 2 ^ 64.

Lemma lru_drop_keys key (l : lru) : (lru_drop key l).*1 = list_del key l.*1.
Proof.
  rewrite /lru_drop /list_del. induction l as [|[k v] l IH]; [done|].
  rewrite fmap_cons !filter_cons /=. case_decide; by rewrite ?fmap_cons IH.
Qed.

Lemma lru_drop_notin key (l : lru) : key ∉ (lru_drop key l).*1.
Proof. rewrite lru_drop_keys /list_del list_elem_of_filter. naive_solver. Qed.

Lemma lru_drop_nodup key (l : lru) : NoDup l.*1 -> NoDup (lru_drop key l).*1.
Proof. rewrite lru_drop_keys. apply NoDup_filter. Qed.

Lemma lru_drop_id key (l : lru) : key ∉ l.*1 -> lru_drop key l = l.
Proof.
  intros Hk. apply filter_all, Forall_forall => -[k v] Hin /= Heq. apply Hk. subst.
  by apply (list_elem_of_fmap_2 fst _ (key, v)).
Qed.

Lemma lru_drop_map key (l : lru) :
  (list_to_map (lru_drop key l) : gmap Z V) = delete key (list_to_map l).
Proof.
  induction l as [|[k v] l IH]; [by rewrite delete_empty|]. rewrite /lru_drop filter_cons /=.
  case_decide as Hk; simpl; rewrite -/(lru_drop key l) IH.
  - by rewrite delete_insert_ne.
  - assert (k = key) as -> by (destruct (decide (k = key)); naive_solver). by rewrite delete_insert_eq.
Qed.

Lemma lru_drop_length key (l : lru) v :
  NoDup l.*1 -> (list_to_map l : gmap Z V) !! key = Some v ->
  length l = S (length (lru_drop key l)).
Proof.
  induction l as [|[k w] l IH]; [done|]. rewrite fmap_cons /= => /NoDup_cons [Hk Hnd].
  rewrite lookup_insert /lru_drop filter_cons /=. case_decide as E.
  - intros _. subst k. rewrite decide_False; [|naive_solver]. by rewrite -/(lru_drop key l) lru_drop_id.
  - intros Hl. rewrite decide_True; [|naive_solver]. simpl. by rewrite (IH Hnd Hl).
Qed.

(** Moving a binding to the front. *)
Lemma lru_front_map key val (l : lru) :
  (list_to_map ((key, val) :: lru_drop key l) : gmap Z V) = <[key := val]> (list_to_map l).
Proof. by rewrite /= lru_drop_map insert_delete_eq. Qed.

Lemma lru_front_nodup key val (l : lru) : NoDup l.*1 -> NoDup ((key, val) :: lru_drop key l).*1.
Proof. intros. rewrite fmap_cons /=. constructor; [apply lru_drop_notin|by apply lru_drop_nodup]. Qed.

(** Eviction drops the last binding. *)
Lemma lru_evict_rel this l p :
  lru_rel this (l ++ [p]) -> exists this', lru_cache_evict this = Some this' /\ lru_rel this' l /\
    lc_size this' = lc_size this - 1 /\ lc_capacity this' = lc_capacity this.
Proof.
  intros (He & Hr & Hnd & Hs & Hc & Hp). rewrite fmap_app in Hnd.
  assert (list_del p.1 (l ++ [p]).*1 = l.*1) as Hd.
  { rewrite fmap_app /list_del filter_app. rewrite (filter_cons_False _ p.1); [|naive_solver].
    rewrite filter_nil app_nil_r. apply filter_all, Forall_forall => k Hk /= Heq. subst k.
    apply NoDup_app in Hnd as (_ & Hx & _). apply (Hx _ Hk). left. }
  exists {| lc_size := u64 (lc_size this - 1); lc_capacity := lc_capacity this;
            lc_root := delete p.1 (lc_root this); lc_entries := list_del p.1 (lc_entries this) |}.
  rewrite length_app /= in Hs.
  split; [by rewrite /lru_cache_evict He fmap_app last_snoc|].
  rewrite /lru_rel. cbn [lc_size lc_capacity lc_root lc_entries]. rewrite (u64_small (lc_size this - 1)); [|lia].
  split; [|done]. split; [by rewrite He|]. split; [|split; [|lia]].
  - rewrite Hr -lru_drop_map /lru_drop filter_app (filter_cons_False _ p); [|naive_solver].
    rewrite filter_nil app_nil_r. f_equal.
    apply (lru_drop_id p.1). intros Hin. apply NoDup_app in Hnd as (_ & Hx & _). apply (Hx _ Hin). left.
  - by apply NoDup_app in Hnd as (? & _).
Qed.

Lemma lru_shrink_rel this l :
  lru_rel this l -> exists this', lru_cache_shrink (S (length (lc_entries this))) this = Some this' /\
    lru_rel this' (take (Z.to_nat (lc_capacity this) - 1) l) /\ lc_size this' < lc_capacity this /\
    lc_capacity this' = lc_capacity this.
Proof.
  intros Hrel. pose proof Hrel as (He & Hr & Hnd & Hs & Hc & Hp). cbn [lru_cache_shrink].
  destruct (Z.leb_spec (lc_capacity this) (lc_size this)) as [Hle|Hlt]; last first.
  { exists this. rewrite take_ge; [|lia]. by split. }
  destruct l as [|p l' _] using rev_ind; [simpl in Hs; lia|].
  destruct (lru_evict_rel this l' p Hrel) as (this' & -> & Hrel' & Hs' & Hc').
  exists this'. rewrite length_app /= in Hs.
  rewrite He length_fmap length_app Nat.add_1_r. cbn [lru_cache_shrink]. rewrite Hc' Hs'.
  ztest. split; [done|]. rewrite take_app_le; [|lia]. rewrite take_ge; [|lia].
  split; [done|]. split; [lia|done].
Qed.
End cache.
Arguments lru : clear implicits.

(** C24: the cache implements a bounded list of bindings in
    order of recency.  Every operation keeps the correspondence: [put] makes
    the binding the most recent one and drops the least recently used one when
    the capacity is reached, [get] returns the bound value and makes it the
    most recent one, [delete] removes it; the eviction loop always terminates
    and never evicts from an empty list. *)
Theorem lru_cache_refines {V} (this : lru_cache V) (l : lru V) (key : Z) (val : V) :
  lru_rel this l ->
  (exists this', lru_cache_put key val this = Some this' /\
     lru_rel this' (lru_spec_put (Z.to_nat (lc_capacity this)) key val l)) /\
  (let '(o, this') := lru_cache_get key this in
   o = (lru_spec_get key l).1 /\ lru_rel this' (lru_spec_get key l).2) /\
  lru_rel (lru_cache_delete key this) (lru_spec_delete key l).
Proof.
  intros Hrel. pose proof Hrel as (He & Hr & Hnd & Hs & Hc & Hp).
  split; [|split].
  - rewrite /lru_cache_put /lru_spec_put.
    destruct (lc_root this !! key) as [v|] eqn:E.
    + rewrite Hr in E. pose proof (lru_drop_length key l v Hnd E) as Hl.
      eexists. split; [done|]. rewrite take_ge; [|simpl; lia].
      split; [by rewrite fmap_cons /= lru_drop_keys He|].
      split; [by rewrite lru_front_map Hr|]. split; [by apply lru_front_nodup|]. simpl. lia.
    + destruct (lru_shrink_rel this l Hrel) as (this' & -> & Hrel' & Hs' & Hc').
      destruct Hrel' as (He' & Hr' & Hnd' & Hs'' & _ & _).
      assert (key ∉ l.*1) as Hk by (rewrite Hr in E; by apply not_elem_of_list_to_map_2 in E).
      eexists. split; [done|]. rewrite lru_drop_id //.
      destruct (Z.to_nat (lc_capacity this)) as [|n] eqn:En; [lia|]. rewrite firstn_cons.
      replace (S n - 1)%nat with n in * by lia. rewrite u64_small; [|lia].
      split; [by rewrite fmap_cons /= He'|]. split; [by rewrite /= Hr'|].
      cbn [lc_size lc_capacity]. split; [|simpl; lia]. rewrite fmap_cons. constructor; [|done].
      intros Hin. apply Hk. rewrite fmap_take in Hin. eapply elem_of_take in Hin as (i & Hi & _).
      by eapply list_elem_of_lookup_2.
  - rewrite /lru_cache_get /lru_spec_get -Hr. destruct (lc_root this !! key) as [v|] eqn:E; [|done].
    split; [done|]. rewrite Hr in E. pose proof (lru_drop_length key l v Hnd E) as Hl.
    split; [cbn [snd lc_entries]; by rewrite fmap_cons lru_drop_keys He|]. split.
    + cbn [snd lc_root]. rewrite lru_front_map Hr. symmetry. by apply insert_id.
    + split; [by apply lru_front_nodup|]. simpl. lia.
  - rewrite /lru_cache_delete /lru_spec_delete. destruct (lc_root this !! key) as [v|] eqn:E.
    + rewrite Hr in E. pose proof (lru_drop_length key l v Hnd E) as Hl.
      split; [cbn [lc_entries]; by rewrite lru_drop_keys He|]. split; [cbn [lc_root]; by rewrite lru_drop_map Hr|].
      split; [by apply lru_drop_nodup|]. cbn [lc_size lc_capacity]. rewrite u64_small; lia.
    + rewrite lru_drop_id //. rewrite Hr in E. by apply not_elem_of_list_to_map_2 in E.
Qed.

Lemma lru_cache_refines_witness :
  let full := {| lc_size := 2; lc_capacity := 2; lc_root := <[1 := 10]> (<[2 := 20]> ∅); lc_entries := [1; 2] |} in
  lru_rel full [(1, 10); (2, 20)] /\
  exists this', lru_cache_put 3 30 full = Some this' /\ lru_rel this' [(3, 30); (1, 10)].
Proof.
  intros full.
  assert (lru_rel full [(1, 10); (2, 20)]) as Hrel.
  { split; [reflexivity|]. split; [reflexivity|]. split; [|vm_compute; intuition congruence].
    apply NoDup_cons. split; [|apply NoDup_singleton]. by apply (bool_decide_unpack _). }
  split; [exact Hrel|]. exact (proj1 (lru_cache_refines full [(1, 10); (2, 20)] 3 30 Hrel)).
Defined.
