(* ===== verification/BitFile.v ===== *)
(** * Block index table files: builder, search and iterator (source/lsm_tree.c)

    A BIT file is built bottom-up from entries in increasing key order: full
    leaves are appended to a buffer, and whenever four nodes of one height are
    complete an inner node over them is appended behind.  The buffer goes to
    the index file when it is nearly full.  The file and the buffer are byte
    areas; every node is encrypted under a fresh random key kept in its parent. *)
From S2P Require Import Prelude Codec Crypto BitNode Superblock Area Bloom Hashtable Catalogue.

(** What the builder shares with the rest of the system: the index file, and
    how many requests the random pool has served. *)
Record bit_io : Type := { io_file : area; io_rng : nat }.

Definition SEGMENT_BUFFER_SIZE : Z := SECTOES_PER_SEGMENT * SECTOR_SIZE.
Definition DEFAULT_LSM_FILE_BUILDER_BUFFER_SIZE : Z := SEGMENT_BUFFER_SIZE.

(** ** Zeroed structures ([kzalloc]) *)
Definition zero_pointer : bit_pointer :=
  {| bp_pos := 0; bp_key := replicate AES_GCM_KEY_SIZE Byte.x00; bp_iv := replicate AES_GCM_IV_SIZE Byte.x00 |}.
Definition zero_record : record :=
  {| pba := 0; mac := replicate AES_GCM_AUTH_SIZE Byte.x00; key := replicate AES_GCM_KEY_SIZE Byte.x00;
     iv := replicate AES_GCM_IV_SIZE Byte.x00 |}.
Definition zero_child : bit_child := {| bc_is_leaf := false; bc_key := 0; bc_pointer := zero_pointer |}.
Definition zero_inner : bit_inner :=
  {| bi_nr_child := 0; bi_children := replicate (Z.to_nat DEFAULT_BIT_DEGREE) zero_child |}.
Definition zero_leaf : bit_leaf :=
  {| bl_nr_record := 0; bl_keys := replicate (Z.to_nat BIT_LEAF_LEN) 0;
     bl_records := replicate (Z.to_nat BIT_LEAF_LEN) zero_record; bl_next := zero_pointer |}.

(** ** struct bit_builder_context *)
Record bit_builder_context : Type := {
  cx_nr : Z;
  cx_pointers : list bit_pointer;
  cx_nodes : list bit_node
}.
Definition zero_ctx : bit_builder_context :=
  {| cx_nr := 0; cx_pointers := replicate (Z.to_nat DEFAULT_BIT_DEGREE) zero_pointer;
     cx_nodes := replicate (Z.to_nat DEFAULT_BIT_DEGREE) (BitInner zero_inner) |}.

(** The greatest key below a node: its last record's, or its last child's. *)
Definition node_last_key (n : bit_node) : Z :=
  match n with
  | BitLeaf l => nth (Z.to_nat (bl_nr_record l - 1)) (bl_keys l) 0
  | BitInner i => bc_key (nth (Z.to_nat (bi_nr_child i - 1)) (bi_children i) zero_child)
  end.

Definition ctx_child (ctx : bit_builder_context) (i : nat) : bit_child :=
  let node := nth i (cx_nodes ctx) (BitInner zero_inner) in
  {| bc_is_leaf := bn_is_leaf node; bc_key := node_last_key node;
     bc_pointer := nth i (cx_pointers ctx) zero_pointer |}.

(** The first [nr] children are filled in; the others stay zero. *)
Definition __bit_inner (ctx : bit_builder_context) : bit_node :=
  BitInner {| bi_nr_child := cx_nr ctx;
              bi_children := (ctx_child ctx <$> seq 0 (Z.to_nat (cx_nr ctx)))
                ++ replicate (Z.to_nat (DEFAULT_BIT_DEGREE - cx_nr ctx)) zero_child |}.

(** [ctx->nodes[nr] = node; ctx->pointers[nr] = ptr; nr += 1] *)
Definition ctx_push (node : bit_node) (ptr : bit_pointer) (ctx : bit_builder_context) : bit_builder_context :=
  {| cx_nr := cx_nr ctx + 1;
     cx_pointers := <[Z.to_nat (cx_nr ctx) := ptr]> (cx_pointers ctx);
     cx_nodes := <[Z.to_nat (cx_nr ctx) := node]> (cx_nodes ctx) |}.
Definition ctx_reset (ctx : bit_builder_context) : bit_builder_context :=
  {| cx_nr := 0; cx_pointers := cx_pointers ctx; cx_nodes := cx_nodes ctx |}.

(** ** struct bit_builder *)
Record bit_builder : Type := {
  bb_begin : Z;
  bb_has_first_key : bool;
  bb_first_key : Z;
  bb_last_key : Z;
  bb_cur : Z;
  bb_height : Z;
  bb_id : Z;
  bb_level : Z;
  bb_version : Z;
  bb_buffer : area;
  bb_ctx : list bit_builder_context;
  bb_next_key : list byte;
  bb_next_iv : list byte;
  bb_cur_leaf : bit_leaf;
  bb_filter : bloom_filter;
  bb_size : Z
}.

Definition bb_set_buf (begin cur : Z) (buf : area) (b : bit_builder) : bit_builder :=
  {| bb_begin := begin; bb_has_first_key := bb_has_first_key b; bb_first_key := bb_first_key b;
     bb_last_key := bb_last_key b; bb_cur := cur; bb_height := bb_height b; bb_id := bb_id b;
     bb_level := bb_level b; bb_version := bb_version b; bb_buffer := buf; bb_ctx := bb_ctx b;
     bb_next_key := bb_next_key b; bb_next_iv := bb_next_iv b; bb_cur_leaf := bb_cur_leaf b;
     bb_filter := bb_filter b; bb_size := bb_size b |}.
Definition bb_set_ctx (ctx : list bit_builder_context) (b : bit_builder) : bit_builder :=
  {| bb_begin := bb_begin b; bb_has_first_key := bb_has_first_key b; bb_first_key := bb_first_key b;
     bb_last_key := bb_last_key b; bb_cur := bb_cur b; bb_height := bb_height b; bb_id := bb_id b;
     bb_level := bb_level b; bb_version := bb_version b; bb_buffer := bb_buffer b; bb_ctx := ctx;
     bb_next_key := bb_next_key b; bb_next_iv := bb_next_iv b; bb_cur_leaf := bb_cur_leaf b;
     bb_filter := bb_filter b; bb_size := bb_size b |}.
Definition bb_set_next (k v : list byte) (leaf : bit_leaf) (b : bit_builder) : bit_builder :=
  {| bb_begin := bb_begin b; bb_has_first_key := bb_has_first_key b; bb_first_key := bb_first_key b;
     bb_last_key := bb_last_key b; bb_cur := bb_cur b; bb_height := bb_height b; bb_id := bb_id b;
     bb_level := bb_level b; bb_version := bb_version b; bb_buffer := bb_buffer b; bb_ctx := bb_ctx b;
     bb_next_key := k; bb_next_iv := v; bb_cur_leaf := leaf;
     bb_filter := bb_filter b; bb_size := bb_size b |}.
(** The bookkeeping of one entry: key range, count and filter. *)
Definition bb_note_entry (k : Z) (b : bit_builder) : bit_builder :=
  {| bb_begin := bb_begin b; bb_has_first_key := true;
     bb_first_key := if bb_has_first_key b then bb_first_key b else k;
     bb_last_key := k; bb_cur := bb_cur b; bb_height := bb_height b; bb_id := bb_id b;
     bb_level := bb_level b; bb_version := bb_version b; bb_buffer := bb_buffer b; bb_ctx := bb_ctx b;
     bb_next_key := bb_next_key b; bb_next_iv := bb_next_iv b; bb_cur_leaf := bb_cur_leaf b;
     bb_filter := bloom_filter_add (bb_filter b) (le_enc 4 k); bb_size := bb_size b + 1 |}.

Definition leaf_set_nr (n : Z) (l : bit_leaf) : bit_leaf :=
  {| bl_nr_record := n; bl_keys := bl_keys l; bl_records := bl_records l; bl_next := bl_next l |}.
Definition leaf_set_next (p : bit_pointer) (l : bit_leaf) : bit_leaf :=
  {| bl_nr_record := bl_nr_record l; bl_keys := bl_keys l; bl_records := bl_records l; bl_next := p |}.
(** [keys[nr] = key; records[nr] = rec; nr += 1] *)
Definition leaf_append (k : Z) (r : record) (l : bit_leaf) : bit_leaf :=
  {| bl_nr_record := bl_nr_record l + 1;
     bl_keys := <[Z.to_nat (bl_nr_record l) := k]> (bl_keys l);
     bl_records := <[Z.to_nat (bl_nr_record l) := r]> (bl_records l);
     bl_next := bl_next l |}.

Section bit_file.
Context `{Gcm} `{Rng}.

Definition bb_state : Type := bit_builder * bit_io.

Definition bb_ctx_at (h : nat) (b : bit_builder) : bit_builder_context := nth h (bb_ctx b) zero_ctx.

(** [get_random_bytes] for a key and for an IV. *)
Definition fresh_key_iv (io : bit_io) : list byte * list byte * bit_io :=
  (rng_bytes (io_rng io) AES_GCM_KEY_SIZE, rng_bytes (S (io_rng io)) AES_GCM_IV_SIZE,
   {| io_file := io_file io; io_rng := S (S (io_rng io)) |}).

(** [kernel_write (file, buffer, cur, &pos)] *)
Definition io_write (pos : Z) (data : list byte) (io : bit_io) : bit_io :=
  {| io_file := area_write pos data (io_file io); io_rng := io_rng io |}.

(** [sizeof(struct bit_node)] per level must still fit behind [cur]. *)
Definition bb_buffer_full (b : bit_builder) : bool :=
  DEFAULT_LSM_FILE_BUILDER_BUFFER_SIZE <? bb_cur b + bb_height b * BIT_NODE_SIZE.

Definition bit_builder_buffer_flush_if_full (st : bb_state) : bb_state :=
  let '(b, io) := st in
  if bb_buffer_full b then
    (bb_set_buf (bb_begin b + bb_cur b) 0 (bb_buffer b) b,
     io_write (bb_begin b) (area_read 0 (Z.to_nat (bb_cur b)) (bb_buffer b)) io)
  else (b, io).

(** The body of both upward loops: the nodes of [ctx[h]] become the children
    of an inner node, which is put into [ctx[h+1]] and appended to the buffer. *)
Definition bit_builder_push_inner (h : nat) (st : bb_state) : bb_state :=
  let '(b, io) := st in
  let inner_node := __bit_inner (bb_ctx_at h b) in
  let '(k, v, io) := fresh_key_iv io in
  let ptr := {| bp_pos := bb_begin b + bb_cur b; bp_key := k; bp_iv := v |} in
  let buffer := area_write (bb_cur b) (bit_node_encode inner_node k v) (bb_buffer b) in
  let ctx := <[S h := ctx_push inner_node ptr (bb_ctx_at (S h) b)]>
               (<[h := ctx_reset (bb_ctx_at h b)]> (bb_ctx b)) in
  (bb_set_ctx ctx (bb_set_buf (bb_begin b) (bb_cur b + BIT_INNER_NODE_SIZE) buffer b), io).

(** [while (ctx[h].nr == DEFAULT_BIT_DEGREE)]: a round per level. *)
Fixpoint bit_builder_carry (fuel : nat) (h : nat) (st : bb_state) : bb_state :=
  match fuel with
  | O => st
  | S fuel =>
      if cx_nr (bb_ctx_at h st.1) =? DEFAULT_BIT_DEGREE
      then bit_builder_carry fuel (S h) (bit_builder_push_inner h st)
      else st
  end.

(** The part of [add_entry] that runs when the current leaf is full. *)
Definition bit_builder_emit_leaf (st : bb_state) : bb_state :=
  let pointer := {| bp_pos := bb_begin st.1 + bb_cur st.1; bp_key := bb_next_key st.1;
                    bp_iv := bb_next_iv st.1 |} in
  let leaf := bb_cur_leaf st.1 in
  let '(b, io) := bit_builder_buffer_flush_if_full st in
  let cur := bb_cur b in
  let b := bb_set_ctx (<[0%nat := ctx_push (BitLeaf leaf) pointer (bb_ctx_at 0 b)]> (bb_ctx b))
             (bb_set_buf (bb_begin b) (bb_cur b + BIT_LEAF_NODE_SIZE) (bb_buffer b) b) in
  let '(b, io) := bit_builder_carry (Z.to_nat (bb_height b)) 0 (b, io) in
  let '(k, v, io) := fresh_key_iv io in
  let leaf := leaf_set_next {| bp_pos := bb_begin b + bb_cur b; bp_key := k; bp_iv := v |} leaf in
  let buffer := area_write cur (bit_node_encode (BitLeaf leaf) (bp_key pointer) (bp_iv pointer)) (bb_buffer b) in
  (bb_set_next k v (leaf_set_nr 0 (bb_cur_leaf b)) (bb_set_buf (bb_begin b) (bb_cur b) buffer b), io).

Definition bit_builder_add_entry (e : entry record) (st : bb_state) : bb_state :=
  let '(b, io) := st in
  let b := bb_note_entry (e_key e) b in
  let leaf := leaf_append (e_key e) (e_val e) (bb_cur_leaf b) in
  let b := bb_set_next (bb_next_key b) (bb_next_iv b) leaf b in
  if bl_nr_record leaf <? BIT_LEAF_LEN then (b, io)
  else bit_builder_emit_leaf (b, io).

(** ** struct bit_file *)
Record bit_file : Type := {
  bf_id : Z;
  bf_level : Z;
  bf_version : Z;
  bf_root : Z;
  bf_root_key : list byte;
  bf_root_iv : list byte;
  bf_first_key : Z;
  bf_last_key : Z;
  bf_cached_leaf : bit_leaf;
  bf_filter_begin : Z;
  bf_filter : bloom_filter
}.

Definition bit_bloom_filter_create : bloom_filter :=
  bloom_filter_add_hash (bloom_filter_add_hash (bloom_filter_add_hash
    (bloom_filter_create BIT_BLOOM_FILTER_SIZE) djb2) jenkins) shash.

Definition bit_file_create (file : area) (root id level version first_key last_key : Z)
    (root_key root_iv : list byte) (filter_begin : Z) : bit_file :=
  {| bf_id := id; bf_level := level; bf_version := version; bf_root := root;
     bf_root_key := root_key; bf_root_iv := root_iv; bf_first_key := first_key; bf_last_key := last_key;
     bf_cached_leaf := zero_leaf; bf_filter_begin := filter_begin;
     bf_filter := bloom_filter_load bit_bloom_filter_create file filter_begin |}.

(** [while (h < height - 1)]: levels without nodes are skipped. *)
Fixpoint bit_builder_close (fuel : nat) (h : nat) (st : bb_state) : bb_state :=
  match fuel with
  | O => st
  | S fuel =>
      if cx_nr (bb_ctx_at h st.1) =? 0 then bit_builder_close fuel (S h) st
      else bit_builder_close fuel (S h) (bit_builder_push_inner h st)
  end.

(** Lines 224 to 268: nothing when the top level already has a node;
    otherwise the last, partial leaf is placed and the open levels closed. *)
Definition bit_builder_finish (st : bb_state) : bb_state :=
  if negb (cx_nr (bb_ctx_at (Z.to_nat (bb_height st.1 - 1)) st.1) =? 0) then st
  else
    let pointer := {| bp_pos := bb_begin st.1 + bb_cur st.1; bp_key := bb_next_key st.1;
                      bp_iv := bb_next_iv st.1 |} in
    let '(b, io) := bit_builder_buffer_flush_if_full st in
    let leaf := bb_cur_leaf b in
    let partial := 0 <? bl_nr_record leaf in
    let cur := bb_cur b in
    let b :=
      if partial then
        let c := bb_ctx_at 0 b in
        bb_set_ctx (<[0%nat := {| cx_nr := cx_nr c;
                                  cx_pointers := <[Z.to_nat (cx_nr c) := pointer]> (cx_pointers c);
                                  cx_nodes := <[Z.to_nat (cx_nr c) := BitLeaf leaf]> (cx_nodes c) |}]> (bb_ctx b))
          (bb_set_buf (bb_begin b) (bb_cur b + BIT_LEAF_NODE_SIZE) (bb_buffer b) b)
      else b in
    let '(b, io) := bit_builder_close (Z.to_nat (bb_height b - 1)) 0 (b, io) in
    if partial then
      (bb_set_buf (bb_begin b) (bb_cur b)
         (area_write cur (bit_node_encode (BitLeaf leaf) (bp_key pointer) (bp_iv pointer)) (bb_buffer b)) b, io)
    else (b, io).

(** The buffer is written at [addr], the value [begin] had on entry. *)
Definition bit_builder_complete (st : bb_state) : bit_file * bit_io :=
  let addr := bb_begin st.1 in
  let '(b, io) := bit_builder_finish st in
  let io := io_write addr (area_read 0 (Z.to_nat (bb_cur b)) (bb_buffer b)) io in
  let root_pointer := nth 0 (cx_pointers (bb_ctx_at (Z.to_nat (bb_height b - 1)) b)) zero_pointer in
  let root := bb_begin b + bb_cur b - BIT_INNER_NODE_SIZE in
  let filter_begin := root + BIT_INNER_NODE_SIZE in
  let io := io_write filter_begin
              (area_read 0 (Z.to_nat (bf_size (bb_filter b))) (bf_bits (bb_filter b))) io in
  (bit_file_create (io_file io) root (bb_id b) (bb_level b) (bb_version b) (bb_first_key b) (bb_last_key b)
     (bp_key root_pointer) (bp_iv root_pointer) filter_begin, io).

Definition bit_builder_create (begin id level version : Z) (garbage : area) (io : bit_io) : bb_state :=
  let '(k, v, io) := fresh_key_iv io in
  let height := __bit_height DEFAULT_LSM_FILE_CAPACITY DEFAULT_BIT_DEGREE in
  ({| bb_begin := begin; bb_has_first_key := false; bb_first_key := 0; bb_last_key := 0; bb_cur := 0;
      bb_height := height; bb_id := id; bb_level := level; bb_version := version;
      bb_buffer := garbage; bb_ctx := replicate (Z.to_nat height) zero_ctx;
      bb_next_key := k; bb_next_iv := v; bb_cur_leaf := zero_leaf;
      bb_filter := bit_bloom_filter_create; bb_size := 0 |}, io).

(** ** Search *)
Fixpoint bit_leaf_search_loop (i : nat) (n : nat) (leaf : bit_leaf) (k : Z) : result record :=
  match n with
  | O => Err ENODATA
  | S n =>
      if nth i (bl_keys leaf) 0 =? k then Ok (nth i (bl_records leaf) zero_record)
      else bit_leaf_search_loop (S i) n leaf k
  end.
Definition bit_leaf_search (leaf : bit_leaf) (k : Z) : result record :=
  bit_leaf_search_loop 0 (Z.to_nat (bl_nr_record leaf)) leaf k.

(** The first child whose greatest key is not below [k]. *)
Fixpoint bit_inner_child (i : nat) (n : nat) (inner : bit_inner) (k : Z) : option bit_child :=
  match n with
  | O => None
  | S n =>
      let c := nth i (bi_children inner) zero_child in
      if k <=? bc_key c then Some c else bit_inner_child (S i) n inner k
  end.

(** [next: ... goto next]: the fuel bounds the number of nodes read. *)
Fixpoint bit_search_from (fuel : nat) (file : area) (addr : Z) (is_leaf : bool) (ek iv : list byte) (k : Z)
    : result bit_leaf :=
  match fuel with
  | O => Err ENODATA
  | S fuel =>
      match bit_node_decode (area_read addr (Z.to_nat BIT_NODE_SIZE) file) is_leaf ek iv with
      | Err _ => Err ENODATA
      | Ok (BitLeaf leaf) =>
          match bit_leaf_search leaf k with Ok _ => Ok leaf | Err _ => Err ENODATA end
      | Ok (BitInner inner) =>
          match bit_inner_child 0 (Z.to_nat (bi_nr_child inner)) inner k with
          | None => Err ENODATA
          | Some c =>
              bit_search_from fuel file (bp_pos (bc_pointer c)) (bc_is_leaf c)
                (bp_key (bc_pointer c)) (bp_iv (bc_pointer c)) k
          end
      end
  end.

(** Enough for any tree of the height the builder uses. *)
Definition bit_search_fuel : nat := 64.

Definition bit_file_search_leaf (this : bit_file) (file : area) (k : Z) : result bit_leaf :=
  bit_search_from bit_search_fuel file (bf_root this) false (bf_root_key this) (bf_root_iv this) k.

Definition bit_file_first_leaf (this : bit_file) (file : area) : result bit_leaf :=
  bit_file_search_leaf this file (bf_first_key this).

Definition bf_set_cached (leaf : bit_leaf) (f : bit_file) : bit_file :=
  {| bf_id := bf_id f; bf_level := bf_level f; bf_version := bf_version f; bf_root := bf_root f;
     bf_root_key := bf_root_key f; bf_root_iv := bf_root_iv f; bf_first_key := bf_first_key f;
     bf_last_key := bf_last_key f; bf_cached_leaf := leaf; bf_filter_begin := bf_filter_begin f;
     bf_filter := bf_filter f |}.

(** Filter, then the cached leaf, then the tree; a leaf that was read is cached. *)
Definition bit_file_search (file : area) (k : Z) (this : bit_file) : result record * bit_file :=
  if negb (bloom_filter_contains (bf_filter this) (le_enc 4 k)) then (Err ENODATA, this)
  else
    match bit_leaf_search (bf_cached_leaf this) k with
    | Ok r => (Ok r, this)
    | Err _ =>
        match bit_file_search_leaf this file k with
        | Err e => (Err e, this)
        | Ok leaf => (bit_leaf_search leaf k, bf_set_cached leaf this)
        end
    end.

Definition bit_file_get_stats (this : bit_file) : file_stat :=
  {| fs_root := bf_root this; fs_filter_begin := bf_filter_begin this;
     fs_root_key := bf_root_key this; fs_root_iv := bf_root_iv this;
     fs_id := bf_id this; fs_level := bf_level this; fs_version := bf_version this;
     fs_first_key := bf_first_key this; fs_last_key := bf_last_key this;
     fs_node := replicate 16 Byte.x00 |}.

(** ** Iterator *)
Record bit_iterator : Type := {
  it_cur_record : Z;
  it_has_next : bool;
  it_file : bit_file;
  it_leaf : bit_leaf
}.

Definition bit_iterator_create (file : area) (f : bit_file) : result bit_iterator :=
  match bit_file_first_leaf f file with
  | Err e => Err e
  | Ok leaf => Ok {| it_cur_record := 0; it_has_next := true; it_file := f; it_leaf := leaf |}
  end.

(** The error of [bit_node_decode] is not looked at; a failed decryption
    leaves the bytes that were read, modelled by [garbage]. *)
Definition bit_iterator_next (garbage : list byte -> bit_leaf) (file : area) (this : bit_iterator)
    : result (entry record) * bit_iterator :=
  if negb (it_has_next this) then (Err ENODATA, this)
  else
    let i := Z.to_nat (it_cur_record this) in
    let k := nth i (bl_keys (it_leaf this)) 0 in
    let e := __entry k (nth i (bl_records (it_leaf this)) zero_record) in
    if bf_last_key (it_file this) <=? k then
      (Ok e, {| it_cur_record := it_cur_record this; it_has_next := false; it_file := it_file this;
                it_leaf := it_leaf this |})
    else if it_cur_record this + 1 =? BIT_LEAF_LEN then
      let next := bl_next (it_leaf this) in
      let data := area_read (bp_pos next) (Z.to_nat BIT_NODE_SIZE) file in
      let leaf := match bit_node_decode data true (bp_key next) (bp_iv next) with
                  | Ok (BitLeaf leaf) => leaf
                  | _ => garbage data
                  end in
      (Ok e, {| it_cur_record := 0; it_has_next := true; it_file := it_file this; it_leaf := leaf |})
    else
      (Ok e, {| it_cur_record := it_cur_record this + 1; it_has_next := true; it_file := it_file this;
                it_leaf := it_leaf this |}).
End bit_file.
