(* ===== verification/BitTree.v ===== *)
(** * Correctness of BIT files

    The builder of [BitFile] produces a tree in which [bit_file_search] finds
    exactly the entries of the full leaves.  The argument: the file overlaid
    with the builder's buffer is one byte area (the view); every node the
    contexts point to is stored in the view, encrypted, with the subtree below
    it; appending a node or flushing the buffer keeps that. *)
From S2P Require Import Prelude Codec Crypto BitNode Superblock Area Bloom Hashtable BitFile.

(** ** Entries *)
Definition ent : Type := Z * record.
Definition ents_sorted (es : list ent) : Prop := StronglySorted (fun a b : ent => a.1 < b.1) es.
Definition ents_map (es : list ent) : gmap Z record := list_to_map es.
Definition last_key (es : list ent) : Z := default 0 (fst <$> last es).

Definition ent_wf (e : ent) : Prop := 0 <= e.1 < 2 ^ 32 /\ cwf record_codec e.2.

Lemma ents_sorted_app es1 es2 :
  ents_sorted (es1 ++ es2) <->
  ents_sorted es1 /\ ents_sorted es2 /\ forall a b, a ∈ es1 -> b ∈ es2 -> a.1 < b.1.
Proof. apply sorted_app. Qed.

Lemma last_key_snoc es e : last_key (es ++ [e]) = e.1.
Proof. by rewrite /last_key last_snoc. Qed.

Lemma last_key_app es1 es2 : es2 <> [] -> last_key (es1 ++ es2) = last_key es2.
Proof.
  intros Hne. destruct es2 as [|e es2 _] using rev_ind; [done|].
  by rewrite app_assoc !last_key_snoc.
Qed.

Lemma last_key_max es e : ents_sorted es -> e ∈ es -> e.1 <= last_key es.
Proof.
  intros Hs He. destruct es as [|x es _] using rev_ind; [by apply not_elem_of_nil in He|].
  rewrite last_key_snoc. apply elem_of_app in He as [He|He%list_elem_of_singleton]; [|by subst].
  apply ents_sorted_app in Hs as (_ & _ & H3). specialize (H3 e x He ltac:(left)). lia.
Qed.

Lemma ents_map_none es k : (forall e, e ∈ es -> e.1 <> k) -> ents_map es !! k = None.
Proof.
  intros Hn. apply not_elem_of_list_to_map_1. intros (e & -> & He)%list_elem_of_fmap. by apply (Hn e).
Qed.

Lemma ents_sorted_nodup es : ents_sorted es -> NoDup es.*1.
Proof.
  induction 1 as [|e l Hs IH Hall]; [constructor|]. rewrite fmap_cons. constructor; [|done].
  intros (x & Hx & Hin)%list_elem_of_fmap. eapply Forall_forall in Hall; [|done]. lia.
Qed.

Lemma ents_map_elem es k r : ents_sorted es -> (k, r) ∈ es -> ents_map es !! k = Some r.
Proof. intros Hs He. by apply elem_of_list_to_map_1; [apply ents_sorted_nodup|]. Qed.

Lemma ents_map_iff es k r : ents_sorted es -> ents_map es !! k = Some r <-> (k, r) ∈ es.
Proof. intros Hs. split; [apply elem_of_list_to_map_2|by apply ents_map_elem]. Qed.

(** Where a key is looked for: in the first part if it is not beyond its last
    key, otherwise in the rest. *)
Lemma ents_map_split es1 es2 k :
  ents_sorted (es1 ++ es2) -> es1 <> [] ->
  ents_map (es1 ++ es2) !! k =
    if k <=? last_key es1 then ents_map es1 !! k else ents_map es2 !! k.
Proof.
  intros Hs Hne. pose proof Hs as (H1 & H2 & H3)%ents_sorted_app.
  rewrite /ents_map list_to_map_app. destruct (Z.leb_spec k (last_key es1)) as [Hle|Hgt].
  - apply lookup_union_l. apply ents_map_none => e He.
    destruct es1 as [|x es1 _] using rev_ind; [done|]. rewrite last_key_snoc in Hle.
    specialize (H3 x e ltac:(apply elem_of_app; right; left) He). lia.
  - apply lookup_union_r. apply ents_map_none => e He.
    pose proof (last_key_max es1 e H1 He). lia.
Qed.

(** ** Nodes stored in an area *)
Lemma area_read_app off n m a :
  area_read off (n + m) a = area_read off n a ++ area_read (off + Z.of_nat n) m a.
Proof.
  rewrite /area_read seq_app fmap_app. f_equal.
  rewrite -(Nat.add_0_r (0 + n)) -fmap_add_seq -list_fmap_compose.
  apply list_fmap_ext => i x _ /=. f_equal. lia.
Qed.

(** A property of leaves, by the pointer they are reached by and their
    entries, that holds of every leaf of a tree; [any_leaf] asks for nothing. *)
Class LeafPred : Type := leaf_pred : bit_pointer -> list ent -> Prop.

Section trees.
Context {gcm : Gcm} {gcm_ok : GcmOk} {lf : LeafPred}.

Definition leaf_entries (l : bit_leaf) : list ent := zip (bl_keys l) (bl_records l).

(** [n] is stored at [p], inside [lo, hi). *)
Definition node_at (v : area) (lo hi : Z) (p : bit_pointer) (n : bit_node) : Prop :=
  lo <= bp_pos p /\ bp_pos p + bit_node_size n <= hi /\ bit_node_wf n /\
  area_read (bp_pos p) (Z.to_nat (bit_node_size n)) v = bit_node_encode n (bp_key p) (bp_iv p).

(** The subtree of height [h] at [p] holds the entries [es]. *)
Fixpoint tree_at (v : area) (lo hi : Z) (h : nat) (p : bit_pointer) (es : list ent) : Prop :=
  match h with
  | O => exists l, node_at v lo hi p (BitLeaf l) /\ bl_nr_record l = BIT_LEAF_LEN /\ leaf_entries l = es /\ leaf_pred p es
  | S h => exists i ess, node_at v lo hi p (BitInner i) /\ ess <> [] /\ es = concat ess /\
      bi_nr_child i = Z.of_nat (length ess) /\
      Forall2 (fun c es => tree_at v lo hi h (bc_pointer c) es /\ es <> [] /\
                 bc_is_leaf c = (h =? 0)%nat /\ bc_key c = last_key es)
        (take (Z.to_nat (bi_nr_child i)) (bi_children i)) ess
  end.

Lemma node_size_le n : 0 <= bit_node_size n <= BIT_NODE_SIZE.
Proof. by destruct n; vm_compute. Qed.

Lemma node_at_decode v lo hi p n :
  node_at v lo hi p n ->
  bit_node_decode (area_read (bp_pos p) (Z.to_nat BIT_NODE_SIZE) v) (bn_is_leaf n) (bp_key p) (bp_iv p) = Ok n.
Proof.
  intros (_ & _ & Hwf & Hrd). pose proof (node_size_le n).
  replace (Z.to_nat BIT_NODE_SIZE)
    with (Z.to_nat (bit_node_size n) + Z.to_nat (BIT_NODE_SIZE - bit_node_size n))%nat by lia.
  rewrite area_read_app Hrd. by apply bit_node_decode_encode.
Qed.

Lemma node_at_mono v v' lo hi lo' hi' p n :
  node_at v lo hi p n -> lo' <= lo -> hi <= hi' -> (forall i, lo <= i < hi -> v' i = v i) ->
  node_at v' lo' hi' p n.
Proof.
  intros (H1 & H2 & H3 & H4) Hlo Hhi Hag. pose proof (node_size_le n).
  split; [lia|]. split; [lia|]. split; [done|]. rewrite -H4. apply area_read_ext => i Hi. apply Hag. lia.
Qed.

Lemma tree_at_mono v v' lo hi lo' hi' h p es :
  lo' <= lo -> hi <= hi' -> (forall i, lo <= i < hi -> v' i = v i) ->
  tree_at v lo hi h p es -> tree_at v' lo' hi' h p es.
Proof.
  intros Hlo Hhi Hag. revert p es. induction h as [|h IH] => p es /=.
  - intros (l & Hn & ? & ? & ?). exists l. split; [by eapply node_at_mono|done].
  - intros (i & ess & Hn & Hne & -> & Hnr & Hf). exists i, ess. split; [by eapply node_at_mono|].
    split; [done|]. split; [done|]. split; [done|]. eapply Forall2_impl; [exact Hf|].
    intros c es (Ht & ?). split; [by apply IH|done].
Qed.

(** ** Searching a leaf *)
Lemma nth_zip_lookup (ks : list Z) (rs : list record) (i : nat) k r :
  zip ks rs !! i = Some (k, r) -> nth i ks 0 = k /\ nth i rs zero_record = r.
Proof.
  intros Hl. rewrite lookup_zip_with in Hl. apply bind_Some in Hl as (k' & Hk & Hl).
  apply bind_Some in Hl as (r' & Hr & [= -> ->]). by rewrite !nth_lookup Hk Hr.
Qed.

Lemma bit_leaf_search_loop_spec l k i n :
  ents_sorted (leaf_entries l) -> length (leaf_entries l) = (i + n)%nat ->
  bit_leaf_search_loop i n l k =
    match ents_map (drop i (leaf_entries l)) !! k with Some r => Ok r | None => Err ENODATA end.
Proof.
  intros Hs. revert i. induction n as [|n IH] => i Hl.
  { rewrite drop_ge; [done|lia]. }
  destruct (lookup_lt_is_Some_2 (leaf_entries l) i) as [[k' r'] He]; [lia|].
  destruct (nth_zip_lookup _ _ _ _ _ He) as [Hk Hr].
  rewrite (drop_S _ (k', r') i) //. cbn [bit_leaf_search_loop]. rewrite Hk Hr.
  rewrite /ents_map /= lookup_insert. destruct (Z.eqb_spec k' k) as [->|Hne].
  - by rewrite decide_True.
  - rewrite decide_False //. by rewrite IH; [|lia].
Qed.

Lemma bit_leaf_search_spec l k :
  bl_nr_record l = BIT_LEAF_LEN -> bit_node_wf (BitLeaf l) -> ents_sorted (leaf_entries l) ->
  bit_leaf_search l k = match ents_map (leaf_entries l) !! k with Some r => Ok r | None => Err ENODATA end.
Proof.
  intros Hn (_ & (Hk & _) & (Hr & _) & _) Hs. rewrite /bit_leaf_search Hn.
  rewrite bit_leaf_search_loop_spec //. cbn in Hk, Hr.
  rewrite /leaf_entries length_zip_with Hk Hr. done.
Qed.

(** ** Searching a tree *)
Lemma bit_inner_child_spec (P : bit_child -> list ent -> Prop) inner k i n ess :
  Forall2 (fun c es => P c es /\ es <> [] /\ bc_key c = last_key es)
    (take n (drop i (bi_children inner))) ess ->
  length ess = n -> ents_sorted (concat ess) ->
  match bit_inner_child i n inner k with
  | Some c => exists es, P c es /\ ents_map (concat ess) !! k = ents_map es !! k /\ es ∈ ess
  | None => ents_map (concat ess) !! k = None
  end.
Proof.
  revert i ess. induction n as [|n IH] => i ess Hf Hl Hs; cbn [bit_inner_child].
  { by destruct ess. }
  destruct (lookup_lt_is_Some_2 (bi_children inner) i) as [c Hc].
  { apply Forall2_length in Hf. rewrite length_take length_drop in Hf. lia. }
  rewrite (drop_S _ c i) // firstn_cons in Hf.
  apply Forall2_cons_inv_l in Hf as (es & ess' & (HP & Hne & Hkey) & Hf & ->).
  rewrite nth_lookup Hc. cbn [from_option default]. change (concat (es :: ess')) with (es ++ concat ess') in *.
  rewrite ents_map_split // Hkey. destruct (k <=? last_key es).
  - exists es. split; [done|]. split; [done|]. left.
  - apply ents_sorted_app in Hs as (_ & Hs & _). specialize (IH (S i) ess' Hf ltac:(simpl in Hl; lia) Hs).
    destruct (bit_inner_child (S i) n inner k) as [c'|]; [|done].
    destruct IH as (es' & ? & ? & ?). exists es'. split; [done|]. split; [done|by right].
Qed.

Lemma bit_search_from_spec fuel v lo hi h p es k :
  (h < fuel)%nat -> tree_at v lo hi h p es -> ents_sorted es ->
  match ents_map es !! k with
  | Some r => exists leaf, bit_search_from fuel v (bp_pos p) (h =? 0)%nat (bp_key p) (bp_iv p) k = Ok leaf /\
      bit_leaf_search leaf k = Ok r /\
      (forall k' r', bit_leaf_search leaf k' = Ok r' -> ents_map es !! k' = Some r') /\
      exists q, node_at v lo hi q (BitLeaf leaf) /\ leaf_pred q (leaf_entries leaf) /\ (k, r) ∈ leaf_entries leaf
  | None => bit_search_from fuel v (bp_pos p) (h =? 0)%nat (bp_key p) (bp_iv p) k = Err ENODATA
  end.
Proof.
  revert fuel p es. induction h as [|h IH] => fuel p es Hf Ht Hs; (destruct fuel as [|fuel]; [lia|]);
    cbn [bit_search_from].
  - destruct Ht as (l & Hn & Hnr & He & Hlp). pose proof (node_at_decode _ _ _ _ _ Hn) as Hd.
    pose proof Hn as (_ & _ & Hwf & _). cbn [bn_is_leaf] in Hd. rewrite Hd.
    assert (forall k', bit_leaf_search l k' =
      match ents_map es !! k' with Some r => Ok r | None => Err ENODATA end) as Hls.
    { intros k'. rewrite -He in Hs |- *. by apply bit_leaf_search_spec. }
    rewrite Hls. destruct (ents_map es !! k) as [r|] eqn:E; [|done].
    exists l. split; [done|]. rewrite Hls E. split; [done|]. split; [|exists p; rewrite He; split; [done|split; [done|by apply elem_of_list_to_map_2]]].
    intros k' r'. rewrite Hls. by destruct (ents_map es !! k') => // -[->].
  - destruct Ht as (i & ess & Hn & Hne & -> & Hnr & Hch). pose proof (node_at_decode _ _ _ _ _ Hn) as Hd.
    cbn [bn_is_leaf] in Hd. change (S h =? 0)%nat with false. rewrite Hd.
    pose proof (bit_inner_child_spec (fun c es => tree_at v lo hi h (bc_pointer c) es /\ bc_is_leaf c = (h =? 0)%nat)
      i k 0 (Z.to_nat (bi_nr_child i)) ess
      ltac:(eapply Forall2_impl; [exact Hch|naive_solver]) ltac:(lia) Hs) as Hic.
    destruct (bit_inner_child 0 (Z.to_nat (bi_nr_child i)) i k) as [c|]; [|by rewrite Hic].
    destruct Hic as (es & [Ht Hlf] & -> & Hin). rewrite Hlf.
    apply list_elem_of_split in Hin as (e1 & e2 & ->).
    rewrite concat_app in Hs |- *. change (concat (es :: e2)) with (es ++ concat e2) in *.
    pose proof Hs as (_ & (Hes & _ & H2)%ents_sorted_app & H1)%ents_sorted_app.
    specialize (IH fuel (bc_pointer c) es ltac:(lia) Ht Hes).
    destruct (ents_map es !! k) as [r|]; [|done]. destruct IH as (leaf & Hr & Hl & Hall & Hq).
    exists leaf. split; [done|]. split; [done|]. split; [|done]. intros k' r' Hk'. specialize (Hall k' r' Hk').
    apply elem_of_list_to_map_2 in Hall. apply ents_map_elem; [done|].
    rewrite !elem_of_app. tauto.
Qed.
End trees.

(** ** Ghost state of the builder

    [E !! h] lists, for each node in [ctx[h]], the entries below it.  Higher
    levels hold smaller keys. *)
Definition ghost : Type := list (list (list ent)).
Fixpoint flat (E : ghost) : list ent :=
  match E with [] => [] | esl :: E => flat E ++ concat esl end.
(** The number of leaves the contexts stand for, and of nodes they hold. *)
Fixpoint weight (E : ghost) : Z :=
  match E with [] => 0 | esl :: E => Z.of_nat (length esl) + 4 * weight E end.
Fixpoint open_nodes (E : ghost) : Z :=
  match E with [] => 0 | esl :: E => Z.of_nat (length esl) + open_nodes E end.
Definition ghost_push (h : nat) (esl esl' : list (list ent)) (E : ghost) : ghost :=
  <[S h := esl' ++ [concat esl]]> (<[h := []]> E).

Section ghost_facts.
Implicit Types (E : ghost).

Lemma flat_push E h esl esl' :
  E !! h = Some esl -> E !! S h = Some esl' -> flat (ghost_push h esl esl' E) = flat E.
Proof.
  rewrite /ghost_push. revert E. induction h as [|h IH] => E H1 H2.
  - destruct E as [|x [|y E]]; [done|done|]. injection H1 as ->. injection H2 as ->. simpl.
    rewrite concat_app /= !app_nil_r. by rewrite app_assoc.
  - destruct E as [|x E]; [done|]. simpl. f_equal. by apply IH.
Qed.

Lemma weight_push E h esl esl' :
  E !! h = Some esl -> E !! S h = Some esl' ->
  weight (ghost_push h esl esl' E) = weight E + 4 ^ Z.of_nat h * (4 - Z.of_nat (length esl)).
Proof.
  rewrite /ghost_push. revert E. induction h as [|h IH] => E H1 H2.
  - destruct E as [|x [|y E]]; [done|done|]. injection H1 as ->. injection H2 as ->.
    cbn [insert list_insert weight length]. rewrite length_app. cbn [length]. lia.
  - destruct E as [|x E]; [done|].
    change (weight (<[S (S h):=esl' ++ [concat esl]]> (<[S h:=[]]> (x :: E))))
      with (Z.of_nat (length x) + 4 * weight (<[S h:=esl' ++ [concat esl]]> (<[h:=[]]> E))).
    rewrite (IH E H1 H2). cbn [weight]. rewrite Nat2Z.inj_succ Z.pow_succ_r; lia.
Qed.

Lemma open_push E h esl esl' :
  E !! h = Some esl -> E !! S h = Some esl' ->
  open_nodes (ghost_push h esl esl' E) = open_nodes E + 1 - Z.of_nat (length esl).
Proof.
  rewrite /ghost_push. revert E. induction h as [|h IH] => E H1 H2.
  - destruct E as [|x [|y E]]; [done|done|]. injection H1 as ->. injection H2 as ->.
    cbn [insert list_insert open_nodes length]. rewrite length_app. cbn [length]. lia.
  - destruct E as [|x E]; [done|].
    change (open_nodes (<[S (S h):=esl' ++ [concat esl]]> (<[S h:=[]]> (x :: E))))
      with (Z.of_nat (length x) + open_nodes (<[S h:=esl' ++ [concat esl]]> (<[h:=[]]> E))).
    rewrite (IH E H1 H2). cbn [open_nodes]. lia.
Qed.

Lemma weight_nonneg E : 0 <= weight E.
Proof. induction E; simpl; lia. Qed.
Lemma open_nonneg E : 0 <= open_nodes E.
Proof. induction E; simpl; lia. Qed.

Lemma weight_lookup E h esl : E !! h = Some esl -> 4 ^ Z.of_nat h * Z.of_nat (length esl) <= weight E.
Proof.
  revert E. induction h as [|h IH] => E Hl; (destruct E as [|x E]; [done|]).
  - injection Hl as ->. cbn [weight]. pose proof (weight_nonneg E). lia.
  - cbn [weight]. specialize (IH E Hl). rewrite Nat2Z.inj_succ Z.pow_succ_r; lia.
Qed.

Lemma weight_zero_flat E : (forall h esl, E !! h = Some esl -> esl = []) -> flat E = [].
Proof.
  induction E as [|x E IH] => Hall; [done|]. simpl. rewrite IH; [|intros h; apply (Hall (S h))].
  by rewrite (Hall 0%nat x).
Qed.
End ghost_facts.

(** ** Where the buffer stands

    The position after [w] leaves is a function of [w] alone: every leaf takes
    509 bytes, and an inner node of 189 bytes closes four open nodes.  So the
    points where the buffer is flushed are fixed, too. *)
Fixpoint dsum (fuel : nat) (w : Z) : Z :=
  match fuel with O => 0 | S fuel => w mod 4 + dsum fuel (w / 4) end.
Definition sim_pos (w : Z) : Z := 572 * w - 63 * dsum 10 w.
Definition sim_test (w b : Z) : bool := DEFAULT_LSM_FILE_BUILDER_BUFFER_SIZE <? sim_pos w - b + 5090.
(** Number of leaves and start of the buffer, relative to the file. *)
Definition sim_step (s : Z * Z) : Z * Z := (s.1 + 1, if sim_test s.1 s.2 then sim_pos s.1 else s.2).
Definition sim_begin (n : nat) : Z := (Nat.iter n sim_step (0, 0)).2.
Definition sim_full (n : nat) : bool := sim_test (Z.of_nat n) (sim_begin n).

Lemma sim_begin_S n : sim_begin (S n) = if sim_full n then sim_pos (Z.of_nat n) else sim_begin n.
Proof.
  rewrite /sim_full /sim_begin.
  assert (forall m, (Nat.iter m sim_step (0, 0)).1 = Z.of_nat m) as Hfst.
  { induction m as [|m IH]; [done|].
    change ((Nat.iter m sim_step (0, 0)).1 + 1 = Z.of_nat (S m)). rewrite IH. lia. }
  rewrite -(Hfst n). done.
Qed.

Lemma open_dsum m (E : ghost) :
  length E = m -> (forall j esl, E !! j = Some esl -> (length esl < 4)%nat) -> open_nodes E = dsum m (weight E).
Proof.
  revert m. induction E as [|esl E IH] => m Hm Hd; simpl in Hm; subst m; [done|].
  cbn [open_nodes weight dsum]. pose proof (Hd 0%nat esl eq_refl) as Hl.
  replace (Z.of_nat (length esl) + 4 * weight E) with (Z.of_nat (length esl) + weight E * 4) by lia.
  rewrite Z.mod_add // Z.div_add // Z.mod_small; [|lia]. rewrite Z.div_small; [|lia].
  rewrite (IH (length E)) //. intros j e Hj. exact (Hd (S j) e Hj).
Qed.

Section builder.
Context {gcm : Gcm} {gcm_ok : GcmOk} {rng : Rng} {rng_ok : RngOk} {lf : LeafPred}.
Implicit Types (st : bb_state) (b : bit_builder) (v : area).

Definition bb_pos b : Z := bb_begin b + bb_cur b.
(** The file with the unwritten part of the buffer in place. *)
Definition bb_view st : area := fun i =>
  if (bb_begin st.1 <=? i) && (i <? bb_pos st.1) then bb_buffer st.1 (i - bb_begin st.1)
  else io_file st.2 i.

Definition slot_ok v (lo hi : Z) (h : nat) (p : bit_pointer) (n : bit_node) (es : list ent) : Prop :=
  tree_at v lo hi h p es /\ es <> [] /\ bn_is_leaf n = (h =? 0)%nat /\ node_last_key n = last_key es /\
  cwf bit_pointer_codec p /\ 0 <= last_key es < 2 ^ 32.
Definition level_ok v (lo hi : Z) (h : nat) (c : bit_builder_context) (esl : list (list ent)) : Prop :=
  cx_nr c = Z.of_nat (length esl) /\ length (cx_pointers c) = 4%nat /\ length (cx_nodes c) = 4%nat /\
  forall i es, esl !! i = Some es ->
    slot_ok v lo hi h (nth i (cx_pointers c) zero_pointer) (nth i (cx_nodes c) (BitInner zero_inner)) es.
Definition ctx_ok v (lo hi : Z) (ctx : list bit_builder_context) (E : ghost) : Prop :=
  length E = length ctx /\
  forall h c esl, ctx !! h = Some c -> E !! h = Some esl -> level_ok v lo hi h c esl.

(** [v] has the bytes of the view from [lo] on, except perhaps in the hole. *)
Definition agrees (lo P0 len : Z) v st : Prop :=
  forall i, lo <= i < bb_pos st.1 -> ~ (P0 <= i < P0 + len) -> v i = bb_view st i.
(** Whatever ends up in the hole, if it satisfies [P] the contexts are right. *)
Definition trees_ok (lo P0 len : Z) (P : area -> Prop) (E : ghost) st : Prop :=
  forall v, agrees lo P0 len v st -> P v -> ctx_ok v lo (bb_pos st.1) (bb_ctx st.1) E.

Lemma slot_ok_mono v lo hi hi' h p n es : hi <= hi' -> slot_ok v lo hi h p n es -> slot_ok v lo hi' h p n es.
Proof. intros Hle (Ht & ?). split; [|done]. by eapply tree_at_mono; [| | |exact Ht]; [lia|lia|]. Qed.

Lemma level_ok_mono v lo hi hi' h c esl : hi <= hi' -> level_ok v lo hi h c esl -> level_ok v lo hi' h c esl.
Proof.
  intros Hle (H1 & H2 & H3 & H4). do 3 (split; [done|]). intros i es Hi.
  eapply slot_ok_mono; [exact Hle|]. by apply H4.
Qed.

Lemma ctx_ok_mono v lo hi hi' ctx E : hi <= hi' -> ctx_ok v lo hi ctx E -> ctx_ok v lo hi' ctx E.
Proof.
  intros Hle [H1 H2]. split; [done|]. intros h c esl Hc He. eapply level_ok_mono; [exact Hle|]. by eapply H2.
Qed.

(** ** Contexts *)
Lemma level_ok_push v lo hi h c esl n p es :
  level_ok v lo hi h c esl -> (length esl < 4)%nat -> slot_ok v lo hi h p n es ->
  level_ok v lo hi h (ctx_push n p c) (esl ++ [es]).
Proof.
  intros (Hnr & Hp & Hn & Hs) Hlt Hok. rewrite /level_ok /ctx_push. cbn [cx_nr cx_pointers cx_nodes].
  rewrite Hnr Nat2Z.id. split; [rewrite length_app /=; lia|]. rewrite !length_insert.
  do 2 (split; [done|]). intros i x Hx. rewrite !nth_lookup.
  destruct (decide (i = length esl)) as [->|Hne].
  - rewrite !list_lookup_insert_eq; [|lia|lia]. simpl.
    rewrite lookup_app_r // Nat.sub_diag in Hx. by injection Hx as <-.
  - rewrite !list_lookup_insert_ne //. rewrite -!nth_lookup. apply Hs.
    apply lookup_app_Some in Hx as [?|[? Hx]]; [done|]. apply list_lookup_singleton_Some in Hx as [? _]. lia.
Qed.

Lemma level_ok_reset v lo hi h c esl : level_ok v lo hi h c esl -> level_ok v lo hi h (ctx_reset c) [].
Proof. intros (_ & Hp & Hn & _). by split_and!. Qed.

(** The inner node over a level stands for the concatenation of its entries. *)
Lemma inner_children v lo hi h c esl :
  level_ok v lo hi h c esl -> (length esl <= 4)%nat ->
  Forall2 (fun ch es => tree_at v lo hi h (bc_pointer ch) es /\ es <> [] /\
             bc_is_leaf ch = (h =? 0)%nat /\ bc_key ch = last_key es)
    (ctx_child c <$> seq 0 (length esl)) esl /\
  Forall (cwf bit_child_codec) (ctx_child c <$> seq 0 (length esl)).
Proof.
  intros (Hnr & Hp & Hn & Hs) Hlt.
  assert (forall i es, esl !! i = Some es ->
    let ch := ctx_child c i in tree_at v lo hi h (bc_pointer ch) es /\ es <> [] /\
      bc_is_leaf ch = (h =? 0)%nat /\ bc_key ch = last_key es /\ cwf bit_child_codec ch) as Hch.
  { intros i es Hi. destruct (Hs i es Hi) as (Ht & Hne & Hl & Hk & Hwf & Hr).
    rewrite /ctx_child. cbn [bc_pointer bc_is_leaf bc_key]. do 4 (split; [done|]).
    split; [done|]. split; [|done]. cbn [fst snd bc_key]. rewrite Hk. exact Hr. }
  split.
  - apply Forall2_same_length_lookup_2; [by rewrite length_fmap length_seq|].
    intros i ch es Hc He. rewrite list_lookup_fmap in Hc. apply fmap_Some in Hc as (j & Hj & ->).
    apply lookup_seq in Hj as [-> Hj]. by destruct (Hch _ _ He) as (? & ? & ? & ? & _).
  - apply Forall_forall => ch /list_elem_of_fmap [i [-> Hi]]. apply elem_of_seq in Hi.
    destruct (lookup_lt_is_Some_2 esl i) as [es He]; [lia|]. by destruct (Hch _ _ He) as (_ & _ & _ & _ & ?).
Qed.

Lemma inner_node_wf v lo hi h c esl :
  level_ok v lo hi h c esl -> (length esl <= 4)%nat -> bit_node_wf (__bit_inner c).
Proof.
  intros Hl Hlt. destruct (inner_children v lo hi h c esl Hl Hlt) as [_ Hc].
  destruct Hl as (Hnr & _). rewrite /bit_node_wf /__bit_inner Hnr Nat2Z.id.
  split; [|split].
  - change (0 <= Z.of_nat (length esl) < 2 ^ 64). lia.
  - cbn [snd fst bi_children]. rewrite length_app length_fmap length_seq length_replicate.
    rewrite /DEFAULT_BIT_DEGREE. lia.
  - cbn [snd bi_children]. apply Forall_app. split; [done|].
    apply Forall_replicate. by vm_compute.
Qed.

Lemma inner_tree v lo hi h c esl p :
  level_ok v lo hi h c esl -> (1 <= length esl <= 4)%nat -> node_at v lo hi p (__bit_inner c) ->
  cwf bit_pointer_codec p -> slot_ok v lo hi (S h) p (__bit_inner c) (concat esl).
Proof.
  intros Hl Hlt Hn Hp. destruct (inner_children v lo hi h c esl Hl ltac:(lia)) as [Hch _].
  pose proof Hl as (Hnr & _ & _ & Hs).
  destruct esl as [|es esl _] using rev_ind; [simpl in Hlt; lia|].
  assert ((esl ++ [es]) !! length esl = Some es) as Hlast by (by rewrite lookup_app_r // Nat.sub_diag).
  destruct (Hs _ _ Hlast) as (_ & Hne & _ & Hk & _ & Hr).
  assert (last_key (concat (esl ++ [es])) = last_key es) as Hlk.
  { rewrite concat_app /= app_nil_r. by apply last_key_app. }
  split; [|split; [|split; [|split; [|split]]]].
  - exists {| bi_nr_child := cx_nr c; bi_children := (ctx_child c <$> seq 0 (Z.to_nat (cx_nr c)))
              ++ replicate (Z.to_nat (DEFAULT_BIT_DEGREE - cx_nr c)) zero_child |}, (esl ++ [es]).
    split; [exact Hn|]. split; [by destruct esl|]. split; [done|]. split; [done|].
    cbn [bi_nr_child bi_children]. rewrite Hnr Nat2Z.id.
    rewrite take_app_le; [|by rewrite length_fmap length_seq].
    rewrite take_ge; [exact Hch|by rewrite length_fmap length_seq].
  - rewrite concat_app /= app_nil_r. intros [_ ?]%app_eq_nil. done.
  - done.
  - rewrite Hlk -Hk. rewrite /node_last_key /__bit_inner. cbn [bi_nr_child bi_children].
    rewrite Hnr length_app Nat2Z.id. cbn [length].
    replace (Z.to_nat (Z.of_nat (length esl + 1) - 1)) with (length esl) by lia.
    rewrite app_nth1; [|rewrite length_fmap length_seq; lia].
    rewrite nth_lookup list_lookup_fmap lookup_seq_lt; [|lia]. done.
  - done.
  - by rewrite Hlk.
Qed.

(** ** The steps of the builder *)
Lemma push_inner_view h st i :
  0 <= bb_cur st.1 -> i < bb_pos st.1 -> bb_view (bit_builder_push_inner h st) i = bb_view st i.
Proof.
  destruct st as [b io]. rewrite /bit_builder_push_inner /fresh_key_iv. intros Hc Hi.
  rewrite /bb_view /bb_pos in Hi |- *. cbn [fst snd bb_set_ctx bb_set_buf bb_begin bb_cur bb_buffer io_file] in Hi |- *.
  change BIT_INNER_NODE_SIZE with 189.
  destruct (Z.leb_spec (bb_begin b) i); [|done]. do 2 ztest. simpl.
  apply area_write_out. lia.
Qed.

Lemma push_inner_ok lo P0 len P E st h esl esl' :
  trees_ok lo P0 len P E st -> E !! h = Some esl -> E !! S h = Some esl' ->
  (1 <= length esl <= 4)%nat -> (length esl' < 4)%nat ->
  0 <= lo <= bb_begin st.1 -> 0 <= bb_cur st.1 -> P0 + len <= bb_pos st.1 ->
  bb_pos st.1 + 189 <= 2 ^ 63 ->
  trees_ok lo P0 len P (ghost_push h esl esl' E) (bit_builder_push_inner h st).
Proof.
  intros Hok Hh Hh' Hl Hl' Hlo Hc HP0 Hbd v Hag HPv.
  assert (ctx_ok v lo (bb_pos st.1) (bb_ctx st.1) E) as [HE Hctx].
  { apply Hok; [|done]. intros i Hi Hni. rewrite Hag //; [apply push_inner_view; [done|lia]|].
    destruct st as [b io]. rewrite /bit_builder_push_inner /bb_pos in Hi |- *. cbn in Hi |- *.
    change BIT_INNER_NODE_SIZE with 189. lia. }
  destruct (lookup_lt_is_Some_2 (bb_ctx st.1) h) as [c Hcx]; [apply lookup_lt_Some in Hh; lia|].
  destruct (lookup_lt_is_Some_2 (bb_ctx st.1) (S h)) as [c' Hcx']; [apply lookup_lt_Some in Hh'; lia|].
  pose proof (Hctx h c esl Hcx Hh) as Hlev. pose proof (Hctx (S h) c' esl' Hcx' Hh') as Hlev'.
  pose proof (inner_node_wf v _ _ h c esl Hlev ltac:(lia)) as Hwf.
  destruct st as [b io]. cbn [fst snd] in *.
  set (k := rng_bytes (io_rng io) AES_GCM_KEY_SIZE). set (w := rng_bytes (S (io_rng io)) AES_GCM_IV_SIZE).
  set (ptr := {| bp_pos := bb_pos b; bp_key := k; bp_iv := w |}).
  assert (bb_ctx_at h b = c) as Hat by (by rewrite /bb_ctx_at nth_lookup Hcx).
  assert (bb_ctx_at (S h) b = c') as Hat' by (by rewrite /bb_ctx_at nth_lookup Hcx').
  pose proof (length_bit_node_encode (__bit_inner c) k w Hwf) as Hlen.
  change (bit_node_size (__bit_inner c)) with 189 in Hlen.
  set (st' := bit_builder_push_inner h (b, io)) in *.
  assert (bb_pos st'.1 = bb_pos b + 189) as Hpos.
  { rewrite /st' /bb_pos. cbn. change BIT_INNER_NODE_SIZE with 189. lia. }
  assert (node_at v lo (bb_pos st'.1) ptr (__bit_inner c)) as Hn.
  { split; [cbn [ptr bp_pos]; rewrite /bb_pos; lia|]. split; [rewrite Hpos; done|]. split; [done|].
    change (bit_node_size (__bit_inner c)) with 189. cbn [ptr bp_pos bp_key bp_iv].
    rewrite -{1}(area_read_write_eq (bb_pos b) (bit_node_encode (__bit_inner c) k w) v).
    replace (length (bit_node_encode (__bit_inner c) k w)) with (Z.to_nat 189) by lia.
    apply area_read_ext => i Hi. rewrite Hag; [|rewrite Hpos; rewrite /bb_pos in Hi |- *; lia|lia].
    rewrite /bb_view Hpos. cbn [st' bit_builder_push_inner fresh_key_iv fst snd bb_set_ctx bb_set_buf bb_begin bb_buffer].
    rewrite /bb_pos in Hi |- *. do 2 ztest. rewrite /= Hat -/k -/w. symmetry.
    destruct (lookup_lt_is_Some_2 (bit_node_encode (__bit_inner c) k w) (Z.to_nat (i - (bb_begin b + bb_cur b)))) as [x Hx]; [lia|].
    rewrite (area_write_in (bb_begin b + bb_cur b) _ v i x) //; [|lia]. symmetry.
    apply area_write_in; [lia|]. by replace (i - bb_begin b - bb_cur b) with (i - (bb_begin b + bb_cur b)) by lia. }
  assert (slot_ok v lo (bb_pos st'.1) (S h) ptr (__bit_inner c) (concat esl)) as Hslot.
  { apply (inner_tree v lo _ h c esl ptr); [|done|done|].
    - eapply level_ok_mono; [|exact Hlev]. lia.
    - split; [change (0 <= bb_pos b < 2 ^ 64); rewrite /bb_pos in Hbd |- *; lia|].
      split; apply rng_bytes_length. }
  change (bb_ctx st'.1) with (<[S h := ctx_push (__bit_inner (bb_ctx_at h b)) ptr (bb_ctx_at (S h) b)]>
               (<[h := ctx_reset (bb_ctx_at h b)]> (bb_ctx b))). rewrite Hat Hat'.
  split; [by rewrite /ghost_push !length_insert|]. intros j cj ej Hj Hej.
  rewrite /ghost_push in Hej. rewrite !list_lookup_insert in Hj. rewrite !list_lookup_insert in Hej.
  assert (h < length (bb_ctx b))%nat by (by apply lookup_lt_Some in Hcx).
  rewrite length_insert in Hj.
  destruct (decide (S h = j)) as [<-|Hne].
  - rewrite decide_True in Hj; [|split; [done|apply lookup_lt_Some in Hcx'; lia]].
    rewrite decide_True in Hej; [|split; [done|rewrite length_insert; exact (lookup_lt_Some _ _ _ Hh')]].
    injection Hj as <-. injection Hej as <-.
    apply level_ok_push; [|done|done]. eapply level_ok_mono; [|exact Hlev']. lia.
  - rewrite decide_False in Hj; [|tauto]. rewrite decide_False in Hej; [|tauto].
    destruct (decide (h = j)) as [<-|Hne'].
    + rewrite decide_True in Hj; [|done]. rewrite decide_True in Hej; [|split; [done|lia]].
      injection Hj as <-. injection Hej as <-. eapply level_ok_reset, level_ok_mono; [|exact Hlev]; lia.
    + rewrite decide_False in Hj; [|tauto]. rewrite decide_False in Hej; [|tauto].
      eapply level_ok_mono; [|by eapply Hctx]. lia.
Qed.

(** What the upward loops leave alone. *)
Definition bb_meta b :=
  (bb_has_first_key b, bb_first_key b, bb_last_key b, bb_height b, bb_id b, bb_level b, bb_version b,
   bb_next_key b, bb_next_iv b, bb_cur_leaf b, bb_filter b, bb_size b).
Definition nr_ok (ctx : list bit_builder_context) (E : ghost) : Prop :=
  Forall2 (fun c esl => cx_nr c = Z.of_nat (length esl)) ctx E.

(** Everything about a builder state but the trees themselves. *)
Record bb_shape (lo : Z) (E : ghost) st : Prop := {
  bs_nr : nr_ok (bb_ctx st.1) E;
  bs_len : length E = 10%nat;
  bs_lo : 0 <= lo <= bb_begin st.1;
  bs_cur : 0 <= bb_cur st.1;
  bs_pos : bb_pos st.1 <= 2 ^ 62
}.

Lemma nr_ok_lookup ctx E h esl :
  nr_ok ctx E -> E !! h = Some esl -> cx_nr (nth h ctx zero_ctx) = Z.of_nat (length esl).
Proof.
  intros Hnr Hh. destruct (Forall2_lookup_r _ _ _ _ _ Hnr Hh) as (c & Hc & Hn).
  by rewrite nth_lookup Hc.
Qed.

Lemma push_inner_shape lo E st h esl esl' :
  bb_shape lo E st -> E !! h = Some esl -> E !! S h = Some esl' -> bb_pos st.1 + 189 <= 2 ^ 62 ->
  let st' := bit_builder_push_inner h st in
  bb_shape lo (ghost_push h esl esl' E) st' /\ bb_pos st'.1 = bb_pos st.1 + 189 /\
  bb_begin st'.1 = bb_begin st.1 /\ bb_meta st'.1 = bb_meta st.1 /\ io_file st'.2 = io_file st.2 /\
  (forall i, i < bb_pos st.1 -> bb_view st' i = bb_view st i).
Proof.
  intros [Hnr Hlen Hlo Hc Hp] Hh Hh' Hbd st'.
  assert (bb_pos st'.1 = bb_pos st.1 + 189) as Hpos.
  { destruct st as [b io]. rewrite /st' /bb_pos. cbn. change BIT_INNER_NODE_SIZE with 189. lia. }
  split; [|split; [done|split; [by destruct st|split; [by destruct st|split; [by destruct st|]]]]].
  - split; [|by rewrite /ghost_push !length_insert|by destruct st| |lia].
    + pose proof (nr_ok_lookup _ _ _ _ Hnr Hh) as E1. pose proof (nr_ok_lookup _ _ _ _ Hnr Hh') as E2.
      destruct st as [b io]. cbn. apply Forall2_insert; [apply Forall2_insert; [done|done]|].
      cbn [ctx_push cx_nr]. rewrite /bb_ctx_at E2 length_app /=. lia.
    + destruct st as [b io]. cbn. change BIT_INNER_NODE_SIZE with 189. cbn in Hc. lia.
  - intros i Hi. by apply push_inner_view.
Qed.

(** What carrying full levels upward achieves, at most [fuel] of them. *)
Definition carry_post (lo P0 len : Z) (P : area -> Prop) (E : ghost) (fuel : nat) st st' : Prop :=
  exists E', trees_ok lo P0 len P E' st' /\ bb_shape lo E' st' /\
    (forall j esl, E' !! j = Some esl -> (length esl < 4)%nat) /\
    flat E' = flat E /\ weight E' = weight E /\
    bb_pos st'.1 = bb_pos st.1 + 63 * (open_nodes E - open_nodes E') /\ open_nodes E' <= open_nodes E /\
    bb_pos st'.1 <= bb_pos st.1 + 189 * Z.of_nat fuel /\
    bb_begin st'.1 = bb_begin st.1 /\ bb_meta st'.1 = bb_meta st.1 /\ io_file st'.2 = io_file st.2 /\
    (forall i, i < bb_pos st.1 -> bb_view st' i = bb_view st i).

Lemma carry_stop lo P0 len P E fuel st :
  trees_ok lo P0 len P E st -> bb_shape lo E st ->
  (forall j esl, E !! j = Some esl -> (length esl < 4)%nat) -> carry_post lo P0 len P E fuel st st.
Proof.
  intros Ht Hs Hd. exists E. do 3 (split; [done|]). split; [done|]. split; [done|].
  split; [lia|]. split; [lia|]. split; [lia|]. done.
Qed.

Lemma carry_ok fuel h lo P0 len P E st :
  trees_ok lo P0 len P E st -> bb_shape lo E st -> weight E <= 2 ^ 17 -> (10 <= h + fuel)%nat ->
  (forall j esl, E !! j = Some esl -> (length esl < 4 \/ j = h /\ length esl <= 4)%nat) ->
  P0 + len <= bb_pos st.1 -> bb_pos st.1 + 189 * Z.of_nat fuel <= 2 ^ 62 ->
  carry_post lo P0 len P E fuel st (bit_builder_carry fuel h st).
Proof.
  revert h E st. induction fuel as [|fuel IH] => h E st Ht Hsh Hw Hf Hd HP0 Hbd; cbn [bit_builder_carry].
  { apply carry_stop; [done|done|]. intros j esl Hj. pose proof (lookup_lt_Some _ _ _ Hj) as Hlt.
    rewrite (bs_len _ _ _ Hsh) in Hlt. destruct (Hd j esl Hj) as [?|[-> _]]; [done|lia]. }
  destruct (E !! h) as [esl|] eqn:Hh; last first.
  { rewrite /bb_ctx_at nth_overflow; last first.
    { rewrite (Forall2_length _ _ _ (bs_nr _ _ _ Hsh)). by apply lookup_ge_None. }
    apply carry_stop; [done|done|]. intros j esl Hj.
    destruct (Hd j esl Hj) as [?|[-> _]]; [done|congruence]. }
  pose proof (nr_ok_lookup _ _ _ _ (bs_nr _ _ _ Hsh) Hh) as Hnr. rewrite /bb_ctx_at Hnr.
  destruct (Z.eqb_spec (Z.of_nat (length esl)) DEFAULT_BIT_DEGREE) as [H4|H4]; rewrite /DEFAULT_BIT_DEGREE in H4; last first.
  { apply carry_stop; [done|done|]. intros j ej Hj. destruct (Hd j ej Hj) as [?|[-> Hle]]; [done|].
    rewrite Hh in Hj. injection Hj as <-. lia. }
  assert (h < 9)%nat as Hh9.
  { pose proof (weight_lookup E h esl Hh) as Hwl. rewrite H4 in Hwl.
    pose proof (lookup_lt_Some _ _ _ Hh) as Hlt. rewrite (bs_len _ _ _ Hsh) in Hlt.
    destruct (decide (h = 9)%nat) as [->|]; [|lia]. change (4 ^ Z.of_nat 9) with 262144 in Hwl. lia. }
  destruct (lookup_lt_is_Some_2 E (S h)) as [esl' Hh']; [rewrite (bs_len _ _ _ Hsh); lia|].
  assert (length esl' < 4)%nat as Hl' by (destruct (Hd _ _ Hh') as [?|[? _]]; [done|lia]).
  destruct (push_inner_shape lo E st h esl esl' Hsh Hh Hh' ltac:(lia)) as (Hsh1 & Hpos1 & Hb1 & Hm1 & Hf1 & Hv1).
  pose proof (push_inner_ok lo P0 len P E st h esl esl' Ht Hh Hh' ltac:(lia) Hl'
    (bs_lo _ _ _ Hsh) (bs_cur _ _ _ Hsh) HP0 ltac:(lia)) as Ht1.
  pose proof (open_push E h esl esl' Hh Hh') as Hop. pose proof (weight_push E h esl esl' Hh Hh') as Hwp.
  rewrite H4 Z.sub_diag Z.mul_0_r Z.add_0_r in Hwp.
  destruct (IH (S h) (ghost_push h esl esl' E) (bit_builder_push_inner h st)) as
    (E' & H1 & H2 & H3 & Hfl & Hwt & H5 & H6 & H7 & H8 & H9 & H10 & H11); [done|done|lia|lia| |lia|lia|].
  { intros j ej Hj. rewrite /ghost_push !list_lookup_insert in Hj.
    case_decide as Hd1; [destruct Hd1 as [<- _]; injection Hj as <-; rewrite length_app /=; right; split; [done|lia]|].
    case_decide as Hd2; [injection Hj as <-; simpl; left; lia|]. left.
    destruct (Hd j ej Hj) as [?|[-> _]]; [done|]. exfalso. apply Hd2. split; [done|].
    by eapply lookup_lt_Some. }
  exists E'. split; [done|]. split; [done|]. split; [done|]. split; [by rewrite Hfl (flat_push E h esl esl')|].
  split; [lia|]. split; [lia|]. split; [lia|]. split; [lia|]. split; [congruence|]. split; [congruence|].
  split; [congruence|]. intros i Hi. rewrite H11; [by apply Hv1|lia].
Qed.

(** ** Flushing *)
Lemma flush_ok st :
  0 <= bb_cur st.1 -> bb_height st.1 = 10 ->
  let st' := bit_builder_buffer_flush_if_full st in
  bb_pos st'.1 = bb_pos st.1 /\ bb_begin st.1 <= bb_begin st'.1 /\ 0 <= bb_cur st'.1 /\
  bb_cur st'.1 + 5090 <= DEFAULT_LSM_FILE_BUILDER_BUFFER_SIZE /\
  bb_meta st'.1 = bb_meta st.1 /\ bb_ctx st'.1 = bb_ctx st.1 /\
  (forall i, bb_view st' i = bb_view st i) /\
  bb_begin st'.1 = (if bb_buffer_full st.1 then bb_pos st.1 else bb_begin st.1) /\
  (forall i, i < bb_begin st.1 \/ bb_pos st.1 <= i -> io_file st'.2 i = io_file st.2 i).
Proof.
  destruct st as [b io]. cbn [fst snd]. intros Hc Hh. rewrite /bit_builder_buffer_flush_if_full /bb_buffer_full Hh.
  destruct (Z.ltb_spec DEFAULT_LSM_FILE_BUILDER_BUFFER_SIZE (bb_cur b + 10 * BIT_NODE_SIZE)) as [Hfull|Hnot];
    change (10 * BIT_NODE_SIZE) with 5090 in *; last first.
  { cbn [fst snd]. split; [done|]. split; [lia|]. split; [done|]. split; [lia|]. done. }
  cbn [fst snd]. rewrite /bb_pos. cbn [bb_set_buf bb_begin bb_cur].
  split; [lia|]. split; [lia|]. split; [lia|]. split; [by vm_compute|]. split; [done|]. split; [done|].
  split.
  - intros i. rewrite /bb_view /bb_pos. cbn [fst snd bb_set_buf bb_begin bb_cur bb_buffer io_write io_file].
    rewrite Z.add_0_r.
    replace (_ && (i <? bb_begin b + bb_cur b)) with false; last first.
    { destruct (Z.leb_spec (bb_begin b + bb_cur b) i), (Z.ltb_spec i (bb_begin b + bb_cur b)); done || lia. }
    destruct (Z.leb_spec (bb_begin b) i), (Z.ltb_spec i (bb_begin b + bb_cur b)); simpl.
    all: try (apply area_write_out; rewrite length_area_read; lia).
    rewrite area_copy_in; [|lia]. f_equal; lia.
  - split; [done|]. intros i Hi. cbn [io_write io_file]. apply area_write_out. rewrite length_area_read. lia.
Qed.

(** ** A full leaf *)
Definition leaf_pending v (lo : Z) (p : bit_pointer) (es : list ent) : Prop :=
  exists l, node_at v lo (bp_pos p + 509) p (BitLeaf l) /\ bl_nr_record l = BIT_LEAF_LEN /\ leaf_entries l = es.

Lemma leaf_last_key l :
  bl_nr_record l = BIT_LEAF_LEN -> bit_node_wf (BitLeaf l) ->
  node_last_key (BitLeaf l) = last_key (leaf_entries l) /\ leaf_entries l <> [] /\
  0 <= last_key (leaf_entries l) < 2 ^ 32.
Proof.
  intros Hn (_ & (Hk & Hkf) & (Hr & _) & _). cbn [fst snd] in *.
  rewrite /node_last_key Hn /leaf_entries. change (Z.to_nat (BIT_LEAF_LEN - 1)) with 7%nat.
  change (Z.to_nat BIT_LEAF_LEN) with 8%nat in *.
  destruct (bl_keys l) as [|k0 [|k1 [|k2 [|k3 [|k4 [|k5 [|k6 [|k7 [|]]]]]]]]]; try done.
  destruct (bl_records l) as [|r0 [|r1 [|r2 [|r3 [|r4 [|r5 [|r6 [|r7 [|]]]]]]]]]; try done.
  split; [done|]. split; [done|]. rewrite /last_key. simpl.
  by do 7 apply Forall_cons in Hkf as [_ Hkf]; apply Forall_cons in Hkf as [? _].
Qed.

Definition push_leaf (b : bit_builder) (p : bit_pointer) : bit_builder :=
  bb_set_ctx (<[0%nat := ctx_push (BitLeaf (bb_cur_leaf b)) p (bb_ctx_at 0 b)]> (bb_ctx b))
    (bb_set_buf (bb_begin b) (bb_cur b + BIT_LEAF_NODE_SIZE) (bb_buffer b) b).

Lemma push_leaf_ok lo E b io esl p es :
  trees_ok lo 0 0 (fun _ => True) E (b, io) -> bb_shape lo E (b, io) -> E !! 0%nat = Some esl ->
  (length esl < 4)%nat -> bp_pos p = bb_pos b -> cwf bit_pointer_codec p ->
  bl_nr_record (bb_cur_leaf b) = BIT_LEAF_LEN -> bit_node_wf (BitLeaf (bb_cur_leaf b)) ->
  leaf_entries (bb_cur_leaf b) = es -> leaf_pred p es -> bb_pos b + 509 <= 2 ^ 62 ->
  trees_ok lo (bb_pos b) 509 (fun v => leaf_pending v lo p es) (<[0%nat := esl ++ [es]]> E) (push_leaf b p, io) /\
  bb_shape lo (<[0%nat := esl ++ [es]]> E) (push_leaf b p, io).
Proof.
  intros Ht [Hnr Hlen Hlo Hc Hp] He Hl Hpp Hpwf Hfull Hwf Hes Hlp Hbd. cbn [fst snd] in *.
  destruct (leaf_last_key _ Hfull Hwf) as (Hlk & Hne & Hr). rewrite Hes in Hlk Hne Hr.
  assert (bb_pos (push_leaf b p) = bb_pos b + 509) as Hpos.
  { rewrite /bb_pos /push_leaf. cbn. change BIT_LEAF_NODE_SIZE with 509. lia. }
  split; last first.
  { split; cbn [fst]; [|by rewrite length_insert|done| |lia].
    - pose proof (nr_ok_lookup _ _ _ _ Hnr He) as E0. apply Forall2_insert; [done|].
      cbn [ctx_push cx_nr]. rewrite /bb_ctx_at E0 length_app /=. lia.
    - rewrite /push_leaf. cbn. change BIT_LEAF_NODE_SIZE with 509. lia. }
  intros v Hag (l' & Hn' & Hnr' & He').
  assert (ctx_ok v lo (bb_pos b) (bb_ctx b) E) as [HE Hctx].
  { apply Ht; [|done]. intros i Hi _. cbn [fst] in Hi. rewrite Hag; [|cbn [fst]; lia|lia].
    rewrite /bb_view. cbn [fst snd push_leaf bb_set_ctx bb_set_buf bb_begin bb_buffer].
    rewrite -/(push_leaf b p) Hpos. destruct (Z.leb_spec (bb_begin b) i); [|done].
    do 2 ztest. done. }
  assert (slot_ok v lo (bb_pos b + 509) 0 p (BitLeaf (bb_cur_leaf b)) es) as Hslot.
  { split; [|done]. exists l'. rewrite -Hpp. done. }
  cbn [fst] in *. rewrite Hpos. cbn [push_leaf bb_set_ctx bb_ctx].
  destruct (lookup_lt_is_Some_2 (bb_ctx b) 0) as [c Hcx]; [apply lookup_lt_Some in He; lia|].
  assert (bb_ctx_at 0 b = c) as -> by (by rewrite /bb_ctx_at nth_lookup Hcx).
  split; [by rewrite !length_insert|]. intros j cj ej Hj Hej.
  destruct (decide (j = 0)%nat) as [->|Hne0].
  - rewrite list_lookup_insert_eq in Hj; [|by eapply lookup_lt_Some].
    rewrite list_lookup_insert_eq in Hej; [|by eapply lookup_lt_Some].
    injection Hj as <-. injection Hej as <-. apply level_ok_push; [|done|done].
    eapply level_ok_mono; [|by eapply Hctx]. lia.
  - rewrite list_lookup_insert_ne // in Hj. rewrite list_lookup_insert_ne // in Hej.
    eapply level_ok_mono; [|by eapply Hctx]. lia.
Qed.

(** ** The current leaf *)
Definition leaf_holds (l : bit_leaf) (tail : list ent) : Prop :=
  bl_nr_record l = Z.of_nat (length tail) /\ (length tail <= 8)%nat /\ bit_node_wf (BitLeaf l) /\
  take (length tail) (leaf_entries l) = tail.

Lemma leaf_append_holds l tail e :
  leaf_holds l tail -> (length tail < 8)%nat -> ent_wf e ->
  leaf_holds (leaf_append e.1 e.2 l) (tail ++ [e]).
Proof.
  intros (Hn & _ & (Hn64 & (Hk & Hkf) & (Hr & Hrf) & Hnx) & Ht) Hl [Hw1 Hw2]. cbn [fst snd] in *.
  rewrite /leaf_append Hn Nat2Z.id. split; [|split; [|split]].
  - cbn [bl_nr_record]. rewrite length_app /=. lia.
  - rewrite length_app /=. lia.
  - split; [|split; [|split; [|done]]]; cbn [fst snd bl_nr_record bl_keys bl_records].
    + change (0 <= Z.of_nat (length tail) + 1 < 2 ^ 64). lia.
    + split; [by rewrite length_insert|]. by apply Forall_insert.
    + split; [by rewrite length_insert|]. by apply Forall_insert.
  - rewrite /leaf_entries. cbn [bl_keys bl_records].
    change (Z.to_nat BIT_LEAF_LEN) with 8%nat in *.
    rewrite -insert_zip_with length_app /=. rewrite Nat.add_1_r.
    assert (length tail < length (leaf_entries l))%nat as Hlt.
    { rewrite /leaf_entries length_zip_with Hk Hr. done. }
    rewrite (take_S_r _ _ (e.1, e.2)); [|rewrite list_lookup_insert_eq; done].
    rewrite take_insert_ge // -/(leaf_entries l) Ht. by destruct e.
Qed.

Lemma leaf_holds_full l tail :
  leaf_holds l tail -> length tail = 8%nat -> bl_nr_record l = BIT_LEAF_LEN /\ leaf_entries l = tail.
Proof.
  intros (Hn & _ & (_ & (Hk & _) & (Hr & _) & _) & Ht) Hl. cbn [fst snd] in *. split; [by rewrite Hn Hl|].
  change (Z.to_nat BIT_LEAF_LEN) with 8%nat in *.
  rewrite -Ht take_ge; [done|]. rewrite /leaf_entries length_zip_with Hk Hr Hl. done.
Qed.

(** Only the index region of the file, from [lo] up to the current position, was written. *)
Definition bb_frame (lo : Z) (file0 : area) st : Prop :=
  forall i, i < lo \/ bb_pos st.1 <= i -> io_file st.2 i = file0 i.

(** Placing the leaf in the hole that was left for it. *)
Lemma fill_hole lo st P0 k w l E :
  let st' := (bb_set_buf (bb_begin st.1) (bb_cur st.1)
                (area_write (P0 - bb_begin st.1) (bit_node_encode (BitLeaf l) k w) (bb_buffer st.1)) st.1, st.2) in
  let p := {| bp_pos := P0; bp_key := k; bp_iv := w |} in
  trees_ok lo P0 509 (fun v => leaf_pending v lo p (leaf_entries l)) E st ->
  bl_nr_record l = BIT_LEAF_LEN -> bit_node_wf (BitLeaf l) ->
  lo <= bb_begin st.1 -> bb_begin st.1 <= P0 -> P0 + 509 <= bb_pos st.1 ->
  trees_ok lo 0 0 (fun _ => True) E st'.
Proof.
  intros st' p Ht Hn Hwf Hlo Hb HP v Hag _.
  pose proof (length_bit_node_encode (BitLeaf l) k w Hwf) as Hlen.
  change (bit_node_size (BitLeaf l)) with 509 in Hlen.
  assert (bb_pos st'.1 = bb_pos st.1) as Hpos by done.
  assert (forall i, lo <= i < bb_pos st.1 -> v i =
    if (bb_begin st.1 <=? i) then area_write P0 (bit_node_encode (BitLeaf l) k w) (bb_view st) i else bb_view st i) as Hv.
  { intros i Hi. rewrite Hag; [|done|lia]. rewrite /bb_view Hpos.
    cbn [st' fst snd bb_set_buf bb_begin bb_buffer].
    destruct (Z.leb_spec (bb_begin st.1) i); [|done]. ztest. cbn [andb].
    rewrite /area_write. replace (i - bb_begin st.1 - (P0 - bb_begin st.1)) with (i - P0) by lia.
    replace (P0 - bb_begin st.1 <=? i - bb_begin st.1) with (P0 <=? i);
      [|destruct (Z.leb_spec P0 i), (Z.leb_spec (P0 - bb_begin st.1) (i - bb_begin st.1)); done || lia].
    replace (i - bb_begin st.1 <? P0 - bb_begin st.1 + Z.of_nat (length (bit_node_encode (BitLeaf l) k w)))
      with (i <? P0 + Z.of_nat (length (bit_node_encode (BitLeaf l) k w)));
      [|destruct (Z.ltb_spec i (P0 + Z.of_nat (length (bit_node_encode (BitLeaf l) k w)))),
          (Z.ltb_spec (i - bb_begin st.1) (P0 - bb_begin st.1 + Z.of_nat (length (bit_node_encode (BitLeaf l) k w)))); done || lia].
    do 2 ztest. done. }
  change (bb_ctx st'.1) with (bb_ctx st.1). rewrite Hpos. apply Ht.
  - intros i Hi Hni. rewrite Hv //. destruct (bb_begin st.1 <=? i); [|done]. apply area_write_out. lia.
  - exists l. split; [|done]. split; [cbn [p bp_pos]; lia|]. split; [cbn [p bp_pos]; by change (bit_node_size (BitLeaf l)) with 509|].
    split; [done|]. change (bit_node_size (BitLeaf l)) with 509. cbn [p bp_pos bp_key bp_iv].
    rewrite -{1}(area_read_write_eq P0 (bit_node_encode (BitLeaf l) k w) (bb_view st)).
    replace (length (bit_node_encode (BitLeaf l) k w)) with (Z.to_nat 509) by lia.
    apply area_read_ext => i Hi. rewrite Hv; [|lia]. by ztest.
Qed.

(** The pointer the current leaf will be reached by. *)
Definition bb_leaf_ptr b : bit_pointer :=
  {| bp_pos := bb_pos b; bp_key := bb_next_key b; bp_iv := bb_next_iv b |}.

(** [emit_leaf], stage by stage. *)
Lemma emit_leaf_unfold st :
  bb_height st.1 = 10 -> 0 <= bb_cur st.1 ->
  exists st3 k w,
    let st1 := bit_builder_buffer_flush_if_full st in
    let p := bb_leaf_ptr st.1 in
    let leaf := leaf_set_next {| bp_pos := bb_pos st3.1; bp_key := k; bp_iv := w |} (bb_cur_leaf st.1) in
    st3 = bit_builder_carry 10 0 (push_leaf st1.1 p, st1.2) /\
    length k = AES_GCM_KEY_SIZE /\ length w = AES_GCM_IV_SIZE /\
    bit_builder_emit_leaf st =
      (bb_set_next k w (leaf_set_nr 0 (bb_cur_leaf st3.1))
         (bb_set_buf (bb_begin st3.1) (bb_cur st3.1)
            (area_write (bb_cur st1.1) (bit_node_encode (BitLeaf leaf) (bp_key p) (bp_iv p)) (bb_buffer st3.1)) st3.1),
       {| io_file := io_file st3.2; io_rng := S (S (io_rng st3.2)) |}).
Proof.
  intros Hh Hc. destruct (flush_ok st Hc Hh) as (_ & _ & _ & _ & Hm & _).
  rewrite /bb_meta in Hm. assert (bb_height (bit_builder_buffer_flush_if_full st).1 = 10) as Hh1 by congruence.
  assert (bb_cur_leaf (bit_builder_buffer_flush_if_full st).1 = bb_cur_leaf st.1) as Hl1 by congruence.
  rewrite /bit_builder_emit_leaf.
  change {| bp_pos := bb_begin st.1 + bb_cur st.1; bp_key := bb_next_key st.1; bp_iv := bb_next_iv st.1 |}
    with (bb_leaf_ptr st.1).
  destruct (bit_builder_buffer_flush_if_full st) as [b1 io1].
  cbn [fst snd] in *. rewrite /push_leaf Hl1.
  cbn [bb_set_ctx bb_set_buf bb_height]. rewrite Hh1. change (Z.to_nat 10) with 10%nat.
  match goal with |- context [bit_builder_carry 10 0 ?s] => destruct (bit_builder_carry 10 0 s) as [b3 io3] eqn:E3 end.
  exists (b3, io3), (rng_bytes (io_rng io3) AES_GCM_KEY_SIZE), (rng_bytes (S (io_rng io3)) AES_GCM_IV_SIZE).
  split; [by rewrite -E3|]. split; [apply rng_bytes_length|]. split; [apply rng_bytes_length|]. reflexivity.
Qed.

(** What stays the same while a leaf is emitted. *)
Definition bb_ids b :=
  (bb_has_first_key b, bb_first_key b, bb_last_key b, bb_height b, bb_id b, bb_level b, bb_version b,
   bb_filter b, bb_size b).

Definition emit_post (lo : Z) (file0 : area) (E : ghost) (es : list ent) st st' : Prop :=
  exists E', trees_ok lo 0 0 (fun _ => True) E' st' /\ bb_shape lo E' st' /\
    (forall j esl, E' !! j = Some esl -> (length esl < 4)%nat) /\
    flat E' = flat E ++ es /\ weight E' = weight E + 1 /\
    bb_pos st'.1 = bb_pos st.1 + 509 + 63 * (open_nodes E + 1 - open_nodes E') /\
    bb_cur st'.1 <= DEFAULT_LSM_FILE_BUILDER_BUFFER_SIZE /\ bb_frame lo file0 st' /\
    bb_begin st'.1 = (if bb_buffer_full st.1 then bb_pos st.1 else bb_begin st.1) /\
    bb_ids st'.1 = bb_ids st.1 /\ bb_cur_leaf st'.1 = leaf_set_nr 0 (bb_cur_leaf st.1) /\
    length (bb_next_key st'.1) = AES_GCM_KEY_SIZE /\ length (bb_next_iv st'.1) = AES_GCM_IV_SIZE.

Lemma ghost_push_leaf E esl es :
  E !! 0%nat = Some esl ->
  flat (<[0%nat := esl ++ [es]]> E) = flat E ++ es /\ weight (<[0%nat := esl ++ [es]]> E) = weight E + 1 /\
  open_nodes (<[0%nat := esl ++ [es]]> E) = open_nodes E + 1.
Proof.
  destruct E as [|x E]; [done|]. intros [= ->]. cbn [insert list_insert flat weight open_nodes].
  rewrite concat_app length_app /= app_nil_r app_assoc. split; [done|]. lia.
Qed.

Lemma emit_leaf_ok lo file0 E st es :
  trees_ok lo 0 0 (fun _ => True) E st -> bb_shape lo E st -> bb_height st.1 = 10 ->
  (forall j esl, E !! j = Some esl -> (length esl < 4)%nat) -> weight E < 2 ^ 17 ->
  leaf_holds (bb_cur_leaf st.1) es -> length es = 8%nat -> leaf_pred (bb_leaf_ptr st.1) es ->
  length (bb_next_key st.1) = AES_GCM_KEY_SIZE -> length (bb_next_iv st.1) = AES_GCM_IV_SIZE ->
  bb_frame lo file0 st -> bb_pos st.1 + 2399 <= 2 ^ 62 ->
  emit_post lo file0 E es st (bit_builder_emit_leaf st).
Proof.
  intros Ht Hsh Hh Hd Hw Hleaf Hl8 Hlp Hnk Hni Hfr Hbd. pose proof Hsh as [Hnr Hlen Hlo Hc Hp].
  destruct (leaf_holds_full _ _ Hleaf Hl8) as [Hfull Hes]. destruct Hleaf as (_ & _ & Hlwf & _).
  destruct (emit_leaf_unfold st Hh Hc) as (st3 & k & w & E3 & Hk & Hw' & ->).
  destruct (flush_ok st Hc Hh) as (Hpos1 & Hb1 & Hc1 & Hbuf1 & Hm1 & Hctx1 & Hview1 & Hbeg1 & Hfile1).
  destruct (bit_builder_buffer_flush_if_full st) as [b1 io1]. cbn [fst snd] in *.
  assert (bb_cur_leaf b1 = bb_cur_leaf st.1 /\ bb_ids b1 = bb_ids st.1) as [Hl1 Hi1].
  { rewrite /bb_meta in Hm1. rewrite /bb_ids. split; congruence. }
  set (p := bb_leaf_ptr st.1) in *.
  destruct (lookup_lt_is_Some_2 E 0) as [esl He0]; [lia|].
  destruct (push_leaf_ok lo E b1 io1 esl p es) as [Ht2 Hsh2]; try done.
  { intros va Hag _. cbn [fst]. rewrite Hctx1 Hpos1. apply Ht; [|done].
    intros i Hi Hn. rewrite -Hview1. apply Hag; [cbn [fst]; lia|done]. }
  { split; cbn [fst]; [by rewrite Hctx1|done|lia|done|lia]. }
  { by eapply Hd. }
  { split; [|split; done]. change (0 <= bb_pos st.1 < 2 ^ 64). rewrite /bb_pos in Hbd |- *. lia. }
  { by rewrite Hl1. }
  { by rewrite Hl1. }
  { by rewrite Hl1. }
  { lia. }
  destruct (ghost_push_leaf E esl es He0) as (Hfl2 & Hw2 & Ho2).
  assert (bb_pos (push_leaf b1 p) = bb_pos st.1 + 509) as Hpos2.
  { rewrite -Hpos1 /bb_pos /push_leaf. cbn. change BIT_LEAF_NODE_SIZE with 509. lia. }
  destruct (carry_ok 10 0 lo (bb_pos b1) 509 _ _ _ Ht2 Hsh2) as
    (E' & Ht3 & Hsh3 & Hd3 & Hfl3 & Hw3 & Hpos3 & Ho3 & Hub3 & Hb3 & Hm3 & Hf3 & Hv3); cbn [fst snd] in *; try lia.
  { intros j ej Hj. rewrite list_lookup_insert in Hj. case_decide as Hj0.
    - destruct Hj0 as [<- _]. injection Hj as <-. right. split; [done|]. rewrite length_app /=. pose proof (Hd _ _ He0). lia.
    - left. by eapply Hd. }
  rewrite -E3 in Ht3 Hsh3 Hpos3 Hub3 Hb3 Hm3 Hf3 Hv3. clear E3.
  exists E'. rewrite Hfl3 Hfl2 Hw3 Hw2.
  set (leaf := leaf_set_next {| bp_pos := bb_pos st3.1; bp_key := k; bp_iv := w |} (bb_cur_leaf st.1)).
  assert (bit_node_wf (BitLeaf leaf)) as Hwf'.
  { destruct Hlwf as (W1 & W2 & W3 & W4). do 3 (split; [done|]). split; [|split; done].
    change (0 <= bb_pos st3.1 < 2 ^ 64). rewrite /bb_pos. destruct Hsh3. rewrite /bb_pos in bs_pos0. lia. }
  assert (bb_cur_leaf st3.1 = bb_cur_leaf st.1 /\ bb_ids st3.1 = bb_ids st.1) as [Hl3 Hi3].
  { rewrite -Hl1 -Hi1. change (bb_meta (push_leaf b1 p)) with (bb_meta b1) in Hm3.
    rewrite /bb_meta in Hm3. rewrite /bb_ids. split; congruence. }
  change (bb_begin (push_leaf b1 p)) with (bb_begin b1) in Hb3.
  split; [|split; [|split; [done|split; [done|split; [done|]]]]].
  - assert (bb_cur b1 = bb_pos b1 - bb_begin st3.1) as -> by (rewrite Hb3 /bb_pos; lia).
    apply (fill_hole lo st3 (bb_pos b1) (bp_key p) (bp_iv p) leaf E'); try done.
    + change (leaf_entries leaf) with (leaf_entries (bb_cur_leaf st.1)). rewrite Hes.
      assert ({| bp_pos := bb_pos b1; bp_key := bp_key p; bp_iv := bp_iv p |} = p) as -> by (by rewrite Hpos1).
      exact Ht3.
    + rewrite Hb3. lia.
    + rewrite Hb3 /bb_pos. lia.
    + lia.
  - destruct Hsh3. by split.
  - split; [change (bb_pos st3.1 = bb_pos st.1 + 509 + 63 * (open_nodes E + 1 - open_nodes E')); lia|].
    split; [change (bb_cur st3.1 <= DEFAULT_LSM_FILE_BUILDER_BUFFER_SIZE)|].
    + assert (bb_begin st3.1 + bb_cur st3.1 = bb_pos st3.1) by done.
      assert (bb_begin b1 + bb_cur b1 = bb_pos b1) by done. lia.
    + split; [|split; [change (bb_begin st3.1 = if bb_buffer_full st.1 then bb_pos st.1 else bb_begin st.1); by rewrite Hb3|
        split; [exact Hi3|split; [by rewrite /= Hl3|done]]]].
      intros i Hi. change (io_file _) with (io_file st3.2). rewrite Hf3 Hfile1; [apply Hfr|].
      * change (bb_pos _) with (bb_pos st3.1) in Hi. lia.
      * change (bb_pos _) with (bb_pos st3.1) in Hi. destruct Hi; [left; lia|right; lia].
Qed.

(** ** The invariant between entries: [full] is in the tree, [tail] in the
    current leaf *)
Definition bb_keys_ok b (es : list ent) : Prop :=
  bb_has_first_key b = negb (bool_decide (es = [])) /\
  (es <> [] -> bb_first_key b = default 0 (fst <$> head es) /\ bb_last_key b = last_key es) /\
  bb_size b = Z.of_nat (length es) /\
  bb_filter b = foldl bloom_filter_add bit_bloom_filter_create ((fun e => le_enc 4 e.1) <$> es).

Record bb_inv (lo : Z) (file0 : area) (E : ghost) (full tail : list ent) st : Prop := {
  iv_trees : trees_ok lo 0 0 (fun _ => True) E st;
  iv_shape : bb_shape lo E st;
  iv_digits : forall j esl, E !! j = Some esl -> (length esl < 4)%nat;
  iv_flat : flat E = full;
  iv_weight : Z.of_nat (length full) = 8 * weight E;
  iv_pos : bb_pos st.1 = lo + 572 * weight E - 63 * open_nodes E;
  iv_begin : bb_begin st.1 = lo + sim_begin (Z.to_nat (weight E));
  iv_height : bb_height st.1 = 10;
  iv_cur : bb_cur st.1 <= DEFAULT_LSM_FILE_BUILDER_BUFFER_SIZE;
  iv_leaf : leaf_holds (bb_cur_leaf st.1) tail;
  iv_tail : (length tail < 8)%nat;
  iv_next : length (bb_next_key st.1) = AES_GCM_KEY_SIZE /\ length (bb_next_iv st.1) = AES_GCM_IV_SIZE;
  iv_keys : bb_keys_ok st.1 (full ++ tail);
  iv_frame : bb_frame lo file0 st
}.

Lemma sim_buffer_full lo E b :
  bb_pos b = lo + 572 * weight E - 63 * open_nodes E -> bb_begin b = lo + sim_begin (Z.to_nat (weight E)) ->
  bb_height b = 10 -> length E = 10%nat -> (forall j esl, E !! j = Some esl -> (length esl < 4)%nat) ->
  bb_buffer_full b = sim_full (Z.to_nat (weight E)).
Proof.
  intros Hp Hb Hh Hl Hd. rewrite /bb_buffer_full /sim_full /sim_test Hh. change (10 * BIT_NODE_SIZE) with 5090.
  rewrite Z2Nat.id; [|apply weight_nonneg]. rewrite (open_dsum 10 E Hl Hd) in Hp.
  f_equal. rewrite /sim_pos. rewrite /bb_pos in Hp. lia.
Qed.

Lemma bb_note_keys b es e leaf :
  bb_keys_ok b es ->
  bb_keys_ok (bb_set_next (bb_next_key b) (bb_next_iv b) leaf (bb_note_entry e.1 b)) (es ++ [e]).
Proof.
  intros (Hh & Hk & Hs & Hf). rewrite /bb_keys_ok. cbn [bb_set_next bb_note_entry bb_has_first_key bb_first_key bb_last_key bb_size bb_filter].
  split; [by destruct es|]. split; [|split].
  - intros _. rewrite last_key_snoc Hh. destruct es as [|x es]; [done|].
    destruct (Hk ltac:(done)) as [-> _]. done.
  - rewrite Hs length_app /=. lia.
  - by rewrite Hf fmap_app foldl_app.
Qed.

Lemma leaf_reset_holds l : bit_node_wf (BitLeaf l) -> leaf_holds (leaf_set_nr 0 l) [].
Proof.
  intros (W1 & W2 & W3 & W4). split; [done|]. split; [simpl; lia|]. split; [|done].
  split; [|by split]. change (0 <= 0 < 2 ^ 64). lia.
Qed.

Lemma add_entry_ok lo file0 E full tail st e :
  bb_inv lo file0 E full tail st -> ent_wf e -> weight E < 2 ^ 17 -> lo <= 2 ^ 61 ->
  (length tail = 7%nat -> leaf_pred (bb_leaf_ptr st.1) (tail ++ [e])) ->
  exists E' full' tail',
    bb_inv lo file0 E' full' tail' (bit_builder_add_entry (__entry e.1 e.2) st) /\
    full' ++ tail' = full ++ tail ++ [e] /\
    Z.of_nat (length full') = Z.of_nat (length (full ++ tail ++ [e])) / 8 * 8.
Proof.
  intros [Ht Hsh Hd Hfl Hw Hpos Hbg Hh Hc Hl Htl Hnx Hk Hfr] [He1 He2] Hwlt Hlo Hlp.
  destruct st as [b io]. cbn [fst snd] in *.
  rewrite /bit_builder_add_entry. cbn [__entry e_key e_val]. rewrite u32_small //.
  change (bb_cur_leaf (bb_note_entry e.1 b)) with (bb_cur_leaf b).
  change (bb_next_key (bb_note_entry e.1 b)) with (bb_next_key b).
  change (bb_next_iv (bb_note_entry e.1 b)) with (bb_next_iv b).
  pose proof (leaf_append_holds _ tail e Hl Htl (conj He1 He2)) as Hl'.
  set (leaf := leaf_append e.1 e.2 (bb_cur_leaf b)) in *.
  pose proof (bb_note_keys b (full ++ tail) e leaf Hk) as Hk'.
  set (b1 := bb_set_next (bb_next_key b) (bb_next_iv b) leaf (bb_note_entry e.1 b)) in *.
  pose proof Hl' as (Hln & _). rewrite length_app in Hln. cbn [length] in Hln. rewrite Hln.
  rewrite -app_assoc in Hk'. rewrite !length_app. cbn [length].
  destruct (Z.ltb_spec (Z.of_nat (length tail + 1)) BIT_LEAF_LEN) as [Hlt|Hge]; change BIT_LEAF_LEN with 8 in *.
  - exists E, full, (tail ++ [e]). split; [|split; [done|]].
    + destruct Hsh. split; try done. rewrite length_app /=. lia.
    + replace (Z.of_nat (length full + (length tail + 1))) with (Z.of_nat (length tail + 1) + weight E * 8) by lia.
      rewrite Z.div_add // Z.div_small; lia.
  - assert (length (tail ++ [e]) = 8%nat) as Hl8 by (rewrite length_app /=; lia).
    pose proof (open_nonneg E) as Hon.
    destruct (emit_leaf_ok lo file0 E (b1, io) (tail ++ [e])) as
      (E' & Ht' & Hsh' & Hd' & Hfl' & Hw' & Hpos' & Hc' & Hfr' & Hbg' & Hids & Hcl & Hnk' & Hni'); try done.
    { destruct Hsh. by split. }
    { apply (Hlp ltac:(rewrite length_app /= in Hl8; lia)). }
    { by destruct Hnx. }
    { by destruct Hnx. }
    { cbn [fst]. change (bb_pos b1) with (bb_pos b). pose proof (weight_nonneg E). lia. }
    exists E', (full ++ tail ++ [e]), []. rewrite app_nil_r. split; [|split; [done|]].
    + split; try done.
      * by rewrite Hfl' Hfl.
      * rewrite length_app Hl8. lia.
      * rewrite Hpos'. change (bb_pos (b1, io).1) with (bb_pos b). lia.
      * rewrite Hbg' Hw'. cbn [fst].
        change (bb_buffer_full b1) with (bb_buffer_full b). change (bb_pos b1) with (bb_pos b).
        change (bb_begin b1) with (bb_begin b).
        rewrite (sim_buffer_full lo E b Hpos Hbg Hh (bs_len _ _ _ Hsh) Hd).
        pose proof (weight_nonneg E). replace (Z.to_nat (weight E + 1)) with (S (Z.to_nat (weight E))) by lia.
        rewrite sim_begin_S Z2Nat.id //. destruct (sim_full _); [|done].
        rewrite Hpos (open_dsum 10) //; [rewrite /sim_pos; lia|exact (bs_len _ _ _ Hsh)].
      * rewrite /bb_ids in Hids. change (bb_height (b1, io).1) with (bb_height b) in Hids. congruence.
      * rewrite Hcl. apply leaf_reset_holds. by destruct Hl' as (_ & _ & ? & _).
      * simpl. lia.
      * rewrite app_nil_r. cbn [fst] in Hids. rewrite /bb_ids in Hids. rewrite /bb_keys_ok.
        destruct Hk' as (K1 & K2 & K3 & K4). injection Hids as -> -> -> _ _ _ _ -> ->. done.
    + rewrite !length_app. rewrite length_app in Hl8. cbn [length] in Hl8 |- *.
      replace (Z.of_nat (length full + (length tail + 1))) with ((weight E + 1) * 8) by lia.
      rewrite Z.div_mul; lia.
Qed.

Lemma zero_leaf_wf : bit_node_wf (BitLeaf zero_leaf).
Proof.
  split; [change (0 <= 0 < 2 ^ 64); lia|]. split; [|split].
  - split; [by rewrite length_replicate|]. apply Forall_replicate. change (0 <= 0 < 2 ^ 32). lia.
  - split; [by rewrite length_replicate|]. apply Forall_replicate.
    split; [change (0 <= 0 < 2 ^ 64); lia|done].
  - split; [change (0 <= 0 < 2 ^ 64); lia|done].
Qed.

Lemma create_ok lo id level version garbage io :
  0 <= lo <= 2 ^ 61 ->
  bb_inv lo (io_file io) (replicate 10 []) [] [] (bit_builder_create lo id level version garbage io).
Proof.
  intros Hlo. rewrite /bit_builder_create. cbn [fresh_key_iv].
  assert (__bit_height DEFAULT_LSM_FILE_CAPACITY DEFAULT_BIT_DEGREE = 10) as -> by (by vm_compute).
  change (Z.to_nat 10) with 10%nat.
  split; cbn [fst snd bb_ctx bb_begin bb_cur bb_pos bb_height bb_cur_leaf bb_next_key bb_next_iv].
  - intros v _ _. split; [by rewrite !length_replicate|]. intros h c esl Hc He. cbn [fst bb_ctx] in Hc.
    apply lookup_replicate in Hc as [-> _]. apply lookup_replicate in He as [-> _].
    by split_and!.
  - split; cbn [fst bb_ctx bb_begin bb_cur]; try lia; [|done|].
    + apply Forall2_replicate. done.
    + rewrite /bb_pos. cbn. lia.
  - intros j esl Hj. apply lookup_replicate in Hj as [-> _]. simpl. lia.
  - done.
  - done.
  - change (weight (replicate 10 [])) with 0. change (open_nodes (replicate 10 [])) with 0. rewrite /bb_pos. cbn. lia.
  - change (lo = lo + 0). lia.
  - done.
  - by vm_compute.
  - split; [done|]. split; [simpl; lia|]. split; [apply zero_leaf_wf|done].
  - simpl. lia.
  - split; apply rng_bytes_length.
  - done.
  - intros i _. done.
Qed.

(** The whole loop over the entries. *)
Definition bit_builder_add_all (es : list ent) st : bb_state :=
  foldl (fun st e => bit_builder_add_entry (__entry e.1 e.2) st) st es.

Lemma carry_meta fuel h st : bb_meta (bit_builder_carry fuel h st).1 = bb_meta st.1.
Proof.
  revert h st. induction fuel as [|fuel IH] => h st; [done|]. cbn [bit_builder_carry].
  case_match; [|done]. rewrite IH. by destruct st.
Qed.

Lemma add_entry_ids e st :
  let b := (bit_builder_add_entry e st).1 in
  bb_id b = bb_id st.1 /\ bb_level b = bb_level st.1 /\ bb_version b = bb_version st.1.
Proof.
  destruct st as [b io]. rewrite /bit_builder_add_entry. case_match; [done|].
  rewrite /bit_builder_emit_leaf /bit_builder_buffer_flush_if_full. cbn [fst].
  destruct (bb_buffer_full _); match goal with |- context [bit_builder_carry ?n ?h ?s] =>
    pose proof (carry_meta n h s) as Hm; destruct (bit_builder_carry n h s) as [b3 io3] end;
    cbn [fst] in Hm |- *; rewrite /bb_meta in Hm; injection Hm as _ _ _ _ Hi Hl Hv _ _ _ _ _;
    exact (conj Hi (conj Hl Hv)).
Qed.

Lemma add_all_ids es st :
  let b := (bit_builder_add_all es st).1 in
  bb_id b = bb_id st.1 /\ bb_level b = bb_level st.1 /\ bb_version b = bb_version st.1.
Proof.
  revert st. induction es as [|e es IH] => st; [done|]. cbn [bit_builder_add_all foldl].
  destruct (add_entry_ids (__entry e.1 e.2) st) as (<- & <- & <-). apply IH.
Qed.

(** ** Closing the open levels *)
Definition root_of st : bit_pointer := nth 0 (cx_pointers (bb_ctx_at 9 st.1)) zero_pointer.

Definition close_post (lo P0 len : Z) (es : list ent) (fuel : nat) st st' : Prop :=
  (forall v, agrees lo P0 len v st' ->
     tree_at v lo (bb_pos st'.1) 9 (root_of st') es /\ cwf bit_pointer_codec (root_of st')) /\
  bp_pos (root_of st') = bb_pos st'.1 - 189 /\ length (bb_ctx st'.1) = 10%nat /\
  bb_pos st.1 <= bb_pos st'.1 <= bb_pos st.1 + 189 * Z.of_nat fuel /\
  bb_begin st'.1 = bb_begin st.1 /\ bb_meta st'.1 = bb_meta st.1 /\ io_file st'.2 = io_file st.2 /\
  (forall i, i < bb_pos st.1 -> bb_view st' i = bb_view st i).

(** The last step: the only open level is [8]. *)
Lemma close_last lo P0 len E st esl :
  trees_ok lo P0 len (fun _ => True) E st -> bb_shape lo E st -> E !! 8%nat = Some esl -> E !! 9%nat = Some [] ->
  (1 <= length esl <= 4)%nat -> (forall j, (j < 8)%nat -> E !! j = Some []) ->
  P0 + len <= bb_pos st.1 -> bb_pos st.1 + 189 <= 2 ^ 62 ->
  close_post lo P0 len (flat E) 1 st (bit_builder_push_inner 8 st).
Proof.
  intros Ht Hsh H8 H9 Hl Hlow HP0 Hbd.
  destruct (push_inner_shape lo E st 8 esl [] Hsh H8 H9 Hbd) as (Hsh1 & Hpos1 & Hb1 & Hm1 & Hf1 & Hv1).
  pose proof (push_inner_ok lo P0 len _ E st 8 esl [] Ht H8 H9 Hl ltac:(simpl; lia)
    (bs_lo _ _ _ Hsh) (bs_cur _ _ _ Hsh) HP0 ltac:(lia)) as Ht1.
  assert (flat E = concat esl) as Hflat.
  { pose proof (bs_len _ _ _ Hsh) as Hlen.
    destruct E as [|e0 [|e1 [|e2 [|e3 [|e4 [|e5 [|e6 [|e7 [|e8 [|e9 [|]]]]]]]]]]]; try done.
    pose proof (Hlow 0%nat ltac:(lia)) as [= ->]. pose proof (Hlow 1%nat ltac:(lia)) as [= ->].
    pose proof (Hlow 2%nat ltac:(lia)) as [= ->]. pose proof (Hlow 3%nat ltac:(lia)) as [= ->].
    pose proof (Hlow 4%nat ltac:(lia)) as [= ->]. pose proof (Hlow 5%nat ltac:(lia)) as [= ->].
    pose proof (Hlow 6%nat ltac:(lia)) as [= ->]. pose proof (Hlow 7%nat ltac:(lia)) as [= ->].
    injection H8 as ->. injection H9 as ->. by rewrite /= !app_nil_r. }
  assert (length (bb_ctx st.1) = 10%nat) as Hcl by (by rewrite (Forall2_length _ _ _ (bs_nr _ _ _ Hsh)) (bs_len _ _ _ Hsh)).
  assert (ghost_push 8 esl [] E !! 9%nat = Some [concat esl]) as HE9.
  { rewrite /ghost_push list_lookup_insert_eq; [done|]. rewrite length_insert. by eapply lookup_lt_Some. }
  pose proof (nr_ok_lookup _ _ _ _ (bs_nr _ _ _ Hsh) H9) as Hnr9. cbn [length] in Hnr9.
  split; [|split; [|split; [|split; [lia|split; [done|split; [done|split; [done|done]]]]]]].
  - intros v Hag. destruct (Ht1 v Hag I) as [_ Hctx].
    destruct (lookup_lt_is_Some_2 (bb_ctx (bit_builder_push_inner 8 st).1) 9) as [c Hc].
    { destruct st. cbn. rewrite !length_insert. cbn in Hcl. lia. }
    destruct (Hctx 9%nat c [concat esl] Hc HE9) as (_ & _ & _ & Hs).
    destruct (Hs 0%nat (concat esl) eq_refl) as (Htree & _ & _ & _ & Hpw & _).
    assert (bb_ctx_at 9 (bit_builder_push_inner 8 st).1 = c) as Hat by (by rewrite /bb_ctx_at nth_lookup Hc).
    rewrite /root_of Hat Hflat. split; [exact Htree|exact Hpw].
  - destruct (lookup_lt_is_Some_2 (bb_ctx st.1) 9) as [c Hc]; [lia|].
    destruct (Ht (bb_view st) ltac:(done) I) as [_ Hctx].
    destruct (Hctx 9%nat c [] Hc H9) as (Hn & Hpl & _ & _).
    assert (bb_ctx_at 9 st.1 = c) as Hat by (by rewrite /bb_ctx_at nth_lookup Hc).
    rewrite Hpos1. destruct st as [b io]. cbn [fst] in *.
    rewrite /root_of /bb_ctx_at. cbn [bit_builder_push_inner fresh_key_iv fst bb_set_ctx bb_ctx].
    rewrite (nth_lookup (<[9%nat := _]> _)) list_lookup_insert_eq; [|rewrite length_insert; lia].
    cbn [default from_option]. rewrite Hat /ctx_push. cbn [cx_pointers]. rewrite Hn.
    change (Z.to_nat (Z.of_nat (length (@nil (list ent))))) with 0%nat.
    rewrite nth_lookup list_lookup_insert_eq; [|lia]. cbn [default from_option bp_pos]. rewrite /bb_pos /id. cbn [bp_pos]. lia.
  - destruct st. cbn. by rewrite !length_insert.
Qed.

Lemma bit_builder_close_S n h st :
  bit_builder_close (S n) h st =
    if cx_nr (bb_ctx_at h st.1) =? 0 then bit_builder_close n (S h) st
    else bit_builder_close n (S h) (bit_builder_push_inner h st).
Proof. done. Qed.

Lemma close_ok fuel h lo P0 len E st :
  trees_ok lo P0 len (fun _ => True) E st -> bb_shape lo E st -> (h + S fuel = 9)%nat ->
  (forall j, (j < h)%nat -> E !! j = Some []) -> E !! 9%nat = Some [] ->
  (forall j esl, E !! j = Some esl -> (length esl < 4 \/ j = h /\ length esl <= 4)%nat) ->
  flat E <> [] -> P0 + len <= bb_pos st.1 -> bb_pos st.1 + 189 * Z.of_nat (S fuel) <= 2 ^ 62 ->
  close_post lo P0 len (flat E) (S fuel) st (bit_builder_close (S fuel) h st).
Proof.
  revert h E st. induction fuel as [|fuel IH] => h E st Ht Hsh Hh Hlow H9 Hd Hne HP0 Hbd;
    rewrite bit_builder_close_S.
  - assert (h = 8)%nat as -> by lia.
    destruct (lookup_lt_is_Some_2 E 8) as [esl H8]; [rewrite (bs_len _ _ _ Hsh); lia|].
    pose proof (nr_ok_lookup _ _ _ _ (bs_nr _ _ _ Hsh) H8) as Hnr. rewrite /bb_ctx_at Hnr.
    assert (esl <> []) as Hesl.
    { intros ->. apply Hne, weight_zero_flat. intros j ej Hj. pose proof (lookup_lt_Some _ _ _ Hj) as Hlt.
      rewrite (bs_len _ _ _ Hsh) in Hlt. destruct (decide (j < 8)%nat) as [Hj8|]; [rewrite (Hlow j Hj8) in Hj; congruence|].
      assert (j = 8 \/ j = 9)%nat as [?|?] by lia; subst j;
        [rewrite H8 in Hj|rewrite H9 in Hj]; by injection Hj. }
    destruct esl as [|es esl]; [done|]. cbn [length] in *. ztest.
    apply (close_last lo P0 len E st (es :: esl)); try done; try lia.
    destruct (Hd _ _ H8) as [?|[_ ?]]; simpl in *; lia.
  - destruct (lookup_lt_is_Some_2 E h) as [esl Hesl]; [rewrite (bs_len _ _ _ Hsh); lia|].
    pose proof (nr_ok_lookup _ _ _ _ (bs_nr _ _ _ Hsh) Hesl) as Hnr. rewrite {1}/bb_ctx_at Hnr.
    destruct esl as [|es esl].
    + cbn [length]. change (Z.of_nat 0 =? 0) with true. cbn iota.
      destruct (IH (S h) E st) as (H1 & H2 & H3 & H4 & H5); try done; try lia.
      * intros j Hj. destruct (decide (j = h)) as [->|]; [done|]. apply Hlow. lia.
      * intros j ej Hj. destruct (Hd j ej Hj) as [?|[-> ?]]; [by left|]. rewrite Hesl in Hj. injection Hj as <-. left. simpl. lia.
      * split; [done|]. split; [done|]. split; [done|]. split; [lia|done].
    + cbn [length]. ztest. destruct (lookup_lt_is_Some_2 E (S h)) as [esl' Hesl']; [rewrite (bs_len _ _ _ Hsh); lia|].
      assert (length esl' < 4)%nat as Hl' by (destruct (Hd _ _ Hesl') as [?|[? _]]; [done|lia]).
      assert (1 <= length (es :: esl) <= 4)%nat as Hl by (destruct (Hd _ _ Hesl) as [?|[_ ?]]; simpl in *; lia).
      destruct (push_inner_shape lo E st h _ _ Hsh Hesl Hesl' ltac:(lia)) as (Hsh1 & Hpos1 & Hb1 & Hm1 & Hf1 & Hv1).
      pose proof (push_inner_ok lo P0 len _ E st h _ _ Ht Hesl Hesl' Hl Hl'
        (bs_lo _ _ _ Hsh) (bs_cur _ _ _ Hsh) HP0 ltac:(lia)) as Ht1.
      pose proof (flat_push E h _ _ Hesl Hesl') as Hfl. rewrite -Hfl in Hne |- *.
      destruct (IH (S h) _ _ Ht1 Hsh1) as (H1 & H2 & H3 & H4 & H5 & H6 & H7 & H8); try done; try lia.
      * intros j Hj. rewrite /ghost_push list_lookup_insert_ne; [|lia].
        destruct (decide (j = h)) as [->|]; [apply list_lookup_insert_eq; by eapply lookup_lt_Some|].
        rewrite list_lookup_insert_ne //. apply Hlow. lia.
      * rewrite /ghost_push list_lookup_insert_ne; [|lia]. rewrite list_lookup_insert_ne //. lia.
      * intros j ej Hj. rewrite /ghost_push !list_lookup_insert in Hj.
        case_decide as Hd1; [destruct Hd1 as [<- _]; injection Hj as <-; rewrite length_app /=; right; split; [done|lia]|].
        case_decide as Hd2; [injection Hj as <-; simpl; left; lia|]. left.
        destruct (Hd j ej Hj) as [?|[-> _]]; [done|]. exfalso. apply Hd2. split; [done|]. by eapply lookup_lt_Some.
      * split; [done|]. split; [done|]. split; [done|]. split; [lia|]. split; [congruence|]. split; [congruence|].
        split; [congruence|]. intros i Hi. rewrite H8; [by apply Hv1|lia].
Qed.

(** ** Completing a file *)

(** The partial leaf gets a slot behind the nodes [ctx[0]] counts. *)
Definition place_partial b (p : bit_pointer) : bit_builder :=
  let c := bb_ctx_at 0 b in
  bb_set_ctx (<[0%nat := {| cx_nr := cx_nr c;
                            cx_pointers := <[Z.to_nat (cx_nr c) := p]> (cx_pointers c);
                            cx_nodes := <[Z.to_nat (cx_nr c) := BitLeaf (bb_cur_leaf b)]> (cx_nodes c) |}]> (bb_ctx b))
    (bb_set_buf (bb_begin b) (bb_cur b + BIT_LEAF_NODE_SIZE) (bb_buffer b) b).

Lemma place_partial_ok lo E b io p :
  trees_ok lo 0 0 (fun _ => True) E (b, io) -> bb_shape lo E (b, io) -> bb_pos b + 509 <= 2 ^ 62 ->
  trees_ok lo (bb_pos b) 509 (fun _ => True) E (place_partial b p, io) /\
  bb_shape lo E (place_partial b p, io) /\ bb_pos (place_partial b p) = bb_pos b + 509.
Proof.
  intros Ht [Hnr Hlen Hlo Hc Hp] Hbd. cbn [fst snd] in *.
  assert (bb_pos (place_partial b p) = bb_pos b + 509) as Hpos.
  { rewrite /bb_pos /place_partial. cbn. change BIT_LEAF_NODE_SIZE with 509. lia. }
  destruct (lookup_lt_is_Some_2 E 0) as [esl He]; [lia|].
  destruct (Forall2_lookup_r _ _ _ _ _ Hnr He) as (c & Hcx & Hcn).
  assert (bb_ctx_at 0 b = c) as Hat by (by rewrite /bb_ctx_at nth_lookup Hcx).
  split; [|split; [|done]]; last first.
  { split; cbn [fst]; [|done|done| |lia].
    - rewrite -(list_insert_id E 0 esl He). apply Forall2_insert; [done|]. cbn [cx_nr]. by rewrite Hat.
    - rewrite /place_partial. cbn. change BIT_LEAF_NODE_SIZE with 509. lia. }
  intros v Hag _.
  assert (ctx_ok v lo (bb_pos b) (bb_ctx b) E) as [HE Hctx].
  { apply Ht; [|done]. intros i Hi _. cbn [fst] in Hi. rewrite Hag; [|cbn [fst]; lia|lia].
    rewrite /bb_view. cbn [fst snd place_partial bb_set_ctx bb_set_buf bb_begin bb_buffer].
    rewrite -/(place_partial b p) Hpos. destruct (Z.leb_spec (bb_begin b) i); [|done]. do 2 ztest. done. }
  cbn [fst]. rewrite Hpos. cbn [place_partial bb_set_ctx bb_ctx]. rewrite Hat.
  split; [by rewrite length_insert|]. intros j cj ej Hj Hej.
  destruct (decide (j = 0)%nat) as [->|Hne0].
  - rewrite list_lookup_insert_eq in Hj; [|by eapply lookup_lt_Some]. injection Hj as <-.
    destruct (Hctx 0%nat c ej Hcx Hej) as (Hn & Hpl & Hnl & Hs).
    split; [done|]. cbn [cx_pointers cx_nodes]. rewrite !length_insert. do 2 (split; [done|]).
    intros i es Hi. pose proof (lookup_lt_Some _ _ _ Hi) as Hlt. rewrite !nth_lookup !list_lookup_insert_ne; [|lia|lia].
    rewrite -!nth_lookup. eapply slot_ok_mono; [|by apply Hs]. lia.
  - rewrite list_lookup_insert_ne // in Hj. eapply level_ok_mono; [|by eapply Hctx]. lia.
Qed.

Definition finish_post (lo : Z) (es : list ent) st st' : Prop :=
  (forall v, agrees lo 0 0 v st' ->
     tree_at v lo (bb_pos st'.1) 9 (root_of st') es /\ cwf bit_pointer_codec (root_of st')) /\
  bp_pos (root_of st') = bb_pos st'.1 - 189 /\
  bb_pos st.1 <= bb_pos st'.1 <= bb_pos st.1 + 2210 /\
  bb_begin st'.1 = bb_begin st.1 /\ bb_ids st'.1 = bb_ids st.1 /\ io_file st'.2 = io_file st.2.

(** The partial leaf's bytes; no tree reaches into them. *)
Lemma fill_partial lo P0 len es fuel st0 st cur data :
  close_post lo P0 len es fuel st0 st -> P0 = bb_begin st.1 + cur -> Z.of_nat (length data) = len ->
  P0 + len <= bb_pos st.1 -> 0 <= cur ->
  let st' := (bb_set_buf (bb_begin st.1) (bb_cur st.1) (area_write cur data (bb_buffer st.1)) st.1, st.2) in
  forall v, agrees lo 0 0 v st' ->
    tree_at v lo (bb_pos st'.1) 9 (root_of st') es /\ cwf bit_pointer_codec (root_of st').
Proof.
  intros (Ht & _) -> Hl Hle Hc st' v Hag.
  change (bb_pos st'.1) with (bb_pos st.1). change (root_of st') with (root_of st). apply Ht.
  intros i Hi Hn. rewrite Hag; [|done|lia]. rewrite /bb_view. cbn [st' fst snd bb_set_buf bb_begin bb_buffer].
  change (bb_pos (bb_set_buf _ _ _ _)) with (bb_pos st.1).
  destruct (Z.leb_spec (bb_begin st.1) i); [|done]. ztest. cbn [andb]. apply area_write_out. lia.
Qed.

Lemma finish_ok lo file0 E full tail st :
  bb_inv lo file0 E full tail st -> full <> [] -> weight E <= 2 ^ 17 -> lo <= 2 ^ 61 ->
  bb_buffer_full st.1 = false -> finish_post lo full st (bit_builder_finish st).
Proof.
  intros [Ht Hsh Hd Hfl Hw Hpos _ Hh Hcur Hl Htl Hnx Hk Hfr] Hne Hwle Hlo Hnf.
  pose proof Hsh as [Hnr Hlen _ Hc _]. pose proof (open_nonneg E) as Hon. pose proof (weight_nonneg E) as Hwn.
  destruct (lookup_lt_is_Some_2 E 9) as [e9 H9]; [lia|].
  assert (e9 = []) as ->.
  { pose proof (weight_lookup E 9 e9 H9) as Hwl. change (4 ^ Z.of_nat 9) with 262144 in Hwl.
    destruct e9; [done|]. simpl in Hwl. lia. }
  pose proof (nr_ok_lookup _ _ _ _ Hnr H9) as Hn9. cbn [length] in Hn9.
  destruct st as [b io]. cbn [fst snd] in *. rewrite /bit_builder_finish. cbn [fst snd]. rewrite Hh.
  change (Z.to_nat (10 - 1)) with 9%nat. rewrite {1}/bb_ctx_at Hn9. cbn [Z.of_nat Z.eqb negb].
  rewrite /bit_builder_buffer_flush_if_full Hnf. rewrite -/(bb_pos b) -/(bb_leaf_ptr b).
  destruct (Z.ltb_spec 0 (bl_nr_record (bb_cur_leaf b))) as [Hpart|Hnone].
  - change (bb_set_ctx _ _) with (place_partial b (bb_leaf_ptr b)).
    destruct (place_partial_ok lo E b io (bb_leaf_ptr b) Ht Hsh ltac:(lia)) as (Ht2 & Hsh2 & Hpos2).
    change (bb_height (place_partial b (bb_leaf_ptr b))) with (bb_height b). rewrite Hh.
    change (Z.to_nat (10 - 1)) with 9%nat.
    pose proof (close_ok 8 0 lo (bb_pos b) 509 E _ Ht2 Hsh2 eq_refl ltac:(lia) H9 ltac:(intros; left; by eapply Hd)
      ltac:(congruence) ltac:(cbn [fst]; lia) ltac:(cbn [fst]; lia)) as Hcl. rewrite Hfl in Hcl.
    destruct (bit_builder_close 9 0 _) as [b3 io3] eqn:E3.
    pose proof Hcl as (C1 & C2 & C3 & C4 & C5 & C6 & C7 & C8). cbn [fst snd] in *.
    change (bb_begin (place_partial b (bb_leaf_ptr b))) with (bb_begin b) in C5.
    change (bb_meta (place_partial b (bb_leaf_ptr b))) with (bb_meta b) in C6.
    pose proof Hl as (_ & _ & Hlwf & _).
    pose proof (length_bit_node_encode (BitLeaf (bb_cur_leaf b)) (bp_key (bb_leaf_ptr b)) (bp_iv (bb_leaf_ptr b)) Hlwf) as Hle.
    split; [|split; [exact C2|split; [|split; [exact C5|split]]]].
    + refine (fill_partial lo (bb_pos b) 509 full 9 _ (b3, io3) (bb_cur b) _ Hcl _ Hle _ Hc); cbn [fst].
      * by rewrite C5.
      * lia.
    + change (bb_pos b <= bb_pos b3 <= bb_pos b + 2210). lia.
    + change (bb_ids b3 = bb_ids b). rewrite /bb_meta in C6. rewrite /bb_ids. congruence.
    + done.
  - cbn [fst snd]. rewrite Hh. change (Z.to_nat (10 - 1)) with 9%nat.
    pose proof (close_ok 8 0 lo 0 0 E _ Ht Hsh eq_refl ltac:(lia) H9 ltac:(intros; left; by eapply Hd)
      ltac:(congruence) ltac:(cbn [fst]; rewrite /bb_pos; destruct (bs_lo _ _ _ Hsh); cbn in *; lia) ltac:(cbn [fst]; lia)) as Hcl.
    rewrite Hfl in Hcl. destruct (bit_builder_close 9 0 _) as [b3 io3] eqn:E3.
    destruct Hcl as (C1 & C2 & C3 & C4 & C5 & C6 & C7 & C8). cbn [fst snd] in *.
    split; [exact C1|]. split; [exact C2|]. split; [change (bb_pos b <= bb_pos b3 <= bb_pos b + 2210); lia|]. split; [exact C5|]. split; [|done].
    change (bb_ids b3 = bb_ids b). rewrite /bb_meta in C6. rewrite /bb_ids. congruence.
Qed.

(** ** What a finished file guarantees *)
Definition bit_root (f : bit_file) : bit_pointer :=
  {| bp_pos := bf_root f; bp_key := bf_root_key f; bp_iv := bf_root_iv f |}.

Record bit_file_ok (file : area) (lo hi : Z) (f : bit_file) (es : list ent) : Prop := {
  fo_sorted : ents_sorted es;
  fo_tree : tree_at file lo hi 9 (bit_root f) es;
  fo_filter : forall e, e ∈ es -> bloom_filter_contains (bf_filter f) (le_enc 4 e.1) = true;
  fo_cache : forall k r, bit_leaf_search (bf_cached_leaf f) k = Ok r -> ents_map es !! k = Some r
}.

(** The file stays good as long as its own bytes do. *)
Lemma bit_file_ok_stable file file' lo hi f es :
  bit_file_ok file lo hi f es -> (forall i, lo <= i < hi -> file' i = file i) ->
  bit_file_ok file' lo hi f es.
Proof.
  intros [H1 H2 H3 H4] Hag. split; try done. by eapply tree_at_mono; [| | |exact H2].
Qed.

(** Looking a key up in a finished file. *)
Lemma bit_file_search_ok file lo hi f es k :
  bit_file_ok file lo hi f es ->
  let '(r, f') := bit_file_search file k f in
  r = match ents_map es !! k with Some x => Ok x | None => Err ENODATA end /\
  bit_file_ok file lo hi f' es /\ (exists leaf, f' = bf_set_cached leaf f).
Proof.
  intros Hok. pose proof Hok as [Hs Ht Hf Hc]. rewrite /bit_file_search.
  assert (f = bf_set_cached (bf_cached_leaf f) f) as Hself by (by destruct f).
  destruct (bloom_filter_contains (bf_filter f) (le_enc 4 k)) eqn:Eb; cbn [negb]; last first.
  { split; [|split; [done|by eexists]]. destruct (ents_map es !! k) as [x|] eqn:E; [|done].
    apply elem_of_list_to_map_2 in E. rewrite (Hf _ E) in Eb. done. }
  destruct (bit_leaf_search (bf_cached_leaf f) k) as [r|e] eqn:Ec.
  { rewrite (Hc k r Ec). split; [done|]. split; [done|by eexists]. }
  pose proof (bit_search_from_spec bit_search_fuel file lo hi 9 (bit_root f) es k ltac:(rewrite /bit_search_fuel; lia) Ht Hs) as Hsp.
  rewrite /bit_file_search_leaf. change (9 =? 0)%nat with false in Hsp. cbn [bit_root bp_pos bp_key bp_iv] in Hsp.
  destruct (ents_map es !! k) as [x|] eqn:E.
  - destruct Hsp as (leaf & -> & Hl & Hall & _). rewrite Hl. split; [done|].
    split; [|by exists leaf]. by split.
  - rewrite Hsp. split; [done|]. split; [done|by eexists].
Qed.

Lemma bloom_adds_shape this xs :
  bf_size (foldl bloom_filter_add this xs) = bf_size this /\
  bf_hash_funcs (foldl bloom_filter_add this xs) = bf_hash_funcs this.
Proof. revert this. induction xs as [|x xs IH] => this; [done|]. by destruct (IH (bloom_filter_add this x)). Qed.

Lemma complete_ok lo file0 E full tail st :
  bb_inv lo file0 E full tail st -> full <> [] -> ents_sorted full -> weight E <= 2 ^ 17 -> lo <= 2 ^ 61 ->
  bb_buffer_full st.1 = false ->
  let '(f, io) := bit_builder_complete st in
  exists hi, bit_file_ok (io_file io) lo hi f full /\ lo <= hi /\
    hi + BIT_BLOOM_FILTER_SIZE <= lo + calculate_bit_size DEFAULT_LSM_FILE_CAPACITY DEFAULT_BIT_DEGREE /\
    (forall i, i < lo \/ hi + BIT_BLOOM_FILTER_SIZE <= i -> io_file io i = file0 i) /\
    bf_id f = bb_id st.1 /\ bf_level f = bb_level st.1 /\ bf_version f = bb_version st.1 /\
    bf_first_key f = bb_first_key st.1 /\ bf_last_key f = bb_last_key st.1 /\
    bf_root f = hi - BIT_INNER_NODE_SIZE /\ bf_filter_begin f = hi /\
    bf_cached_leaf f = zero_leaf /\ cwf bit_pointer_codec (bit_root f).
Proof.
  intros Hinv Hne Hs Hw Hlo Hnf.
  destruct (finish_ok lo file0 E full tail st Hinv Hne Hw Hlo Hnf) as (Ht & Hroot & Hpos & Hb & Hids & Hfile).
  rewrite /bit_builder_complete. destruct (bit_builder_finish st) as [b io]. cbn [fst snd] in *.
  destruct Hinv as [_ Hsh _ _ _ Hpos0 _ Hh0 _ _ _ _ (_ & _ & _ & Hflt) Hfr].
  assert (bb_height b = 10) as Hh by (rewrite /bb_ids in Hids; congruence).
  assert (bb_filter b = bb_filter st.1) as Hfb by (rewrite /bb_ids in Hids; congruence).
  rewrite Hh. change (Z.to_nat (10 - 1)) with 9%nat.
  change (nth 0 (cx_pointers (bb_ctx_at 9 b)) zero_pointer) with (root_of (b, io)).
  set (hi := bb_pos b).
  replace (bb_begin b + bb_cur b - BIT_INNER_NODE_SIZE + BIT_INNER_NODE_SIZE) with hi by (rewrite /hi /bb_pos; lia).
  change (bb_begin b + bb_cur b - BIT_INNER_NODE_SIZE) with (hi - BIT_INNER_NODE_SIZE).
  destruct (bloom_adds_shape bit_bloom_filter_create ((fun e => le_enc 4 e.1) <$> (full ++ tail))) as [Hsz Hhf].
  rewrite -Hflt -Hfb in Hsz Hhf. rewrite Hsz. change (bf_size bit_bloom_filter_create) with BIT_BLOOM_FILTER_SIZE.
  assert (Z.of_nat (Z.to_nat BIT_BLOOM_FILTER_SIZE) = BIT_BLOOM_FILTER_SIZE) as Hbz by (by rewrite Z2Nat.id).
  assert (0 < BIT_BLOOM_FILTER_SIZE) as Hbp by done.
  set (bits := area_read 0 (Z.to_nat BIT_BLOOM_FILTER_SIZE) (bf_bits (bb_filter b))).
  assert (Z.of_nat (length bits) = BIT_BLOOM_FILTER_SIZE) as Hbl by (by rewrite /bits length_area_read).
  pose proof (bs_lo _ _ _ Hsh) as Hlo0. pose proof (bs_cur _ _ _ Hsh) as Hc0.
  assert (Z.of_nat (length (area_read 0 (Z.to_nat (bb_cur b)) (bb_buffer b))) = hi - bb_begin b) as Hbuf.
  { rewrite length_area_read /hi /bb_pos. rewrite /bb_pos in Hpos. lia. }
  assert (forall f', bit_root (bit_file_create f' (hi - BIT_INNER_NODE_SIZE) (bb_id b) (bb_level b) (bb_version b)
      (bb_first_key b) (bb_last_key b) (bp_key (root_of (b, io))) (bp_iv (root_of (b, io))) hi) = root_of (b, io)) as Hbr.
  { intros f'. rewrite /bit_root. cbn [bit_file_create bf_root bf_root_key bf_root_iv].
    change BIT_INNER_NODE_SIZE with 189. rewrite -Hroot. by destruct (root_of (b, io)). }
  exists hi. split; [split|].
  - done.
  - rewrite Hbr.
    apply Ht. intros i Hi _. cbn [fst] in Hi. cbn [io_write io_file].
    rewrite area_write_out; [|lia]. rewrite /bb_view -/hi. cbn [fst snd]. rewrite Hb.
    destruct (Z.leb_spec (bb_begin st.1) i); cbn [andb].
    + ztest. rewrite area_copy_in; [f_equal; lia|]. rewrite length_area_read in Hbuf. lia.
    + apply area_write_out. lia.
  - intros e He. cbn [bit_file_create bf_filter]. rewrite (bloom_load_contains (bb_filter b)).
    + rewrite Hfb Hflt. apply bloom_adds_contains; [done|]. left.
      apply list_elem_of_fmap. exists e. split; [done|]. apply elem_of_app. by left.
    + rewrite Hsz. exact Hbp.
    + symmetry. exact Hsz.
    + symmetry. exact Hhf.
    + rewrite Hsz. change (bf_size bit_bloom_filter_create) with BIT_BLOOM_FILTER_SIZE. cbn [io_write io_file].
      rewrite -{1}(length_area_read 0 (Z.to_nat BIT_BLOOM_FILTER_SIZE) (bf_bits (bb_filter b))).
      apply area_read_write_eq.
  - intros k r. done.
  - split; [rewrite /hi; rewrite /bb_pos in Hpos |- *; lia|]. split; [|split].
    + rewrite file_size_value. change BIT_BLOOM_FILTER_SIZE with 2097152. pose proof (open_nonneg E). lia.
    + intros i Hi. cbn [io_write io_file]. rewrite area_write_out; [|lia]. rewrite area_write_out; [|rewrite Hb in Hbuf; lia].
      rewrite Hfile. apply Hfr. rewrite /hi in Hi. lia.
    + cbn [bit_file_create bf_id bf_level bf_version bf_first_key bf_last_key bf_root bf_filter_begin bf_root_key bf_cached_leaf].
      rewrite /bb_ids in Hids. injection Hids as _ Hfk Hlk _ Hid Hlv Hvs _ _.
      split; [exact Hid|]. split; [exact Hlv|]. split; [exact Hvs|]. split; [exact Hfk|]. split; [exact Hlk|].
      split; [reflexivity|]. split; [reflexivity|]. split; [reflexivity|].
      rewrite Hbr. exact (proj2 (Ht (bb_view (b, io)) (fun _ _ _ => eq_refl))).
Qed.

(** The filter of a finished file is what was written to it. *)
Lemma complete_filter st :
  let '(f, io') := bit_builder_complete st in
  bf_filter f = bloom_filter_load bit_bloom_filter_create (io_file io') (bf_filter_begin f).
Proof. rewrite /bit_builder_complete. by destruct (bit_builder_finish st) as [b io]. Qed.

(** ** Building a file from a list of entries *)
Definition bit_file_build (begin id level version : Z) (garbage : area) (io : bit_io) (es : list ent)
    : bit_file * bit_io :=
  bit_builder_complete (bit_builder_add_all es (bit_builder_create begin id level version garbage io)).

(** The number of entries that are in full leaves. *)
Definition nr_full (es : list ent) : nat := Z.to_nat (Z.of_nat (length es) / 8 * 8).

End builder.

#[export] Instance any_leaf : LeafPred := fun _ _ => True.

Section build.
Context {gcm : Gcm} {gcm_ok : GcmOk} {rng : Rng} {rng_ok : RngOk}.
Implicit Types (st : bb_state) (b : bit_builder) (v : area).

Lemma add_all_ok lo file0 E full tail st es :
  bb_inv lo file0 E full tail st -> Forall ent_wf es -> lo <= 2 ^ 61 ->
  Z.of_nat (length (full ++ tail ++ es)) <= DEFAULT_LSM_FILE_CAPACITY ->
  exists E' full' tail', bb_inv lo file0 E' full' tail' (bit_builder_add_all es st) /\
    full' ++ tail' = full ++ tail ++ es /\
    (es <> [] -> Z.of_nat (length full') = Z.of_nat (length (full ++ tail ++ es)) / 8 * 8).
Proof.
  revert E full tail st. induction es as [|e es IH] => E full tail st Hinv Hwf Hlo Hcap.
  { exists E, full, tail. by rewrite app_nil_r. }
  apply Forall_cons in Hwf as [He Hwf].
  destruct (add_entry_ok lo file0 E full tail st e Hinv He) as (E1 & f1 & t1 & Hinv1 & Heq1 & Hl1); [|done|done|].
  { pose proof (iv_weight _ _ _ _ _ _ Hinv) as Hw. rewrite !length_app in Hcap. cbn [length] in Hcap.
    rewrite /DEFAULT_LSM_FILE_CAPACITY in Hcap. lia. }
  assert (f1 ++ t1 ++ es = full ++ tail ++ e :: es) as Hcat.
  { rewrite app_assoc Heq1 -!app_assoc. done. }
  destruct (IH E1 f1 t1 _ Hinv1 Hwf Hlo) as (E' & f' & t' & Hinv' & Heq' & Hl'); [by rewrite Hcat|].
  exists E', f', t'. split; [exact Hinv'|]. split; [by rewrite Heq' Hcat|]. intros _. rewrite -Hcat.
  destruct es as [|e' es]; [|by apply Hl'].
  assert (length f1 = length f') as <-.
  { pose proof (iv_weight _ _ _ _ _ _ Hinv1). pose proof (iv_weight _ _ _ _ _ _ Hinv').
    pose proof (iv_tail _ _ _ _ _ _ Hinv1). pose proof (iv_tail _ _ _ _ _ _ Hinv').
    assert (length (f' ++ t') = length (f1 ++ t1)) as Hll by (by rewrite Heq' app_nil_r).
    rewrite !length_app in Hll. lia. }
  by rewrite Hl1 app_nil_r Heq1.
Qed.

Lemma build_inv begin id level version garbage io es :
  0 <= begin <= 2 ^ 61 -> Forall ent_wf es -> (8 <= length es)%nat ->
  Z.of_nat (length es) <= DEFAULT_LSM_FILE_CAPACITY ->
  let st := bit_builder_add_all es (bit_builder_create begin id level version garbage io) in
  exists E tail, bb_inv begin (io_file io) E (take (nr_full es) es) tail st /\
    weight E = Z.of_nat (length es) / 8 /\ weight E <= 2 ^ 17 /\ take (nr_full es) es <> [] /\
    take (nr_full es) es ++ tail = es /\ bb_buffer_full st.1 = sim_full (Z.to_nat (Z.of_nat (length es) / 8)) /\
    bb_id st.1 = id /\ bb_level st.1 = level /\ bb_version st.1 = version.
Proof.
  intros Hb Hwf Hl Hcap st. rewrite /DEFAULT_LSM_FILE_CAPACITY in Hcap.
  destruct (add_all_ok begin (io_file io) _ [] [] _ es (create_ok begin id level version garbage io Hb) Hwf)
    as (E & full & tail & Hinv & Heq & Hfull); [lia|done|].
  cbn [app] in *. specialize (Hfull ltac:(intros He; rewrite He in Hl; simpl in Hl; lia)).
  assert (take (nr_full es) es = full) as Ht.
  { assert (nr_full es = length full) as -> by (rewrite /nr_full; lia). by rewrite -Heq take_app_length. }
  pose proof (iv_weight _ _ _ _ _ _ Hinv) as Hw.
  assert (weight E = Z.of_nat (length es) / 8) as HwE by lia.
  pose proof (Z.div_le_mono 8 (Z.of_nat (length es)) 8 ltac:(lia) ltac:(lia)) as H1. change (8 / 8) with 1 in H1.
  pose proof (Z.div_le_mono (Z.of_nat (length es)) 1048576 8 ltac:(lia) ltac:(lia)) as H2. change (1048576 / 8) with 131072 in H2.
  exists E, tail. rewrite Ht. split; [exact Hinv|]. split; [done|]. split; [lia|].
  split; [intros ->; simpl in Hw; lia|]. split; [done|]. split.
  - rewrite -HwE. apply (sim_buffer_full begin).
    + apply (iv_pos _ _ _ _ _ _ Hinv).
    + apply (iv_begin _ _ _ _ _ _ Hinv).
    + apply (iv_height _ _ _ _ _ _ Hinv).
    + apply (bs_len _ _ _ (iv_shape _ _ _ _ _ _ Hinv)).
    + apply (iv_digits _ _ _ _ _ _ Hinv).
  - clear. apply (add_all_ids es (bit_builder_create begin id level version garbage io)).
Qed.

Lemma bit_file_build_ok begin id level version garbage io es :
  0 <= begin <= 2 ^ 61 -> Forall ent_wf es -> ents_sorted es -> (8 <= length es)%nat ->
  Z.of_nat (length es) <= DEFAULT_LSM_FILE_CAPACITY ->
  sim_full (Z.to_nat (Z.of_nat (length es) / 8)) = false ->
  let '(f, io') := bit_file_build begin id level version garbage io es in
  exists hi, bit_file_ok (io_file io') begin hi f (take (nr_full es) es) /\ begin <= hi /\
    hi + BIT_BLOOM_FILTER_SIZE <= begin + calculate_bit_size DEFAULT_LSM_FILE_CAPACITY DEFAULT_BIT_DEGREE /\
    (forall i, i < begin \/ hi + BIT_BLOOM_FILTER_SIZE <= i -> io_file io' i = io_file io i) /\
    bf_id f = id /\ bf_level f = level /\ bf_version f = version /\
    bf_first_key f = default 0 (fst <$> head es) /\ bf_last_key f = last_key es /\
    bf_root f = hi - BIT_INNER_NODE_SIZE /\ bf_filter_begin f = hi /\ bf_cached_leaf f = zero_leaf /\
    cwf bit_pointer_codec (bit_root f).
Proof.
  intros Hb Hwf Hs Hl Hcap Hsim.
  destruct (build_inv begin id level version garbage io es Hb Hwf Hl Hcap) as (E & tail & Hinv & Hw & Hwle & Hne & Heq & Hbf & Hid & Hlv & Hvs).
  rewrite /bit_file_build. set (st := bit_builder_add_all _ _) in *.
  assert (ents_sorted (take (nr_full es) es)) as Hst.
  { rewrite -Heq in Hs. by apply ents_sorted_app in Hs as (? & _). }
  pose proof (complete_ok begin (io_file io) E _ tail st Hinv Hne Hst Hwle ltac:(lia) ltac:(congruence)) as Hc.
  destruct (bit_builder_complete st) as [f io']. destruct Hc as (hi & H1 & H2 & H3 & H4 & H5 & H6 & H7 & H8 & H9 & H10 & H11 & H12).
  pose proof (iv_keys _ _ _ _ _ _ Hinv) as (_ & Hk & _). rewrite Heq in Hk.
  destruct (Hk ltac:(intros He; rewrite He in Hl; simpl in Hl; lia)) as [Hfk Hlk].
  exists hi. split; [exact H1|]. split; [done|]. split; [done|]. split; [done|].
  split; [congruence|]. split; [congruence|]. split; [congruence|]. split; [congruence|]. split; [congruence|]. done.
Qed.
End build.
