(* ===== verification/BitFileSpec.v ===== *)
(** * What a BIT file built from sorted entries gives

    The statements about [bit_builder_complete] as a whole: which keys a
    finished file finds, which bytes of the index file it touches, how far the
    builder's buffer fills up, and the two cases in which entries that were
    added are not found again. *)
From S2P Require Import Prelude Codec Crypto BitNode Superblock Area Bloom Hashtable BitFile BitTree.

Section spec.
Context {gcm : Gcm} {gcm_ok : GcmOk} {rng : Rng} {rng_ok : RngOk}.
Implicit Types (es : list ent) (io : bit_io) (st : bb_state).

Definition bit_builder_fed (begin id level version : Z) (garbage : area) (io : bit_io) (es : list ent) : bb_state :=
  bit_builder_add_all es (bit_builder_create begin id level version garbage io).

Lemma fed_full begin id level version garbage io es :
  0 <= begin <= 2 ^ 61 -> Forall ent_wf es -> (8 <= length es)%nat ->
  Z.of_nat (length es) <= DEFAULT_LSM_FILE_CAPACITY ->
  bb_buffer_full (bit_builder_fed begin id level version garbage io es).1 =
    sim_full (Z.to_nat (Z.of_nat (length es) / 8)).
Proof.
  intros Hb Hwf Hl Hc.
  by destruct (build_inv begin id level version garbage io es Hb Hwf Hl Hc) as (? & ? & _ & _ & _ & _ & _ & ? & _).
Qed.

(** C13: a file built from sorted entries finds every key
    of a full leaf with its record and reports [-ENODATA] for any other key,
    provided the builder's buffer is not due for a flush on completion. *)
Theorem bit_file_build_search begin id level version garbage io es k :
  0 <= begin <= 2 ^ 61 -> Forall ent_wf es -> ents_sorted es -> (8 <= length es)%nat ->
  Z.of_nat (length es) <= DEFAULT_LSM_FILE_CAPACITY ->
  bb_buffer_full (bit_builder_fed begin id level version garbage io es).1 = false ->
  let '(f, io') := bit_file_build begin id level version garbage io es in
  (bit_file_search (io_file io') k f).1 =
    match ents_map (take (nr_full es) es) !! k with Some r => Ok r | None => Err ENODATA end.
Proof.
  intros Hb Hwf Hs Hl Hc Hf. rewrite fed_full // in Hf.
  pose proof (bit_file_build_ok begin id level version garbage io es Hb Hwf Hs Hl Hc Hf) as Hok.
  destruct (bit_file_build _ _ _ _ _ _ _) as [f io']. destruct Hok as (hi & Hok & _).
  pose proof (bit_file_search_ok _ _ _ _ _ k Hok) as Hsr.
  by destruct (bit_file_search (io_file io') k f) as [r f'], Hsr as [-> _].
Qed.

Lemma nr_full_all es : Z.of_nat (length es) mod 8 = 0 -> nr_full es = length es.
Proof. intros Hm. rewrite /nr_full. pose proof (Z.div_mod (Z.of_nat (length es)) 8). lia. Qed.

Lemma sim_full_capacity : sim_full (Z.to_nat 131072) = false.
Proof. vm_compute. reflexivity. Qed.

(** A file built from a full table of 2^20 sorted
    entries answers every lookup exactly as the table does. *)
Theorem bit_file_full_lookup begin id level version garbage io es k :
  0 <= begin <= 2 ^ 61 -> Forall ent_wf es -> ents_sorted es ->
  Z.of_nat (length es) = DEFAULT_LSM_FILE_CAPACITY ->
  let '(f, io') := bit_file_build begin id level version garbage io es in
  (bit_file_search (io_file io') k f).1 = match ents_map es !! k with Some r => Ok r | None => Err ENODATA end.
Proof.
  intros Hb Hwf Hs Hl. rewrite /DEFAULT_LSM_FILE_CAPACITY in Hl.
  assert (sim_full (Z.to_nat (Z.of_nat (length es) / 8)) = false) as Hsim.
  { rewrite Hl. change (1048576 / 8) with 131072. apply sim_full_capacity. }
  pose proof (bit_file_build_ok begin id level version garbage io es Hb Hwf Hs ltac:(lia)
    ltac:(rewrite /DEFAULT_LSM_FILE_CAPACITY; lia) Hsim) as Hok.
  destruct (bit_file_build _ _ _ _ _ _ _) as [f io']. destruct Hok as (hi & Hok & _).
  rewrite nr_full_all in Hok; [|by rewrite Hl]. rewrite firstn_all in Hok.
  pose proof (bit_file_search_ok _ _ _ _ _ k Hok) as Hsr.
  by destruct (bit_file_search (io_file io') k f) as [r f'], Hsr as [-> _].
Qed.

(** C27: however many entries up to a full table are
    added, the nodes in the builder's buffer stay within the buffer. *)
Theorem bit_builder_buffer_bound begin id level version garbage io es :
  0 <= begin <= 2 ^ 61 -> Forall ent_wf es -> Z.of_nat (length es) <= DEFAULT_LSM_FILE_CAPACITY ->
  0 <= bb_cur (bit_builder_fed begin id level version garbage io es).1 <= DEFAULT_LSM_FILE_BUILDER_BUFFER_SIZE.
Proof.
  intros Hb Hwf Hc. rewrite /DEFAULT_LSM_FILE_CAPACITY in Hc.
  destruct (add_all_ok begin (io_file io) _ [] [] _ es (create_ok begin id level version garbage io Hb) Hwf)
    as (E & full & tail & Hinv & _); [lia|done|].
  split; [apply (bs_cur _ _ _ (iv_shape _ _ _ _ _ _ Hinv))|apply (iv_cur _ _ _ _ _ _ Hinv)].
Qed.

(** C33: the entries behind the last full leaf are
    not found again, although their keys are in the file's key range: the
    partial leaf is written, but [ctx[0].nr] does not count it. *)
Theorem bit_file_partial_leaf_lost begin id level version garbage io es k r :
  0 <= begin <= 2 ^ 61 -> Forall ent_wf es -> ents_sorted es -> (8 <= length es)%nat ->
  Z.of_nat (length es) <= DEFAULT_LSM_FILE_CAPACITY ->
  bb_buffer_full (bit_builder_fed begin id level version garbage io es).1 = false ->
  (k, r) ∈ drop (nr_full es) es ->
  let '(f, io') := bit_file_build begin id level version garbage io es in
  bf_first_key f <= k <= bf_last_key f /\ (bit_file_search (io_file io') k f).1 = Err ENODATA.
Proof.
  intros Hb Hwf Hs Hl Hc Hf Hin. rewrite fed_full // in Hf.
  pose proof (bit_file_build_ok begin id level version garbage io es Hb Hwf Hs Hl Hc Hf) as Hok.
  destruct (bit_file_build _ _ _ _ _ _ _) as [f io'].
  destruct Hok as (hi & Hok & _ & _ & _ & _ & _ & _ & H6 & H7 & _).
  pose proof (bit_file_search_ok _ _ _ _ _ k Hok) as Hsr.
  destruct (bit_file_search (io_file io') k f) as [x f'], Hsr as [-> _]. cbn [fst].
  rewrite -{1}(take_drop (nr_full es) es) in Hs. pose proof Hs as (_ & _ & Hlt)%ents_sorted_app.
  rewrite take_drop in Hs.
  assert ((k, r) ∈ es) as Hin' by (rewrite -(take_drop (nr_full es) es); apply elem_of_app; by right).
  split.
  - rewrite H6 H7. split; [|by apply (last_key_max es (k, r))].
    destruct es as [|e es]; [simpl in Hl; lia|]. cbn. apply elem_of_cons in Hin' as [<-|Hin']; [done|].
    apply StronglySorted_inv in Hs as [_ Hall]. eapply Forall_forall in Hall; [|done]. simpl in Hall. lia.
  - rewrite ents_map_none //. intros e He Hek. specialize (Hlt _ _ He Hin). simpl in Hlt. lia.
Qed.

(** What the closing loop does to the buffer's fill level. *)
Lemma close_cur fuel h st :
  let st' := bit_builder_close fuel h st in
  bb_begin st'.1 = bb_begin st.1 /\ io_file st'.2 = io_file st.2 /\ bb_height st'.1 = bb_height st.1 /\
  bb_filter st'.1 = bb_filter st.1 /\
  bb_cur st.1 <= bb_cur st'.1 <= bb_cur st.1 + 189 * Z.of_nat fuel /\
  ((exists j, (h <= j < h + fuel)%nat /\ cx_nr (bb_ctx_at j st.1) <> 0) -> bb_cur st.1 + 189 <= bb_cur st'.1).
Proof.
  revert h st. induction fuel as [|fuel IH] => h st; cbn zeta.
  { cbn [bit_builder_close]. split_and!; try done; [lia|]. intros (j & ? & _). lia. }
  rewrite bit_builder_close_S. destruct (Z.eqb_spec (cx_nr (bb_ctx_at h st.1)) 0) as [Hz|Hz].
  - destruct (IH (S h) st) as (H1 & H2 & H3 & H4 & H5 & H6). split_and!; try done; [lia|lia|].
    intros (j & Hj & Hn). apply H6. exists j. split; [|done]. destruct (decide (j = h)); [congruence|lia].
  - destruct (IH (S h) (bit_builder_push_inner h st)) as (H1 & H2 & H3 & H4 & H5 & _).
    destruct st as [b io]. cbn [bit_builder_push_inner fresh_key_iv fst snd bb_set_ctx bb_set_buf
      bb_begin bb_cur bb_height bb_filter io_file] in *.
    change BIT_INNER_NODE_SIZE with 189 in *. split_and!; try done; lia.
Qed.

(** A level with an open node, below the top. *)
Lemma inv_open_level {lf : LeafPred} begin file0 E full tail st :
  bb_inv begin file0 E full tail st -> full <> [] -> weight E <= 2 ^ 17 ->
  cx_nr (bb_ctx_at 9 st.1) = 0 /\ exists j, (j < 9)%nat /\ cx_nr (bb_ctx_at j st.1) <> 0.
Proof.
  intros Hinv Hne Hw. pose proof (iv_shape _ _ _ _ _ _ Hinv) as [Hnr Hlen _ _ _].
  pose proof (iv_flat _ _ _ _ _ _ Hinv) as Hfl.
  destruct (lookup_lt_is_Some_2 E 9) as [e9 H9]; [lia|].
  assert (e9 = []) as ->.
  { pose proof (weight_lookup E 9 e9 H9) as Hwl. change (4 ^ Z.of_nat 9) with 262144 in Hwl.
    destruct e9; [done|]. simpl in Hwl. lia. }
  split; [by rewrite /bb_ctx_at (nr_ok_lookup _ _ _ _ Hnr H9)|].
  destruct (decide (Exists (fun esl => esl <> []) E)) as [Hex|Hall].
  - apply Exists_exists in Hex as (esl & Hin & He). apply list_elem_of_lookup in Hin as [j Hj].
    pose proof (lookup_lt_Some _ _ _ Hj). exists j. split; [destruct (decide (j = 9)%nat) as [->|]; [congruence|lia]|].
    rewrite /bb_ctx_at (nr_ok_lookup _ _ _ _ Hnr Hj). by destruct esl.
  - exfalso. apply Hne. rewrite -Hfl. apply weight_zero_flat => h esl Hh.
    destruct (decide (esl = [])) as [|He]; [done|]. exfalso. apply Hall, Exists_exists.
    exists esl. split; [by eapply list_elem_of_lookup_2|done].
Qed.

(** What [complete] does before it writes the buffer: at most nine inner nodes
    and a partial leaf go behind the fill level, after a flush when one is due. *)
Lemma close_meta fuel h st : bb_meta (bit_builder_close fuel h st).1 = bb_meta st.1.
Proof.
  revert h st. induction fuel as [|fuel IH] => h st; [done|]. rewrite bit_builder_close_S.
  destruct (_ =? 0); rewrite IH; [done|]. by destruct st.
Qed.

Lemma finish_extent st :
  cx_nr (bb_ctx_at 9 st.1) = 0 -> bb_height st.1 = 10 ->
  let st1 := bit_builder_buffer_flush_if_full st in let st' := bit_builder_finish st in
  bb_begin st'.1 = bb_begin st1.1 /\ bb_cur st1.1 <= bb_cur st'.1 <= bb_cur st1.1 + 2210 /\
  io_file st'.2 = io_file st1.2 /\ bb_ids st'.1 = bb_ids st.1 /\
  ((exists j, (j < 9)%nat /\ cx_nr (bb_ctx_at j st.1) <> 0) -> bb_cur st1.1 + 189 <= bb_cur st'.1).
Proof.
  intros Htop Hh st1 st'. subst st'. rewrite /bit_builder_finish Hh. change (Z.to_nat (10 - 1)) with 9%nat. rewrite Htop Z.eqb_refl. cbn [negb].
  fold st1. assert (bb_ids st1.1 = bb_ids st.1 /\ forall j, bb_ctx_at j st1.1 = bb_ctx_at j st.1) as [<- Hctx].
  { subst st1. destruct st as [b io]. rewrite /bit_builder_buffer_flush_if_full. by destruct (bb_buffer_full b). }
  assert (bb_height st1.1 = 10) as Hh1. { subst st1. destruct st as [b io]. rewrite /bit_builder_buffer_flush_if_full. by destruct (bb_buffer_full b). }
  clearbody st1. clear Htop Hh. destruct st1 as [b io1]. cbn [fst snd] in *.
  destruct (0 <? bl_nr_record (bb_cur_leaf b)) eqn:Ep.
  - match goal with |- context [bit_builder_close _ _ (?x, io1)] => set (b2 := x) end.
    destruct (close_cur 9 0 (b2, io1)) as (H1 & H2 & _ & H4 & H5 & _). pose proof (close_meta 9 0 (b2, io1)) as Hm.
    assert (bb_height b2 = 10) as -> by exact Hh1. change (Z.to_nat (10 - 1)) with 9%nat.
    destruct (bit_builder_close 9 0 (b2, io1)) as [b3 io3]. cbn [fst snd bb_set_buf bb_begin bb_cur] in *.
    change (bb_cur b2) with (bb_cur b + 509) in *. change (Z.of_nat 9) with 9 in *. rewrite /bb_meta in Hm.
    split; [exact H1|]. split; [lia|]. split; [exact H2|]. split; [|lia]. change (bb_ids b3 = bb_ids b2). rewrite /bb_ids. congruence.
  - destruct (close_cur 9 0 (b, io1)) as (H1 & H2 & _ & H4 & H5 & H6). pose proof (close_meta 9 0 (b, io1)) as Hm.
    rewrite Hh1. change (Z.to_nat (10 - 1)) with 9%nat. destruct (bit_builder_close 9 0 (b, io1)) as [b3 io3]. cbn [fst snd] in *.
    change (Z.of_nat 9) with 9 in *. rewrite /bb_meta in Hm. split; [exact H1|]. split; [lia|]. split; [exact H2|]. split; [rewrite /bb_ids; congruence|].
    intros (j & Hj & Hn). apply H6. exists j. split; [lia|]. by rewrite Hctx.
Qed.

(** The top level of a builder below capacity has no node. *)
Lemma inv_top_empty {lf : LeafPred} begin file0 E full tail st :
  bb_inv begin file0 E full tail st -> weight E <= 2 ^ 17 -> cx_nr (bb_ctx_at 9 st.1) = 0.
Proof.
  intros Hinv Hw. pose proof (iv_shape _ _ _ _ _ _ Hinv) as [Hnr Hlen _ _ _]. destruct (lookup_lt_is_Some_2 E 9) as [e9 H9]; [lia|].
  assert (e9 = []) as ->.
  { pose proof (weight_lookup E 9 e9 H9) as Hwl. change (4 ^ Z.of_nat 9) with 262144 in Hwl. destruct e9; [done|]. simpl in Hwl. lia. }
  by rewrite /bb_ctx_at (nr_ok_lookup _ _ _ _ Hnr H9).
Qed.

(** All [complete] writes, flushed or not, lies between [lo] and the end of the filter. *)
Lemma complete_frame {lf : LeafPred} lo file0 E full tail st :
  bb_inv lo file0 E full tail st -> weight E <= 2 ^ 17 ->
  let '(f, io) := bit_builder_complete st in
  (forall i, i < lo \/ bb_pos st.1 + 2210 + BIT_BLOOM_FILTER_SIZE <= i -> io_file io i = file0 i) /\
  bf_id f = bb_id st.1 /\ bf_level f = bb_level st.1 /\ bf_version f = bb_version st.1 /\
  bf_first_key f = bb_first_key st.1 /\ bf_last_key f = bb_last_key st.1.
Proof.
  intros Hinv Hw. pose proof (inv_top_empty _ _ _ _ _ _ Hinv Hw) as Htop.
  destruct Hinv as [_ [_ _ Hlo Hcur _] _ _ _ _ _ Hh _ _ _ _ (_ & _ & _ & Hflt) Hfr].
  destruct (finish_extent st Htop Hh) as (F1 & F2 & F3 & F4 & _).
  destruct (bloom_adds_shape bit_bloom_filter_create ((fun e => le_enc 4 e.1) <$> (full ++ tail))) as [Hsz _]. rewrite -Hflt in Hsz. clear Hflt.
  rewrite /bit_builder_complete. destruct (bit_builder_finish st) as [b io]. cbn [fst snd] in *. rewrite /bb_ids in F4. injection F4 as _ G1 G2 G3 G4 G5 G6 G7 _.
  assert (bf_size (bb_filter b) = BIT_BLOOM_FILTER_SIZE) as Hb by (rewrite G7; exact Hsz). rewrite Hb. clear Hsz Hb G7.
  cbn [bit_file_create bf_id bf_level bf_version bf_first_key bf_last_key io_write io_file]. split; [|done].
  assert (forall n, 0 <= n -> Z.of_nat (Z.to_nat n) = n) as Hn by lia. assert (0 <= BIT_BLOOM_FILTER_SIZE) as Hp by done.
  intros i Hi. rewrite /bit_builder_buffer_flush_if_full in F1, F2, F3. destruct st as [b0 io0]. cbn [fst snd] in *. rewrite /bb_buffer_full Hh in F1, F2, F3.
  change (10 * BIT_NODE_SIZE) with 5090 in F1, F2, F3. change DEFAULT_LSM_FILE_BUILDER_BUFFER_SIZE with 4194304 in F1, F2, F3. rewrite /bb_pos in Hi.
  destruct (Z.ltb_spec 4194304 (bb_cur b0 + 5090)) as [Hlt|Hge]; cbn [fst snd bb_set_buf bb_begin bb_cur io_write io_file] in F1, F2, F3.
  - rewrite area_write_out; [|rewrite length_area_read Hn //; lia]. rewrite area_write_out; [|rewrite length_area_read Hn; lia].
    rewrite F3 area_write_out; [|rewrite length_area_read Hn //; lia]. apply Hfr. rewrite /bb_pos. cbn [fst]. lia.
  - rewrite area_write_out; [|rewrite length_area_read Hn //; lia]. rewrite area_write_out; [|rewrite length_area_read Hn; lia].
    rewrite F3. apply Hfr. rewrite /bb_pos. cbn [fst]. lia.
Qed.

(** C26: building a file from any entries up to a full table - whether or not
    they fill their last leaf, and whether or not the buffer is flushed on
    completion - writes only inside the file's slot of the index file, the
    [calculate_bit_size] bytes from [begin] on, and records its identity and,
    unless there are no entries, the first and the last key added. *)
Theorem bit_file_build_frame begin id level version garbage io es :
  0 <= begin <= 2 ^ 61 -> Forall ent_wf es -> Z.of_nat (length es) <= DEFAULT_LSM_FILE_CAPACITY ->
  let '(f, io') := bit_file_build begin id level version garbage io es in
  (forall i, i < begin \/ begin + calculate_bit_size DEFAULT_LSM_FILE_CAPACITY DEFAULT_BIT_DEGREE <= i ->
     io_file io' i = io_file io i) /\
  bf_id f = id /\ bf_level f = level /\ bf_version f = version /\
  (es <> [] -> Some (bf_first_key f) = fst <$> head es /\ Some (bf_last_key f) = fst <$> last es).
Proof.
  intros Hb Hwf Hc. rewrite /DEFAULT_LSM_FILE_CAPACITY in Hc.
  destruct (add_all_ok begin (io_file io) _ [] [] _ es (create_ok begin id level version garbage io Hb) Hwf) as (E & full & tail & Hinv & Heq & _); [lia|done|]. cbn [app] in Heq.
  destruct (add_all_ids es (bit_builder_create begin id level version garbage io)) as (I1 & I2 & I3). pose proof (iv_weight _ _ _ _ _ _ Hinv) as Hw.
  assert (length es = length full + length tail)%nat as Hl by (by rewrite -Heq length_app). pose proof (open_nonneg E) as Ho.
  rewrite /bit_file_build. set (st := bit_builder_add_all _ _) in *. pose proof (complete_frame _ _ _ _ _ _ Hinv ltac:(lia)) as Hcf.
  destruct (bit_builder_complete st) as [f io']. destruct Hcf as (H1 & H2 & H3 & H4 & H5 & H6).
  split; [|split; [by rewrite H2|split; [by rewrite H3|split; [by rewrite H4|]]]].
  - intros i Hi. apply H1. rewrite (iv_pos _ _ _ _ _ _ Hinv). rewrite file_size_value in Hi. change BIT_BLOOM_FILTER_SIZE with 2097152. lia.
  - intros Hne. pose proof (iv_keys _ _ _ _ _ _ Hinv) as (_ & Hk & _). rewrite Heq in Hk. destruct (Hk Hne) as [Hfk Hlk]. rewrite H5 H6 Hfk Hlk /last_key.
    destruct es as [|e es _] using rev_ind; [done|]. rewrite last_snoc. split; [|done]. by destruct es.
Qed.

(** C34: when the buffer is due for a flush on completion, the file's root
    pointer leads nowhere.  The last nodes, the root node at their end, are
    written at the address [begin] had before the flush, over nodes written
    there by it; the root position the file reports lies further on, and the
    bytes there are those that were there before. *)
Theorem bit_file_root_misplaced begin id level version garbage io es :
  0 <= begin <= 2 ^ 61 -> Forall ent_wf es -> (8 <= length es)%nat ->
  Z.of_nat (length es) <= DEFAULT_LSM_FILE_CAPACITY ->
  let st := bit_builder_fed begin id level version garbage io es in
  bb_buffer_full st.1 = true ->
  let '(f, io') := bit_file_build begin id level version garbage io es in
  let b := (bit_builder_finish st).1 in
  let written := bb_begin st.1 + bb_cur b - BIT_INNER_NODE_SIZE in
  bb_begin st.1 <= written < bf_root f - BIT_INNER_NODE_SIZE /\
  (forall i, 0 <= i < BIT_INNER_NODE_SIZE -> io_file io' (written + i) = bb_buffer b (bb_cur b - BIT_INNER_NODE_SIZE + i)) /\
  forall i, bf_root f <= i < bf_root f + BIT_INNER_NODE_SIZE -> io_file io' i = io_file io i.
Proof.
  intros Hb Hwf Hl Hc st Hf.
  destruct (build_inv begin id level version garbage io es Hb Hwf Hl Hc) as (E & tail & Hinv & _ & Hw & Hne & _).
  rewrite /bit_file_build. fold st. change (bit_builder_add_all es (bit_builder_create begin id level version garbage io)) with st in Hinv |- *.
  destruct (inv_open_level _ _ _ _ _ _ Hinv Hne Hw) as [H9 Hopen].
  pose proof (iv_height _ _ _ _ _ _ Hinv) as Hh. pose proof (iv_shape _ _ _ _ _ _ Hinv) as [_ _ Hlo Hcur _]. pose proof (iv_frame _ _ _ _ _ _ Hinv) as Hfr.
  destruct (finish_extent st H9 Hh) as (F1 & F2 & F3 & _ & F5). specialize (F5 Hopen). clearbody st. clear Hinv Hopen.
  rewrite /bit_builder_complete. destruct (bit_builder_finish st) as [b io1]. destruct st as [b0 io0]. cbn [fst snd] in *.
  rewrite /bit_builder_buffer_flush_if_full Hf in F1, F2, F3, F5. cbn [fst snd bb_set_buf bb_begin bb_cur io_write io_file] in F1, F2, F3, F5.
  rewrite /bb_buffer_full Hh in Hf. apply Z.ltb_lt in Hf. change DEFAULT_LSM_FILE_BUILDER_BUFFER_SIZE with 4194304 in Hf. change (10 * BIT_NODE_SIZE) with 5090 in Hf.
  cbn [bit_file_create bf_root io_write io_file]. change BIT_INNER_NODE_SIZE with 189. rewrite F1. split; [lia|]. split.
  - intros i Hi. rewrite area_write_out; [|lia]. rewrite area_copy_in; [f_equal; lia|lia].
  - intros i Hi. rewrite area_write_out; [|lia]. rewrite area_write_out; [|rewrite length_area_read; lia].
    rewrite F3 area_write_out; [|rewrite length_area_read; lia]. apply Hfr. right. rewrite /bb_pos. cbn [fst]. lia.
Qed.
End spec.

(** ** Concrete files *)
Definition sample_ents (n : nat) : list ent := (fun i => (Z.of_nat i, zero_record)) <$> seq 0 n.

Lemma length_sample n : length (sample_ents n) = n.
Proof. by rewrite /sample_ents length_fmap length_seq. Qed.
Lemma sample_sorted n : ents_sorted (sample_ents n).
Proof.
  rewrite /sample_ents /ents_sorted. generalize 0%nat. induction n as [|n IH] => m; [constructor|].
  cbn [seq]. rewrite fmap_cons. constructor; [apply IH|]. apply Forall_fmap, Forall_forall => i.
  intros Hi%elem_of_seq. simpl. lia.
Qed.
Lemma sample_key_nonneg n e : e ∈ sample_ents n -> 0 <= e.1.
Proof. intros (i & -> & _)%list_elem_of_fmap. simpl. lia. Qed.
Lemma sample_wf n : Z.of_nat n <= 2 ^ 32 -> Forall ent_wf (sample_ents n).
Proof.
  intros Hn. apply Forall_fmap, Forall_forall => i. intros Hi%elem_of_seq. split; [simpl; lia|]. vm_compute.
  repeat split; congruence.
Qed.

(** A random pool for evaluation: the request's number, repeated. *)
Module ToyRng.
#[export] Instance rng : Rng := fun n len => replicate len (Z_byte (Z.of_nat n)).
#[export] Instance rng_ok : RngOk.
Proof. intros n len. apply length_replicate. Qed.
End ToyRng.

Import ToyGcm ToyRng.
Definition io_zero : bit_io := {| io_file := area_zero; io_rng := 0 |}.

Lemma bit_file_build_search_witness :
  let '(f, io') := bit_file_build 4096 3 0 7 area_zero io_zero (sample_ents 20) in
  (bit_file_search (io_file io') 13 f).1 = Ok zero_record /\ (bit_file_search (io_file io') 77 f).1 = Err ENODATA.
Proof.
  pose proof (fun k => bit_file_build_search 4096 3 0 7 area_zero io_zero (sample_ents 20) k ltac:(lia)
    (sample_wf 20 ltac:(lia)) (sample_sorted 20) ltac:(rewrite length_sample; lia)
    ltac:(rewrite length_sample; vm_compute; congruence)
    ltac:(rewrite fed_full ?length_sample; [vm_compute; reflexivity|lia|by apply sample_wf|lia|vm_compute; congruence])) as Hs.
  destruct (bit_file_build _ _ _ _ _ _ _) as [f io']. split.
  - rewrite (Hs 13). vm_compute. reflexivity.
  - rewrite (Hs 77). vm_compute. reflexivity.
Defined.

Lemma bit_file_full_lookup_witness :
  let '(f, io') := bit_file_build 4096 3 0 7 area_zero io_zero (sample_ents (Z.to_nat 1048576)) in
  (bit_file_search (io_file io') (-1) f).1 = Err ENODATA.
Proof.
  pose proof (bit_file_full_lookup 4096 3 0 7 area_zero io_zero (sample_ents (Z.to_nat 1048576)) (-1) ltac:(lia)
    (sample_wf (Z.to_nat 1048576) ltac:(lia)) (sample_sorted _) ltac:(rewrite length_sample; by rewrite Z2Nat.id)) as Hs.
  destruct (bit_file_build _ _ _ _ _ _ _) as [f io']. rewrite Hs. rewrite ents_map_none; [reflexivity|].
  intros e He%sample_key_nonneg. lia.
Defined.

Lemma flushed_fits : Z.of_nat (length (sample_ents (Z.to_nat 58608))) <= DEFAULT_LSM_FILE_CAPACITY.
Proof. rewrite length_sample Z2Nat.id; vm_compute; congruence. Qed.

(** A file that is flushed on completion. *)
Lemma bit_file_build_frame_witness :
  let '(f, io') := bit_file_build 4096 3 0 7 area_zero io_zero (sample_ents (Z.to_nat 58608)) in
  io_file io' 4095 = Byte.x00 /\ bf_id f = 3.
Proof.
  pose proof (bit_file_build_frame 4096 3 0 7 area_zero io_zero (sample_ents (Z.to_nat 58608)) ltac:(lia)
    (sample_wf (Z.to_nat 58608) ltac:(lia)) flushed_fits) as Hs.
  destruct (bit_file_build _ _ _ _ _ _ _) as [f io']. destruct Hs as (H1 & H2 & _). split; [rewrite H1; [reflexivity|lia]|exact H2].
Defined.

Lemma bit_builder_buffer_bound_witness :
  0 <= bb_cur (bit_builder_fed 4096 3 0 7 area_zero io_zero (sample_ents (Z.to_nat 200000))).1
    <= DEFAULT_LSM_FILE_BUILDER_BUFFER_SIZE.
Proof.
  exact (bit_builder_buffer_bound 4096 3 0 7 area_zero io_zero (sample_ents (Z.to_nat 200000)) ltac:(lia)
    (sample_wf (Z.to_nat 200000) ltac:(lia)) ltac:(rewrite length_sample Z2Nat.id; vm_compute; congruence)).
Defined.

Lemma bit_file_partial_leaf_lost_witness :
  let '(f, io') := bit_file_build 4096 3 0 7 area_zero io_zero (sample_ents 20) in
  bf_first_key f <= 19 <= bf_last_key f /\ (bit_file_search (io_file io') 19 f).1 = Err ENODATA.
Proof.
  apply (bit_file_partial_leaf_lost 4096 3 0 7 area_zero io_zero (sample_ents 20) 19 zero_record); [lia|by apply sample_wf|
    apply sample_sorted|rewrite length_sample; lia|rewrite length_sample; vm_compute; congruence| |].
  - rewrite fed_full ?length_sample; [vm_compute; reflexivity|lia|by apply sample_wf|lia|vm_compute; congruence].
  - apply list_elem_of_lookup. exists 3%nat. vm_compute. reflexivity.
Defined.

Lemma bit_file_root_misplaced_witness :
  let '(f, io') := bit_file_build 4096 3 0 7 area_zero io_zero (sample_ents (Z.to_nat 58608)) in
  io_file io' (bf_root f) = Byte.x00.
Proof.
  pose proof (bit_file_root_misplaced 4096 3 0 7 area_zero io_zero (sample_ents (Z.to_nat 58608)) ltac:(lia)
    (sample_wf (Z.to_nat 58608) ltac:(lia)) ltac:(rewrite length_sample; lia)
    ltac:(rewrite length_sample Z2Nat.id; vm_compute; congruence)
    ltac:(rewrite fed_full ?length_sample;
          [rewrite Z2Nat.id; vm_compute; congruence|lia|apply sample_wf; lia|lia|
           rewrite Z2Nat.id; vm_compute; congruence])) as Hs.
  destruct (bit_file_build _ _ _ _ _ _ _) as [f io']. destruct Hs as (_ & _ & Hs). rewrite Hs; [reflexivity|]. change BIT_INNER_NODE_SIZE with 189. lia.
Defined.
