(* ===== verification/IterFacts.v ===== *)
(** * The leaf chain of a BIT file and its iterator

    Every leaf of a BIT file points to the next one, the partial last leaf
    included.  The chain is an invariant of the builder beside the tree, and
    [bit_iterator_next] walks it: an iterator over a finished file returns the
    entries the file was built from, in order, and then has no next one. *)
From S2P Require Import Prelude Codec Crypto BitNode Superblock Area Bloom Hashtable BitFile BitTree BitFileSpec.

Section chain.
Context {gcm : Gcm} {gcm_ok : GcmOk}.
Implicit Types (v : area) (l : bit_leaf) (p q : bit_pointer).

(** ** Chains *)

(** From [p] on, full leaves with the entries [ess], the last pointing to [q]. *)
Fixpoint chain_at v (lo hi : Z) p (ess : list (list ent)) q : Prop :=
  match ess with
  | [] => p = q
  | es :: ess => exists l, node_at v lo hi p (BitLeaf l) /\ leaf_entries l = es /\ length es = 8%nat /\
      chain_at v lo hi (bl_next l) ess q
  end.

(** The entries reachable from a leaf; the last leaf may be partial. *)
Inductive leaves_at v (lo hi : Z) : bit_leaf -> list ent -> Prop :=
| Leaves_last l es :
    es <> [] -> (length es <= 8)%nat -> take (length es) (leaf_entries l) = es -> leaves_at v lo hi l es
| Leaves_cons l l' es :
    length (leaf_entries l) = 8%nat -> node_at v lo hi (bl_next l) (BitLeaf l') -> leaves_at v lo hi l' es ->
    leaves_at v lo hi l (leaf_entries l ++ es).

Lemma chain_at_mono v v' lo hi hi' p ess q :
  hi <= hi' -> (forall i, lo <= i < hi -> v' i = v i) -> chain_at v lo hi p ess q -> chain_at v' lo hi' p ess q.
Proof.
  intros Hhi Hag. revert p. induction ess as [|es ess IH] => p; [done|]. intros (l & Hn & He & Hl & Hc).
  exists l. split; [by eapply node_at_mono; [exact Hn| | |]|]. split; [done|]. split; [done|]. by apply IH.
Qed.

Lemma chain_at_snoc v lo hi p ess q l :
  chain_at v lo hi p ess q -> node_at v lo hi q (BitLeaf l) -> length (leaf_entries l) = 8%nat ->
  chain_at v lo hi p (ess ++ [leaf_entries l]) (bl_next l).
Proof.
  intros Hc Hn Hl. revert p Hc. induction ess as [|es ess IH] => p.
  - intros ->. by exists l.
  - intros (l' & Hn' & He' & Hl' & Hc'). exists l'. split; [done|]. split; [done|]. split; [done|]. by apply IH.
Qed.

Lemma chain_leaves v lo hi p ess q tail :
  chain_at v lo hi p ess q -> ess <> [] ->
  (tail <> [] -> exists l, node_at v lo hi q (BitLeaf l) /\ take (length tail) (leaf_entries l) = tail /\ (length tail <= 8)%nat) ->
  exists l0, node_at v lo hi p (BitLeaf l0) /\ leaves_at v lo hi l0 (concat ess ++ tail).
Proof.
  intros Hc Hne Ht. revert p Hc Hne. induction ess as [|es ess IH] => p; [done|].
  intros (l & Hn & He & Hl & Hc) _. exists l. split; [done|]. cbn [concat]. rewrite -app_assoc. subst es.
  destruct ess as [|es' ess].
  - cbn [chain_at] in Hc. subst q. cbn [concat app]. destruct (decide (tail = [])) as [->|Htn].
    + rewrite app_nil_r. apply Leaves_last; [by intros Hz; rewrite Hz in Hl|lia|by rewrite firstn_all].
    + destruct (Ht Htn) as (l' & Hn' & Htk & Hl'). apply (Leaves_cons _ _ _ _ l'); [done|done|].
      by apply Leaves_last.
  - destruct (IH (bl_next l) Hc ltac:(done)) as (l' & Hn' & Hlv). by apply (Leaves_cons _ _ _ _ l').
Qed.

Lemma leaves_at_mono v v' lo hi l es :
  (forall i, lo <= i < hi -> v' i = v i) -> leaves_at v lo hi l es -> leaves_at v' lo hi l es.
Proof.
  intros Hag. induction 1 as [l es H1 H2 H3|l l' es H1 H2 H3 IH]; [by constructor|].
  apply (Leaves_cons _ _ _ _ l'); [done| |done]. by eapply node_at_mono; [exact H2| | |].
Qed.

(** An index below 8 is inside the first leaf. *)
Lemma leaves_first v lo hi l es (i : nat) e :
  leaves_at v lo hi l es -> (i < 8)%nat -> es !! i = Some e -> leaf_entries l !! i = Some e.
Proof.
  destruct 1 as [l es H1 H2 H3|l l' es H1 H2 H3]; intros Hi He.
  - rewrite -H3 in He. by apply lookup_take_Some in He as [? _].
  - by rewrite lookup_app_l in He; [|lia].
Qed.

(** ** Iterators *)
Section iterator.
Context (garbage : list byte -> bit_leaf).

(** [it] has the entries [es] still to give. *)
Definition iter_ok (file : area) (lo hi : Z) (it : bit_iterator) (es : list ent) : Prop :=
  match es with
  | [] => it_has_next it = false
  | _ => it_has_next it = true /\ ents_sorted es /\ bf_last_key (it_file it) = last_key es /\
      exists (i : nat) all, it_cur_record it = Z.of_nat i /\ (i < 8)%nat /\
        leaves_at file lo hi (it_leaf it) all /\ drop i all = es
  end.

Lemma iter_ok_mono file file' lo hi it es :
  (forall i, lo <= i < hi -> file' i = file i) -> iter_ok file lo hi it es -> iter_ok file' lo hi it es.
Proof.
  intros Hag. destruct es as [|e es]; [done|]. intros (H1 & H2 & H3 & i & all & H4 & H5 & H6 & H7).
  do 3 (split; [done|]). exists i, all. do 2 (split; [done|]). split; [by eapply leaves_at_mono|done].
Qed.

Lemma iter_has_next file lo hi it es : iter_ok file lo hi it es -> it_has_next it = negb (bool_decide (es = [])).
Proof. destruct es; [done|]. by intros [-> _]. Qed.

Lemma iter_next_ok file lo hi it e es :
  iter_ok file lo hi it (e :: es) ->
  exists it', bit_iterator_next garbage file it = (Ok (__entry e.1 e.2), it') /\ it_file it' = it_file it /\
    iter_ok file lo hi it' es.
Proof.
  intros (Hh & Hs & Hlk & i & all & Hi & Hi8 & Hlv & Hd). rewrite /bit_iterator_next Hh. cbn [negb].
  rewrite Hi Nat2Z.id.
  assert (all !! i = Some e) as Hei by (by rewrite -(Nat.add_0_r i) -lookup_drop Hd).
  assert (drop (S i) all = es) as Hd' by (by rewrite -Nat.add_1_r -drop_drop Hd).
  pose proof (leaves_first _ _ _ _ _ _ _ Hlv Hi8 Hei) as Hle.
  destruct (nth_zip_lookup _ _ _ e.1 e.2 ltac:(by rewrite -surjective_pairing)) as [-> ->].
  apply StronglySorted_inv in Hs as [Hs Hall]. rewrite Hlk.
  destruct es as [|e' es].
  - change (last_key [e]) with e.1. rewrite Z.leb_refl. eexists. split; [done|]. by split.
  - assert (e.1 < last_key (e' :: es)) as Hlt.
    { pose proof (last_key_max (e' :: es) e' Hs ltac:(left)). apply Forall_cons in Hall as [? _]. lia. }
    assert (last_key (e :: e' :: es) = last_key (e' :: es)) as Hlast by done. rewrite Hlast.
    ztest. change BIT_LEAF_LEN with 8.
    destruct (Z.eqb_spec (Z.of_nat i + 1) 8) as [He8|Hn8].
    + assert (i = 7%nat) as -> by lia. inversion Hlv as [l es0 H1 H2 H3|l l' es0 H1 H2 H3]; subst.
      { exfalso. rewrite drop_ge in Hd'; [done|lia]. }
      rewrite (node_at_decode _ _ _ _ _ H2). eexists. split; [done|]. split; [done|].
      split; [done|]. split; [done|]. split; [by rewrite Hlk|]. exists 0%nat, es0. split; [done|]. split; [lia|]. split; [done|].
      rewrite drop_app_ge in Hd'; [|lia]. by rewrite H1 in Hd'.
    + eexists. split; [done|]. split; [done|]. split; [done|]. split; [done|]. split; [by rewrite Hlk|].
      exists (S i), all. cbn [it_cur_record it_leaf]. split; [lia|]. split; [lia|]. done.
Qed.
End iterator.
End chain.

(** ** The chain while a file is built *)
Section building.
Context {gcm : Gcm} {gcm_ok : GcmOk} {rng : Rng} {rng_ok : RngOk}.
Implicit Types (st : bb_state) (b : bit_builder).

(** Writing into the buffer below the current position is writing into the view. *)
Lemma view_write st cur data i :
  0 <= cur -> bb_begin st.1 + cur + Z.of_nat (length data) <= bb_pos st.1 ->
  bb_view (bb_set_buf (bb_begin st.1) (bb_cur st.1) (area_write cur data (bb_buffer st.1)) st.1, st.2) i =
    area_write (bb_begin st.1 + cur) data (bb_view st) i.
Proof.
  intros Hc Hp. rewrite /bb_view. cbn [fst snd bb_set_buf bb_begin bb_buffer].
  change (bb_pos (bb_set_buf _ _ _ _)) with (bb_pos st.1).
  destruct (decide (bb_begin st.1 + cur <= i < bb_begin st.1 + cur + Z.of_nat (length data))) as [Hin|Hout].
  - destruct (lookup_lt_is_Some_2 data (Z.to_nat (i - (bb_begin st.1 + cur)))) as [x Hx]; [lia|].
    rewrite (area_write_in (bb_begin st.1 + cur) _ _ _ x); [|lia|done]. do 2 ztest. cbn [andb].
    apply area_write_in; [lia|]. rewrite -Hx. f_equal. lia.
  - rewrite (area_write_out (bb_begin st.1 + cur)); [|lia].
    destruct (_ && _) eqn:E; [|done]. apply area_write_out. lia.
Qed.

Lemma carry_frame fuel h st :
  0 <= bb_cur st.1 ->
  let st' := bit_builder_carry fuel h st in
  bb_begin st'.1 = bb_begin st.1 /\ bb_pos st.1 <= bb_pos st'.1 /\
  (forall i, i < bb_pos st.1 -> bb_view st' i = bb_view st i).
Proof.
  revert h st. induction fuel as [|fuel IH] => h st Hc; [done|]. cbn [bit_builder_carry]. case_match; [|done].
  assert (bb_begin (bit_builder_push_inner h st).1 = bb_begin st.1 /\
          bb_cur (bit_builder_push_inner h st).1 = bb_cur st.1 + 189) as [Hb Hcur] by (by destruct st).
  destruct (IH (S h) (bit_builder_push_inner h st)) as (H1 & H2 & H3); [lia|]. cbn zeta.
  assert (bb_pos (bit_builder_push_inner h st).1 = bb_pos st.1 + 189) as Hp by (rewrite /bb_pos Hb Hcur; lia).
  split; [congruence|]. split; [lia|]. intros i Hi. rewrite H3; [|lia]. by apply push_inner_view.
Qed.

(** A node written over the hole left for it. *)
Lemma view_node st cur p n :
  0 <= cur -> bit_node_wf n -> bp_pos p = bb_begin st.1 + cur -> bp_pos p + bit_node_size n <= bb_pos st.1 ->
  let st' := (bb_set_buf (bb_begin st.1) (bb_cur st.1)
    (area_write cur (bit_node_encode n (bp_key p) (bp_iv p)) (bb_buffer st.1)) st.1, st.2) in
  node_at (bb_view st') (bp_pos p) (bb_pos st.1) p n /\ (forall i, i < bp_pos p -> bb_view st' i = bb_view st i).
Proof.
  intros Hc Hwf Hp Hle st'. pose proof (length_bit_node_encode n (bp_key p) (bp_iv p) Hwf) as Hlen.
  split.
  - split; [lia|]. split; [done|]. split; [done|].
    rewrite -{1}(area_read_write_eq (bp_pos p) (bit_node_encode n (bp_key p) (bp_iv p)) (bb_view st)).
    rewrite -Hlen Nat2Z.id. apply area_read_ext => i _. rewrite Hp. apply view_write; [done|lia].
  - intros i Hi. rewrite view_write; [|done|lia]. apply area_write_out. lia.
Qed.

(** Emitting a leaf leaves the bytes below alone and stores the leaf, with a
    pointer to where the next leaf will be. *)
Lemma emit_chain st :
  0 <= bb_cur st.1 -> bb_height st.1 = 10 -> bit_node_wf (BitLeaf (bb_cur_leaf st.1)) ->
  let st' := bit_builder_emit_leaf st in
  0 <= bb_pos st'.1 < 2 ^ 64 ->
  (forall i, i < bb_pos st.1 -> bb_view st' i = bb_view st i) /\
  node_at (bb_view st') (bb_pos st.1) (bb_pos st'.1) (bb_leaf_ptr st.1)
    (BitLeaf (leaf_set_next (bb_leaf_ptr st'.1) (bb_cur_leaf st.1))).
Proof.
  intros Hc Hh (W1 & W2 & W3 & W4) st'. subst st'. destruct (emit_leaf_unfold st Hh Hc) as (st3 & k & w & E3 & Hk & Hw & ->).
  destruct (flush_ok st Hc Hh) as (Hpos1 & _ & Hc1 & _ & _ & _ & Hview1 & _ & _).
  destruct (bit_builder_buffer_flush_if_full st) as [b1 io1]. cbn [fst snd] in *.
  set (p := bb_leaf_ptr st.1) in *.
  assert (bb_pos (push_leaf b1 p) = bb_pos st.1 + 509) as Hpos2 by (rewrite -Hpos1 /bb_pos /push_leaf; cbn; change BIT_LEAF_NODE_SIZE with 509; lia).
  destruct (carry_frame 10 0 (push_leaf b1 p, io1)) as (Hb3 & Hp3 & Hv3).
  { cbn. change BIT_LEAF_NODE_SIZE with 509. lia. }
  rewrite -E3 in Hb3 Hp3 Hv3. cbn [fst] in *. change (bb_begin (push_leaf b1 p)) with (bb_begin b1) in Hb3.
  set (leaf := leaf_set_next _ _). intros Hr.
  assert (bit_node_wf (BitLeaf leaf)) as Hwf.
  { do 3 (split; [done|]). split; [exact Hr|done]. }
  destruct (view_node st3 (bb_cur b1) p (BitLeaf leaf) Hc1 Hwf) as [Hn Hf].
  { rewrite Hb3 -/(bb_pos b1). done. }
  { change (bit_node_size (BitLeaf leaf)) with 509. change (bp_pos p) with (bb_pos st.1). lia. }
  change (bp_pos p) with (bb_pos st.1) in Hn, Hf. split; [|exact Hn].
  intros i Hi. etransitivity; [by apply Hf|]. rewrite Hv3; [|lia]. rewrite -Hview1.
  rewrite /bb_view. cbn [fst snd push_leaf bb_set_ctx bb_set_buf bb_begin bb_buffer].
  rewrite -/(push_leaf b1 p) Hpos2. destruct (Z.leb_spec (bb_begin b1) i); [|done]. do 2 ztest. done.
Qed.

(** ** All entries *)

(** The leaf with the least key is the one the chain starts with. *)
Definition first_leaf (key0 : Z) (p0 : bit_pointer) : LeafPred := fun p es => key0 ∈ es.*1 -> p = p0.

Definition bb_chain (lo : Z) (p0 : bit_pointer) (full : list ent) st : Prop :=
  exists ess, concat ess = full /\ chain_at (bb_view st) lo (bb_pos st.1) p0 ess (bb_leaf_ptr st.1).

Lemma bb_chain_nil lo p0 st : bb_chain lo p0 [] st -> bb_leaf_ptr st.1 = p0.
Proof.
  intros ([|es ess] & Hc & Hch); [done|]. destruct Hch as (l & _ & _ & Hl & _). by destruct es.
Qed.

Section chained.
Context {lf : LeafPred}.

Lemma add_entry_chain lo file0 E full tail st e E' full' tail' p0 :
  let st' := bit_builder_add_entry (__entry e.1 e.2) st in
  bb_inv lo file0 E full tail st -> ent_wf e -> bb_chain lo p0 full st -> bb_inv lo file0 E' full' tail' st' ->
  full' ++ tail' = full ++ tail ++ [e] -> bb_chain lo p0 full' st'.
Proof.
  intros st' Hinv [He1 He2] (ess & Hess & Hch) Hinv' Heq.
  pose proof Hinv as [_ Hsh _ _ Hw _ _ Hh _ Hl Htl _ _ _].
  pose proof (iv_weight _ _ _ _ _ _ Hinv') as Hw'. pose proof (iv_tail _ _ _ _ _ _ Hinv') as Htl'.
  pose proof (iv_shape _ _ _ _ _ _ Hinv') as [_ _ Hlo' Hc' Hp'].
  pose proof (f_equal length Heq) as Hlen. rewrite !length_app in Hlen. cbn [length] in Hlen.
  destruct st as [b io]. cbn [fst snd] in *. subst st'. move: Hlo' Hc' Hp'.
  rewrite /bit_builder_add_entry. cbn [__entry e_key e_val]. rewrite u32_small //.
  change (bb_cur_leaf (bb_note_entry e.1 b)) with (bb_cur_leaf b).
  pose proof (leaf_append_holds _ tail e Hl Htl (conj He1 He2)) as Hl'.
  set (leaf := leaf_append e.1 e.2 (bb_cur_leaf b)) in *.
  set (b1 := bb_set_next (bb_next_key (bb_note_entry e.1 b)) (bb_next_iv (bb_note_entry e.1 b)) leaf (bb_note_entry e.1 b)).
  pose proof Hl' as (Hln & _ & Hlwf & _). rewrite length_app in Hln. cbn [length] in Hln. rewrite Hln.
  change BIT_LEAF_LEN with 8. destruct (Z.ltb_spec (Z.of_nat (length tail + 1)) 8) as [Hlt|Hge] => Hlo' Hc' Hp'.
  - apply app_inj_1 in Heq as [-> _]; [|lia]. exists ess. split; [done|exact Hch].
  - assert (full' = full ++ tail ++ [e]) as ->.
    { rewrite -Heq. destruct tail'; [by rewrite app_nil_r|]. cbn [length] in *. lia. }
    destruct (leaf_holds_full _ _ Hl' ltac:(rewrite length_app /=; lia)) as [_ Hes].
    destruct (emit_chain (b1, io) (bs_cur _ _ _ Hsh) Hh Hlwf) as [Hv Hn].
    { rewrite /bb_pos in Hp' |- *. lia. }
    exists (ess ++ [tail ++ [e]]). split; [by rewrite concat_app /= app_nil_r Hess|].
    set (leaf' := leaf_set_next (bb_leaf_ptr (bit_builder_emit_leaf (b1, io)).1) (bb_cur_leaf (b1, io).1)) in Hn.
    change (chain_at (bb_view (bit_builder_emit_leaf (b1, io))) lo (bb_pos (bit_builder_emit_leaf (b1, io)).1) p0
      (ess ++ [tail ++ [e]]) (bl_next leaf')).
    assert (leaf_entries leaf' = tail ++ [e]) as <- by exact Hes.
    pose proof Hn as (Hn1 & Hn2 & _). change (bit_node_size (BitLeaf leaf')) with 509 in Hn2.
    destruct (bs_lo _ _ _ Hsh) as [_ Hlob]. cbn [fst] in Hlob. pose proof (bs_cur _ _ _ Hsh) as Hcb. cbn [fst] in Hcb.
    apply (chain_at_snoc _ _ _ _ _ (bb_leaf_ptr b)).
    + eapply chain_at_mono; [|intros i Hi; etransitivity; [exact (Hv i (proj2 Hi))|done]|exact Hch].
      etransitivity; [|exact Hn2]. change (bb_pos b <= bb_pos b + 509). lia.
    + eapply node_at_mono; [exact Hn| |lia|done]. change (bb_pos (b1, io).1) with (bb_pos b). rewrite /bb_pos. lia.
    + change (length (leaf_entries leaf) = 8%nat). rewrite Hes length_app /=. lia.
Qed.

Lemma close_frame fuel h st :
  0 <= bb_cur st.1 ->
  let st' := bit_builder_close fuel h st in
  bb_begin st'.1 = bb_begin st.1 /\ bb_pos st.1 <= bb_pos st'.1 /\
  (forall i, i < bb_pos st.1 -> bb_view st' i = bb_view st i).
Proof.
  revert h st. induction fuel as [|fuel IH] => h st Hc; [done|]. cbn zeta. rewrite bit_builder_close_S.
  case_match; [by apply IH|].
  assert (bb_begin (bit_builder_push_inner h st).1 = bb_begin st.1 /\
          bb_cur (bit_builder_push_inner h st).1 = bb_cur st.1 + 189) as [Hb Hcur] by (by destruct st).
  destruct (IH (S h) (bit_builder_push_inner h st)) as (H1 & H2 & H3); [lia|].
  assert (bb_pos (bit_builder_push_inner h st).1 = bb_pos st.1 + 189) as Hp by (rewrite /bb_pos Hb Hcur; lia).
  split; [congruence|]. split; [lia|]. intros i Hi. rewrite H3; [|lia]. by apply push_inner_view.
Qed.

(** Finishing keeps the bytes below and stores the partial leaf, if there is one. *)
Lemma finish_chain st :
  0 <= bb_cur st.1 -> bb_height st.1 = 10 -> cx_nr (bb_ctx_at 9 st.1) = 0 -> bb_buffer_full st.1 = false ->
  bit_node_wf (BitLeaf (bb_cur_leaf st.1)) ->
  let st' := bit_builder_finish st in
  (forall i, i < bb_pos st.1 -> bb_view st' i = bb_view st i) /\ bb_pos st.1 <= bb_pos st'.1 /\
  (0 < bl_nr_record (bb_cur_leaf st.1) ->
   node_at (bb_view st') (bb_pos st.1) (bb_pos st'.1) (bb_leaf_ptr st.1) (BitLeaf (bb_cur_leaf st.1))).
Proof.
  intros Hc Hh H9 Hnf Hwf st'. subst st'. destruct st as [b io]. cbn [fst snd] in *.
  rewrite /bit_builder_finish. cbn [fst snd]. rewrite Hh. change (Z.to_nat (10 - 1)) with 9%nat. rewrite H9. cbn [Z.eqb negb].
  rewrite /bit_builder_buffer_flush_if_full Hnf. rewrite -/(bb_pos b) -/(bb_leaf_ptr b).
  destruct (Z.ltb_spec 0 (bl_nr_record (bb_cur_leaf b))) as [Hpart|Hnone].
  - change (bb_set_ctx _ _) with (place_partial b (bb_leaf_ptr b)).
    change (bb_height (place_partial b (bb_leaf_ptr b))) with (bb_height b). rewrite Hh.
    change (Z.to_nat (10 - 1)) with 9%nat.
    assert (bb_pos (place_partial b (bb_leaf_ptr b)) = bb_pos b + 509) as Hpos.
    { rewrite /bb_pos /place_partial. cbn. change BIT_LEAF_NODE_SIZE with 509. lia. }
    destruct (close_frame 9 0 (place_partial b (bb_leaf_ptr b), io)) as (C1 & C2 & C3).
    { cbn. change BIT_LEAF_NODE_SIZE with 509. lia. }
    destruct (bit_builder_close 9 0 _) as [b3 io3]. cbn [fst snd] in *.
    change (bb_begin (place_partial b (bb_leaf_ptr b))) with (bb_begin b) in C1.
    destruct (view_node (b3, io3) (bb_cur b) (bb_leaf_ptr b) (BitLeaf (bb_cur_leaf b)) Hc Hwf) as [Hn Hf].
    { cbn [fst]. by rewrite C1. }
    { change (bit_node_size _) with 509. cbn [bb_leaf_ptr bp_pos fst]. lia. }
    cbn [fst snd bb_leaf_ptr bp_pos] in Hn, Hf.
    split; [|split; [change (bb_pos b <= bb_pos b3); lia|intros _; exact Hn]].
    intros i Hi. etransitivity; [by apply Hf|]. rewrite C3; [|lia].
    rewrite /bb_view. cbn [fst snd place_partial bb_set_ctx bb_set_buf bb_begin bb_buffer].
    rewrite -/(place_partial b (bb_leaf_ptr b)) Hpos. destruct (Z.leb_spec (bb_begin b) i); [|done]. do 2 ztest. done.
  - cbn [fst snd]. rewrite Hh. change (Z.to_nat (10 - 1)) with 9%nat.
    destruct (close_frame 9 0 (b, io) Hc) as (C1 & C2 & C3). destruct (bit_builder_close 9 0 _) as [b3 io3].
    split; [exact C3|]. split; [exact C2|lia].
Qed.

(** The finished index region of the file is the builder's view. *)
Lemma complete_view st i :
  bb_begin (bit_builder_finish st).1 = bb_begin st.1 -> 0 <= bb_cur (bit_builder_finish st).1 ->
  i < bb_pos (bit_builder_finish st).1 ->
  io_file (bit_builder_complete st).2 i = bb_view (bit_builder_finish st) i.
Proof.
  intros Hb Hc Hi. rewrite /bit_builder_complete. destruct (bit_builder_finish st) as [b io]. cbn [fst snd] in *.
  cbn [io_write io_file]. rewrite area_write_out; [|rewrite /bb_pos in Hi; change BIT_INNER_NODE_SIZE with 189; lia].
  rewrite /bb_view. cbn [fst snd]. rewrite -Hb. destruct (Z.leb_spec (bb_begin b) i); cbn [andb].
  - ztest. rewrite area_copy_in; [f_equal; lia|]. rewrite /bb_pos in Hi. lia.
  - apply area_write_out. lia.
Qed.
End chained.

Lemma add_all_chain lo file0 key0 p0 E full tail st es :
  bb_inv (lf := first_leaf key0 p0) lo file0 E full tail st -> bb_chain lo p0 full st -> Forall ent_wf es -> lo <= 2 ^ 61 ->
  Z.of_nat (length (full ++ tail ++ es)) <= DEFAULT_LSM_FILE_CAPACITY ->
  ents_sorted (full ++ tail ++ es) -> fst <$> head (full ++ tail ++ es) = Some key0 ->
  exists E' full' tail', bb_inv (lf := first_leaf key0 p0) lo file0 E' full' tail' (bit_builder_add_all es st) /\
    full' ++ tail' = full ++ tail ++ es /\ bb_chain lo p0 full' (bit_builder_add_all es st).
Proof.
  revert E full tail st. induction es as [|e es IH] => E full tail st Hinv Hch Hwf Hlo Hcap Hs Hk.
  { exists E, full, tail. by rewrite app_nil_r. }
  apply Forall_cons in Hwf as [He Hwf].
  destruct (add_entry_ok (lf := first_leaf key0 p0) lo file0 E full tail st e Hinv He) as (E1 & f1 & t1 & Hinv1 & Heq1 & _); [|done| |].
  { pose proof (iv_weight _ _ _ _ _ _ Hinv) as Hw. rewrite !length_app in Hcap. cbn [length] in Hcap.
    rewrite /DEFAULT_LSM_FILE_CAPACITY in Hcap. lia. }
  { intros _ (x & -> & Hx)%list_elem_of_fmap. destruct full as [|y full].
    - by apply (bb_chain_nil lo).
    - exfalso. injection Hk as Hy. cbn [app] in Hs. apply StronglySorted_inv in Hs as [_ Hall].
      eapply Forall_forall in Hall; [|apply elem_of_app; right; rewrite (_ : tail ++ e :: es = (tail ++ [e]) ++ es);
        [apply elem_of_app; left; exact Hx|by rewrite -app_assoc]]. lia. }
  assert (f1 ++ t1 ++ es = full ++ tail ++ e :: es) as Hcat by (by rewrite app_assoc Heq1 -!app_assoc).
  destruct (IH E1 f1 t1 _ Hinv1) as (E' & f' & t' & Hinv' & Heq' & Hch'); try rewrite Hcat; try done.
  { exact (add_entry_chain lo file0 E full tail st e E1 f1 t1 p0 Hinv He Hch Hinv1 Heq1). }
  exists E', f', t'. split; [exact Hinv'|]. split; [by rewrite Heq' Hcat|done].
Qed.

(** ** Finished files *)

(** What an iterator needs of a file: the tree leads to the first leaf, and
    from there the chain goes through the entries. *)
Definition bit_file_chain (file : area) (lo hi : Z) (f : bit_file) (es : list ent) : Prop :=
  ents_sorted es /\ es <> [] /\ bf_last_key f = last_key es /\
  exists p0 full, tree_at (lf := first_leaf (bf_first_key f) p0) file lo hi 9 (bit_root f) full /\
    ents_sorted full /\ bf_first_key f ∈ full.*1 /\
    exists l0, node_at file lo hi p0 (BitLeaf l0) /\ leaves_at file lo hi l0 es.

Lemma bit_file_chain_stable file file' lo hi f es :
  bit_file_chain file lo hi f es -> (forall i, lo <= i < hi -> file' i = file i) -> bit_file_chain file' lo hi f es.
Proof.
  intros (H1 & H2 & H3 & p0 & full & H4 & H5 & H6 & l0 & H7 & H8) Hag. do 3 (split; [done|]). exists p0, full.
  split; [by eapply tree_at_mono; [| | |exact H4]|]. do 2 (split; [done|]). exists l0.
  split; [by eapply node_at_mono; [exact H7| | |]|by eapply leaves_at_mono].
Qed.

Lemma bit_iterator_create_ok file lo hi f es :
  bit_file_chain file lo hi f es ->
  exists it, bit_iterator_create file f = Ok it /\ it_file it = f /\ iter_ok file lo hi it es.
Proof.
  intros (Hs & Hne & Hlk & p0 & full & Ht & Hfs & Hk & l0 & Hn & Hlv).
  apply list_elem_of_fmap in Hk as ([k r] & Hk & Hin). cbn [fst] in Hk. subst k.
  pose proof (bit_search_from_spec (lf := first_leaf (bf_first_key f) p0) bit_search_fuel file lo hi 9 (bit_root f) full
    (bf_first_key f) ltac:(rewrite /bit_search_fuel; lia) Ht Hfs) as Hsp.
  rewrite (ents_map_elem full _ r Hfs Hin) in Hsp. destruct Hsp as (leaf & Hsr & _ & _ & q & Hq & Hlp & Hke).
  change (9 =? 0)%nat with false in Hsr.
  assert (q = p0) as -> by (apply Hlp, list_elem_of_fmap; by exists (bf_first_key f, r)).
  pose proof (node_at_decode _ _ _ _ _ Hq) as Hd1. pose proof (node_at_decode _ _ _ _ _ Hn) as Hd2.
  rewrite Hd1 in Hd2. injection Hd2 as ->.
  rewrite /bit_iterator_create /bit_file_first_leaf /bit_file_search_leaf Hsr.
  eexists. split; [done|]. split; [done|]. destruct es as [|e es]; [done|].
  do 3 (split; [done|]). exists 0%nat, (e :: es). do 3 (split; [done || lia|]). done.
Qed.

Lemma bb_chain_finish lo file0 E full tail p0 st {lf : LeafPred} :
  bb_inv lo file0 E full tail st -> full <> [] -> weight E <= 2 ^ 17 -> bb_buffer_full st.1 = false ->
  bb_chain lo p0 full st ->
  let st' := bit_builder_finish st in
  exists l0, node_at (bb_view st') lo (bb_pos st'.1) p0 (BitLeaf l0) /\
    leaves_at (bb_view st') lo (bb_pos st'.1) l0 (full ++ tail).
Proof.
  intros Hinv Hne Hw Hnf (ess & <- & Hch) st'.
  destruct (inv_open_level _ _ _ _ _ _ Hinv Hne Hw) as [H9 _]. pose proof (iv_shape _ _ _ _ _ _ Hinv) as [_ _ Hlo Hc _].
  pose proof (iv_leaf _ _ _ _ _ _ Hinv) as (Hln & Hl8 & Hlwf & Htk).
  destruct (finish_chain st Hc (iv_height _ _ _ _ _ _ Hinv) H9 Hnf Hlwf) as (Hv & Hp & Hn).
  apply (chain_leaves _ _ _ _ _ (bb_leaf_ptr st.1)).
  - eapply chain_at_mono; [exact Hp| |exact Hch]. intros i Hi. apply Hv. lia.
  - by intros ->.
  - intros Ht. exists (bb_cur_leaf st.1). split; [|done].
    eapply node_at_mono; [apply Hn| |done|done].
    + rewrite Hln. destruct tail; [done|]. cbn [length]. lia.
    + rewrite /bb_pos. lia.
Qed.

Lemma bit_file_build_chain begin id level version garbage io es :
  0 <= begin <= 2 ^ 61 -> Forall ent_wf es -> ents_sorted es -> (8 <= length es)%nat ->
  Z.of_nat (length es) <= DEFAULT_LSM_FILE_CAPACITY ->
  sim_full (Z.to_nat (Z.of_nat (length es) / 8)) = false ->
  let '(f, io') := bit_file_build begin id level version garbage io es in
  exists hi, hi + BIT_BLOOM_FILTER_SIZE <= begin + calculate_bit_size DEFAULT_LSM_FILE_CAPACITY DEFAULT_BIT_DEGREE /\
    bit_file_chain (io_file io') begin hi f es.
Proof.
  intros Hb Hwf Hs Hl Hcap Hsim.
  destruct (build_inv begin id level version garbage io es Hb Hwf Hl Hcap) as (_ & _ & _ & _ & _ & _ & _ & Hbf & _).
  rewrite /bit_file_build. set (st0 := bit_builder_create _ _ _ _ _ _) in *. set (st := bit_builder_add_all es st0) in *.
  destruct es as [|e0 es']; [cbn [length] in Hl; lia|]. set (es := e0 :: es') in *.
  set (p0 := bb_leaf_ptr st0.1).
  destruct (add_all_chain begin (io_file io) e0.1 p0 (replicate 10 []) [] [] st0 es) as (E & full & tail & Hinv & Heq & Hch).
  { by apply create_ok. } { by exists []. } { done. } { lia. } { done. } { done. } { done. }
  fold st in Hinv, Hch. cbn [app] in Heq. rewrite Hsim in Hbf.
  pose proof (iv_weight _ _ _ _ _ _ Hinv) as Hw. pose proof (iv_tail _ _ _ _ _ _ Hinv) as Htl.
  pose proof (f_equal length Heq) as Hlen. rewrite length_app in Hlen. rewrite /DEFAULT_LSM_FILE_CAPACITY in Hcap.
  assert (full <> []) as Hne by (intros ->; cbn [length] in Hlen; lia).
  assert (weight E <= 2 ^ 17) as Hwle by lia.
  assert (ents_sorted full) as Hfs by (rewrite -Heq in Hs; by apply ents_sorted_app in Hs as (? & _)).
  pose proof (complete_ok (lf := first_leaf e0.1 p0) begin (io_file io) E full tail st Hinv Hne Hfs Hwle ltac:(lia) Hbf) as Hc.
  pose proof (finish_ok (lf := first_leaf e0.1 p0) begin (io_file io) E full tail st Hinv Hne Hwle ltac:(lia) Hbf)
    as (_ & _ & Hpos & Hbeg & _ & _).
  destruct (bb_chain_finish begin (io_file io) E full tail p0 st Hinv Hne Hwle Hbf Hch) as (l0 & Hn0 & Hlv).
  pose proof (bs_lo _ _ _ (iv_shape _ _ _ _ _ _ Hinv)) as Hlo. pose proof (bs_cur _ _ _ (iv_shape _ _ _ _ _ _ Hinv)) as Hcur.
  pose proof (fun i => complete_view st i Hbeg ltac:(rewrite /bb_pos Hbeg in Hpos; lia)) as Hview.
  pose proof (iv_keys _ _ _ _ _ _ Hinv) as (_ & Hk & _). rewrite Heq in Hk. destruct (Hk ltac:(done)) as [Hfk Hlk].
  destruct (bit_builder_complete st) as [f io'] eqn:Ecomp. cbn [snd] in Hview.
  destruct Hc as (hi & Hok & H2 & H3 & _ & _ & _ & _ & H8 & H9 & H10 & H11 & _).
  assert (hi = bb_pos (bit_builder_finish st).1) as ->.
  { rewrite /bit_builder_complete in Ecomp. destruct (bit_builder_finish st) as [b io2]. injection Ecomp as <- <-.
    cbn [bit_file_create bf_filter_begin fst] in H11 |- *. rewrite -H11 /bb_pos. lia. }
  exists (bb_pos (bit_builder_finish st).1). split; [done|]. split; [done|]. split; [done|]. split; [congruence|].
  exists p0, full. rewrite H8 Hfk. split; [apply Hok|]. split; [done|]. split.
  - destruct full as [|x full]; [done|]. injection Heq as -> _. left.
  - exists l0. rewrite -Heq. split; [eapply node_at_mono; [exact Hn0|done|done|]|eapply leaves_at_mono; [|exact Hlv]]; intros i Hi; apply Hview; lia.
Qed.
End building.
