(* ===== verification/Level.v ===== *)
(** * Levels of the LSM tree (struct bit_level, source/lsm_tree.c)

    A level keeps its files in an array ordered by first key.  The files of
    level 0 may overlap and are searched one after the other, the newest
    version winning; those of the other levels do not overlap and the one that
    can hold a key is found by binary search. *)
From S2P Require Import Prelude Codec Crypto BitNode Superblock Area Bloom Hashtable Catalogue BitFile BitTree.

(** ** The kernel's [bsearch]: the comparison of the key with an element *)
Class Bsearch : Type := bsearch : forall A : Type, (A -> Z) -> list A -> option nat.
Arguments bsearch {_ A} cmp l.

(** On an array that is ordered for the key, it finds a match if there is one. *)
Class BsearchOk `{Bsearch} : Prop := bsearch_ok (A : Type) (cmp : A -> Z) (l : list A) :
  StronglySorted (fun x y => Z.sgn (cmp y) <= Z.sgn (cmp x)) l ->
  match bsearch cmp l with
  | Some i => exists x, l !! i = Some x /\ cmp x = 0
  | None => forall x, x ∈ l -> cmp x <> 0
  end.



Definition zero_filter : bloom_filter := bloom_filter_create 0.
Definition zero_file : bit_file :=
  {| bf_id := 0; bf_level := 0; bf_version := 0; bf_root := 0; bf_root_key := []; bf_root_iv := [];
     bf_first_key := 0; bf_last_key := 0; bf_cached_leaf := zero_leaf; bf_filter_begin := 0;
     bf_filter := zero_filter |}.

(** ** struct bit_level: [lv_files] are the first [size] slots of [bit_files] *)
Record bit_level : Type := {
  lv_level : Z;
  lv_capacity : Z;
  lv_max_size : Z;
  lv_files : list bit_file
}.

Definition lv_size (this : bit_level) : Z := Z.of_nat (length (lv_files this)).
Definition lv_at (fs : list bit_file) (i : Z) : bit_file := nth (Z.to_nat i) fs zero_file.
Definition lv_set_files (fs : list bit_file) (this : bit_level) : bit_level :=
  {| lv_level := lv_level this; lv_capacity := lv_capacity this; lv_max_size := lv_max_size this;
     lv_files := fs |}.

Definition bit_level_create (level capacity : Z) : bit_level :=
  {| lv_level := level; lv_capacity := capacity;
     lv_max_size := 2 * capacity + DEFAULT_LSM_LEVEL0_NR_FILE; lv_files := [] |}.

Definition bit_level_is_full (this : bit_level) : bool := lv_capacity this <=? lv_size this.

Definition bit_file_cmp (file1 file2 : bit_file) : Z :=
  if bf_first_key file1 =? bf_first_key file2 then bf_last_key file1 - bf_last_key file2
  else bf_first_key file1 - bf_first_key file2.

Fixpoint search_file_loop (fuel : nat) (fs : list bit_file) (file : bit_file) (low high : Z) : Z :=
  match fuel with
  | O => low
  | S fuel =>
      if low <? high then
        let mid := low + Z.shiftr (high - low) 1 in
        if bit_file_cmp (lv_at fs mid) file <? 0
        then search_file_loop fuel fs file (mid + 1) high
        else search_file_loop fuel fs file low mid
      else low
  end.

(** The slot a file belongs into; the loop halves its interval, so [size]
    rounds are enough. *)
Definition bit_level_search_file (this : bit_level) (file : bit_file) : Z :=
  let fs := lv_files this in
  let high := lv_size this - 1 in
  if lv_size this =? 0 then 0
  else if 0 <=? bit_file_cmp (lv_at fs 0) file then 0
  else if bit_file_cmp (lv_at fs high) file <=? 0 then high + 1
  else search_file_loop (length fs) fs file 0 high.

Definition bit_file_cmp_key (key : Z) (file : bit_file) : Z :=
  if (bf_first_key file <=? key) && (key <=? bf_last_key file) then 0
  else if key <? bf_first_key file then -1 else 1.

(** The [memmove] is skipped when the last slot is filled. *)
Definition bit_level_add_file (file : bit_file) : SE bit_level unit := fun this =>
  if lv_max_size this <=? lv_size this then (Err ENOSPC, this)
  else
    let pos := bit_level_search_file this file in
    let i := Z.to_nat pos in
    let fs := lv_files this in
    let fs' := if pos + 1 <? lv_max_size this then take i fs ++ file :: drop i fs
               else take i fs ++ file :: drop (S i) fs in
    (Ok tt, lv_set_files fs' this).

Fixpoint remove_file_loop (id : Z) (fs : list bit_file) : option (list bit_file) :=
  match fs with
  | [] => None
  | f :: fs => if bf_id f =? id then Some fs else (fun fs' => f :: fs') <$> remove_file_loop id fs
  end.

Definition bit_level_remove_file (id : Z) : SE bit_level unit := fun this =>
  match remove_file_loop id (lv_files this) with
  | None => (Err EINVAL, this)
  | Some fs => (Ok tt, lv_set_files fs this)
  end.

Definition bit_level_pick_demoted_files (this : bit_level) : list bit_file :=
  match lv_files this with
  | [] => []
  | f :: fs => if negb (lv_level this =? 0) then [f] else f :: fs
  end.

Definition bit_level_get_first_key (this : bit_level) : Z := bf_first_key (lv_at (lv_files this) 0).
Definition bit_level_get_last_key (this : bit_level) : Z := bf_last_key (lv_at (lv_files this) (lv_size this - 1)).

Fixpoint lower_bound_loop (fuel : nat) (fs : list bit_file) (key low high : Z) : Z :=
  match fuel with
  | O => low
  | S fuel =>
      if low <? high then
        let mid := low + Z.shiftr (high - low) 1 in
        if (bf_first_key (lv_at fs mid) <=? key) && (key <=? bf_last_key (lv_at fs mid)) then mid
        else if key <? bf_first_key (lv_at fs mid) then lower_bound_loop fuel fs key low (mid - 1)
        else lower_bound_loop fuel fs key (mid + 1) high
      else low
  end.

Definition bit_level_lower_bound (this : bit_level) (key : Z) : Z :=
  let fs := lv_files this in
  let high := lv_size this - 1 in
  if key <? bf_first_key (lv_at fs 0) then 0
  else if bf_last_key (lv_at fs high) <? key then high + 1
  else lower_bound_loop (length fs) fs key 0 high.

(** [while (pos < size && bit_files[pos]->first_key <= last_key)] *)
Fixpoint take_relatives (last_key : Z) (fs : list bit_file) : list bit_file :=
  match fs with
  | [] => []
  | f :: fs => if bf_first_key f <=? last_key then f :: take_relatives last_key fs else []
  end.

Definition files_first_key (files : list bit_file) : Z :=
  foldl (fun a f => Z.min a (bf_first_key f)) 4294967295 files.
Definition files_last_key (files : list bit_file) : Z :=
  foldl (fun a f => Z.max a (bf_last_key f)) 0 files.

Definition bit_level_find_relative_files (this : bit_level) (files : list bit_file) : list bit_file :=
  if lv_size this =? 0 then []
  else
    let first_key := files_first_key files in
    let last_key := files_last_key files in
    if (last_key <? bit_level_get_first_key this) || (bit_level_get_last_key this <? first_key) then []
    else take_relatives last_key (drop (Z.to_nat (bit_level_lower_bound this first_key)) (lv_files this)).

Section level.
Context {gcm : Gcm} {bs : Bsearch}.

Definition bit_level_locate_file_pointer (this : bit_level) (key : Z) : option nat :=
  bsearch (bit_file_cmp_key key) (lv_files this).
Definition bit_level_locate_file (this : bit_level) (key : Z) : option bit_file :=
  bit_level_locate_file_pointer this key ≫= fun i => lv_files this !! i.

(** The files behind the loop's position; [val] is overwritten by each hit.
    Searching a file may change its cached leaf. *)
Fixpoint linear_search_loop (file : area) (key cur_version : Z) (found : option record) (fs : list bit_file)
    : option record * list bit_file :=
  match fs with
  | [] => (found, [])
  | f :: fs =>
      if bf_version f <? cur_version then
        let '(r, fs') := linear_search_loop file key cur_version found fs in (r, f :: fs')
      else
        match bit_file_search file key f with
        | (Ok v, f') => let '(r, fs') := linear_search_loop file key (bf_version f) (Some v) fs in (r, f' :: fs')
        | (Err _, f') => let '(r, fs') := linear_search_loop file key cur_version found fs in (r, f' :: fs')
        end
  end.

Definition bit_level_linear_search (file : area) (key : Z) (this : bit_level) : result record * bit_level :=
  let '(r, fs) := linear_search_loop file key 0 None (lv_files this) in
  (match r with Some v => Ok v | None => Err ENODATA end, lv_set_files fs this).

Definition bit_level_search (file : area) (key : Z) (this : bit_level) : result record * bit_level :=
  if lv_level this =? 0 then bit_level_linear_search file key this
  else
    match bit_level_locate_file_pointer this key with
    | None => (Err ENODATA, this)
    | Some i =>
        match lv_files this !! i with
        | None => (Err ENODATA, this)
        | Some f => let '(r, f') := bit_file_search file key f in
                    (r, lv_set_files (<[i := f']> (lv_files this)) this)
        end
    end.
End level.

(** ** The order of the files *)
Definition file_le (f g : bit_file) : Prop := bit_file_cmp f g <= 0.

Lemma bit_file_cmp_spec f g :
  (bit_file_cmp f g <= 0 <-> bf_first_key f < bf_first_key g \/
     bf_first_key f = bf_first_key g /\ bf_last_key f <= bf_last_key g) /\
  (bit_file_cmp f g < 0 <-> bf_first_key f < bf_first_key g \/
     bf_first_key f = bf_first_key g /\ bf_last_key f < bf_last_key g).
Proof. rewrite /bit_file_cmp. zbool; lia. Qed.

#[export] Instance file_le_trans : Transitive file_le.
Proof.
  intros f g h H1%bit_file_cmp_spec H2%bit_file_cmp_spec. apply bit_file_cmp_spec. lia.
Qed.

Lemma lv_at_lookup fs (i : nat) f : fs !! i = Some f -> lv_at fs (Z.of_nat i) = f.
Proof. intros Hi. by rewrite /lv_at Nat2Z.id nth_lookup Hi. Qed.

Lemma lv_at_Some fs i : 0 <= i < Z.of_nat (length fs) -> fs !! Z.to_nat i = Some (lv_at fs i).
Proof.
  intros Hi. destruct (lookup_lt_is_Some_2 fs (Z.to_nat i)) as [f Hf]; [lia|].
  by rewrite Hf /lv_at nth_lookup Hf.
Qed.

(** A test that is first true and then false along the array. *)
Lemma sorted_split {A} (P : A -> Prop) (R : relation A) (l : list A) (p : nat) x :
  StronglySorted R l -> (forall a b, R a b -> P b -> P a) -> l !! p = Some x -> P x ->
  forall i y, l !! i = Some y -> (i <= p)%nat -> P y.
Proof.
  intros Hs HP Hp Hx i y Hi Hle. destruct (decide (i = p)) as [->|]; [congruence|].
  eapply HP; [|exact Hx]. eapply sorted_lookup; [exact Hs|done|done|lia].
Qed.

Lemma mid_bounds low high : low < high -> low <= low + Z.shiftr (high - low) 1 < high.
Proof. intros. rewrite Z.shiftr_div_pow2 // Z.pow_1_r. pose proof (Z.div_mod (high - low) 2). pose proof (Z.mod_pos_bound (high - low) 2). lia. Qed.

Lemma search_file_loop_ok fuel fs file low high :
  StronglySorted file_le fs -> 0 <= low <= high -> high < Z.of_nat (length fs) -> high - low <= Z.of_nat fuel ->
  (forall i f, fs !! i = Some f -> Z.of_nat i < low -> bit_file_cmp f file < 0) ->
  0 <= bit_file_cmp (lv_at fs high) file ->
  let p := search_file_loop fuel fs file low high in
  low <= p <= high /\ (forall i f, fs !! i = Some f -> Z.of_nat i < p -> bit_file_cmp f file < 0) /\
  0 <= bit_file_cmp (lv_at fs p) file.
Proof.
  intros Hs. revert low high. induction fuel as [|fuel IH] => low high Hlh Hh Hfu Hlow Hhigh; cbn [search_file_loop].
  { assert (low = high) as -> by lia. split; [lia|done]. }
  destruct (Z.ltb_spec low high) as [Hlt|Hge]; last first.
  { assert (low = high) as -> by lia. split; [lia|done]. }
  pose proof (mid_bounds low high Hlt) as Hm. set (mid := low + _) in *.
  destruct (Z.ltb_spec (bit_file_cmp (lv_at fs mid) file) 0) as [Hc|Hc].
  - destruct (IH (mid + 1) high) as (H1 & H2 & H3); [lia|lia|lia| |done|].
    + intros i f Hi Hlti. refine (sorted_split (fun g => bit_file_cmp g file < 0) _ fs (Z.to_nat mid) _ Hs _ _ Hc i f Hi _).
      * intros a b Hab%bit_file_cmp_spec Hb%bit_file_cmp_spec. apply bit_file_cmp_spec. lia.
      * apply lv_at_Some. lia.
      * lia.
    + split; [lia|done].
  - destruct (IH low mid) as (H1 & H2 & H3); [lia|lia|lia|done|done|]. split; [lia|done].
Qed.

(** The slot found has only smaller or equal files before it and only greater
    or equal ones from it on. *)
Lemma bit_level_search_file_ok this file :
  StronglySorted file_le (lv_files this) ->
  let p := bit_level_search_file this file in
  0 <= p <= lv_size this /\
  forall i f, lv_files this !! i = Some f ->
    (Z.of_nat i < p -> file_le f file) /\ (p <= Z.of_nat i -> file_le file f).
Proof.
  intros Hs. rewrite /bit_level_search_file /lv_size. set (fs := lv_files this) in *.
  destruct (Z.eqb_spec (Z.of_nat (length fs)) 0) as [H0|H0].
  { split; [lia|]. intros i f Hi%lookup_lt_Some. lia. }
  assert (forall f g, 0 <= bit_file_cmp f g -> file_le g f) as Hflip.
  { intros f g Hc. apply bit_file_cmp_spec. pose proof (bit_file_cmp_spec f g). lia. }
  assert (forall p i f, 0 <= p < Z.of_nat (length fs) -> 0 <= bit_file_cmp (lv_at fs p) file ->
    fs !! i = Some f -> p <= Z.of_nat i -> file_le file f) as Hup.
  { intros p i f Hp Hc Hi Hle. apply Hflip in Hc. destruct (decide (Z.to_nat p = i)) as [<-|Hne].
    - rewrite lv_at_Some // in Hi. by injection Hi as <-.
    - etrans; [exact Hc|]. eapply sorted_lookup; [exact Hs|by apply lv_at_Some|done|lia]. }
  zbool.
  - split; [lia|]. intros i f Hi. split; [lia|]. intros. by eapply (Hup 0); [lia| | |].
  - split; [lia|]. intros i f Hi. pose proof (lookup_lt_Some _ _ _ Hi). split; [|lia]. intros _.
    refine (sorted_split (fun g => file_le g file) _ fs (Z.to_nat (Z.of_nat (length fs) - 1)) _ Hs _ _ _ i f Hi _);
      [|apply lv_at_Some; lia|done|lia].
    intros a b Hab Hb. by etrans.
  - destruct (search_file_loop_ok (length fs) fs file 0 (Z.of_nat (length fs) - 1)) as (H1' & H2 & H3); try lia; [done|].
    split; [lia|]. intros i f Hi. split; [|intros; eapply Hup; [|exact H3|exact Hi|done]; lia].
    intros Hlt. specialize (H2 i f Hi Hlt). rewrite /file_le. lia.
Qed.

Lemma bit_level_add_file_split this file :
  lv_size this < lv_max_size this ->
  let i := Z.to_nat (bit_level_search_file this file) in
  StronglySorted file_le (lv_files this) ->
  bit_level_add_file file this =
    (Ok tt, lv_set_files (take i (lv_files this) ++ file :: drop i (lv_files this)) this).
Proof.
  intros Hm i Hs. destruct (bit_level_search_file_ok this file Hs) as [Hp _].
  rewrite /bit_level_add_file. ztest. destruct (Z.ltb_spec (bit_level_search_file this file + 1) (lv_max_size this)); [done|].
  rewrite -/i. do 4 f_equal. rewrite /lv_size in Hm Hp. rewrite !drop_ge //; lia.
Qed.

(** Inserting a file keeps the array ordered. *)
Lemma bit_level_add_file_ok this file :
  StronglySorted file_le (lv_files this) -> lv_size this < lv_max_size this ->
  exists fs', bit_level_add_file file this = (Ok tt, lv_set_files fs' this) /\
    StronglySorted file_le fs' /\ fs' ≡ₚ file :: lv_files this.
Proof.
  intros Hs Hm. destruct (bit_level_search_file_ok this file Hs) as [Hp Hpos].
  eexists. split; [by apply bit_level_add_file_split|]. set (i := Z.to_nat _). split; last first.
  { rewrite -{3}(take_drop i (lv_files this)). by rewrite Permutation_middle. }
  rewrite -(take_drop i (lv_files this)) in Hs. apply sorted_app in Hs as (H1 & H2 & H3).
  assert (forall x, x ∈ take i (lv_files this) -> file_le x file) as Hl.
  { intros x (j & Hj)%list_elem_of_lookup. apply lookup_take_Some in Hj as [Hj ?]. apply (Hpos j x Hj). lia. }
  assert (forall x, x ∈ drop i (lv_files this) -> file_le file x) as Hr.
  { intros x (j & Hj)%list_elem_of_lookup. rewrite lookup_drop in Hj. apply (Hpos _ x Hj). lia. }
  apply sorted_app. split; [done|]. split; [constructor; [done|by apply Forall_forall]|].
  intros x y Hx [->|Hy]%elem_of_cons; [by apply Hl|by apply H3].
Qed.

(** ** Levels without overlaps *)
Definition file_overlap (f g : bit_file) : Prop :=
  bf_first_key f <= bf_last_key g /\ bf_first_key g <= bf_last_key f.
Definition file_before (f g : bit_file) : Prop := bf_last_key f < bf_first_key g.
Definition file_range_ok (f : bit_file) : Prop := bf_first_key f <= bf_last_key f.

Record lv_disjoint (fs : list bit_file) : Prop := {
  ld_sorted : StronglySorted file_before fs;
  ld_range : Forall file_range_ok fs
}.

Lemma lv_disjoint_le fs : lv_disjoint fs -> StronglySorted file_le fs.
Proof.
  intros [Hs Hr]. induction Hs as [|f fs Hs IH Hall]; [constructor|].
  apply Forall_cons in Hr as [Hf Hr]. constructor; [by apply IH|]. apply Forall_forall => g Hg.
  eapply Forall_forall in Hall; [|done]. eapply Forall_forall in Hr; [|done]. apply bit_file_cmp_spec.
  rewrite /file_before /file_range_ok in Hall Hr Hf. lia.
Qed.

Lemma lv_disjoint_add fs1 fs2 file :
  lv_disjoint (fs1 ++ fs2) -> file_range_ok file -> (forall g, g ∈ fs1 ++ fs2 -> ~ file_overlap file g) ->
  StronglySorted file_le (fs1 ++ file :: fs2) -> lv_disjoint (fs1 ++ file :: fs2).
Proof.
  intros [Hs Hr] Hf Hno Hle. apply Forall_app in Hr as [Hr1 Hr2]. apply sorted_app in Hs as (H1 & H2 & H3).
  apply sorted_app in Hle as (_ & [_ Hb]%StronglySorted_inv & Ha).
  assert (forall g, g ∈ fs1 ++ fs2 -> file_before file g \/ file_before g file) as Hside.
  { intros g Hg. specialize (Hno g Hg). rewrite /file_before. rewrite /file_overlap in Hno. lia. }
  split; [|by apply Forall_app; split; [|constructor]].
  apply sorted_app. split; [done|]. split; [constructor; [done|]|].
  - apply Forall_forall => g Hg. destruct (Hside g ltac:(set_solver)) as [|Hgb]; [done|].
    eapply Forall_forall in Hb; [|done]. apply bit_file_cmp_spec in Hb.
    eapply Forall_forall in Hr2; [|done]. rewrite /file_before /file_range_ok in Hgb Hr2 Hf. lia.
  - intros x y Hx [->|Hy]%elem_of_cons; [|by apply H3].
    destruct (Hside x ltac:(set_solver)) as [Hgb|]; [|done].
    specialize (Ha x file Hx ltac:(left)). apply bit_file_cmp_spec in Ha.
    eapply Forall_forall in Hr1; [|done]. rewrite /file_before /file_range_ok in Hgb Hr1 Hf. lia.
Qed.

Lemma lv_disjoint_add_file this file :
  lv_disjoint (lv_files this) -> lv_size this < lv_max_size this -> file_range_ok file ->
  (forall g, g ∈ lv_files this -> ~ file_overlap file g) ->
  exists fs', bit_level_add_file file this = (Ok tt, lv_set_files fs' this) /\
    lv_disjoint fs' /\ fs' ≡ₚ file :: lv_files this.
Proof.
  intros Hd Hm Hf Hno. pose proof (lv_disjoint_le _ Hd) as Hs.
  destruct (bit_level_add_file_ok this file Hs Hm) as (fs' & Hadd & Hs' & Hp).
  pose proof (bit_level_add_file_split this file Hm Hs) as Hsp. rewrite Hadd in Hsp. injection Hsp as Heq.
  exists fs'. split; [done|]. split; [|done]. rewrite Heq in Hs' |- *.
  apply lv_disjoint_add; rewrite ?take_drop; done.
Qed.

Lemma lv_disjoint_sub fs fs' : lv_disjoint fs -> sublist fs' fs -> lv_disjoint fs'.
Proof.
  intros [Hs Hr] Hsub. induction Hsub as [|f l1 l2 Hsub IH|f l1 l2 Hsub IH]; [done| |].
  - apply StronglySorted_inv in Hs as [Hs Hall]. apply Forall_cons in Hr as [? Hr].
    destruct (IH Hs Hr) as [I1 I2]. split; [|by constructor]. constructor; [done|].
    apply Forall_forall => g Hg. eapply Forall_forall in Hall; [done|]. by eapply elem_of_sublist.
  - apply StronglySorted_inv in Hs as [Hs _]. apply Forall_cons in Hr as [_ Hr]. by apply IH.
Qed.

(** ** Removing a file *)
Lemma remove_file_loop_ok id fs :
  match remove_file_loop id fs with
  | Some fs' => exists f pre post, fs = pre ++ f :: post /\ fs' = pre ++ post /\ bf_id f = id /\
      Forall (fun g => bf_id g <> id) pre
  | None => Forall (fun g => bf_id g <> id) fs
  end.
Proof.
  induction fs as [|f fs IH]; [by constructor|]. cbn [remove_file_loop].
  destruct (Z.eqb_spec (bf_id f) id) as [He|He].
  - by exists f, [], fs.
  - destruct (remove_file_loop id fs) as [fs'|]; simpl; [|by constructor].
    destruct IH as (g & pre & post & -> & -> & Hg & Hpre). exists g, (f :: pre), post. split_and!; try done. by constructor.
Qed.

(** ** The files next to a key range *)
Lemma lower_bound_loop_ok fuel fs key low high :
  lv_disjoint fs -> 0 <= low -> high < Z.of_nat (length fs) -> low <= high + 1 -> high - low <= Z.of_nat fuel ->
  (forall i f, fs !! i = Some f -> Z.of_nat i < low -> bf_last_key f < key) ->
  let p := lower_bound_loop fuel fs key low high in
  low <= p /\ p <= Z.max low high /\ (forall i f, fs !! i = Some f -> Z.of_nat i < p -> bf_last_key f < key).
Proof.
  intros [Hs Hr]. revert low high. induction fuel as [|fuel IH] => low high Hl Hh Hlh Hfu Hlow; cbn [lower_bound_loop].
  { by split; [lia|split; [lia|]]. }
  destruct (Z.ltb_spec low high) as [Hlt|Hge]; last by split; [lia|split; [lia|]].
  pose proof (mid_bounds low high Hlt) as Hm. set (mid := low + _) in *.
  assert (fs !! Z.to_nat mid = Some (lv_at fs mid)) as Hmid by (apply lv_at_Some; lia).
  destruct (_ && _) eqn:Ein.
  - apply andb_true_iff in Ein as [E1%Z.leb_le E2%Z.leb_le]. split; [lia|]. split; [lia|].
    intros i f Hi Hlti. pose proof (sorted_lookup _ _ i (Z.to_nat mid) _ _ Hs Hi Hmid ltac:(lia)) as Hb.
    rewrite /file_before in Hb. lia.
  - destruct (Z.ltb_spec key (bf_first_key (lv_at fs mid))) as [Hk|Hk].
    + destruct (IH low (mid - 1)) as (H1 & H2 & H3); [lia|lia|lia|lia|done|]. split; [lia|]. split; [lia|done].
    + destruct (IH (mid + 1) high) as (H1 & H2 & H3); [lia|lia|lia|lia| |].
      * intros i f Hi Hlti. destruct (decide (i = Z.to_nat mid)) as [->|Hne].
        -- rewrite Hmid in Hi. injection Hi as <-. zbool; simpl in Ein; try done; lia.
        -- pose proof (sorted_lookup _ _ i (Z.to_nat mid) _ _ Hs Hi Hmid ltac:(lia)) as Hb. rewrite /file_before in Hb.
           lia.
      * split; [lia|]. split; [lia|done].
Qed.

Lemma take_relatives_split last_key fs :
  StronglySorted file_before fs -> Forall file_range_ok fs ->
  exists post, fs = take_relatives last_key fs ++ post /\ Forall (fun f => last_key < bf_first_key f) post.
Proof.
  induction 1 as [|f fs Hs IH Hall]; [by exists []|]. intros [Hf Hr]%Forall_cons. cbn [take_relatives].
  destruct (Z.leb_spec (bf_first_key f) last_key) as [Hle|Hgt].
  - destruct (IH Hr) as (post & Heq & Hp). exists post. by rewrite {1}Heq.
  - exists (f :: fs). split; [done|]. constructor; [done|]. apply Forall_forall => g Hg.
    eapply Forall_forall in Hall; [|done]. rewrite /file_before /file_range_ok in Hall Hf. lia.
Qed.

Lemma lower_bound_ok this key :
  lv_disjoint (lv_files this) -> lv_files this <> [] ->
  let p := bit_level_lower_bound this key in
  0 <= p /\ (forall i f, lv_files this !! i = Some f -> Z.of_nat i < p -> bf_last_key f < key).
Proof.
  intros Hd Hne. assert (0 < Z.of_nat (length (lv_files this))) as Hlen by (destruct (lv_files this); simpl in *; [done|lia]).
  rewrite /bit_level_lower_bound /lv_size. set (fs := lv_files this) in *. zbool.
  - split; [lia|]. intros. lia.
  - split; [lia|]. intros i f Hi _. pose proof (lookup_lt_Some _ _ _ Hi).
    destruct (decide (i = Z.to_nat (Z.of_nat (length fs) - 1))) as [->|Hn].
    + rewrite lv_at_Some in Hi; [|lia]. injection Hi as <-. done.
    + pose proof (sorted_lookup _ _ i _ _ _ (ld_sorted _ Hd) Hi (lv_at_Some fs (Z.of_nat (length fs) - 1) ltac:(lia)) ltac:(lia)) as Hb.
      pose proof (list_elem_of_lookup_2 _ _ _ (lv_at_Some fs (Z.of_nat (length fs) - 1) ltac:(lia))) as Hin.
      pose proof (ld_range _ Hd) as Hr. eapply Forall_forall in Hr; [|exact Hin].
      rewrite /file_before /file_range_ok in Hb Hr. lia.
  - destruct (lower_bound_loop_ok (length fs) fs key 0 (Z.of_nat (length fs) - 1) Hd) as (H1 & _ & H3); try lia. done.
Qed.

Lemma files_first_le fs f : f ∈ fs -> files_first_key fs <= bf_first_key f.
Proof.
  assert (forall fs a, foldl (fun a f => Z.min a (bf_first_key f)) a fs <= a) as Hle.
  { clear. induction fs as [|g fs IH] => a; [done|]. cbn [foldl]. specialize (IH (Z.min a (bf_first_key g))). lia. }
  rewrite /files_first_key. generalize 4294967295. induction fs as [|g fs IH] => a; [by intros ?%elem_of_nil|]. cbn [foldl].
  intros [->|Hin]%elem_of_cons; [|by apply IH]. specialize (Hle fs (Z.min a (bf_first_key g))). lia.
Qed.

Lemma files_last_ge fs f : f ∈ fs -> bf_last_key f <= files_last_key fs.
Proof.
  assert (forall fs a, a <= foldl (fun a f => Z.max a (bf_last_key f)) a fs) as Hle.
  { clear. induction fs as [|g fs IH] => a; [done|]. cbn [foldl]. specialize (IH (Z.max a (bf_last_key g))). lia. }
  rewrite /files_last_key. generalize 0. induction fs as [|g fs IH] => a; [by intros ?%elem_of_nil|]. cbn [foldl].
  intros [->|Hin]%elem_of_cons; [|by apply IH]. specialize (Hle fs (Z.max a (bf_last_key g))). lia.
Qed.

(** The relatives are a run of the level's files; those before end before the
    range begins, those behind begin after it ends. *)
Lemma find_relative_split this files :
  lv_disjoint (lv_files this) ->
  exists pre post, lv_files this = pre ++ bit_level_find_relative_files this files ++ post /\
    Forall (fun f => bf_last_key f < files_first_key files) pre /\
    Forall (fun f => files_last_key files < bf_first_key f) post.
Proof.
  intros Hd. rewrite /bit_level_find_relative_files /lv_size.
  destruct (lv_files this) as [|f0 fs0] eqn:Efs.
  { exists [], []. done. }
  rewrite -Efs in Hd |- *. assert (0 < Z.of_nat (length (lv_files this))) as Hlen by (rewrite Efs; simpl; lia). ztest.
  destruct (_ || _) eqn:Eout.
  - apply orb_true_iff in Eout as [E%Z.ltb_lt|E%Z.ltb_lt].
    + exists [], (lv_files this). split; [done|]. split; [done|]. apply Forall_forall => g Hg.
      rewrite /bit_level_get_first_key in E. apply list_elem_of_lookup in Hg as [i Hi].
      pose proof (lv_at_Some (lv_files this) 0 ltac:(lia)) as H0. change (Z.to_nat 0) with 0%nat in H0.
      destruct i as [|i]; [congruence|].
      pose proof (sorted_lookup _ _ _ _ _ _ (ld_sorted _ Hd) H0 Hi ltac:(lia)) as Hb.
      pose proof (ld_range _ Hd) as Hr. eapply Forall_forall in Hr; [|by eapply list_elem_of_lookup_2, H0].
      rewrite /file_before /file_range_ok in Hb Hr. lia.
    + exists (lv_files this), []. split; [by rewrite !app_nil_r|]. split; [|done]. apply Forall_forall => g Hg.
      rewrite /bit_level_get_last_key /lv_size in E. apply list_elem_of_lookup in Hg as [i Hi].
      pose proof (lookup_lt_Some _ _ _ Hi). pose proof (lv_at_Some (lv_files this) (Z.of_nat (length (lv_files this)) - 1) ltac:(lia)) as Hl.
      destruct (decide (i = Z.to_nat (Z.of_nat (length (lv_files this)) - 1))) as [->|Hn]; [congruence|].
      pose proof (sorted_lookup _ _ _ _ _ _ (ld_sorted _ Hd) Hi Hl ltac:(lia)) as Hb.
      pose proof (ld_range _ Hd) as Hr. eapply Forall_forall in Hr; [|by eapply list_elem_of_lookup_2, Hl].
      rewrite /file_before /file_range_ok in Hb Hr. lia.
  - destruct (lower_bound_ok this (files_first_key files) Hd ltac:(by rewrite Efs)) as [Hp Hpre].
    set (p := Z.to_nat _). destruct (take_relatives_split (files_last_key files) (drop p (lv_files this))) as (post & Heq & Hpost).
    + pose proof (ld_sorted _ Hd) as Hs. rewrite -(take_drop p (lv_files this)) in Hs. by apply sorted_app in Hs as (_ & ? & _).
    + apply Forall_drop, Hd.
    + exists (take p (lv_files this)), post. split; [by rewrite -Heq take_drop|]. split; [|done].
      apply Forall_forall => g. intros (i & Hi)%list_elem_of_lookup. apply lookup_take_Some in Hi as [Hi ?].
      apply (Hpre i g Hi). lia.
Qed.

(** ** What a level holds *)

(** The newest of the records the sources hold for a key; a source is a
    version and the entries of that version. *)
Definition source : Type := Z * list ent.
Definition newest_step (k : Z) (acc : option (Z * record)) (s : source) : option (Z * record) :=
  match ents_map s.2 !! k with
  | None => acc
  | Some r => match acc with
              | Some (v, r') => if v <=? s.1 then Some (s.1, r) else acc
              | None => Some (s.1, r)
              end
  end.
Definition newest (k : Z) (ss : list source) : option (Z * record) := foldl (newest_step k) None ss.

Definition to_result {A} (o : option A) : result A := match o with Some a => Ok a | None => Err ENODATA end.

Lemma newest_from k ss acc :
  match foldl (newest_step k) acc ss with
  | Some (v, r) =>
      (acc = Some (v, r) \/ exists s, s ∈ ss /\ s.1 = v /\ ents_map s.2 !! k = Some r) /\
      (forall w r', acc = Some (w, r') -> w <= v) /\
      (forall s r', s ∈ ss -> ents_map s.2 !! k = Some r' -> s.1 <= v)
  | None => acc = None /\ forall s, s ∈ ss -> ents_map s.2 !! k = None
  end.
Proof.
  revert acc. induction ss as [|s ss IH] => acc; cbn [foldl].
  { destruct acc as [[v r]|]; [|set_solver]. split; [by left|]. split; [naive_solver lia|]. set_solver. }
  specialize (IH (newest_step k acc s)). rewrite /newest_step in IH |- *.
  destruct (ents_map s.2 !! k) as [r0|] eqn:E0; last first.
  { destruct (foldl _ _ ss) as [[v r]|].
    - destruct IH as ([H1|(s' & H1 & H1')] & H2 & H3).
      + split; [by left|]. split; [done|]. intros s' r' [->|Hs']%elem_of_cons Hr'; [congruence|by eapply H3].
      + split; [right; exists s'; split; [by right|done]|]. split; [done|].
        intros s'' r' [->|Hs']%elem_of_cons Hr'; [congruence|by eapply H3].
    - destruct IH as [H1 H2]. split; [done|]. intros s' [->|Hs']%elem_of_cons; [done|by apply H2]. }
  set (acc' := match acc with Some _ => _ | None => _ end) in *.
  assert (exists v0 r1, acc' = Some (v0, r1) /\ s.1 <= v0 /\ (forall w r', acc = Some (w, r') -> w <= v0) /\
    (acc = Some (v0, r1) \/ v0 = s.1 /\ r1 = r0)) as (v0 & r1 & Ha & Hs1 & Hacc & Hor).
  { rewrite /acc'. destruct acc as [[w r']|]; [|exists s.1, r0; split_and!; try done; by right].
    destruct (Z.leb_spec w s.1); [exists s.1, r0|exists w, r']; split_and!; try done; try lia; try (by left); try (by right);
      intros ? ? [= <- <-]; lia. }
  rewrite Ha in IH |- *. destruct (foldl _ _ ss) as [[v r]|]; [|by destruct IH].
  destruct IH as (H1 & H2 & H3). specialize (H2 v0 r1 eq_refl). split; [|split].
  - destruct H1 as [[= -> ->]|(s' & H1 & H1')].
    + destruct Hor as [?|[-> ->]]; [by left|]. right. exists s. split; [left|done].
    + right. exists s'. split; [by right|done].
  - intros w r' Hw. specialize (Hacc w r' Hw). lia.
  - intros s' r' [->|Hs']%elem_of_cons Hr'; [lia|by eapply H3].
Qed.

(** [newest] is the record of the greatest version that has the key. *)
Lemma newest_spec k ss :
  match newest k ss with
  | Some (v, r) => (exists s, s ∈ ss /\ s.1 = v /\ ents_map s.2 !! k = Some r) /\
      forall s r', s ∈ ss -> ents_map s.2 !! k = Some r' -> s.1 <= v
  | None => forall s, s ∈ ss -> ents_map s.2 !! k = None
  end.
Proof.
  rewrite /newest. pose proof (newest_from k ss None) as H. destruct (foldl _ _ ss) as [[v r]|]; [|by destruct H].
  destruct H as ([?|H1] & _ & H3); [done|]. by split.
Qed.

(** With versions that are all different, the order of the sources does not matter. *)
Lemma newest_perm k ss ss' : NoDup ss.*1 -> ss ≡ₚ ss' -> newest k ss = newest k ss'.
Proof.
  intros Hnd Hp. pose proof (newest_spec k ss) as H1. pose proof (newest_spec k ss') as H2.
  assert (forall s, s ∈ ss <-> s ∈ ss') as Hin by (intros; by rewrite Hp).
  assert (forall s s', s ∈ ss -> s' ∈ ss -> s.1 = s'.1 -> s = s') as Hinj.
  { intros s s' (i & Hi)%list_elem_of_lookup (j & Hj)%list_elem_of_lookup He.
    assert (i = j) as ->; [|congruence]. eapply NoDup_lookup; [exact Hnd|by rewrite list_lookup_fmap Hi|].
    by rewrite list_lookup_fmap Hj /= He. }
  destruct (newest k ss) as [[v r]|], (newest k ss') as [[v' r']|]; try done.
  - destruct H1 as [(s & Hs & Hv & Hr) Hm], H2 as [(s' & Hs' & Hv' & Hr') Hm'].
    apply Hin in Hs'. pose proof (Hm s' r' Hs' Hr'). apply Hin in Hs. pose proof (Hm' s r Hs Hr). apply Hin in Hs.
    assert (s = s') as -> by (apply Hinj; try done; lia). f_equal. f_equal; [lia|]. congruence.
  - destruct H1 as [(s & Hs & _ & Hr) _]. apply Hin in Hs. rewrite (H2 s Hs) in Hr. done.
  - destruct H2 as [(s & Hs & _ & Hr) _]. apply Hin in Hs. rewrite (H1 s Hs) in Hr. done.
Qed.

(** Sources that are all older decide only when the others have nothing. *)
Lemma newest_app_newer k ss1 ss2 :
  (forall s1 s2, s1 ∈ ss1 -> s2 ∈ ss2 -> s2.1 < s1.1) ->
  newest k (ss1 ++ ss2) = match newest k ss1 with Some x => Some x | None => newest k ss2 end.
Proof.
  intros Hlt. rewrite {1}/newest foldl_app -/(newest k ss1). pose proof (newest_spec k ss1) as Hn.
  destruct (newest k ss1) as [[v r]|]; [|done]. destruct Hn as [(s1 & Hs1 & <- & _) _].
  assert (forall s2, s2 ∈ ss2 -> s2.1 < s1.1) as Hall by (intros s2 Hs2; by apply Hlt).
  clear -Hall. induction ss2 as [|s ss2 IH]; [done|]. cbn [foldl]. pose proof (Hall s ltac:(left)) as Hs.
  rewrite (_ : newest_step k (Some (s1.1, r)) s = Some (s1.1, r)).
  - apply IH. intros s2 Hs2. apply Hall. by right.
  - rewrite /newest_step. destruct (ents_map s.2 !! k); [|done]. by ztest.
Qed.

Section level_search.
Context {gcm : Gcm} {gcm_ok : GcmOk} {bs : Bsearch} {bs_ok : BsearchOk}.

(** A file of a level: a good BIT file whose keys lie in its key range. *)
Definition file_holds (file : area) (f : bit_file) (es : list ent) : Prop :=
  (exists lo hi, bit_file_ok file lo hi f es) /\ Forall (fun e : ent => bf_first_key f <= e.1 <= bf_last_key f) es.
Definition level_holds (file : area) : list bit_file -> list (list ent) -> Prop := Forall2 (file_holds file).
(** Searching changes nothing of a file but its cached leaf. *)
Definition bf_same (f f' : bit_file) : Prop := exists leaf, f' = bf_set_cached leaf f.

#[export] Instance bf_same_refl : Reflexive bf_same.
Proof. intros f. exists (bf_cached_leaf f). by destruct f. Qed.

Lemma file_holds_search file f es k :
  file_holds file f es ->
  (bit_file_search file k f).1 = to_result (ents_map es !! k) /\
  file_holds file (bit_file_search file k f).2 es /\ bf_same f (bit_file_search file k f).2.
Proof.
  intros [(lo & hi & Hok) Hr]. pose proof (bit_file_search_ok _ _ _ _ _ k Hok) as Hs.
  destruct (bit_file_search file k f) as [r f']. destruct Hs as (-> & Hok' & leaf & ->). cbn [fst snd].
  split; [done|]. split; [|by exists leaf]. split; [by exists lo, hi|done].
Qed.

Definition file_source (f : bit_file) (es : list ent) : source := (bf_version f, es).
Definition sources (fs : list bit_file) (ess : list (list ent)) : list source := zip_with file_source fs ess.

Lemma linear_search_loop_ok file k fs ess acc :
  level_holds file fs ess -> Forall (fun f => 0 <= bf_version f) fs ->
  let '(r, fs') := linear_search_loop file k (default 0 (fst <$> acc)) (snd <$> acc) fs in
  r = snd <$> foldl (newest_step k) acc (sources fs ess) /\ level_holds file fs' ess /\ Forall2 bf_same fs fs'.
Proof.
  intros Hh. revert acc. induction Hh as [|f es fs ess Hf Hh IH] => acc; [intros _; split; [done|split; constructor]|].
  intros [Hv0 Hv]%Forall_cons. cbn [linear_search_loop sources zip_with foldl].
  destruct (file_holds_search file f es k Hf) as (Hsr & Hf' & Hsame).
  destruct (Z.ltb_spec (bf_version f) (default 0 (fst <$> acc))) as [Hlt|Hge].
  - specialize (IH acc Hv). destruct (linear_search_loop _ _ _ _ fs) as [r fs']. destruct IH as (-> & H2 & H3).
    split; [|split; by constructor]. do 2 f_equal. rewrite /newest_step /=. destruct acc as [[v r0]|]; simpl in Hlt; [|lia].
    destruct (ents_map es !! k); [|done]. by ztest.
  - destruct (bit_file_search file k f) as [rr f']. cbn [fst snd] in Hsr, Hf', Hsame. subst rr.
    destruct (ents_map es !! k) as [r0|] eqn:Ek; cbn [to_result].
    + specialize (IH (Some (bf_version f, r0)) Hv). cbn in IH. destruct (linear_search_loop _ _ _ _ fs) as [r fs'].
      destruct IH as (-> & H2 & H3). split; [|split; by constructor]. do 2 f_equal. rewrite /newest_step /= Ek.
      destruct acc as [[v r1]|]; simpl in Hge; [by ztest|done].
    + specialize (IH acc Hv). destruct (linear_search_loop _ _ _ _ fs) as [r fs']. destruct IH as (-> & H2 & H3).
      split; [|split; by constructor]. do 2 f_equal. by rewrite /newest_step /= Ek.
Qed.

Lemma level0_search_ok file k this ess :
  lv_level this = 0 -> level_holds file (lv_files this) ess -> Forall (fun f => 0 <= bf_version f) (lv_files this) ->
  let '(r, this') := bit_level_search file k this in
  r = to_result (snd <$> newest k (sources (lv_files this) ess)) /\ level_holds file (lv_files this') ess /\
  exists fs', this' = lv_set_files fs' this /\ Forall2 bf_same (lv_files this) fs'.
Proof.
  intros Hl Hh Hv. rewrite /bit_level_search Hl Z.eqb_refl /bit_level_linear_search.
  pose proof (linear_search_loop_ok file k _ _ None Hh Hv) as Hloop. cbn in Hloop.
  destruct (linear_search_loop file k 0 None (lv_files this)) as [r fs']. destruct Hloop as (-> & H2 & H3).
  split; [by destruct (snd <$> _)|]. split; [done|]. by exists fs'.
Qed.

(** All the entries of a level whose files do not overlap. *)
Definition level_lookup (k : Z) (ess : list (list ent)) : option record := ents_map (concat ess) !! k.

Lemma level_concat_sorted file fs ess :
  StronglySorted file_before fs -> level_holds file fs ess -> ents_sorted (concat ess).
Proof.
  intros Hs Hh. induction Hh as [|f es fs ess Hf Hh IH]; [constructor|]. cbn [concat].
  apply StronglySorted_inv in Hs as [Hs Hall]. destruct Hf as [(lo & hi & Hok) Hr].
  apply ents_sorted_app. split; [apply Hok|]. split; [by apply IH|].
  intros a b Ha (es' & Hb & Hes')%elem_of_flat. apply list_elem_of_lookup in Hes' as [j Hj].
  destruct (Forall2_lookup_r _ _ _ _ _ Hh Hj) as (g & Hg & [_ Hrg]).
  eapply Forall_forall in Hall; [|by eapply list_elem_of_lookup_2].
  eapply Forall_forall in Hr; [|exact Ha]. eapply Forall_forall in Hrg; [|exact Hb]. rewrite /file_before in Hall. lia.
Qed.

(** The one file that can hold a key. *)
Lemma level_lookup_file file fs ess i f es k :
  StronglySorted file_before fs -> level_holds file fs ess -> fs !! i = Some f -> ess !! i = Some es ->
  bf_first_key f <= k <= bf_last_key f -> level_lookup k ess = ents_map es !! k.
Proof.
  intros Hs Hh Hi He Hk. pose proof (level_concat_sorted file fs ess Hs Hh) as Hcs.
  rewrite /level_lookup. destruct (ents_map (concat ess) !! k) as [r|] eqn:E.
  - apply elem_of_list_to_map_2 in E. apply elem_of_flat in E as (es' & Hin & Hes').
    apply list_elem_of_lookup in Hes' as [j Hj]. destruct (Forall2_lookup_r _ _ _ _ _ Hh Hj) as (g & Hg & [(? & ? & Hok) Hrg]).
    eapply Forall_forall in Hrg; [|exact Hin]. cbn [fst] in Hrg.
    assert (j = i) as ->.
    { destruct (decide (j < i)%nat); [|destruct (decide (i < j)%nat); [|lia]].
      - pose proof (sorted_lookup _ _ _ _ _ _ Hs Hg Hi ltac:(done)). rewrite /file_before in H. lia.
      - pose proof (sorted_lookup _ _ _ _ _ _ Hs Hi Hg ltac:(done)). rewrite /file_before in H. lia. }
    rewrite He in Hj. injection Hj as ->. symmetry. apply ents_map_elem; [apply Hok|done].
  - symmetry. apply ents_map_none => e Hin Hek. apply not_elem_of_list_to_map_2 in E. apply E.
    apply list_elem_of_fmap. exists e. split; [done|]. apply elem_of_flat. exists es. split; [done|].
    by eapply list_elem_of_lookup_2.
Qed.

Lemma locate_sorted k fs :
  lv_disjoint fs -> StronglySorted (fun x y => Z.sgn (bit_file_cmp_key k y) <= Z.sgn (bit_file_cmp_key k x)) fs.
Proof.
  intros [Hs Hr]. apply sorted_of_lookup => i j x y Hi Hj Hlt.
  pose proof (sorted_lookup _ _ _ _ _ _ Hs Hi Hj Hlt) as Hb.
  apply list_elem_of_lookup_2 in Hi, Hj. eapply Forall_forall in Hi; [|exact Hr]. eapply Forall_forall in Hj; [|exact Hr].
  rewrite /file_before /file_range_ok in Hb Hi Hj. rewrite /bit_file_cmp_key. zbool; simpl; lia.
Qed.

Lemma leveln_search_ok file k this ess :
  lv_level this <> 0 -> level_holds file (lv_files this) ess -> lv_disjoint (lv_files this) ->
  let '(r, this') := bit_level_search file k this in
  r = to_result (level_lookup k ess) /\ level_holds file (lv_files this') ess /\
  exists fs', this' = lv_set_files fs' this /\ Forall2 bf_same (lv_files this) fs'.
Proof.
  intros Hl Hh Hd. rewrite /bit_level_search. ztest. rewrite /bit_level_locate_file_pointer.
  assert (this = lv_set_files (lv_files this) this) as Hself by (by destruct this).
  assert (Forall2 bf_same (lv_files this) (lv_files this)) as Hrefl by (apply Forall_Forall2_diag, Forall_true => ?; reflexivity).
  pose proof (bsearch_ok _ _ _ (locate_sorted k _ Hd)) as Hb.
  destruct (bsearch _ (lv_files this)) as [i|].
  - destruct Hb as (f & Hi & Hc). rewrite Hi.
    destruct (Forall2_lookup_l _ _ _ _ _ Hh Hi) as (es & He & Hf).
    destruct (file_holds_search file f es k Hf) as (Hsr & Hf' & Hsame).
    destruct (bit_file_search file k f) as [r f']. cbn [fst snd] in *. split; [|split].
    + rewrite (level_lookup_file file (lv_files this) ess i f es k); try done; [apply Hd|].
      move: Hc. rewrite /bit_file_cmp_key. zbool; simpl; lia.
    + cbn [lv_files lv_set_files]. rewrite -(list_insert_id ess i es He). by apply Forall2_insert.
    + eexists. split; [done|]. rewrite -{1}(list_insert_id _ _ _ Hi). by apply Forall2_insert.
  - split; [|split; [done|by exists (lv_files this)]]. rewrite /level_lookup ents_map_none //.
    intros e (es & He & Hes)%elem_of_flat Hek. apply list_elem_of_lookup in Hes as [j Hj].
    destruct (Forall2_lookup_r _ _ _ _ _ Hh Hj) as (g & Hg & [_ Hrg]). eapply Forall_forall in Hrg; [|exact He].
    apply (Hb g); [by eapply list_elem_of_lookup_2|]. cbn beta in Hrg. rewrite /bit_file_cmp_key -Hek. by do 3 ztest.
Qed.

(** In a level without overlaps at most one file has a key, so the newest
    record is the only one. *)
Lemma newest_disjoint file fs ess k :
  StronglySorted file_before fs -> level_holds file fs ess -> snd <$> newest k (sources fs ess) = level_lookup k ess.
Proof.
  intros Hs Hh. pose proof (newest_spec k (sources fs ess)) as Hn.
  assert (forall i f es r, fs !! i = Some f -> ess !! i = Some es -> ents_map es !! k = Some r ->
    level_lookup k ess = Some r) as Hhit.
  { intros i f es r Hf He Hr. rewrite (level_lookup_file file fs ess i f es k) //.
    destruct (Forall2_lookup_lr _ _ _ _ _ _ Hh Hf He) as [_ Hrg]. apply elem_of_list_to_map_2 in Hr.
    by eapply Forall_forall in Hrg; [|exact Hr]. }
  destruct (newest k (sources fs ess)) as [[v r]|].
  - destruct Hn as [(s & (i & Hi)%list_elem_of_lookup & _ & Hr) _]. symmetry.
    apply lookup_zip_with_Some in Hi as (f & es & -> & Hf & He). by eapply Hhit.
  - cbn. symmetry. rewrite /level_lookup. destruct (ents_map (concat ess) !! k) as [r|] eqn:E; [exfalso|done].
    apply elem_of_list_to_map_2 in E. apply elem_of_flat in E as (es & Hin & (i & Hi)%list_elem_of_lookup).
    destruct (Forall2_lookup_r _ _ _ _ _ Hh Hi) as (f & Hf & (? & ? & Hok) & _).
    specialize (Hn (file_source f es)). rewrite (ents_map_elem es k r) in Hn; [|apply Hok|done].
    assert (file_source f es ∈ sources fs ess) as Hs'; [|by specialize (Hn Hs')].
    apply list_elem_of_lookup. exists i. apply lookup_zip_with_Some. by exists f, es.
Qed.
End level_search.
