(* ===== verification/Compaction.v ===== *)
(** * Compaction (struct compaction_job, source/lsm_tree.c)

    A compaction moves files of one level to the next.  Files that overlap
    nothing are just relabelled; otherwise the files picked and those of the
    next level around their key range are merged entry by entry through a
    min-heap, the newest version of a key winning, into new files.

    The catalogue is used through the function pointers of [struct
    lsm_catalogue]: the class [LsmCatalogue], with [LsmCatalogueOk] for what
    they promise. *)
From S2P Require Import Prelude Codec BlockManager DiskStructs Crypto BitNode Superblock SegValidator Area Bloom Hashtable Catalogue BitFile BitTree Level.

(** ** The catalogue interface *)
Class LsmCatalogue (C : Type) : Type := {
  cat_alloc_file : SE C Z;
  cat_release_file : Z -> SE C unit;
  cat_set_file_stats : Z -> file_stat -> SE C unit;
  cat_get_all_file_stats : SE C (list file_stat * Z);
  cat_get_next_version : SE C Z;
  cat_start : C -> Z;
  cat_file_size : C -> Z;
  cat_nr_disk_level : C -> Z;
  cat_common_ratio : C -> Z;
  cat_max_level_nr_file : C -> Z;
  (** invariant, number of slots, the slots in use with their stats, and the
      version that is handed out next *)
  cat_inv : C -> Prop;
  cat_max_fd : C -> Z;
  cat_used : C -> Z -> bool;
  cat_stat : C -> Z -> option file_stat;
  cat_version : C -> Z
}.

(** What no operation changes: the geometry. *)
Definition cat_geom `{LsmCatalogue C} (c : C) : Z * Z * Z * Z * Z * Z :=
  (cat_start c, cat_file_size c, cat_nr_disk_level c, cat_common_ratio c, cat_max_level_nr_file c, cat_max_fd c).

Class LsmCatalogueOk (C : Type) `{LsmCatalogue C} : Prop := {
  cat_alloc_ok c : cat_inv c ->
    match cat_alloc_file c with
    | (Ok fd, c') => 0 <= fd < cat_max_fd c /\ cat_used c fd = false /\ cat_inv c' /\ cat_geom c' = cat_geom c /\
        cat_version c' = cat_version c /\ cat_used c' fd = true /\
        (forall fd', 0 <= fd' < cat_max_fd c -> fd' <> fd -> cat_used c' fd' = cat_used c fd') /\
        (forall fd', 0 <= fd' < cat_max_fd c -> cat_stat c' fd' = cat_stat c fd')
    | (Err _, _) => forall fd, 0 <= fd < cat_max_fd c -> cat_used c fd = true
    end;
  cat_release_ok c fd : cat_inv c -> 0 <= fd < cat_max_fd c ->
    exists c', cat_release_file fd c = (Ok tt, c') /\ cat_inv c' /\ cat_geom c' = cat_geom c /\
      cat_version c' = cat_version c /\ cat_used c' fd = false /\
      (forall fd', 0 <= fd' < cat_max_fd c -> fd' <> fd -> cat_used c' fd' = cat_used c fd') /\
      (forall fd', 0 <= fd' < cat_max_fd c -> cat_stat c' fd' = cat_stat c fd');
  cat_set_stats_ok c fd s : cat_inv c -> 0 <= fd < cat_max_fd c -> cwf file_stat_codec s ->
    exists c', cat_set_file_stats fd s c = (Ok tt, c') /\ cat_inv c' /\ cat_geom c' = cat_geom c /\
      cat_version c' = cat_version c /\
      (forall fd', 0 <= fd' < cat_max_fd c -> cat_used c' fd' = cat_used c fd') /\
      (forall fd', 0 <= fd' < cat_max_fd c -> cat_stat c' fd' = if decide (fd' = fd) then Some s else cat_stat c fd');
  cat_next_version_ok c : cat_inv c -> 0 <= cat_version c < 2 ^ 64 - 1 ->
    exists c', cat_get_next_version c = (Ok (cat_version c), c') /\ cat_inv c' /\ cat_geom c' = cat_geom c /\
      cat_version c' = cat_version c + 1 /\
      (forall fd', 0 <= fd' < cat_max_fd c -> cat_used c' fd' = cat_used c fd' /\ cat_stat c' fd' = cat_stat c fd');
  (** the stats of the slots in use, in the order of the slots *)
  cat_all_stats_ok c : cat_inv c ->
    cat_get_all_file_stats c =
      (Ok (omap (fun fd => if cat_used c fd then cat_stat c fd else None) (seqZ 0 (cat_max_fd c)), 0), c)
}.

(** ** The kernel's min-heap: an array whose first element is least *)
Class MinHeap : Type := {
  min_heap_push : forall {A : Type}, (A -> A -> bool) -> A -> list A -> list A;
  min_heap_pop : forall {A : Type}, (A -> A -> bool) -> list A -> list A;
  (** the heap order *)
  is_min_heap : forall {A : Type}, (A -> A -> bool) -> list A -> Prop
}.

(** For an order that compares an integer key. *)
Class MinHeapOk `{MinHeap} : Prop := {
  min_heap_nil A (less : A -> A -> bool) : is_min_heap less [];
  min_heap_push_ok A (less : A -> A -> bool) (key : A -> Z) x l :
    (forall a b, less a b = (key a <? key b)) -> is_min_heap less l ->
    is_min_heap less (min_heap_push less x l) /\ min_heap_push less x l ≡ₚ x :: l;
  min_heap_pop_ok A (less : A -> A -> bool) (key : A -> Z) x l :
    (forall a b, less a b = (key a <? key b)) -> is_min_heap less (x :: l) ->
    is_min_heap less (min_heap_pop less (x :: l)) /\ min_heap_pop less (x :: l) ≡ₚ l;
  min_heap_top A (less : A -> A -> bool) (key : A -> Z) x l :
    (forall a b, less a b = (key a <? key b)) -> is_min_heap less (x :: l) -> forall y, y ∈ l -> key x <= key y
}.

(** ** Merge nodes; the iterator is a position in the array of iterators *)
Record kway_merge_node : Type := { kn_iter : nat; kn_entry : entry record }.
Definition __kway_merge_node (iter : nat) (e : entry record) : kway_merge_node := {| kn_iter := iter; kn_entry := e |}.
Definition kn_key (n : kway_merge_node) : Z := e_key (kn_entry n).
Definition kway_merge_node_less (node1 node2 : kway_merge_node) : bool := kn_key node1 <? kn_key node2.

Definition interval_overlapping (begin1 end1 begin2 end2 : Z) : bool :=
  negb ((end1 <? begin2) || (end2 <? begin1)).

Definition lsm_file_overlapping (files : list bit_file) : bool :=
  existsb (fun f1 => existsb (fun f2 =>
    if bf_id f1 =? bf_id f2 then false
    else interval_overlapping (bf_first_key f1) (bf_last_key f1) (bf_first_key f2) (bf_last_key f2)) files) files.

Definition bf_relabel (version level : Z) (f : bit_file) : bit_file :=
  {| bf_id := bf_id f; bf_level := level; bf_version := version; bf_root := bf_root f;
     bf_root_key := bf_root_key f; bf_root_iv := bf_root_iv f; bf_first_key := bf_first_key f;
     bf_last_key := bf_last_key f; bf_cached_leaf := bf_cached_leaf f; bf_filter_begin := bf_filter_begin f;
     bf_filter := bf_filter f |}.

Section compaction.
Context {C : Type} {cat : LsmCatalogue C} {gcm : Gcm} {rng : Rng} {heap : MinHeap}.
(** What a fresh builder buffer, and a leaf that failed to decrypt, contain. *)
Context (garbage_buffer : area) (garbage_leaf : list byte -> bit_leaf).

(** The state a compaction job works on. *)
Record job : Type := { jb_cat : C; jb_io : bit_io; jb_level1 : bit_level; jb_level2 : bit_level }.
Definition jb_set_cat (c : C) (j : job) : job :=
  {| jb_cat := c; jb_io := jb_io j; jb_level1 := jb_level1 j; jb_level2 := jb_level2 j |}.
Definition jb_set_io (io : bit_io) (j : job) : job :=
  {| jb_cat := jb_cat j; jb_io := io; jb_level1 := jb_level1 j; jb_level2 := jb_level2 j |}.
Definition jb_set_level1 (l : bit_level) (j : job) : job :=
  {| jb_cat := jb_cat j; jb_io := jb_io j; jb_level1 := l; jb_level2 := jb_level2 j |}.
Definition jb_set_level2 (l : bit_level) (j : job) : job :=
  {| jb_cat := jb_cat j; jb_io := jb_io j; jb_level1 := jb_level1 j; jb_level2 := l |}.

Definition next_version (c : C) : Z * C :=
  match cat_get_next_version c with (Ok v, c') => (v, c') | (Err _, c') => (0, c') end.

(** [alloc_file(catalogue, &fd)], the error ignored: [fd] keeps its value. *)
Definition alloc_fd (fd : Z) (c : C) : Z * C :=
  match cat_alloc_file c with (Ok fd', c') => (fd', c') | (Err _, c') => (fd, c') end.

(** [alloc_file] and [get_builder]. *)
Definition open_builder (fd level : Z) (c : C) (io : bit_io) : Z * bb_state * C :=
  let '(fd, c) := alloc_fd fd c in
  let '(v, c) := next_version c in
  (fd, bit_builder_create (cat_start c + fd * cat_file_size c) fd level v garbage_buffer io, c).

(** [complete], [set_file_stats] and [add_file]; errors are ignored. *)
Definition close_builder (st : bb_state) (c : C) (l : bit_level) : bit_io * C * bit_level :=
  let '(f, io) := bit_builder_complete st in
  let c := (cat_set_file_stats (bf_id f) (bit_file_get_stats f) c).2 in
  (io, c, (bit_level_add_file f l).2).

(** Lines 1001 to 1008: no merge needed. *)
Definition job_move_file (j : job) (f : bit_file) : job :=
  let '(v, c) := next_version (jb_cat j) in
  let f' := bf_relabel v (lv_level (jb_level2 j)) f in
  let c := (cat_set_file_stats (bf_id f') (bit_file_get_stats f') c).2 in
  jb_set_cat c (jb_set_level1 ((bit_level_remove_file (bf_id f') (jb_level1 j)).2)
    (jb_set_level2 ((bit_level_add_file f' (jb_level2 j)).2) j)).

(** ** The merge loop *)
Record merge_state : Type := {
  ms_heap : list kway_merge_node;
  ms_iters : list bit_iterator;
  ms_distinct : kway_merge_node;
  ms_fd : Z;
  ms_builder : bb_state;
  ms_cat : C;
  ms_level2 : bit_level
}.

Definition zero_iterator : bit_iterator :=
  {| it_cur_record := 0; it_has_next := false; it_file := zero_file; it_leaf := zero_leaf |}.
Definition iter_at (iters : list bit_iterator) (i : nat) : bit_iterator := nth i iters zero_iterator.

(** [if (iter->has_next(iter)) { iter->next(iter, &entry); min_heap_push (...) }] *)
Definition heap_refill (file : area) (i : nat) (h : list kway_merge_node) (iters : list bit_iterator)
    : list kway_merge_node * list bit_iterator :=
  if it_has_next (iter_at iters i) then
    match bit_iterator_next garbage_leaf file (iter_at iters i) with
    | (Ok e, it) => (min_heap_push kway_merge_node_less (__kway_merge_node i e) h, <[i := it]> iters)
    | (Err _, it) => (h, <[i := it]> iters)
    end
  else (h, iters).

Fixpoint heap_fill (file : area) (idxs : list nat) (h : list kway_merge_node) (iters : list bit_iterator)
    : list kway_merge_node * list bit_iterator :=
  match idxs with
  | [] => (h, iters)
  | i :: idxs => let '(h, iters) := heap_refill file i h iters in heap_fill file idxs h iters
  end.

Definition kn_file (iters : list bit_iterator) (n : kway_merge_node) : bit_file := it_file (iter_at iters (kn_iter n)).

(** One round of the loop, [first] being the top of the heap. *)
Definition merge_round (first : kway_merge_node) (ms : merge_state) : merge_state :=
  let h := min_heap_pop kway_merge_node_less (ms_heap ms) in
  let '(h, iters) := heap_refill (io_file (ms_builder ms).2) (kn_iter first) h (ms_iters ms) in
  let distinct := ms_distinct ms in
  if kn_key distinct =? kn_key first then
    {| ms_heap := h; ms_iters := iters;
       ms_distinct := if bf_version (kn_file iters distinct) <? bf_version (kn_file iters first)
                      then first else distinct;
       ms_fd := ms_fd ms; ms_builder := ms_builder ms; ms_cat := ms_cat ms; ms_level2 := ms_level2 ms |}
  else
    let st := bit_builder_add_entry (kn_entry distinct) (ms_builder ms) in
    if DEFAULT_LSM_FILE_CAPACITY <=? bb_size st.1 then
      let '(io, c, l) := close_builder st (ms_cat ms) (ms_level2 ms) in
      let '(fd, st, c) := open_builder (ms_fd ms) (lv_level l) c io in
      {| ms_heap := h; ms_iters := iters; ms_distinct := first; ms_fd := fd; ms_builder := st;
         ms_cat := c; ms_level2 := l |}
    else
      {| ms_heap := h; ms_iters := iters; ms_distinct := first; ms_fd := ms_fd ms; ms_builder := st;
         ms_cat := ms_cat ms; ms_level2 := ms_level2 ms |}.

(** [while (heap.nr > 0)]; [None] when the fuel does not suffice. *)
Fixpoint merge_loop (fuel : nat) (ms : merge_state) : option merge_state :=
  match ms_heap ms with
  | [] => Some ms
  | first :: _ =>
      match fuel with
      | O => None
      | S fuel => merge_loop fuel (merge_round first ms)
      end
  end.

(** An iterator per file; a file whose first leaf cannot be read has none,
    and linking it faults. *)
Fixpoint job_iterators (file : area) (files : list bit_file) : option (list bit_iterator) :=
  match files with
  | [] => Some []
  | f :: files =>
      match bit_iterator_create file f with
      | Err _ => None
      | Ok it => (fun its => it :: its) <$> job_iterators file files
      end
  end.

(** The files that were merged leave their level and give back their slot. *)
Definition job_drop1 (j : job) (f : bit_file) : job :=
  jb_set_cat ((cat_release_file (bf_id f) (jb_cat j)).2)
    (jb_set_level1 ((bit_level_remove_file (bf_id f) (jb_level1 j)).2) j).
Definition job_drop2 (j : job) (f : bit_file) : job :=
  jb_set_cat ((cat_release_file (bf_id f) (jb_cat j)).2)
    (jb_set_level2 ((bit_level_remove_file (bf_id f) (jb_level2 j)).2) j).

(** [list_add] puts each iterator in front.  [fd0] is the uninitialised [fd];
    [None] stands for a fault of the kernel. *)
Definition job_merge (fuel : nat) (fd0 : Z) (demoted relative : list bit_file) (j : job) : option job :=
  match job_iterators (io_file (jb_io j)) (reverse (demoted ++ relative)) with
  | None => None
  | Some iters =>
      let '(h, iters) := heap_fill (io_file (jb_io j)) (seq 0 (length iters)) [] iters in
      match h with
      | [] => None
      | distinct :: _ =>
          let '(fd, st, c) := open_builder fd0 (lv_level (jb_level2 j)) (jb_cat j) (jb_io j) in
          match merge_loop fuel {| ms_heap := h; ms_iters := iters; ms_distinct := distinct; ms_fd := fd;
                                   ms_builder := st; ms_cat := c; ms_level2 := jb_level2 j |} with
          | None => None
          | Some ms =>
              let st := bit_builder_add_entry (kn_entry (ms_distinct ms)) (ms_builder ms) in
              let '(io, c, l) := close_builder st (ms_cat ms) (ms_level2 ms) in
              let j := jb_set_cat c (jb_set_io io (jb_set_level2 l j)) in
              Some (foldl job_drop2 (foldl job_drop1 j demoted) relative)
          end
      end
  end.

Definition compaction_job_run (fuel : nat) (fd0 : Z) (j : job) : option job :=
  let demoted := bit_level_pick_demoted_files (jb_level1 j) in
  let relative := bit_level_find_relative_files (jb_level2 j) demoted in
  match relative with
  | [] => if negb (lsm_file_overlapping demoted) then Some (foldl job_move_file j demoted)
          else job_merge fuel fd0 demoted relative j
  | _ => job_merge fuel fd0 demoted relative j
  end.
End compaction.
