(* ===== verification/MergeFacts.v ===== *)
(** * The k-way merge of a compaction

    Every round of the merge loop takes the node with the least key from the
    heap, puts the next entry of the same file in, and either settles which of
    two records of one key stays or feeds the settled one to the builder.  The
    list that is fed is strictly increasing and holds, for every key of the
    merged files, the record of the newest of them. *)
From S2P Require Import Prelude Codec Crypto BitNode Superblock Area Bloom Hashtable Catalogue BitFile BitTree BitFileSpec IterFacts Level Compaction.

Definition kn_ent (n : kway_merge_node) : ent := (e_key (kn_entry n), e_val (kn_entry n)).
Definition mk_node (i : nat) (e : ent) : kway_merge_node := __kway_merge_node i (__entry e.1 e.2).

Lemma kn_ent_mk i e : 0 <= e.1 < 2 ^ 32 -> kn_ent (mk_node i e) = e.
Proof. intros He. rewrite /kn_ent /mk_node /=. rewrite u32_small //. by destruct e. Qed.

Lemma kn_less_key a b : kway_merge_node_less a b = (kn_key a <? kn_key b).
Proof. done. Qed.

(** The nodes of the entries that are still in the files. *)
Definition rem_nodes (rems : list (list ent)) : list kway_merge_node :=
  concat (imap (fun i es => mk_node i <$> es) rems).

Lemma rem_nodes_elem rems n :
  n ∈ rem_nodes rems <-> exists i es e, rems !! i = Some es /\ e ∈ es /\ n = mk_node i e.
Proof.
  rewrite /rem_nodes elem_of_flat. split.
  - intros (l & Hn & Hl). apply list_elem_of_lookup in Hl as [i Hi]. rewrite list_lookup_imap in Hi.
    apply fmap_Some in Hi as (es & Hes & ->). apply list_elem_of_fmap in Hn as (e & -> & He). by exists i, es, e.
  - intros (i & es & e & Hi & He & ->). exists (mk_node i <$> es). split; [apply list_elem_of_fmap; by exists e|].
    apply list_elem_of_lookup. exists i. by rewrite list_lookup_imap Hi.
Qed.

Lemma rem_nodes_step rems i e es :
  rems !! i = Some (e :: es) -> rem_nodes rems ≡ₚ mk_node i e :: rem_nodes (<[i := es]> rems).
Proof.
  intros Hi. rewrite -{1}(list_insert_id rems i (e :: es) Hi). pose proof (lookup_lt_Some _ _ _ Hi) as Hlt.
  rewrite /rem_nodes !(insert_take_drop _ i) // !imap_app !imap_cons. cbn [concat].
  rewrite !concat_app. cbn [concat]. rewrite !length_take Nat.min_l; [|lia]. rewrite Nat.add_0_r fmap_cons. cbn [app].
  by rewrite -Permutation_middle.
Qed.

Section merge.
Context {gcm : Gcm} {gcm_ok : GcmOk} {heap : MinHeap} {heap_ok : MinHeapOk}.
Context (garbage_leaf : list byte -> bit_leaf).
(** The files being merged, each with its region of the index file. *)
Context (files : list bit_file) (regs : list (Z * Z)).

Definition node_version (n : kway_merge_node) : Z := default 0 (bf_version <$> files !! kn_iter n).

Record iters_ok (file : area) (iters : list bit_iterator) (rems : list (list ent)) : Prop := {
  io_len : length iters = length rems;
  io_regs : length regs = length rems;
  io_files : it_file <$> iters = files;
  io_iter i it es r : iters !! i = Some it -> rems !! i = Some es -> regs !! i = Some r -> iter_ok file r.1 r.2 it es;
  io_wf : Forall (Forall ent_wf) rems
}.

(** Every file with entries left has a smaller one in the heap. *)
Record heap_covers (h : list kway_merge_node) (rems : list (list ent)) : Prop := {
  hc_heap : is_min_heap kway_merge_node_less h;
  hc_iter n : n ∈ h -> (kn_iter n < length rems)%nat;
  hc_cover i es e : rems !! i = Some es -> e ∈ es -> exists n, n ∈ h /\ kn_iter n = i /\ kn_key n < e.1
}.

Lemma iters_ok_file file file' iters rems :
  (forall r i, r ∈ regs -> r.1 <= i < r.2 -> file' i = file i) -> iters_ok file iters rems -> iters_ok file' iters rems.
Proof.
  intros Hag [H1 H2 H3 H4 H5]. split; try done. intros i it es r Hi Hes Hr.
  eapply iter_ok_mono; [|by eapply H4]. intros j Hj. eapply Hag; [by eapply list_elem_of_lookup_2|done].
Qed.

(** Files outside [todo] are covered. *)
Definition heap_part (todo : list nat) (h : list kway_merge_node) (rems : list (list ent)) : Prop :=
  is_min_heap kway_merge_node_less h /\ (forall n, n ∈ h -> (kn_iter n < length rems)%nat) /\
  forall j es e, j ∉ todo -> rems !! j = Some es -> e ∈ es -> exists n, n ∈ h /\ kn_iter n = j /\ kn_key n < e.1.

Lemma heap_part_nil h rems : heap_part [] h rems -> heap_covers h rems.
Proof. intros (H1 & H2 & H3). split; try done. intros i es e. apply H3. by intros ?%elem_of_nil. Qed.

Lemma heap_refill_ok file i todo h iters rems :
  iters_ok file iters rems -> heap_part (i :: todo) h rems -> (i < length rems)%nat ->
  let '(h', iters') := heap_refill garbage_leaf file i h iters in
  exists rems', iters_ok file iters' rems' /\ heap_part todo h' rems' /\ length rems' = length rems /\
    h' ++ rem_nodes rems' ≡ₚ h ++ rem_nodes rems.
Proof.
  intros Hok (Hh & Hit & Hcov) Hlt. pose proof Hok as [Hl Hr Hf Hio Hwf].
  destruct (lookup_lt_is_Some_2 rems i Hlt) as [es Hes].
  destruct (lookup_lt_is_Some_2 iters i ltac:(lia)) as [it Hiti]. destruct (lookup_lt_is_Some_2 regs i ltac:(lia)) as [r Hri].
  pose proof (Hio i it es r Hiti Hes Hri) as Hi.
  assert (iter_at iters i = it) as Hat by (by rewrite /iter_at nth_lookup Hiti).
  rewrite /heap_refill Hat (iter_has_next _ _ _ _ _ Hi).
  destruct es as [|e es]; cbn [bool_decide negb].
  - rewrite bool_decide_eq_true_2 //. cbn [negb]. exists rems. split; [done|]. split; [|done]. split; [done|]. split; [done|].
    intros j es e Hj Hjs He. destruct (decide (j = i)) as [->|Hn].
    + rewrite Hes in Hjs. injection Hjs as <-. by apply elem_of_nil in He.
    + eapply Hcov; [|done|done]. by intros [->|?]%elem_of_cons.
  - rewrite bool_decide_eq_false_2 //. cbn [negb].
    destruct (iter_next_ok garbage_leaf file r.1 r.2 it e es Hi) as (it' & -> & Hfile & Hi').
    pose proof (Forall_lookup_1 _ _ _ _ Hwf Hes) as Hwe. apply Forall_cons in Hwe as [[He1 He2] Hwe].
    destruct Hi as (_ & Hs & _). apply StronglySorted_inv in Hs as [_ Hall].
    change (__kway_merge_node i (__entry e.1 e.2)) with (mk_node i e).
    assert (kn_key (mk_node i e) = e.1) as Hk by (by apply u32_small).
    destruct (min_heap_push_ok _ _ kn_key (mk_node i e) h kn_less_key Hh) as [Hh' Hp].
    exists (<[i := es]> rems). split; [split|split; [split; [done|split]|split]].
    + by rewrite !length_insert.
    + by rewrite length_insert.
    + rewrite list_fmap_insert Hfile -Hf. apply list_insert_id. by rewrite list_lookup_fmap Hiti.
    + intros j jt jes jr Hj Hje Hjr. destruct (decide (j = i)) as [->|Hn].
      * rewrite list_lookup_insert_eq in Hj; [|lia]. rewrite list_lookup_insert_eq in Hje; [|lia].
        injection Hj as <-. injection Hje as <-. rewrite Hri in Hjr. by injection Hjr as <-.
      * rewrite list_lookup_insert_ne // in Hj. rewrite list_lookup_insert_ne // in Hje. by eapply Hio.
    + by apply Forall_insert.
    + intros n. rewrite Hp length_insert. by intros [->|?]%elem_of_cons; [|apply Hit].
    + intros j jes je Hj Hje He. setoid_rewrite Hp. destruct (decide (j = i)) as [->|Hn].
      * rewrite list_lookup_insert_eq in Hje; [|lia]. injection Hje as <-. exists (mk_node i e). split; [left|]. split; [done|].
        rewrite Hk. by eapply Forall_forall in Hall.
      * rewrite list_lookup_insert_ne // in Hje. destruct (Hcov j jes je) as (n & ? & ?); [by intros [->|?]%elem_of_cons|done|done|].
        exists n. split; [by right|done].
    + by rewrite length_insert.
    + rewrite Hp (rem_nodes_step rems i e es Hes). cbn [app]. apply Permutation_middle.
Qed.

Lemma heap_fill_ok file todo h iters rems :
  iters_ok file iters rems -> heap_part todo h rems -> Forall (fun i => (i < length rems)%nat) todo ->
  let '(h', iters') := heap_fill garbage_leaf file todo h iters in
  exists rems', iters_ok file iters' rems' /\ heap_covers h' rems' /\ length rems' = length rems /\
    h' ++ rem_nodes rems' ≡ₚ h ++ rem_nodes rems.
Proof.
  revert h iters rems. induction todo as [|i todo IH] => h iters rems Hok Hp Hall; cbn [heap_fill].
  { exists rems. split; [done|]. split; [by apply heap_part_nil|done]. }
  apply Forall_cons in Hall as [Hi Hall]. pose proof (heap_refill_ok file i todo h iters rems Hok Hp Hi) as Hr.
  destruct (heap_refill garbage_leaf file i h iters) as [h1 iters1]. destruct Hr as (rems1 & Hok1 & Hp1 & Hl1 & Hperm1).
  rewrite -Hl1 in Hall. specialize (IH h1 iters1 rems1 Hok1 Hp1 Hall).
  destruct (heap_fill garbage_leaf file todo h1 iters1) as [h2 iters2]. destruct IH as (rems2 & ? & ? & ? & Hperm2).
  exists rems2. split; [done|]. split; [done|]. split; [congruence|]. by rewrite Hperm2.
Qed.

(** The top of the heap is least among all entries to come. *)
Lemma heap_top_least first h rems n :
  heap_covers (first :: h) rems -> Forall (Forall ent_wf) rems -> n ∈ first :: h ++ rem_nodes rems -> kn_key first <= kn_key n.
Proof.
  intros [Hh _ Hc] Hwf Hn. assert (forall m, m ∈ first :: h -> kn_key first <= kn_key m) as Htop.
  { intros m [->|Hm]%elem_of_cons; [lia|]. by eapply (min_heap_top _ _ kn_key first h kn_less_key). }
  rewrite app_comm_cons elem_of_app in Hn. destruct Hn as [Hn|Hn]; [by apply Htop|].
  apply rem_nodes_elem in Hn as (i & es & e & Hi & He & ->). destruct (Hc i es e Hi He) as (m & Hm & _ & Hk).
  pose proof (Forall_lookup_1 _ _ _ _ Hwf Hi) as Hwe. eapply Forall_forall in Hwe; [|exact He]. destruct Hwe as [He1 _].
  specialize (Htop m Hm). assert (kn_key (mk_node i e) = e.1) by (by apply u32_small). lia.
Qed.

(** ** Which records are settled *)

(** [seen] are the nodes taken from the heap, [out] the entries fed to the
    builder and [d] the node whose record is still held back. *)
Record settled (seen : list kway_merge_node) (out : list ent) (d : kway_merge_node) : Prop := {
  se_in : d ∈ seen;
  se_sorted : ents_sorted (out ++ [kn_ent d]);
  se_keys n : n ∈ seen -> kn_key n ∈ (out ++ [kn_ent d]).*1;
  se_held n : n ∈ seen -> kn_key n = kn_key d -> node_version n <= node_version d;
  se_out e : e ∈ out -> exists w, w ∈ seen /\ kn_ent w = e /\
    forall n, n ∈ seen -> kn_key n = kn_key w -> node_version n <= node_version w
}.

Lemma settled_init d : settled [d] [] d.
Proof.
  split.
  - left.
  - by repeat constructor.
  - intros n ->%list_elem_of_singleton. left.
  - by intros n ->%list_elem_of_singleton.
  - by intros e ?%elem_of_nil.
Qed.

Lemma settled_out_lt seen out d e : settled seen out d -> e ∈ out -> e.1 < kn_key d.
Proof. intros Hs He. pose proof (se_sorted _ _ _ Hs) as (_ & _ & H)%ents_sorted_app. apply (H e (kn_ent d) He). left. Qed.

(** Another node with the key that is held back. *)
Lemma settled_same seen out d f :
  settled seen out d -> kn_key d = kn_key f ->
  settled (f :: seen) out (if node_version d <? node_version f then f else d).
Proof.
  intros Hs Hk. pose proof Hs as [H1 H2 H3 H4 H5]. set (d' := if _ <? _ then f else d).
  assert (kn_key d' = kn_key d /\ node_version d <= node_version d' /\ node_version f <= node_version d') as (Hk' & Hv1 & Hv2).
  { rewrite /d'. destruct (Z.ltb_spec (node_version d) (node_version f)); split; try done; lia. }
  assert ((out ++ [kn_ent d']).*1 = (out ++ [kn_ent d]).*1) as Hkeys.
  { rewrite !fmap_app. cbn. do 2 f_equal. exact Hk'. }
  split.
  - rewrite /d'. case_match; [left|by right].
  - apply ents_sorted_app. apply ents_sorted_app in H2 as (Ha & _ & Hc). split; [done|]. split; [by repeat constructor|].
    intros a b Ha' ->%list_elem_of_singleton. change (a.1 < kn_key d'). rewrite Hk'. apply (Hc a (kn_ent d)); [done|left].
  - intros n Hn. rewrite Hkeys. apply elem_of_cons in Hn as [->|Hn]; [|by apply H3]. rewrite -Hk. by apply H3.
  - intros n [->|Hn]%elem_of_cons Hkn; [done|]. rewrite Hk' in Hkn. specialize (H4 n Hn Hkn). lia.
  - intros e He. destruct (H5 e He) as (w & Hw & Hwe & Hmax). exists w. split; [by right|]. split; [done|].
    intros n [->|Hn]%elem_of_cons Hkn; [|by apply Hmax]. pose proof (settled_out_lt _ _ _ _ Hs He) as Hlt.
    rewrite -Hwe in Hlt. change ((kn_ent w).1) with (kn_key w) in Hlt. lia.
Qed.

(** A node with a greater key settles the one that is held back. *)
Lemma settled_next seen out d f :
  settled seen out d -> kn_key d < kn_key f -> settled (f :: seen) (out ++ [kn_ent d]) f.
Proof.
  intros Hs Hk. pose proof Hs as [H1 H2 H3 H4 H5].
  assert (forall n, n ∈ seen -> kn_key n <= kn_key d) as Hle.
  { intros n Hn. specialize (H3 n Hn). apply list_elem_of_fmap in H3 as (e & Hne & He).
    apply elem_of_app in He as [He| ->%list_elem_of_singleton]; [|by rewrite Hne].
    pose proof (settled_out_lt _ _ _ _ Hs He). lia. }
  split.
  - left.
  - apply ents_sorted_app. split; [done|]. split; [by repeat constructor|].
    intros a b [Ha| ->%list_elem_of_singleton]%elem_of_app ->%list_elem_of_singleton; [|done].
    pose proof (settled_out_lt _ _ _ _ Hs Ha). change (a.1 < kn_key f). lia.
  - intros n Hn. rewrite fmap_app. apply elem_of_app. apply elem_of_cons in Hn as [->|Hn]; [right; left|left; by apply H3].
  - intros n [->|Hn]%elem_of_cons Hkn; [done|]. specialize (Hle n Hn). lia.
  - intros e He. assert (exists w, w ∈ seen /\ kn_ent w = e /\
      forall n, n ∈ seen -> kn_key n = kn_key w -> node_version n <= node_version w) as (w & Hw & Hwe & Hmax).
    { apply elem_of_app in He as [He| ->%list_elem_of_singleton]; [by apply H5|]. by exists d. }
    exists w. split; [by right|]. split; [done|]. intros n [->|Hn]%elem_of_cons Hkn; [|by apply Hmax].
    specialize (Hle w Hw). lia.
Qed.

Lemma kn_file_version iters n : it_file <$> iters = files -> bf_version (kn_file iters n) = node_version n.
Proof.
  intros Hf. rewrite /node_version /kn_file /iter_at nth_lookup -Hf list_lookup_fmap. by destruct (iters !! kn_iter n).
Qed.

(** ** The loop *)
Section loop.
Context {C : Type} {cat : LsmCatalogue C} {rng : Rng} (garbage_buffer : area).

(** The part of the state that the output goes through: the slot and the
    builder in use, the catalogue and the level that gets the files. *)
Definition outs : Type := Z * bb_state * C * bit_level.
Definition ms_outs (ms : merge_state (C := C)) : outs := (ms_fd ms, ms_builder ms, ms_cat ms, ms_level2 ms).
Definition outs_file (s : outs) : area := io_file s.1.1.2.2.

(** One settled entry goes to the builder; a full builder is replaced. *)
Definition feed (e : entry record) (s : outs) : outs :=
  let '(fd, st, c, l) := s in
  let st := bit_builder_add_entry e st in
  if DEFAULT_LSM_FILE_CAPACITY <=? bb_size st.1 then
    let '(io, c, l) := close_builder st c l in
    let '(fd, st, c) := open_builder garbage_buffer fd (lv_level l) c io in
    (fd, st, c, l)
  else (fd, st, c, l).

Lemma merge_round_feed first ms h iters :
  heap_refill garbage_leaf (outs_file (ms_outs ms)) (kn_iter first)
    (min_heap_pop kway_merge_node_less (ms_heap ms)) (ms_iters ms) = (h, iters) ->
  let ms' := merge_round garbage_buffer garbage_leaf first ms in
  ms_heap ms' = h /\ ms_iters ms' = iters /\
  (kn_key (ms_distinct ms) = kn_key first ->
     ms_outs ms' = ms_outs ms /\
     ms_distinct ms' = if bf_version (kn_file iters (ms_distinct ms)) <? bf_version (kn_file iters first)
                       then first else ms_distinct ms) /\
  (kn_key (ms_distinct ms) <> kn_key first ->
     ms_outs ms' = feed (kn_entry (ms_distinct ms)) (ms_outs ms) /\ ms_distinct ms' = first).
Proof.
  intros Hr. rewrite /outs_file /ms_outs in Hr. cbn [fst snd] in Hr. rewrite /merge_round Hr. cbn zeta.
  destruct (Z.eqb_spec (kn_key (ms_distinct ms)) (kn_key first)) as [Hk|Hk].
  - done.
  - rewrite /ms_outs /feed. destruct (DEFAULT_LSM_FILE_CAPACITY <=? _); [|done].
    destruct (close_builder _ _ _) as [[io c] l]. destruct (open_builder _ _ _ _ _) as [[fd st] c']. done.
Qed.

(** What the output side must guarantee: it accepts up to [cap] entries in
    increasing order and never touches the files that are merged. *)
Context (Inv : list ent -> outs -> Prop) (cap : nat) (file0 : area).
Hypothesis Inv_file : forall out s r i, Inv out s -> r ∈ regs -> r.1 <= i < r.2 -> outs_file s i = file0 i.
Hypothesis Inv_feed : forall out s e, Inv out s -> ents_sorted (out ++ [e]) -> ent_wf e -> (length out < cap)%nat ->
  Inv (out ++ [e]) (feed (__entry e.1 e.2) s).

Definition pending (ms : merge_state (C := C)) (rems : list (list ent)) : list kway_merge_node := ms_heap ms ++ rem_nodes rems.

Record merge_inv (ms : merge_state (C := C)) (rems : list (list ent)) (seen : list kway_merge_node) (out : list ent) : Prop := {
  mi_iters : iters_ok file0 (ms_iters ms) rems;
  mi_heap : heap_covers (ms_heap ms) rems;
  mi_settled : settled seen out (ms_distinct ms);
  mi_least n : n ∈ pending ms rems -> kn_key (ms_distinct ms) <= kn_key n;
  mi_wf n : n ∈ pending ms rems ++ seen -> ent_wf (kn_ent n);
  mi_out : Inv out (ms_outs ms);
  mi_cap : (length out + length (pending ms rems) < cap)%nat
}.

Lemma entry_of_node n : ent_wf (kn_ent n) -> __entry (kn_ent n).1 (kn_ent n).2 = kn_entry n.
Proof. intros [Hk _]. rewrite /__entry u32_small //. by destruct n as [? []]. Qed.

(** Popping the top and refilling its file. *)
Lemma merge_pop_ok ms rems first h0 :
  iters_ok file0 (ms_iters ms) rems -> heap_covers (ms_heap ms) rems -> ms_heap ms = first :: h0 ->
  (forall r i, r ∈ regs -> r.1 <= i < r.2 -> outs_file (ms_outs ms) i = file0 i) ->
  exists h iters rems',
    heap_refill garbage_leaf (outs_file (ms_outs ms)) (kn_iter first)
      (min_heap_pop kway_merge_node_less (ms_heap ms)) (ms_iters ms) = (h, iters) /\
    iters_ok file0 iters rems' /\ heap_covers h rems' /\ pending ms rems ≡ₚ first :: h ++ rem_nodes rems'.
Proof.
  intros Hok Hcov Heq Hfile. pose proof Hcov as [Hh Hit Hc]. rewrite Heq in Hh Hit Hc |- *.
  destruct (min_heap_pop_ok _ _ kn_key first h0 kn_less_key Hh) as [Hh' Hp].
  assert (iters_ok (outs_file (ms_outs ms)) (ms_iters ms) rems) as Hok' by (eapply iters_ok_file; [|exact Hok]; done).
  pose proof (heap_refill_ok (outs_file (ms_outs ms)) (kn_iter first) [] (min_heap_pop kway_merge_node_less (first :: h0))
    (ms_iters ms) rems Hok') as Hr.
  destruct (heap_refill _ _ _ _ _) as [h iters]. destruct Hr as (rems' & Hok1 & Hp1 & Hl1 & Hperm).
  - split; [done|]. split; [intros n; rewrite Hp => Hn; apply Hit; by right|].
    intros j es e Hj Hjs He. setoid_rewrite Hp. destruct (Hc j es e Hjs He) as (n & Hn & Hnj & Hk).
    exists n. split; [|done]. apply elem_of_cons in Hn as [->|Hn]; [|done]. exfalso. apply Hj. rewrite Hnj. left.
  - apply Hit. left.
  - exists h, iters, rems'. split; [done|]. split; [|split; [by apply heap_part_nil|]].
    + eapply iters_ok_file; [|exact Hok1]. intros r i Hr Hi. symmetry. by eapply Hfile.
    + rewrite /pending Heq Hperm Hp. done.
Qed.

Lemma merge_round_ok ms rems seen out first h0 :
  merge_inv ms rems seen out -> ms_heap ms = first :: h0 ->
  exists rems' out', merge_inv (merge_round garbage_buffer garbage_leaf first ms) rems' (first :: seen) out' /\
    pending ms rems ≡ₚ first :: pending (merge_round garbage_buffer garbage_leaf first ms) rems'.
Proof.
  intros [Hit Hcov Hset Hle Hwf Hout Hcap] Heq.
  destruct (merge_pop_ok ms rems first h0 Hit Hcov Heq (fun r i Hr Hi => Inv_file out (ms_outs ms) r i Hout Hr Hi)) as (h & iters & rems' & Hr & Hit' & Hcov' & Hp).
  destruct (merge_round_feed first ms h iters Hr) as (Hh & His & Hsame & Hnext).
  set (ms' := merge_round _ _ _ _) in *.
  assert (pending ms rems ≡ₚ first :: pending ms' rems') as Hp' by (by rewrite /pending Hh).
  assert (first ∈ pending ms rems) as Hfin by (rewrite Hp'; left).
  assert (forall n, n ∈ pending ms' rems' -> kn_key first <= kn_key n) as Hleast.
  { intros n Hn. apply (heap_top_least first h0 rems); [by rewrite -Heq|apply Hit|].
    rewrite app_comm_cons -Heq -/(pending ms rems) Hp'. by right. }
  assert (length (pending ms rems) = S (length (pending ms' rems'))) as Hlen by (by rewrite Hp').
  assert (forall n, n ∈ pending ms' rems' ++ first :: seen -> ent_wf (kn_ent n)) as Hwf'.
  { intros n Hn. apply Hwf. rewrite Hp'. set_solver. }
  exists rems'. destruct (decide (kn_key (ms_distinct ms) = kn_key first)) as [Hk|Hk].
  - destruct (Hsame Hk) as [Ho Hd]. rewrite !kn_file_version in Hd; [|apply Hit'|apply Hit'].
    exists out. split; [|done]. split; try done; [by rewrite His|by rewrite Hh|rewrite Hd; by apply settled_same| |by rewrite Ho|lia].
    intros n Hn. specialize (Hleast n Hn). rewrite Hd. case_match; lia.
  - destruct (Hnext Hk) as [Ho Hd]. specialize (Hle first Hfin).
    assert (ent_wf (kn_ent (ms_distinct ms))) as Hdw by (apply Hwf, elem_of_app; right; apply Hset).
    exists (out ++ [kn_ent (ms_distinct ms)]). split; [|done].
    split; try done; [by rewrite His|by rewrite Hh|rewrite Hd; apply settled_next; [done|lia]|by rewrite Hd| |rewrite length_app /=; lia].
    rewrite Ho -entry_of_node //. apply Inv_feed; [done|apply Hset|done|lia].
Qed.

(** The loop terminates within one round per entry. *)
Lemma merge_loop_ok fuel ms rems seen out :
  merge_inv ms rems seen out -> (length (pending ms rems) <= fuel)%nat ->
  exists ms' seen' out' rems', merge_loop garbage_buffer garbage_leaf fuel ms = Some ms' /\ merge_inv ms' rems' seen' out' /\
    pending ms' rems' = [] /\ seen' ≡ₚ pending ms rems ++ seen.
Proof.
  revert ms rems seen out. induction fuel as [|fuel IH] => ms rems seen out Hinv Hf.
  - assert (pending ms rems = []) as Hp by (destruct (pending ms rems); [done|cbn [length] in Hf; lia]).
    assert (ms_heap ms = []) as Hh by (by apply app_eq_nil in Hp as [? _]).
    exists ms, seen, out, rems. cbn [merge_loop]. rewrite Hh Hp. done.
  - destruct (ms_heap ms) as [|first h0] eqn:Hh; cbn [merge_loop]; rewrite Hh.
    + exists ms, seen, out, rems. split; [done|]. split; [done|].
      assert (pending ms rems = []) as Hp; [|by rewrite Hp].
      rewrite /pending Hh. cbn [app]. destruct (rem_nodes rems) as [|n l] eqn:E; [done|].
      assert (n ∈ rem_nodes rems) as Hn by (rewrite E; left). apply rem_nodes_elem in Hn as (i & es & e & Hi & He & _).
      destruct (hc_cover _ _ (mi_heap _ _ _ _ Hinv) i es e Hi He) as (m & Hm & _). rewrite Hh in Hm. by apply elem_of_nil in Hm.
    + destruct (merge_round_ok ms rems seen out first h0 Hinv Hh) as (rems1 & out1 & Hinv1 & Hp1).
      assert (length (pending ms rems) = S (length (pending (merge_round garbage_buffer garbage_leaf first ms) rems1))) as Hlen by (by rewrite Hp1).
      destruct (IH _ rems1 (first :: seen) out1 Hinv1 ltac:(lia)) as (ms' & seen' & out' & rems' & H1 & H2 & H3 & H4).
      exists ms', seen', out', rems'. split; [done|]. split; [done|]. split; [done|].
      rewrite H4 Hp1. cbn [app]. symmetry. apply Permutation_middle.
Qed.

(** The first round: the top of the heap is held back. *)
Lemma merge_start_ok ms rems first h0 :
  iters_ok file0 (ms_iters ms) rems -> heap_covers (ms_heap ms) rems -> ms_heap ms = first :: h0 -> ms_distinct ms = first ->
  Inv [] (ms_outs ms) -> (length (pending ms rems) <= cap)%nat -> (forall n, n ∈ pending ms rems -> ent_wf (kn_ent n)) ->
  exists rems', merge_inv (merge_round garbage_buffer garbage_leaf first ms) rems' [first] [] /\
    pending ms rems ≡ₚ first :: pending (merge_round garbage_buffer garbage_leaf first ms) rems'.
Proof.
  intros Hit Hcov Heq Hd Hout Hcap Hwf.
  destruct (merge_pop_ok ms rems first h0 Hit Hcov Heq (fun r i Hr Hi => Inv_file [] (ms_outs ms) r i Hout Hr Hi))
    as (h & iters & rems' & Hr & Hit' & Hcov' & Hp).
  destruct (merge_round_feed first ms h iters Hr) as (Hh & His & Hsame & _). rewrite Hd in Hsame.
  destruct (Hsame eq_refl) as [Ho Hd']. rewrite Z.ltb_irrefl in Hd'. set (ms' := merge_round _ _ _ _) in *.
  assert (pending ms rems ≡ₚ first :: pending ms' rems') as Hp' by (by rewrite /pending Hh).
  exists rems'. split; [|done]. split; [by rewrite His|by rewrite Hh|rewrite Hd'; apply settled_init| | |by rewrite Ho|].
  - intros n Hn. rewrite Hd'. apply (heap_top_least first h0 rems); [by rewrite -Heq|apply Hit|].
    rewrite app_comm_cons -Heq -/(pending ms rems) Hp'. by right.
  - intros n Hn. apply Hwf. rewrite Hp'. set_solver.
  - rewrite Hp' in Hcap. cbn [length] in Hcap |- *. lia.
Qed.

(** The whole merge, from the filled heap on. *)
Lemma merge_all_ok fuel ms rems first h0 :
  iters_ok file0 (ms_iters ms) rems -> heap_covers (ms_heap ms) rems -> ms_heap ms = first :: h0 -> ms_distinct ms = first ->
  Inv [] (ms_outs ms) -> (length (pending ms rems) <= cap)%nat -> (length (pending ms rems) <= fuel)%nat ->
  (forall n, n ∈ pending ms rems -> ent_wf (kn_ent n)) ->
  exists ms' seen out, merge_loop garbage_buffer garbage_leaf fuel ms = Some ms' /\ Inv out (ms_outs ms') /\
    settled seen out (ms_distinct ms') /\ seen ≡ₚ pending ms rems /\ (length out < cap)%nat.
Proof.
  intros Hit Hcov Heq Hd Hout Hcap Hf Hwf.
  destruct (merge_start_ok ms rems first h0 Hit Hcov Heq Hd Hout Hcap Hwf) as (rems1 & Hinv & Hp).
  rewrite Hp in Hf. destruct fuel as [|fuel]; [cbn [length] in Hf; lia|]. cbn [merge_loop]. rewrite Heq.
  destruct (merge_loop_ok fuel _ rems1 [first] [] Hinv ltac:(cbn [length] in Hf; lia)) as (ms' & seen & out & rems' & H1 & H2 & H3 & H4).
  exists ms', seen, out. split; [done|]. split; [apply H2|]. split; [apply H2|]. split.
  - rewrite H4 Hp. by rewrite -Permutation_cons_append.
  - pose proof (mi_cap _ _ _ _ H2). lia.
Qed.
End loop.

(** ** What is fed is the newest record of every key *)
Lemma merged_newest ess seen out d :
  length files = length ess -> NoDup (bf_version <$> files) -> Forall ents_sorted ess -> Forall (Forall ent_wf) ess ->
  settled seen out d -> seen ≡ₚ rem_nodes ess ->
  ents_sorted (out ++ [kn_ent d]) /\ Forall ent_wf (out ++ [kn_ent d]) /\
  forall k, ents_map (out ++ [kn_ent d]) !! k = snd <$> newest k (sources files ess).
Proof.
  intros Hlen Hnd Hsort Hwf Hset Hp. pose proof Hset as [H1 H2 H3 H4 H5].
  assert (forall n, n ∈ seen -> exists i es f, ess !! i = Some es /\ files !! i = Some f /\ kn_ent n ∈ es /\
    kn_iter n = i /\ node_version n = bf_version f) as Hnode.
  { intros n Hn. rewrite Hp in Hn. apply rem_nodes_elem in Hn as (i & es & e & Hi & He & ->).
    destruct (lookup_lt_is_Some_2 files i) as [f Hf]; [rewrite Hlen; by eapply lookup_lt_Some|].
    exists i, es, f. pose proof (Forall_lookup_1 _ _ _ _ Hwf Hi) as Hwe. eapply Forall_forall in Hwe; [|exact He]. destruct Hwe as [He1 _].
    rewrite kn_ent_mk //. do 4 (split; [done|]). by rewrite /node_version /= Hf. }
  assert (forall e, e ∈ out ++ [kn_ent d] -> exists w, w ∈ seen /\ kn_ent w = e /\
    forall n, n ∈ seen -> kn_key n = kn_key w -> node_version n <= node_version w) as Hwin.
  { intros e [He| ->%list_elem_of_singleton]%elem_of_app; [by apply H5|]. by exists d. }
  split; [done|]. split.
  { apply Forall_forall => e He. destruct (Hwin e He) as (w & Hw & <- & _). destruct (Hnode w Hw) as (i & es & f & Hi & _ & Hin & _).
    pose proof (Forall_lookup_1 _ _ _ _ Hwf Hi) as Hwe. by eapply Forall_forall in Hwe. }
  intros k. pose proof (newest_spec k (sources files ess)) as Hnew.
  destruct (newest k (sources files ess)) as [[v r]|].
  - destruct Hnew as [(s & (i & Hi)%list_elem_of_lookup & Hv & Hr) Hmax]. cbn [fmap option_fmap option_map snd].
    apply lookup_zip_with_Some in Hi as (f & es & -> & Hf & Hes). cbn [file_source fst snd] in Hv, Hr.
    pose proof (elem_of_list_to_map_2 _ _ _ Hr) as Hin.
    pose proof (Forall_lookup_1 _ _ _ _ Hwf Hes) as Hwe. eapply Forall_forall in Hwe; [|exact Hin]. destruct Hwe as [Hk1 _]. cbn [fst] in Hk1.
    assert (mk_node i (k, r) ∈ seen) as Hn0 by (rewrite Hp; apply rem_nodes_elem; by exists i, es, (k, r)).
    assert (kn_ent (mk_node i (k, r)) = (k, r)) as Hke by (by apply kn_ent_mk).
    specialize (H3 _ Hn0). change (kn_key (mk_node i (k, r))) with ((kn_ent (mk_node i (k, r))).1) in H3. rewrite Hke in H3.
    apply list_elem_of_fmap in H3 as ([k' r'] & Hk' & Hin'). cbn [fst] in Hk'. subst k'.
    destruct (Hwin _ Hin') as (w & Hw & Hwe & Hwmax). destruct (Hnode w Hw) as (j & es' & f' & Hj & Hf' & Hinw & _ & Hvw).
    rewrite Hwe in Hinw. assert (kn_key w = k) as Hkw by (change (kn_key w) with ((kn_ent w).1); by rewrite Hwe).
    pose proof (Hwmax _ Hn0 ltac:(rewrite Hkw; change (kn_key (mk_node i (k, r))) with ((kn_ent (mk_node i (k, r))).1); by rewrite Hke)) as Hle.
    rewrite {1}/node_version /= Hf Hvw in Hle. cbn in Hle.
    pose proof (Forall_lookup_1 _ _ _ _ Hsort Hj) as Hsj.
    assert (ents_map es' !! k = Some r') as Hr' by (by apply ents_map_elem).
    pose proof (Hmax (file_source f' es') r' ltac:(apply list_elem_of_lookup; exists j; apply lookup_zip_with_Some; by exists f', es') Hr') as Hle'.
    cbn [file_source fst] in Hle'.
    assert (i = j) as <-.
    { eapply NoDup_lookup; [exact Hnd|by rewrite list_lookup_fmap Hf|]. rewrite list_lookup_fmap Hf' /=. f_equal. lia. }
    rewrite Hes in Hj. injection Hj as <-. rewrite Hr in Hr'. injection Hr' as ->. by apply ents_map_elem.
  - cbn. apply ents_map_none => -[k' r'] He Hk'. cbn [fst] in Hk'. subst k'. destruct (Hwin _ He) as (w & Hw & Hwe & _).
    destruct (Hnode w Hw) as (j & es' & f' & Hj & Hf' & Hinw & _). rewrite Hwe in Hinw.
    specialize (Hnew (file_source f' es') ltac:(apply list_elem_of_lookup; exists j; apply lookup_zip_with_Some; by exists f', es')).
    cbn [file_source snd] in Hnew. by rewrite (ents_map_elem es' k r' (Forall_lookup_1 _ _ _ _ Hsort Hj) Hinw) in Hnew.
Qed.
End merge.
