(* ===== verification/FileFacts.v ===== *)
(** * Files of the tree in their slots

    A file of a level lies in the slot of the index region its id names; the
    catalogue has the slot marked as used.  What happens in other slots does
    not touch it.  Building a file through the catalogue ([open_builder],
    [bit_builder_add_entry], [close_builder]) gives such a file. *)
From S2P Require Import Prelude Codec BlockManager DiskStructs Crypto BitNode Superblock SegValidator Area Bloom Hashtable Catalogue BitFile BitTree BitFileSpec IterFacts Level Compaction.

Section file_facts.
Context {C : Type} {cat : LsmCatalogue C} {cat_ok : LsmCatalogueOk C}.
Context {gcm : Gcm} {gcm_ok : GcmOk} {rng : Rng} {rng_ok : RngOk}.
Context (garbage_buffer : area).
Implicit Types (c : C) (f : bit_file).

Definition slot_lo c (id : Z) : Z := cat_start c + id * cat_file_size c.

(** A file of the tree: its slot is in use and it lies in it. *)
Record file_in c (file : area) f (es : list ent) : Prop := {
  fi_id : 0 <= bf_id f < cat_max_fd c;
  fi_used : cat_used c (bf_id f) = true;
  fi_version : 0 <= bf_version f < cat_version c;
  fi_ok : exists lo hi, bit_file_ok file lo hi f es /\ slot_lo c (bf_id f) <= lo /\ hi <= slot_lo c (bf_id f) + cat_file_size c;
  fi_range : Forall (fun e : ent => bf_first_key f <= e.1 <= bf_last_key f) es;
  fi_chain : exists lo hi, bit_file_chain file lo hi f es /\ slot_lo c (bf_id f) <= lo /\ hi <= slot_lo c (bf_id f) + cat_file_size c;
  fi_wf : Forall ent_wf es;
  fi_stat : cat_stat c (bf_id f) = Some (bit_file_get_stats f);
  fi_stat_wf : cwf file_stat_codec (bit_file_get_stats f);
  (** the filter in memory is the one on disk *)
  fi_filter : bf_filter f = bloom_filter_load bit_bloom_filter_create file (bf_filter_begin f) /\
    slot_lo c (bf_id f) <= bf_filter_begin f /\ bf_filter_begin f + BIT_BLOOM_FILTER_SIZE <= slot_lo c (bf_id f) + cat_file_size c
}.

Lemma file_in_holds c file f es : file_in c file f es -> file_holds file f es.
Proof. intros [_ _ _ (lo & hi & Hok & _) Hr _ _ _ _ _]. split; [by exists lo, hi|done]. Qed.

Record cat_geom_ok c : Prop := {
  cg_size : cat_file_size c = calculate_bit_size DEFAULT_LSM_FILE_CAPACITY DEFAULT_BIT_DEGREE;
  cg_start : 0 <= cat_start c;
  cg_end : cat_start c + cat_max_fd c * cat_file_size c <= 2 ^ 61
}.

Lemma files_holds c file fs es : Forall2 (file_in c file) fs es -> level_holds file fs es.
Proof. intros Hf. eapply Forall2_impl; [exact Hf|]. intros f e. apply file_in_holds. Qed.

Lemma file_in_same c file f f' es : file_in c file f es -> bf_same f f' -> file_holds file f' es -> file_in c file f' es.
Proof.
  intros [H1 H2 H3 (lo & hi & [Hs Ht Hf Hc] & Hlo & Hhi) H5 H6 H7 H8 H9 H10] (leaf & ->) [(lo' & hi' & [_ _ _ Hc']) _].
  split; try done. exists lo, hi. split; [by split|done].
Qed.

Lemma slots_apart c (id fd : Z) : cat_geom_ok c -> id <> fd ->
  slot_lo c id + cat_file_size c <= slot_lo c fd \/ slot_lo c fd + cat_file_size c <= slot_lo c id.
Proof.
  intros [Hsz _ _] Hne. rewrite /slot_lo. assert (0 < cat_file_size c) by (rewrite Hsz file_size_value; lia).
  destruct (decide (id < fd)); [left|right]; nia.
Qed.

(** A file stays what it is as long as its slot is used and not written to. *)
Lemma file_in_frame c c' file file' f es :
  file_in c file f es -> cat_geom c' = cat_geom c -> cat_used c' (bf_id f) = true -> cat_stat c' (bf_id f) = cat_stat c (bf_id f) ->
  cat_version c <= cat_version c' ->
  (forall i, slot_lo c (bf_id f) <= i < slot_lo c (bf_id f) + cat_file_size c -> file' i = file i) -> file_in c' file' f es.
Proof.
  intros [H1 H2 H3 (lo & hi & Hok & Hlo & Hhi) H5 (lo' & hi' & Hch & Hlo' & Hhi') H7 H8 H9 (F1 & F2 & F3)] Hgeo Hu Hst Hv Hfr.
  rewrite /cat_geom in Hgeo. injection Hgeo as G1 G2 _ _ _ G6.
  split; [by rewrite G6|done|lia| |done| |done|by rewrite Hst|done|]; rewrite /slot_lo G1 G2.
  - exists lo, hi. split; [|done]. eapply bit_file_ok_stable; [exact Hok|]. intros i Hi. apply Hfr. lia.
  - exists lo', hi'. split; [|done]. eapply bit_file_chain_stable; [exact Hch|]. intros i Hi. apply Hfr. lia.
  - split; [|done]. rewrite F1. eapply bloom_load_ext. intros i Hi. apply Hfr.
    change (bf_size bit_bloom_filter_create) with BIT_BLOOM_FILTER_SIZE in Hi. lia.
Qed.

(** A file is not touched by what happens in another slot. *)
Lemma file_in_keep c c' file file' f es fd :
  file_in c file f es -> cat_geom_ok c -> cat_geom c' = cat_geom c -> bf_id f <> fd -> cat_used c' (bf_id f) = cat_used c (bf_id f) ->
  cat_stat c' (bf_id f) = cat_stat c (bf_id f) -> cat_version c <= cat_version c' ->
  (forall i, i < slot_lo c fd \/ slot_lo c fd + cat_file_size c <= i -> file' i = file i) -> file_in c' file' f es.
Proof.
  intros Hf Hg Hgeo Hne Hu Hst Hv Hfr. pose proof (slots_apart c (bf_id f) fd Hg Hne) as Hap.
  eapply file_in_frame; [exact Hf|done|by rewrite Hu (fi_used _ _ _ _ Hf)|done|done|]. intros i Hi. apply Hfr. lia.
Qed.

Lemma stat_wf f :
  cwf bit_pointer_codec (bit_root f) -> 0 <= bf_filter_begin f < 2 ^ 64 -> 0 <= bf_id f < 2 ^ 64 -> 0 <= bf_level f < 2 ^ 64 ->
  0 <= bf_version f < 2 ^ 64 -> 0 <= bf_first_key f < 2 ^ 32 -> 0 <= bf_last_key f < 2 ^ 32 ->
  cwf file_stat_codec (bit_file_get_stats f).
Proof.
  intros (P1 & P2 & P3) H1 H2 H3 H4 H5 H6. split; [exact P1|]. split; [exact H1|]. split; [exact P2|]. split; [exact P3|].
  split; [exact H2|]. split; [exact H3|]. split; [exact H4|]. split; [exact H5|]. split; [exact H6|]. done.
Qed.

(** Everything about a file that is built into a free slot and registered. *)
Record built (c c' : C) (io io' : bit_io) (level : Z) (es : list ent) f : Prop := {
  bt_fresh : cat_used c (bf_id f) = false;
  bt_level : bf_level f = level;
  bt_version : bf_version f = cat_version c;
  bt_first : bf_first_key f = default 0 (fst <$> head es);
  bt_last : bf_last_key f = last_key es;
  bt_inv : cat_inv c';
  bt_geom : cat_geom c' = cat_geom c;
  bt_next : cat_version c' = cat_version c + 1;
  bt_used : forall fd, 0 <= fd < cat_max_fd c -> cat_used c' fd = (fd =? bf_id f) || cat_used c fd;
  bt_stat : forall fd, 0 <= fd < cat_max_fd c ->
    cat_stat c' fd = if decide (fd = bf_id f) then Some (bit_file_get_stats f) else cat_stat c fd;
  bt_file : file_in c' (io_file io') f es;
  bt_frame : forall i, i < slot_lo c (bf_id f) \/ slot_lo c (bf_id f) + cat_file_size c <= i -> io_file io' i = io_file io i
}.

(** The other files stay as they are. *)
Lemma built_keeps c c' io io' level es f g e :
  built c c' io io' level es f -> cat_geom_ok c -> file_in c (io_file io) g e -> file_in c' (io_file io') g e.
Proof.
  intros Hb Hgeo Hg. assert (bf_id g <> bf_id f) as Hne.
  { intros He. pose proof (fi_used _ _ _ _ Hg) as Hu. by rewrite He (bt_fresh _ _ _ _ _ _ _ Hb) in Hu. }
  apply (file_in_keep c c' (io_file io) (io_file io') g e (bf_id f)); try done.
  - apply (bt_geom _ _ _ _ _ _ _ Hb).
  - rewrite (bt_used _ _ _ _ _ _ _ Hb); [|apply (fi_id _ _ _ _ Hg)]. by ztest.
  - rewrite (bt_stat _ _ _ _ _ _ _ Hb); [|apply (fi_id _ _ _ _ Hg)]. by case_decide.
  - pose proof (bt_next _ _ _ _ _ _ _ Hb). lia.
  - apply (bt_frame _ _ _ _ _ _ _ Hb).
Qed.

Lemma first_key_min es e : ents_sorted es -> e ∈ es -> default 0 (fst <$> head es) <= e.1.
Proof.
  intros Hs He. destruct es as [|x es]; [by apply not_elem_of_nil in He|]. cbn.
  apply elem_of_cons in He as [->|He]; [lia|]. apply StronglySorted_inv in Hs as [_ Hall].
  eapply Forall_forall in Hall; [|exact He]. lia.
Qed.

Lemma cat_geom_eq c c' : cat_geom c' = cat_geom c ->
  cat_start c' = cat_start c /\ cat_file_size c' = cat_file_size c /\ cat_max_fd c' = cat_max_fd c.
Proof. rewrite /cat_geom. intros [=]. by split_and!. Qed.

Lemma build_file_ok c io level es fd0 :
  cat_inv c -> cat_geom_ok c -> 0 <= cat_version c < 2 ^ 64 - 1 -> (exists fd, 0 <= fd < cat_max_fd c /\ cat_used c fd = false) ->
  0 <= level < 2 ^ 64 -> ents_sorted es -> Forall ent_wf es -> (8 <= length es)%nat -> Z.of_nat (length es) mod 8 = 0 ->
  Z.of_nat (length es) <= DEFAULT_LSM_FILE_CAPACITY -> sim_full (Z.to_nat (Z.of_nat (length es) / 8)) = false ->
  let '(fd, st, c1) := open_builder garbage_buffer fd0 level c io in
  let '(f, io') := bit_builder_complete (bit_builder_add_all es st) in
  built c (cat_set_file_stats (bf_id f) (bit_file_get_stats f) c1).2 io io' level es f.
Proof.
  intros Hinv Hg Hv (fd1 & Hfd1 & Hfree) Hlev Hs Hwf Hl Hm8 Hcap Hsim. pose proof Hg as [Hsz Hst Hend].
  rewrite /open_builder /alloc_fd. pose proof (cat_alloc_ok c Hinv) as Ha. destruct (cat_alloc_file c) as [[fd|e] ca]; last first.
  { rewrite Ha in Hfree; done. }
  destruct Ha as (A1 & A2 & A3 & A4 & A5 & A6 & A7 & A8). destruct (cat_geom_eq _ _ A4) as (G1 & G2 & G3).
  destruct (cat_next_version_ok ca A3 ltac:(lia)) as (cv & Hrun & V1 & V2 & V3 & V4). rewrite /next_version Hrun.
  destruct (cat_geom_eq _ _ V2) as (G1' & G2' & G3'). rewrite G1' G2' G1 G2 -/(slot_lo c fd) A5.
  assert (0 < cat_file_size c) as Hpos by (rewrite Hsz file_size_value; lia).
  assert (0 <= slot_lo c fd /\ slot_lo c fd + cat_file_size c <= 2 ^ 61) as [Hb1 Hb2] by (rewrite /slot_lo; nia).
  assert (0 <= slot_lo c fd <= 2 ^ 61) as Hb by lia.
  pose proof (bit_file_build_ok (slot_lo c fd) fd level (cat_version c) garbage_buffer io es Hb Hwf Hs Hl Hcap Hsim) as Hok.
  pose proof (bit_file_build_chain (slot_lo c fd) fd level (cat_version c) garbage_buffer io es Hb Hwf Hs Hl Hcap Hsim) as Hch.
  rewrite nr_full_all // firstn_all in Hok.
  rewrite /bit_file_build in Hok, Hch. pose proof (complete_filter (bit_builder_add_all es (bit_builder_create (slot_lo c fd) fd level (cat_version c) garbage_buffer io))) as Hfl.
  destruct (bit_builder_complete _) as [f io']. destruct Hch as (hi' & Hhi' & Hch).
  destruct Hok as (hi & B1 & B2 & B3 & B4 & B5 & B6 & B7 & B8 & B9 & B10 & B11 & B12 & B13).
  rewrite -Hsz in B3, Hhi'. change BIT_BLOOM_FILTER_SIZE with 2097152 in *.
  destruct es as [|e0 es'] eqn:Ees; [simpl in Hl; lia|]. rewrite -Ees in B1, B8, B9, Hs, Hwf, Hch |- *.
  assert (forall e, e ∈ es -> bf_first_key f <= e.1 <= bf_last_key f /\ 0 <= e.1 < 2 ^ 32) as Hrange.
  { intros e He. rewrite B8 B9. split; [split; [by apply first_key_min|by apply last_key_max]|].
    eapply Forall_forall in Hwf; [|exact He]. apply Hwf. }
  assert (0 <= bf_first_key f < 2 ^ 32 /\ 0 <= bf_last_key f < 2 ^ 32) as [Hfk Hlk].
  { split.
    - rewrite B8 Ees. cbn. apply (Hrange e0). rewrite Ees. left.
    - rewrite B9 /last_key. destruct (last es) as [e|] eqn:El; [|by rewrite Ees last_cons in El; destruct (last es')].
      cbn. apply (Hrange e). by apply last_Some_elem_of. }
  assert (cat_max_fd c <= 2 ^ 61) as Hmax.
  { assert (1 * cat_max_fd c <= cat_file_size c * cat_max_fd c); [|lia].
    apply Z.mul_le_mono_nonneg_r; lia. }
  assert (cwf file_stat_codec (bit_file_get_stats f)) as Hswf by (apply stat_wf; try done; try lia).
  destruct (cat_set_stats_ok cv (bf_id f) (bit_file_get_stats f) V1 ltac:(lia) Hswf) as (c2 & -> & S1 & S2 & S3 & S4 & S5).
  destruct (cat_geom_eq _ _ S2) as (G1'' & G2'' & G3''). cbn [snd].
  assert (forall fd', 0 <= fd' < cat_max_fd c -> cat_used c2 fd' = (fd' =? bf_id f) || cat_used c fd') as Hused.
  { intros fd' Hfd'. rewrite S4; [|lia]. destruct (V4 fd' ltac:(lia)) as [-> _]. rewrite B5.
    destruct (Z.eqb_spec fd' fd) as [->|]; [done|]. by apply A7. }
  split; try done; try congruence.
  - intros fd' Hfd'. rewrite S5; [|lia]. case_decide; [done|]. destruct (V4 fd' ltac:(lia)) as [_ ->]. by apply A8.
  - split.
    + rewrite G3'' G3' G3 B5. done.
    + rewrite Hused; [|lia]. by rewrite Z.eqb_refl.
    + rewrite S3 V3 A5 B7. lia.
    + exists (slot_lo c fd), hi. split; [done|]. rewrite /slot_lo G1'' G1' G1 G2'' G2' G2 B5. rewrite /slot_lo in B3. lia.
    + apply Forall_forall => e He. by apply Hrange.
    + exists (slot_lo c fd), hi'. split; [done|]. rewrite /slot_lo G1'' G1' G1 G2'' G2' G2 B5. rewrite /slot_lo in Hhi'. lia.
    + done.
    + rewrite S5; [|lia]. by case_decide.
    + done.
    + split; [exact Hfl|]. rewrite B11 /slot_lo G1'' G1' G1 G2'' G2' G2 B5. change BIT_BLOOM_FILTER_SIZE with 2097152. rewrite /slot_lo in B2, B3. lia.
  - intros i Hi. apply B4. rewrite B5 in Hi. lia.
Qed.

Lemma sources_middle fs1 fs2 es1 es2 f es :
  length fs1 = length es1 ->
  sources (fs1 ++ f :: fs2) (es1 ++ es :: es2) ≡ₚ (bf_version f, es) :: sources (fs1 ++ fs2) (es1 ++ es2).
Proof.
  intros Hl. rewrite /sources !zip_with_app //. cbn [zip_with]. by rewrite Permutation_middle.
Qed.

Lemma sources_elem fs es s : s ∈ sources fs es -> exists i f e, fs !! i = Some f /\ es !! i = Some e /\ s = (bf_version f, e).
Proof.
  intros (i & Hi)%list_elem_of_lookup. rewrite /sources lookup_zip_with in Hi.
  destruct (fs !! i) as [f|] eqn:Ef; [|done]. destruct (es !! i) as [e|] eqn:Ee; [|done].
  cbn in Hi. injection Hi as <-. by exists i, f, e.
Qed.

Lemma sources_versions file c fs es : Forall2 (file_in c file) fs es -> (sources fs es).*1 = bf_version <$> fs.
Proof. induction 1 as [|f e fs es _ _ IH]; [done|]. rewrite fmap_cons -IH. done. Qed.

(** What a new file in level 0 does to the tree: it is registered, and its
    entries come before all others on disk. *)
End file_facts.
