(* ===== verification/CompactionFacts.v ===== *)
(** * The output side of a compaction

    The entries a merge settles go to builders, one file of 2^20 entries after
    the other, each in a fresh slot of the catalogue.  The files being merged
    lie in slots that are in use, so writing the new ones never touches them. *)
From S2P Require Import Prelude Codec BlockManager DiskStructs Crypto BitNode Superblock SegValidator Area Bloom Hashtable Catalogue BitFile BitTree BitFileSpec IterFacts Level Compaction MergeFacts FileFacts.

Section output.
Context {C : Type} {cat : LsmCatalogue C} {cat_ok : LsmCatalogueOk C}.
Context {gcm : Gcm} {gcm_ok : GcmOk} {rng : Rng} {rng_ok : RngOk}.
Context (garbage_buffer : area).
Implicit Types (c : C) (f : bit_file) (io : bit_io) (l : bit_level).

(** ** Free slots *)
Definition nr_free c : Z := Z.of_nat (length (filter (fun fd => cat_used c fd = false) (seqZ 0 (cat_max_fd c)))).

Lemma nr_free_exists c : 0 < nr_free c -> exists fd, 0 <= fd < cat_max_fd c /\ cat_used c fd = false.
Proof.
  rewrite /nr_free. destruct (filter _ _) as [|fd l] eqn:E; [cbn; lia|]. intros _. exists fd.
  assert (fd ∈ filter (fun fd => cat_used c fd = false) (seqZ 0 (cat_max_fd c))) as Hin by (rewrite E; left).
  apply list_elem_of_filter in Hin as [Hu Hr%elem_of_seqZ]. split; [lia|done].
Qed.

Lemma filter_same (P Q : Z -> Prop) `{!forall x, Decision (P x)} `{!forall x, Decision (Q x)} (l : list Z) :
  (forall y, y ∈ l -> Q y <-> P y) -> filter P l = filter Q l.
Proof.
  induction l as [|y l IH] => Heq; [done|]. rewrite !filter_cons. specialize (IH (fun z Hz => Heq z (list_elem_of_further _ _ _ Hz))).
  pose proof (Heq y ltac:(left)) as Hy. case_decide; case_decide; try tauto. by rewrite IH.
Qed.

Lemma filter_drop_one (P Q : Z -> Prop) `{!forall x, Decision (P x)} `{!forall x, Decision (Q x)} (l : list Z) x :
  NoDup l -> x ∈ l -> P x -> ~ Q x -> (forall y, y ∈ l -> y <> x -> Q y <-> P y) ->
  length (filter P l) = S (length (filter Q l)).
Proof.
  intros Hnd Hx HPx HQx Heq. induction Hnd as [|y l Hy Hnd IH]; [by apply not_elem_of_nil in Hx|].
  rewrite !filter_cons. apply elem_of_cons in Hx as [<-|Hx].
  - case_decide; [|done]. case_decide; [done|]. cbn [length]. do 2 f_equal. apply filter_same => z Hz.
    apply Heq; [by right|]. by intros ->.
  - assert (y <> x) as Hne by (by intros ->). specialize (IH Hx (fun z Hz => Heq z (list_elem_of_further _ _ _ Hz))).
    pose proof (Heq y ltac:(left) Hne). case_decide; case_decide; cbn [length]; try tauto; lia.
Qed.

Lemma nr_free_take c c' id :
  cat_max_fd c' = cat_max_fd c -> 0 <= id < cat_max_fd c -> cat_used c id = false ->
  (forall fd, 0 <= fd < cat_max_fd c -> cat_used c' fd = (fd =? id) || cat_used c fd) -> nr_free c' = nr_free c - 1.
Proof.
  intros Hmax Hid Hf Hu. rewrite /nr_free Hmax.
  rewrite (filter_drop_one (fun fd => cat_used c fd = false) (fun fd => cat_used c' fd = false) _ id); [lia|apply NoDup_seqZ| |done| |].
  - apply elem_of_seqZ. lia.
  - rewrite Hu // Z.eqb_refl. done.
  - intros y Hy%elem_of_seqZ Hne. rewrite Hu; [|lia]. by ztest.
Qed.

(** ** Opening a builder *)
Lemma open_builder_ok fd0 level c io :
  cat_inv c -> cat_geom_ok c -> 0 <= cat_version c < 2 ^ 64 - 1 -> 0 < nr_free c ->
  exists fd c1, open_builder garbage_buffer fd0 level c io =
      (fd, bit_builder_create (slot_lo c fd) fd level (cat_version c) garbage_buffer io, c1) /\
    0 <= fd < cat_max_fd c /\ cat_used c fd = false.
Proof.
  intros Hinv Hg Hv Hfree. apply nr_free_exists in Hfree as (fd1 & Hfd1 & Hf1).
  rewrite /open_builder /alloc_fd. pose proof (cat_alloc_ok c Hinv) as Ha. destruct (cat_alloc_file c) as [[fd|e] ca]; last first.
  { rewrite Ha in Hf1; done. }
  destruct Ha as (A1 & A2 & A3 & A4 & A5 & _). destruct (cat_geom_eq _ _ A4) as (G1 & G2 & G3).
  destruct (cat_next_version_ok ca A3 ltac:(lia)) as (cv & Hrun & V1 & V2 & _). rewrite /next_version Hrun.
  destruct (cat_geom_eq _ _ V2) as (G1' & G2' & G3'). rewrite G1' G2' G1 G2 A5. by exists fd, cv.
Qed.

Lemma slot_bounds c fd : cat_geom_ok c -> 0 <= fd < cat_max_fd c -> 0 <= slot_lo c fd <= 2 ^ 61.
Proof.
  intros [Hsz Hst Hend] Hfd. assert (0 < cat_file_size c) by (rewrite Hsz file_size_value; lia). rewrite /slot_lo. nia.
Qed.

(** A builder at work writes inside its slot only, and counts its entries. *)
Lemma builder_frame c fd level v io es :
  cat_geom_ok c -> 0 <= fd < cat_max_fd c -> Forall ent_wf es -> Z.of_nat (length es) <= DEFAULT_LSM_FILE_CAPACITY ->
  let st := bit_builder_add_all es (bit_builder_create (slot_lo c fd) fd level v garbage_buffer io) in
  bb_size st.1 = Z.of_nat (length es) /\
  forall i, i < slot_lo c fd \/ slot_lo c fd + cat_file_size c <= i -> io_file st.2 i = io_file io i.
Proof.
  intros Hg Hfd Hwf Hcap st. pose proof (slot_bounds c fd Hg Hfd) as Hb.
  destruct (add_all_ok (slot_lo c fd) (io_file io) _ [] [] _ es (create_ok (slot_lo c fd) fd level v garbage_buffer io Hb) Hwf)
    as (E & full & tail & Hinv & Heq & _); [lia|done|]. cbn [app] in Heq. fold st in Hinv.
  pose proof (iv_keys _ _ _ _ _ _ Hinv) as (_ & _ & Hsz & _). rewrite Heq in Hsz. split; [done|].
  intros i Hi. apply (iv_frame _ _ _ _ _ _ Hinv). rewrite (iv_pos _ _ _ _ _ _ Hinv).
  pose proof (iv_weight _ _ _ _ _ _ Hinv) as Hw. pose proof (f_equal length Heq) as Hlen. rewrite length_app in Hlen.
  pose proof (open_nonneg E). rewrite (cg_size c Hg) file_size_value in Hi. rewrite /DEFAULT_LSM_FILE_CAPACITY in Hcap. lia.
Qed.

(** ** Files written so far *)

(** From the catalogue [c0], the index file [io0] and the level [l0] the files
    [fs] with the entries [chunks] were written, leading to [c], [io] and [l]. *)
Record files_done (c0 : C) (io0 : bit_io) (l0 : bit_level) (chunks : list (list ent)) (fs : list bit_file)
    (c : C) (io : bit_io) (l : bit_level) : Prop := {
  dn_cat : cat_inv c;
  dn_geom : cat_geom c = cat_geom c0;
  dn_version : cat_version c = cat_version c0 + Z.of_nat (length fs);
  dn_used fd : 0 <= fd < cat_max_fd c0 -> cat_used c fd = bool_decide (fd ∈ bf_id <$> fs) || cat_used c0 fd;
  dn_fresh f : f ∈ fs -> cat_used c0 (bf_id f) = false /\ bf_level f = lv_level l0 /\ cat_version c0 <= bf_version f /\
    cat_stat c (bf_id f) = Some (bit_file_get_stats f);
  dn_stat fd : 0 <= fd < cat_max_fd c0 -> fd ∉ bf_id <$> fs -> cat_stat c fd = cat_stat c0 fd;
  dn_ids : NoDup (bf_id <$> fs);
  dn_versions : NoDup (bf_version <$> fs);
  dn_files : Forall2 (file_in c (io_file io)) fs chunks;
  dn_range : Forall2 (fun f es => bf_first_key f = default 0 (fst <$> head es) /\ bf_last_key f = last_key es) fs chunks;
  dn_frame i : (forall f, f ∈ fs -> i < slot_lo c0 (bf_id f) \/ slot_lo c0 (bf_id f) + cat_file_size c0 <= i) ->
    io_file io i = io_file io0 i;
  dn_level : exists gs, l = lv_set_files gs l0 /\ StronglySorted file_le gs /\ gs ≡ₚ fs ++ lv_files l0;
  dn_free : nr_free c = nr_free c0 - Z.of_nat (length fs);
  dn_fit : lv_size l <= lv_max_size l0
}.

Lemma files_done_nil c0 io0 l0 :
  cat_inv c0 -> StronglySorted file_le (lv_files l0) -> lv_size l0 <= lv_max_size l0 -> files_done c0 io0 l0 [] [] c0 io0 l0.
Proof.
  intros Hc Hs Hf. split; try done.
  - cbn. lia.
  - by intros f ?%elem_of_nil.
  - constructor.
  - constructor.
  - exists (lv_files l0). by destruct l0.
  - cbn. lia.
Qed.

(** What one file may hold without losing entries. *)
Definition chunk_ok (es : list ent) : Prop :=
  (8 <= length es)%nat /\ Z.of_nat (length es) mod 8 = 0 /\ Z.of_nat (length es) <= DEFAULT_LSM_FILE_CAPACITY /\
  sim_full (Z.to_nat (Z.of_nat (length es) / 8)) = false.

Lemma chunk_ok_full es : Z.of_nat (length es) = DEFAULT_LSM_FILE_CAPACITY -> chunk_ok es.
Proof.
  rewrite /chunk_ok /DEFAULT_LSM_FILE_CAPACITY. intros Hl. rewrite Hl. split; [lia|]. split; [done|]. split; [done|].
  change (1048576 / 8) with 131072. apply sim_full_capacity.
Qed.

Lemma files_done_build c0 io0 l0 chunks fs c io l fd0 fd st c1 es io' c' l' :
  files_done c0 io0 l0 chunks fs c io l -> cat_geom_ok c0 -> 0 <= cat_version c0 -> cat_version c < 2 ^ 64 - 1 ->
  0 < nr_free c -> lv_size l < lv_max_size l -> 0 <= lv_level l0 < 2 ^ 64 ->
  chunk_ok es -> ents_sorted es -> Forall ent_wf es ->
  open_builder garbage_buffer fd0 (lv_level l0) c io = (fd, st, c1) ->
  close_builder (bit_builder_add_all es st) c1 l = (io', c', l') ->
  exists f, files_done c0 io0 l0 (chunks ++ [es]) (fs ++ [f]) c' io' l'.
Proof.
  intros [D1 D2 D3 D4 D5 D6 D7 D7v D8 D9 D10 (gs & D11 & D12 & D13) D14 D15] Hg Hv0 Hv Hfree Hroom Hlev (H8 & Hm8 & Hcap & Hsim) Hs Hwf Hopen Hclose.
  destruct (cat_geom_eq _ _ D2) as (G1 & G2 & G3).
  assert (cat_geom_ok c) as Hgc by (destruct Hg; split; by rewrite ?G1 ?G2 ?G3).
  pose proof (build_file_ok garbage_buffer c io (lv_level l0) es fd0 D1 Hgc ltac:(lia) (nr_free_exists c Hfree) Hlev Hs Hwf H8 Hm8 Hcap Hsim) as Hb.
  rewrite Hopen in Hb. rewrite /close_builder in Hclose. destruct (bit_builder_complete _) as [f io1].
  injection Hclose as <- <- <-. exists f. set (c2 := (cat_set_file_stats _ _ c1).2) in *.
  pose proof Hb as [B1 B2 B3 B4 B5 B6 B7 B8 B9 B10 B11 B12]. destruct (cat_geom_eq _ _ B7) as (G1' & G2' & G3').
  pose proof (fi_id _ _ _ _ B11) as Hid. rewrite G3' G3 in Hid.
  assert (forall g, g ∈ fs -> bf_id g <> bf_id f) as Hnew.
  { intros g Hg' He. rewrite -He in B1, Hid. rewrite D4 // in B1. rewrite bool_decide_eq_true_2 in B1; [done|].
    apply list_elem_of_fmap. by exists g. }
  assert (cat_used c0 (bf_id f) = false) as Hf0.
  { rewrite D4 // in B1. by apply orb_false_iff in B1 as [_ ?]. }
  assert (forall i, slot_lo c i = slot_lo c0 i) as Hslot by (intros i; by rewrite /slot_lo G1 G2).
  destruct (bit_level_add_file_ok l f) as (gs' & Hadd & Hs' & Hp'); [by rewrite D11|done|]. rewrite Hadd D11. cbn [snd].
  assert (forall g, g ∈ fs -> exists e, file_in c (io_file io) g e) as Hin.
  { intros g (j & Hj)%list_elem_of_lookup. destruct (Forall2_lookup_l _ _ _ _ _ D8 Hj) as (e & _ & ?). by exists e. }
  split.
  - done.
  - congruence.
  - rewrite B8 D3 length_app /=. lia.
  - intros fd' Hfd'. rewrite B9; [|lia]. rewrite D4 // fmap_app.
    destruct (Z.eqb_spec fd' (bf_id f)) as [->|Hne]; cbn [orb].
    + rewrite bool_decide_eq_true_2; [done|]. apply elem_of_app. right. left.
    + f_equal. apply bool_decide_ext. rewrite elem_of_app. cbn. rewrite list_elem_of_singleton. tauto.
  - intros g [Hg'| ->%list_elem_of_singleton]%elem_of_app.
    + destruct (D5 g Hg') as (F1 & F2 & F3 & F4). do 3 (split; [done|]). rewrite B10.
      * case_decide as Hd; [by apply Hnew in Hd|done].
      * rewrite G3. destruct (Hin g Hg') as [e He]. rewrite -G3. apply (fi_id _ _ _ _ He).
    + split; [done|]. split; [done|]. split; [rewrite B3 D3; lia|]. rewrite B10; [|lia]. by case_decide.
  - intros fd' Hfd' Hn. rewrite fmap_app not_elem_of_app in Hn. destruct Hn as [Hn1 Hn2]. rewrite B10; [|lia].
    case_decide as Hd; [exfalso; apply Hn2; rewrite Hd; left|]. by apply D6.
  - rewrite fmap_app. apply NoDup_app. split; [done|]. split; [|apply NoDup_singleton].
    intros x (g & -> & Hg')%list_elem_of_fmap Hx%list_elem_of_singleton. by apply (Hnew g).
  - rewrite fmap_app. apply NoDup_app. split; [done|]. split; [|apply NoDup_singleton].
    intros x (g & -> & Hg')%list_elem_of_fmap Hx%list_elem_of_singleton. destruct (Hin g Hg') as [e He].
    pose proof (fi_version _ _ _ _ He). lia.
  - apply Forall2_app; [|by constructor]. eapply Forall2_impl; [exact D8|]. intros g e. by apply (built_keeps c c2 io io1 (lv_level l0) es f).
  - apply Forall2_app; [done|]. by constructor.
  - intros i Hi. rewrite B12; [apply D10; intros g Hg'; apply Hi, elem_of_app; by left|].
    rewrite Hslot G2. apply Hi, elem_of_app. right. left.
  - exists gs'. split; [done|]. split; [done|]. rewrite Hp' D11. cbn [lv_set_files lv_files]. rewrite D13 -app_assoc. cbn [app].
    by rewrite -Permutation_middle.
  - rewrite (nr_free_take c c2 (bf_id f)) //; [rewrite D14 length_app /=; lia|lia].
  - rewrite /lv_size. cbn [lv_set_files lv_files]. rewrite Hp'. cbn [length]. rewrite D11 /lv_size in Hroom |- *. cbn [lv_set_files lv_files lv_max_size] in Hroom |- *. lia.
Qed.

(** ** The invariant of the output *)
Lemma add_all_snoc es e st : bit_builder_add_entry (__entry e.1 e.2) (bit_builder_add_all es st) = bit_builder_add_all (es ++ [e]) st.
Proof. by rewrite /bit_builder_add_all foldl_app. Qed.

(** [out] has been fed: full files were written, and the builder in use has the rest. *)
Definition out_inv (c0 : C) (io0 : bit_io) (l0 : bit_level) (out : list ent) (s : outs (C := C)) : Prop :=
  exists chunks fs cur c io l fd0 fd st c1, s = (fd, bit_builder_add_all cur st, c1, l) /\
    open_builder garbage_buffer fd0 (lv_level l0) c io = (fd, st, c1) /\ files_done c0 io0 l0 chunks fs c io l /\
    0 < nr_free c /\ out = concat chunks ++ cur /\ Forall ent_wf out /\ ents_sorted out /\
    Forall (fun es => Z.of_nat (length es) = DEFAULT_LSM_FILE_CAPACITY) chunks /\
    Z.of_nat (length cur) < DEFAULT_LSM_FILE_CAPACITY.

(** There is room for the files that [n] entries become. *)
Record out_room (c0 : C) (l0 : bit_level) (n : Z) : Prop := {
  or_geom : cat_geom_ok c0;
  or_version : 0 <= cat_version c0;
  or_versions : cat_version c0 + n / DEFAULT_LSM_FILE_CAPACITY < 2 ^ 64 - 1;
  or_free : n / DEFAULT_LSM_FILE_CAPACITY < nr_free c0;
  or_level : lv_size l0 + n / DEFAULT_LSM_FILE_CAPACITY < lv_max_size l0;
  or_level_nr : 0 <= lv_level l0 < 2 ^ 64
}.

Lemma concat_full_length (chunks : list (list ent)) :
  Forall (fun es => Z.of_nat (length es) = DEFAULT_LSM_FILE_CAPACITY) chunks ->
  Z.of_nat (length (concat chunks)) = Z.of_nat (length chunks) * DEFAULT_LSM_FILE_CAPACITY.
Proof. induction 1 as [|es chunks He Hc IH]; [done|]. cbn [concat length]. rewrite length_app. lia. Qed.

Lemma done_lengths c0 io0 l0 chunks fs c io l :
  files_done c0 io0 l0 chunks fs c io l -> length fs = length chunks /\
  lv_size l = lv_size l0 + Z.of_nat (length fs) /\ lv_max_size l = lv_max_size l0 /\ lv_level l = lv_level l0.
Proof.
  intros Hd. split; [by eapply Forall2_length, dn_files|]. destruct (dn_level _ _ _ _ _ _ _ _ Hd) as (gs & -> & _ & Hp).
  split; [|done]. rewrite /lv_size. cbn [lv_set_files lv_files]. rewrite Hp length_app. lia.
Qed.

(** Room for one more file after [length fs] were written. *)
Lemma done_room c0 io0 l0 chunks fs c io l n :
  files_done c0 io0 l0 chunks fs c io l -> out_room c0 l0 n ->
  Z.of_nat (length chunks) <= n / DEFAULT_LSM_FILE_CAPACITY ->
  0 <= cat_version c < 2 ^ 64 - 1 /\ 0 < nr_free c /\ lv_size l < lv_max_size l /\ cat_geom_ok c /\ cat_inv c.
Proof.
  intros Hd [R1 R2 R3 R4 R5 R6] Hn. destruct (done_lengths _ _ _ _ _ _ _ _ Hd) as (Hlf & Hls & Hlm & _).
  pose proof (dn_version _ _ _ _ _ _ _ _ Hd). pose proof (dn_free _ _ _ _ _ _ _ _ Hd).
  destruct (cat_geom_eq _ _ (dn_geom _ _ _ _ _ _ _ _ Hd)) as (G1 & G2 & G3).
  split; [lia|]. split; [lia|]. split; [lia|]. split; [|apply (dn_cat _ _ _ _ _ _ _ _ Hd)]. destruct R1; split; by rewrite ?G1 ?G2 ?G3.
Qed.

Lemma out_inv_init c0 io0 l0 n fd0 :
  cat_inv c0 -> StronglySorted file_le (lv_files l0) -> out_room c0 l0 n -> 0 <= n ->
  let '(fd, st, c1) := open_builder garbage_buffer fd0 (lv_level l0) c0 io0 in out_inv c0 io0 l0 [] (fd, st, c1, l0).
Proof.
  intros Hc Hs Hr Hn. pose proof (Z.div_pos n DEFAULT_LSM_FILE_CAPACITY Hn eq_refl) as Hdiv.
  pose proof (files_done_nil c0 io0 l0 Hc Hs ltac:(pose proof (or_level _ _ _ Hr); lia)) as Hd.
  destruct (done_room _ _ _ _ _ _ _ _ n Hd Hr) as (_ & Hfree & _); [apply Z.div_pos; [lia|done]|].
  destruct (open_builder _ _ _ _ _) as [[fd st] c1] eqn:E. exists [], [], [], c0, io0, l0, fd0, fd, st, c1.
  do 4 (split; [done|]). split; [done|]. split; [constructor|]. split; [constructor|]. split; [constructor|done].
Qed.

Lemma chunks_bound n (out cur : list ent) chunks :
  out = concat chunks ++ cur -> Forall (fun es => Z.of_nat (length es) = DEFAULT_LSM_FILE_CAPACITY) chunks ->
  Z.of_nat (length out) <= n -> Z.of_nat (length chunks) <= n / DEFAULT_LSM_FILE_CAPACITY.
Proof.
  intros -> Hf Hn. rewrite length_app in Hn. pose proof (concat_full_length _ Hf) as Hl.
  apply Z.div_le_lower_bound; [done|]. lia.
Qed.

(** The builder in use is at work in a slot that was free. *)
Lemma out_inv_file c0 io0 l0 n out s id i :
  out_inv c0 io0 l0 out s -> out_room c0 l0 n -> Z.of_nat (length out) <= n -> 0 <= id < cat_max_fd c0 -> cat_used c0 id = true ->
  slot_lo c0 id <= i < slot_lo c0 id + cat_file_size c0 -> outs_file s i = io_file io0 i.
Proof.
  intros (chunks & fs & cur & c & io & l & fd0 & fd & st & c1 & -> & Hopen & Hd & Hfree & Hout & Hwf & _ & Hfull & Hcur) Hr Hn Hid Hu Hi.
  destruct (done_room _ _ _ _ _ _ _ _ n Hd Hr) as (Hv & _ & _ & Hg & Hc); [by eapply chunks_bound|].
  destruct (open_builder_ok fd0 (lv_level l0) c io Hc Hg Hv Hfree) as (fd' & c1' & Hopen' & Hfd & Huf).
  rewrite Hopen in Hopen'. injection Hopen' as <- -> <-.
  destruct (cat_geom_eq _ _ (dn_geom _ _ _ _ _ _ _ _ Hd)) as (G1 & G2 & G3). rewrite G3 in Hfd.
  rewrite Hout in Hwf. apply Forall_app in Hwf as [_ Hwf].
  destruct (builder_frame c fd (lv_level l0) (cat_version c) io cur Hg ltac:(by rewrite G3) Hwf ltac:(lia)) as [_ Hfr].
  assert (cat_used c id = true) as Huc by (by rewrite (dn_used _ _ _ _ _ _ _ _ Hd) // Hu orb_true_r).
  assert (forall x, slot_lo c x = slot_lo c0 x) as Hslot by (intros x; by rewrite /slot_lo G1 G2).
  change (io_file (bit_builder_add_all cur (bit_builder_create (slot_lo c fd) fd (lv_level l0) (cat_version c) garbage_buffer io)).2 i = io_file io0 i).
  rewrite Hfr; [apply (dn_frame _ _ _ _ _ _ _ _ Hd); intros f Hf|].
  - destruct (dn_fresh _ _ _ _ _ _ _ _ Hd f Hf) as (Hff & _). assert (id <> bf_id f) as Hne by congruence.
    pose proof (slots_apart c0 id (bf_id f) (or_geom _ _ _ Hr) Hne). lia.
  - assert (id <> fd) as Hne by congruence. pose proof (slots_apart c id fd Hg Hne) as Hap. rewrite !Hslot G2 in Hap |- *. lia.
Qed.

Lemma out_inv_feed c0 io0 l0 n out s e :
  out_inv c0 io0 l0 out s -> out_room c0 l0 n -> Z.of_nat (length out) < n -> ents_sorted (out ++ [e]) -> ent_wf e ->
  out_inv c0 io0 l0 (out ++ [e]) (feed garbage_buffer (__entry e.1 e.2) s).
Proof.
  intros (chunks & fs & cur & c & io & l & fd0 & fd & st & c1 & -> & Hopen & Hd & Hfree & Hout & Hwf & Hs & Hfull & Hcur) Hr Hn Hse He.
  pose proof (chunks_bound n out cur chunks Hout Hfull ltac:(lia)) as Hcb.
  destruct (done_room _ _ _ _ _ _ _ _ n Hd Hr Hcb) as (Hv & _ & Hlroom & Hg & Hc).
  destruct (open_builder_ok fd0 (lv_level l0) c io Hc Hg Hv Hfree) as (fd' & c1' & Hopen' & Hfd & Huf).
  pose proof Hopen as Hop. rewrite Hopen in Hopen'. injection Hopen' as <- -> <-.
  assert (out ++ [e] = concat chunks ++ (cur ++ [e])) as Hout' by (by rewrite Hout -app_assoc).
  assert (Forall ent_wf (out ++ [e])) as Hwf' by (by apply Forall_app_2; [|constructor]).
  assert (Forall ent_wf (cur ++ [e])) as Hwfc by (rewrite Hout' in Hwf'; by apply Forall_app in Hwf' as [_ ?]).
  assert (ents_sorted (cur ++ [e])) as Hsc by (rewrite Hout' in Hse; by apply ents_sorted_app in Hse as (_ & ? & _)).
  rewrite /feed add_all_snoc. set (st := bit_builder_create _ _ _ _ _ _) in *.
  assert (Z.of_nat (length (cur ++ [e])) <= DEFAULT_LSM_FILE_CAPACITY) as Hlc by (rewrite length_app /=; lia).
  destruct (builder_frame c fd (lv_level l0) (cat_version c) io (cur ++ [e]) Hg Hfd Hwfc Hlc) as [Hsize _]. fold st in Hsize. rewrite Hsize.
  destruct (Z.leb_spec DEFAULT_LSM_FILE_CAPACITY (Z.of_nat (length (cur ++ [e])))) as [Hfl|Hnf].
  - assert (Z.of_nat (length (cur ++ [e])) = DEFAULT_LSM_FILE_CAPACITY) as Hlen by lia.
    destruct (close_builder _ c1 l) as [[io' c'] l'] eqn:Ecl.
    destruct (files_done_build c0 io0 l0 chunks fs c io l fd0 fd st c1 (cur ++ [e]) io' c' l' Hd (or_geom _ _ _ Hr) (or_version _ _ _ Hr)
      ltac:(lia) Hfree Hlroom (or_level_nr _ _ _ Hr) (chunk_ok_full _ Hlen) Hsc Hwfc Hop Ecl) as (f & Hd').
    assert (Forall (fun es => Z.of_nat (length es) = DEFAULT_LSM_FILE_CAPACITY) (chunks ++ [cur ++ [e]])) as Hfull' by (by apply Forall_app_2; [|constructor]).
    assert (out ++ [e] = concat (chunks ++ [cur ++ [e]]) ++ []) as Hout2 by (by rewrite app_nil_r concat_app /= app_nil_r).
    pose proof (chunks_bound n (out ++ [e]) [] _ Hout2 Hfull' ltac:(rewrite length_app /=; lia)) as Hcb'.
    destruct (done_room _ _ _ _ _ _ _ _ n Hd' Hr Hcb') as (_ & Hfree' & _).
    destruct (done_lengths _ _ _ _ _ _ _ _ Hd') as (_ & _ & _ & Hll). rewrite Hll.
    destruct (open_builder garbage_buffer fd (lv_level l0) c' io') as [[fd2 st2] c2] eqn:Eop.
    exists (chunks ++ [cur ++ [e]]), (fs ++ [f]), [], c', io', l', fd, fd2, st2, c2. split_and!; try done.
  - exists chunks, fs, (cur ++ [e]), c, io, l, fd0, fd, st, c1. split_and!; try done.
Qed.

(** The last file, when it holds what a file may hold. *)
Definition last_len (n : Z) : Z := (n - 1) mod DEFAULT_LSM_FILE_CAPACITY + 1.
Definition last_ok (n : Z) : Prop := last_len n mod 8 = 0 /\ sim_full (Z.to_nat (last_len n / 8)) = false.

Lemma out_inv_finish c0 io0 l0 n out fd st c1 l e io' c' l' :
  out_inv c0 io0 l0 out (fd, st, c1, l) -> out_room c0 l0 n -> Z.of_nat (length out) < n -> ents_sorted (out ++ [e]) -> ent_wf e ->
  last_ok (Z.of_nat (length (out ++ [e]))) ->
  close_builder (bit_builder_add_entry (__entry e.1 e.2) st) c1 l = (io', c', l') ->
  exists chunks fs, concat chunks = out ++ [e] /\ files_done c0 io0 l0 chunks fs c' io' l'.
Proof.
  intros (chunks & fs & cur & c & io & l2 & fd0 & fd2 & st2 & c2 & Heq & Hopen & Hd & Hfree & Hout & Hwf & Hs & Hfull & Hcur) Hr Hn Hse He Hlast Hcl.
  injection Heq as -> -> -> ->. rewrite add_all_snoc in Hcl.
  pose proof (chunks_bound n out cur chunks Hout Hfull ltac:(lia)) as Hcb.
  destruct (done_room _ _ _ _ _ _ _ _ n Hd Hr Hcb) as (Hv & _ & Hlroom & Hg & Hc).
  assert (out ++ [e] = concat chunks ++ (cur ++ [e])) as Hout' by (by rewrite Hout -app_assoc).
  assert (Z.of_nat (length (cur ++ [e])) = last_len (Z.of_nat (length (out ++ [e])))) as Hlen.
  { rewrite Hout' /last_len !length_app. cbn [length]. pose proof (concat_full_length _ Hfull) as Hcl'.
    replace (Z.of_nat (length (concat chunks) + (length cur + 1)) - 1)
      with (Z.of_nat (length cur) + Z.of_nat (length chunks) * DEFAULT_LSM_FILE_CAPACITY) by lia.
    rewrite Z.mod_add // Z.mod_small; lia. }
  destruct Hlast as [Hm8 Hsim]. rewrite -Hlen in Hm8, Hsim.
  assert (chunk_ok (cur ++ [e])) as Hok.
  { rewrite length_app /= in Hm8. rewrite /chunk_ok length_app /=. rewrite length_app /= in Hsim.
    pose proof (Z.div_mod (Z.of_nat (length cur + 1)) 8). split; [lia|]. split; [done|]. split; [lia|done]. }
  assert (Forall ent_wf (out ++ [e])) as Hwf' by (by apply Forall_app_2; [|constructor]). rewrite Hout' in Hwf', Hse.
  apply Forall_app in Hwf' as [_ Hwfc]. apply ents_sorted_app in Hse as (_ & Hsc & _).
  destruct (files_done_build c0 io0 l0 chunks fs c io l2 fd0 fd2 st2 c2 (cur ++ [e]) io' c' l' Hd (or_geom _ _ _ Hr) (or_version _ _ _ Hr)
      ltac:(lia) Hfree Hlroom (or_level_nr _ _ _ Hr) Hok Hsc Hwfc Hopen Hcl) as (f & Hd').
  exists (chunks ++ [cur ++ [e]]), (fs ++ [f]). split; [by rewrite concat_app /= app_nil_r|done].
Qed.
End output.
