(* ===== verification/CompactionSpec.v ===== *)
(** * What a compaction achieves

    A compaction of level 0 turns all its files and the files of level 1
    around their key range into new files of level 1 with the newest record of
    every key, or just moves the files down when nothing overlaps.  Looking a
    key up in the two levels gives the same before and after. *)
From S2P Require Import Prelude Codec BlockManager DiskStructs Crypto BitNode Superblock SegValidator Area Bloom Hashtable Catalogue BitFile BitTree BitFileSpec IterFacts Level Compaction MergeFacts FileFacts CompactionFacts.

Section compaction_spec.
Context {C : Type} {cat : LsmCatalogue C} {cat_ok : LsmCatalogueOk C}.
Context {gcm : Gcm} {gcm_ok : GcmOk} {rng : Rng} {rng_ok : RngOk} {heap : MinHeap} {heap_ok : MinHeapOk}.
Context (garbage_buffer : area) (garbage_leaf : list byte -> bit_leaf).
Implicit Types (c : C) (f : bit_file) (j : job (C := C)).

(** ** Starting the iterators *)
Lemma file_regions c file fs ess :
  Forall2 (file_in c file) fs ess ->
  exists regs, length regs = length fs /\
    forall i f es r, fs !! i = Some f -> ess !! i = Some es -> regs !! i = Some r ->
      bit_file_chain file r.1 r.2 f es /\ slot_lo c (bf_id f) <= r.1 /\ r.2 <= slot_lo c (bf_id f) + cat_file_size c.
Proof.
  induction 1 as [|f es fs ess Hf H IH]; [by exists []|]. destruct IH as (regs & Hl & Hr).
  destruct (fi_chain _ _ _ _ Hf) as (lo & hi & Hch & Hlo & Hhi). exists ((lo, hi) :: regs). split; [by cbn; rewrite Hl|].
  intros [|i] g e r Hg He Hri; cbn in *; [|by eapply Hr]. by injection Hg as <-; injection He as <-; injection Hri as <-.
Qed.

Lemma job_iterators_ok file fs regs ess :
  length regs = length fs -> length ess = length fs -> Forall (Forall ent_wf) ess ->
  (forall i f es r, fs !! i = Some f -> ess !! i = Some es -> regs !! i = Some r -> bit_file_chain file r.1 r.2 f es) ->
  exists iters, job_iterators file fs = Some iters /\ iters_ok fs regs file iters ess.
Proof.
  revert regs ess. induction fs as [|f fs IH] => regs ess Hr He Hwf Hch.
  { destruct regs, ess; try done. exists []. split; [done|]. by split. }
  destruct regs as [|r regs], ess as [|es ess]; try done. apply Forall_cons in Hwf as [Hwe Hwf].
  destruct (IH regs ess) as (iters & Hrun & [I1 I2 I3 I4 I5]); [by injection Hr|by injection He|done| |].
  { intros i g e q Hg Hge Hq. by apply (Hch (S i) g e q). }
  destruct (bit_iterator_create_ok file r.1 r.2 f es (Hch 0%nat f es r eq_refl eq_refl eq_refl)) as (it & Hcr & Hfile & Hok).
  exists (it :: iters). cbn [job_iterators]. rewrite Hcr Hrun. split; [done|]. split.
  - cbn. by rewrite I1.
  - cbn. by rewrite I2.
  - by rewrite fmap_cons Hfile I3.
  - intros [|i] jt je jr Hj Hje Hjr; cbn in *; [|by eapply I4]. by injection Hj as <-; injection Hje as <-; injection Hjr as <-.
  - by constructor.
Qed.

Lemma nodes_total ess : length (rem_nodes ess) = length (concat ess).
Proof.
  rewrite /rem_nodes. assert (forall k, length (concat (imap (fun i es => mk_node (k + i) <$> es) ess)) = length (concat ess)) as H; [|by apply (H 0%nat)].
  induction ess as [|es ess IH] => k; [done|]. cbn [imap concat]. rewrite !length_app length_fmap. f_equal.
  rewrite -(IH (S k)). f_equal. f_equal. apply imap_ext => i x _ /=. by rewrite Nat.add_succ_r.
Qed.

Lemma length_concat_perm (ess ess' : list (list ent)) : ess ≡ₚ ess' -> length (concat ess) = length (concat ess').
Proof. induction 1; cbn [concat]; rewrite ?length_app; lia. Qed.

(** The heap is filled and not empty. *)
Lemma job_heap_ok file fs regs ess iters :
  iters_ok fs regs file iters ess -> Exists (fun es => es <> []) ess ->
  exists first h0 iters' rems, heap_fill garbage_leaf file (seq 0 (length iters)) [] iters = (first :: h0, iters') /\
    iters_ok fs regs file iters' rems /\ heap_covers (first :: h0) rems /\ (first :: h0) ++ rem_nodes rems ≡ₚ rem_nodes ess.
Proof.
  intros Hok Hne. pose proof (heap_fill_ok garbage_leaf fs regs file (seq 0 (length iters)) [] iters ess Hok) as Hf.
  rewrite (io_len _ _ _ _ _ Hok) in Hf |- *. destruct (heap_fill _ _ _ _ _) as [h iters']. destruct Hf as (rems & H1 & H2 & H3 & H4).
  - split; [apply min_heap_nil|]. split; [by intros n ?%elem_of_nil|]. intros i es e Hi Hes _. exfalso. apply Hi, elem_of_seq.
    apply lookup_lt_Some in Hes. lia.
  - apply Forall_forall => i /elem_of_seq Hi. lia.
  - destruct h as [|first h0]; [|by exists first, h0, iters', rems]. exfalso. cbn [app] in H4.
    apply Exists_exists in Hne as (es & Hes & Hn). destruct es as [|e es]; [done|]. apply list_elem_of_lookup in Hes as [i Hi].
    assert (mk_node i e ∈ rem_nodes ess) as Hin by (apply rem_nodes_elem; exists i, (e :: es), e; split; [done|]; split; [left|done]).
    rewrite -H4 in Hin. apply rem_nodes_elem in Hin as (i' & es' & e' & Hi' & He' & _).
    destruct (hc_cover _ _ H2 i' es' e' Hi' He') as (n & Hn' & _). by apply elem_of_nil in Hn'.
Qed.

(** ** Merging *)
Lemma sources_reverse fs ess : length fs = length ess -> sources (reverse fs) (reverse ess) ≡ₚ sources fs ess.
Proof.
  revert ess. induction fs as [|f fs IH] => ess Hl; [by destruct ess|]. destruct ess as [|es ess]; [done|].
  rewrite !reverse_cons /sources zip_with_app; [|rewrite !length_reverse; by injection Hl].
  cbn. rewrite -Permutation_cons_append. f_equiv. apply IH. by injection Hl.
Qed.

Lemma files_nonempty c file fs ess : Forall2 (file_in c file) fs ess -> fs <> [] -> Exists (fun es => es <> []) ess.
Proof.
  intros H Hne. destruct H as [|f es fs ess Hf H]; [done|]. left. by destruct (fi_chain _ _ _ _ Hf) as (? & ? & (_ & ? & _) & _).
Qed.

Lemma files_in_sorted c file fs ess : Forall2 (file_in c file) fs ess -> Forall ents_sorted ess /\ Forall (Forall ent_wf) ess.
Proof.
  induction 1 as [|f es fs ess Hf H [IH1 IH2]]; [by split|]. split; constructor; try done; [|apply (fi_wf _ _ _ _ Hf)].
  by destruct (fi_chain _ _ _ _ Hf) as (? & ? & (? & _) & _).
Qed.

Lemma job_merge_ok fuel fd0 demoted relative ess j :
  let fs := demoted ++ relative in
  let n := Z.of_nat (length (concat ess)) in
  cat_inv (jb_cat j) -> StronglySorted file_le (lv_files (jb_level2 j)) ->
  Forall2 (file_in (jb_cat j) (io_file (jb_io j))) fs ess -> fs <> [] -> NoDup (bf_version <$> fs) ->
  out_room (jb_cat j) (jb_level2 j) n -> (length (concat ess) <= fuel)%nat ->
  exists merged j1, ents_sorted merged /\ Forall ent_wf merged /\ merged <> [] /\
    (forall k, ents_map merged !! k = snd <$> newest k (sources fs ess)) /\
    job_merge garbage_buffer garbage_leaf fuel fd0 demoted relative j =
      Some (foldl job_drop2 (foldl job_drop1 j1 demoted) relative) /\ jb_level1 j1 = jb_level1 j /\
    (last_ok (Z.of_nat (length merged)) -> exists chunks fs', concat chunks = merged /\
       files_done (jb_cat j) (jb_io j) (jb_level2 j) chunks fs' (jb_cat j1) (jb_io j1) (jb_level2 j1)).
Proof.
  intros fs n Hc Hs2 Hfs Hne Hnd Hroom Hfuel. set (c0 := jb_cat j) in *. set (file := io_file (jb_io j)) in *.
  pose proof (Forall2_reverse _ _ _ Hfs) as Hrev. destruct (files_in_sorted _ _ _ _ Hrev) as [Hsort Hwf].
  pose proof (Forall2_length _ _ _ Hrev) as Hlen.
  destruct (file_regions _ _ _ _ Hrev) as (regs & Hlr & Hreg).
  destruct (job_iterators_ok file (reverse fs) regs (reverse ess) Hlr ltac:(done) Hwf) as (iters & Hits & Hiok).
  { intros i f es r Hf He Hr. by apply (Hreg i f es r). }
  assert (Exists (fun es => es <> []) (reverse ess)) as Hex.
  { apply (files_nonempty c0 file (reverse fs)); [done|]. intros Hz. apply Hne. by rewrite -(reverse_involutive fs) Hz. }
  destruct (job_heap_ok _ _ _ _ _ Hiok Hex) as (first & h0 & iters' & rems & Hfill & Hiok' & Hcov & Hperm).
  assert (length (rem_nodes (reverse ess)) = length (concat ess)) as Htot.
  { rewrite nodes_total. apply length_concat_perm, reverse_Permutation. }
  rewrite /job_merge Hits Hfill. cbv beta iota zeta. fold c0. pose proof (out_inv_init garbage_buffer c0 (jb_io j) (jb_level2 j) n fd0 Hc Hs2 Hroom ltac:(lia)) as Hinit.
  destruct (open_builder garbage_buffer fd0 (lv_level (jb_level2 j)) c0 (jb_io j)) as [[fd st] c1].
  set (ms := {| ms_heap := first :: h0; ms_iters := iters'; ms_distinct := first; ms_fd := fd; ms_builder := st; ms_cat := c1; ms_level2 := jb_level2 j |}).
  set (Inv := fun out s => out_inv garbage_buffer c0 (jb_io j) (jb_level2 j) out s /\ Z.of_nat (length out) <= n).
  assert (pending ms rems ≡ₚ rem_nodes (reverse ess)) as Hpend by done.
  destruct (merge_all_ok garbage_leaf (reverse fs) regs garbage_buffer Inv (length (concat ess)) file) with (fuel := fuel) (ms := ms) (rems := rems)
    (first := first) (h0 := h0) as (ms' & seen & out & Hrun & [Hout Hol] & Hset & Hseen & Hlt); try done.
  { intros out s r i [Ho Hl] Hr Hi. apply list_elem_of_lookup in Hr as [a Ha].
    destruct (lookup_lt_is_Some_2 (reverse fs) a) as [f Hf]; [rewrite -Hlr; by eapply lookup_lt_Some|].
    destruct (Forall2_lookup_l _ _ _ _ _ Hrev Hf) as (es & Hes & Hfe). destruct (Hreg a f es r Hf Hes Ha) as (_ & Hlo & Hhi).
    eapply (out_inv_file garbage_buffer c0 (jb_io j) (jb_level2 j) n out s (bf_id f)); try done; [apply (fi_id _ _ _ _ Hfe)|apply (fi_used _ _ _ _ Hfe)|lia]. }
  { intros out s e [Ho Hl] Hse He Hlt. split; [eapply out_inv_feed; try done; lia|]. rewrite length_app /=. lia. }
  { split; [done|]. cbn. lia. }
  { rewrite Hpend Htot. lia. }
  { rewrite Hpend Htot. done. }
  { intros m. rewrite Hpend. intros (i & es & e & Hi & He & ->)%rem_nodes_elem. pose proof (Forall_lookup_1 _ _ _ _ Hwf Hi) as Hwe.
    eapply Forall_forall in Hwe; [|exact He]. rewrite kn_ent_mk //. apply Hwe. }
  rewrite Hrun. rewrite Hpend in Hseen.
  destruct (merged_newest (reverse fs) (reverse ess) seen out (ms_distinct ms')) as (Hms & Hmw & Hmk); try done.
  { rewrite fmap_reverse. by rewrite reverse_Permutation. }
  set (merged := out ++ [kn_ent (ms_distinct ms')]) in *.
  assert (ent_wf (kn_ent (ms_distinct ms'))) as Hdw by (by apply Forall_app in Hmw as [_ [? _]%Forall_cons]).
  rewrite -(entry_of_node _ Hdw). destruct (close_builder _ _ _) as [[io' c'] l'] eqn:Ecl.
  exists merged, (jb_set_cat c' (jb_set_io io' (jb_set_level2 l' j))).
  split; [done|]. split; [done|]. split; [by rewrite /merged; destruct out|]. split.
  - intros k. rewrite Hmk. f_equal. apply newest_perm; [|apply sources_reverse; by eapply Forall2_length].
    rewrite (sources_versions _ _ _ _ Hrev) fmap_reverse. by rewrite reverse_Permutation.
  - split; [done|]. split; [done|]. intros Hlast.
    destruct (out_inv_finish garbage_buffer c0 (jb_io j) (jb_level2 j) n out _ _ _ _ _ io' c' l' Hout Hroom ltac:(lia) Hms Hdw Hlast Ecl) as (chunks & fs' & H1 & H2).
    exists chunks, fs'. done.
Qed.

(** ** Dropping the files that were merged *)
Definition without (ids : list Z) (fs : list bit_file) : list bit_file := filter (fun f => bf_id f ∉ ids) fs.

Lemma without_cons id ids fs : without (id :: ids) fs = without ids (without [id] fs).
Proof.
  rewrite /without list_filter_filter. apply list_filter_iff => f. rewrite not_elem_of_cons list_elem_of_singleton. tauto.
Qed.

Lemma remove_without id fs : NoDup (bf_id <$> fs) -> default fs (remove_file_loop id fs) = without [id] fs.
Proof.
  rewrite /without. induction fs as [|f fs IH]; [done|]. rewrite fmap_cons => /NoDup_cons [Hn Hnd]. cbn [remove_file_loop].
  rewrite filter_cons. destruct (Z.eqb_spec (bf_id f) id) as [He|He].
  - case_decide as Hd; [exfalso; apply Hd; rewrite He; left|]. cbn. symmetry. apply filter_all, Forall_forall => g Hg.
    rewrite list_elem_of_singleton => Hgi. apply Hn. rewrite He -Hgi. apply list_elem_of_fmap. by exists g.
  - case_decide as Hd; [|by apply list_elem_of_singleton in Hd]. rewrite -(IH Hnd). by destruct (remove_file_loop id fs).
Qed.

Lemma level_remove_without id l :
  NoDup (bf_id <$> lv_files l) -> (bit_level_remove_file id l).2 = lv_set_files (without [id] (lv_files l)) l.
Proof.
  intros Hnd. rewrite -remove_without // /bit_level_remove_file. destruct (remove_file_loop id (lv_files l)); [done|]. by destruct l.
Qed.

Lemma without_nodup ids fs : NoDup (bf_id <$> fs) -> NoDup (bf_id <$> without ids fs).
Proof.
  intros Hnd. apply (sublist_NoDup _ (bf_id <$> fs)); [done|]. apply fmap_sublist, sublist_filter.
Qed.

(** The slots [ids] were given back. *)
Record released (ids : list Z) (c c' : C) : Prop := {
  rl_inv : cat_inv c';
  rl_geom : cat_geom c' = cat_geom c;
  rl_version : cat_version c' = cat_version c;
  rl_used fd : 0 <= fd < cat_max_fd c -> cat_used c' fd = negb (bool_decide (fd ∈ ids)) && cat_used c fd;
  rl_stat fd : 0 <= fd < cat_max_fd c -> cat_stat c' fd = cat_stat c fd
}.

Lemma released_nil c : cat_inv c -> released [] c c.
Proof. intros Hc. split; try done. Qed.

Lemma released_cons id ids c c1 c2 :
  0 <= id < cat_max_fd c -> cat_inv c -> c1 = (cat_release_file id c).2 -> released ids c1 c2 -> released (id :: ids) c c2.
Proof.
  intros Hid Hc -> [R1 R2 R3 R4 R5]. destruct (cat_release_ok c id Hc Hid) as (c' & Hrun & Q1 & Q2 & Q3 & Q4 & Q5 & Q6).
  rewrite Hrun in R1 R2 R3 R4 R5. cbn [snd] in *. destruct (cat_geom_eq _ _ Q2) as (_ & _ & G3).
  split; [done|congruence|congruence| |].
  - intros fd Hfd. rewrite R4; [|lia]. destruct (decide (fd = id)) as [->|Hne].
    + rewrite Q4 andb_false_r bool_decide_eq_true_2; [done|left].
    + rewrite Q5 //. do 2 f_equal. apply bool_decide_ext. rewrite elem_of_cons. tauto.
  - intros fd Hfd. rewrite R5; [|lia]. by apply Q6.
Qed.

Lemma drop1_ok fs j :
  cat_inv (jb_cat j) -> NoDup (bf_id <$> lv_files (jb_level1 j)) -> Forall (fun f => 0 <= bf_id f < cat_max_fd (jb_cat j)) fs ->
  let j' := foldl job_drop1 j fs in
  released (bf_id <$> fs) (jb_cat j) (jb_cat j') /\ jb_io j' = jb_io j /\ jb_level2 j' = jb_level2 j /\
  jb_level1 j' = lv_set_files (without (bf_id <$> fs) (lv_files (jb_level1 j))) (jb_level1 j).
Proof.
  revert j. induction fs as [|f fs IH] => j Hc Hnd Hr; cbn [foldl].
  - split; [by apply released_nil|]. split; [done|]. split; [done|]. rewrite /without. rewrite filter_all; [by destruct (jb_level1 j)|].
    apply Forall_true => g. by intros ?%elem_of_nil.
  - apply Forall_cons in Hr as [Hf Hr]. destruct (cat_release_ok (jb_cat j) (bf_id f) Hc Hf) as (c' & Hrun & Q1 & Q2 & _).
    destruct (cat_geom_eq _ _ Q2) as (_ & _ & G3).
    destruct (IH (job_drop1 j f)) as (I1 & I2 & I3 & I4).
    + cbn. by rewrite Hrun.
    + cbn. rewrite level_remove_without //. by apply without_nodup.
    + cbn. rewrite Hrun. by rewrite G3.
    + split; [by eapply released_cons|]. split; [done|]. split; [done|]. rewrite I4. cbn. rewrite level_remove_without //.
      by rewrite (without_cons (bf_id f) (bf_id <$> fs)).
Qed.

Lemma drop2_ok fs j :
  cat_inv (jb_cat j) -> NoDup (bf_id <$> lv_files (jb_level2 j)) -> Forall (fun f => 0 <= bf_id f < cat_max_fd (jb_cat j)) fs ->
  let j' := foldl job_drop2 j fs in
  released (bf_id <$> fs) (jb_cat j) (jb_cat j') /\ jb_io j' = jb_io j /\ jb_level1 j' = jb_level1 j /\
  jb_level2 j' = lv_set_files (without (bf_id <$> fs) (lv_files (jb_level2 j))) (jb_level2 j).
Proof.
  revert j. induction fs as [|f fs IH] => j Hc Hnd Hr; cbn [foldl].
  - split; [by apply released_nil|]. split; [done|]. split; [done|]. rewrite /without. rewrite filter_all; [by destruct (jb_level2 j)|].
    apply Forall_true => g. by intros ?%elem_of_nil.
  - apply Forall_cons in Hr as [Hf Hr]. destruct (cat_release_ok (jb_cat j) (bf_id f) Hc Hf) as (c' & Hrun & Q1 & Q2 & _).
    destruct (cat_geom_eq _ _ Q2) as (_ & _ & G3).
    destruct (IH (job_drop2 j f)) as (I1 & I2 & I3 & I4).
    + cbn. by rewrite Hrun.
    + cbn. rewrite level_remove_without //. by apply without_nodup.
    + cbn. rewrite Hrun. by rewrite G3.
    + split; [by eapply released_cons|]. split; [done|]. split; [done|]. rewrite I4. cbn. rewrite level_remove_without //.
      by rewrite (without_cons (bf_id f) (bf_id <$> fs)).
Qed.
End compaction_spec.
