(* ===== verification/CompactionLevel.v ===== *)
(** * A compaction of level 0 keeps the contents

    A job over level 0 and the level below empties level 0: its files and
    those around their key range are merged into new files, or, when no two of
    them overlap, just moved.  The two levels answer every lookup as before,
    the lower level stays free of overlaps, the slots of the merged files are
    free again, and files outside the job are untouched. *)
From S2P Require Import Prelude Codec BlockManager DiskStructs Crypto BitNode Superblock SegValidator Area Bloom Hashtable Catalogue BitFile BitTree BitFileSpec IterFacts Level Compaction MergeFacts FileFacts CompactionFacts CompactionSpec.

(** ** Levels without overlaps, as sequences *)

(** Files that do not overlap have only one order. *)
Lemma disjoint_unique fs gs : lv_disjoint fs -> StronglySorted file_le gs -> gs ≡ₚ fs -> gs = fs.
Proof.
  intros Hd Hs Hp. apply (StronglySorted_unique_strong file_le); [|done|by apply lv_disjoint_le|done].
  intros f g Hf Hg H1%bit_file_cmp_spec H2%bit_file_cmp_spec. rewrite Hp in Hf. destruct Hd as [Hb Hr].
  pose proof (proj1 (Forall_forall _ _) Hr f Hf) as Hrf. rewrite /file_range_ok in Hrf.
  apply list_elem_of_lookup in Hf as [i Hi], Hg as [j Hj]. destruct (decide (i = j)) as [->|Hne]; [congruence|].
  destruct (decide (i < j)%nat).
  - pose proof (sorted_lookup _ _ i j _ _ Hb Hi Hj ltac:(lia)) as Hx. rewrite /file_before in Hx. lia.
  - pose proof (sorted_lookup _ _ j i _ _ Hb Hj Hi ltac:(lia)) as Hx. rewrite /file_before in Hx. lia.
Qed.

Lemma disjoint_app fs gs :
  lv_disjoint (fs ++ gs) <-> lv_disjoint fs /\ lv_disjoint gs /\ forall f g, f ∈ fs -> g ∈ gs -> file_before f g.
Proof.
  split.
  - intros [Hs Hr]. apply sorted_app in Hs as (H1 & H2 & H3). apply Forall_app in Hr as [Hr1 Hr2]. done.
  - intros ([Hs1 Hr1] & [Hs2 Hr2] & Hb). split; [by apply sorted_app|by apply Forall_app].
Qed.

Lemma head_elem (es : list ent) : es <> [] -> exists e, e ∈ es /\ default 0 (fst <$> head es) = e.1.
Proof. destruct es as [|e es]; [done|]. intros _. exists e. split; [left|done]. Qed.

Lemma last_key_elem (es : list ent) : es <> [] -> exists e, e ∈ es /\ last_key es = e.1.
Proof.
  intros Hne. destruct (last es) as [e|] eqn:El; [|by apply last_None in El]. exists e.
  split; [by apply last_Some_elem_of|by rewrite /last_key El].
Qed.

(** The files of the chunks of an increasing list follow each other. *)
Lemma chunks_disjoint fs chunks :
  Forall2 (fun f es => bf_first_key f = default 0 (fst <$> head es) /\ bf_last_key f = last_key es) fs chunks ->
  Forall (fun es => es <> []) chunks -> ents_sorted (concat chunks) -> lv_disjoint fs.
Proof.
  induction 1 as [|f es fs chunks [Hf Hl] Hr IH]; [by repeat constructor|]. intros [Hne Hnes]%Forall_cons.
  cbn [concat]. intros (Hs & Hss & Hlt)%ents_sorted_app. destruct (IH Hnes Hss) as [I1 I2].
  destruct (head_elem es Hne) as (a & Ha & Hak), (last_key_elem es Hne) as (b & Hb & Hbk). split.
  - constructor; [done|]. apply Forall_forall => g. intros (i & Hi)%list_elem_of_lookup.
    destruct (Forall2_lookup_l _ _ _ _ _ Hr Hi) as (gs & Hgs & [Hg _]). apply list_elem_of_lookup_2 in Hgs.
    pose proof (proj1 (Forall_forall _ _) Hnes gs Hgs) as Hgne. destruct (head_elem gs Hgne) as (x & Hx & Hxk).
    rewrite /file_before Hl Hg Hbk Hxk. apply Hlt; [done|]. apply elem_of_flat. by exists gs.
  - constructor; [|done]. rewrite /file_range_ok Hf Hl Hak. by apply last_key_max.
Qed.

(** Both ends of such a file are keys of the list. *)
Lemma chunk_bounds fs chunks f :
  Forall2 (fun f es => bf_first_key f = default 0 (fst <$> head es) /\ bf_last_key f = last_key es) fs chunks ->
  Forall (fun es => es <> []) chunks -> f ∈ fs ->
  exists a b, a ∈ concat chunks /\ b ∈ concat chunks /\ bf_first_key f = a.1 /\ bf_last_key f = b.1.
Proof.
  intros Hr Hne (i & Hi)%list_elem_of_lookup. destruct (Forall2_lookup_l _ _ _ _ _ Hr Hi) as (es & Hes & -> & ->).
  apply list_elem_of_lookup_2 in Hes. pose proof (proj1 (Forall_forall _ _) Hne es Hes) as Hn.
  destruct (head_elem es Hn) as (a & Ha & ->), (last_key_elem es Hn) as (b & Hb & ->). exists a, b.
  split_and!; [apply elem_of_flat; by exists es|apply elem_of_flat; by exists es|done|done].
Qed.

Lemma level_lookup_app k ess1 ess2 :
  level_lookup k (ess1 ++ ess2) = match level_lookup k ess1 with Some r => Some r | None => level_lookup k ess2 end.
Proof. rewrite /level_lookup concat_app /ents_map list_to_map_app lookup_union. by destruct (_ !! k), (_ !! k). Qed.

Section compaction_level.
Context {C : Type} {cat : LsmCatalogue C} {cat_ok : LsmCatalogueOk C}.
Context {gcm : Gcm} {gcm_ok : GcmOk} {rng : Rng} {rng_ok : RngOk} {heap : MinHeap} {heap_ok : MinHeapOk}.
Context (garbage_buffer : area) (garbage_leaf : list byte -> bit_leaf).
Implicit Types (c : C) (f : bit_file) (j : job (C := C)).

(** ** What a job works on *)
Definition jb_files j : list bit_file := lv_files (jb_level1 j) ++ lv_files (jb_level2 j).

Record job_ok j (ess1 ess2 : list (list ent)) : Prop := {
  jo_cat : cat_inv (jb_cat j);
  jo_geom : cat_geom_ok (jb_cat j);
  jo_version : 0 <= cat_version (jb_cat j);
  jo_level : lv_level (jb_level1 j) = 0;
  jo_files1 : Forall2 (file_in (jb_cat j) (io_file (jb_io j))) (lv_files (jb_level1 j)) ess1;
  jo_files2 : Forall2 (file_in (jb_cat j) (io_file (jb_io j))) (lv_files (jb_level2 j)) ess2;
  jo_ids : NoDup (bf_id <$> jb_files j);
  jo_versions : NoDup (bf_version <$> jb_files j);
  jo_newer f g : f ∈ lv_files (jb_level1 j) -> g ∈ lv_files (jb_level2 j) -> bf_version g < bf_version f;
  jo_disjoint : lv_disjoint (lv_files (jb_level2 j))
}.

(** What the two levels hold for a key: level 0 first. *)
Definition pair_lookup (k : Z) (fs1 : list bit_file) (ess1 ess2 : list (list ent)) : option record :=
  match newest k (sources fs1 ess1) with Some (_, r) => Some r | None => level_lookup k ess2 end.

(** What happens around the job. *)
Record job_frame j j' : Prop := {
  jf_geom : cat_geom (jb_cat j') = cat_geom (jb_cat j);
  jf_version : cat_version (jb_cat j) <= cat_version (jb_cat j');
  jf_used fd : 0 <= fd < cat_max_fd (jb_cat j) ->
    cat_used (jb_cat j') fd = bool_decide (fd ∈ bf_id <$> jb_files j') ||
      (negb (bool_decide (fd ∈ bf_id <$> jb_files j)) && cat_used (jb_cat j) fd);
  jf_other f es : file_in (jb_cat j) (io_file (jb_io j)) f es -> bf_id f ∉ bf_id <$> jb_files j ->
    file_in (jb_cat j') (io_file (jb_io j')) f es;
  jf_ids f : f ∈ jb_files j' -> bf_id f ∈ bf_id <$> jb_files j \/ cat_used (jb_cat j) (bf_id f) = false;
  jf_versions f : f ∈ jb_files j' -> f ∈ jb_files j \/ cat_version (jb_cat j) <= bf_version f;
  jf_level f : f ∈ lv_files (jb_level2 j') -> f ∈ lv_files (jb_level2 j) \/ bf_level f = lv_level (jb_level2 j)
}.

Lemma file_in_range c file f es : file_in c file f es -> file_range_ok f.
Proof.
  intros Hf. destruct (fi_chain _ _ _ _ Hf) as (? & ? & (_ & Hne & _) & _). pose proof (fi_range _ _ _ _ Hf) as Hr.
  destruct es as [|e es]; [done|]. apply Forall_cons in Hr as [Hr _]. rewrite /file_range_ok. lia.
Qed.

Lemma files_in_elem c file fs ess f : Forall2 (file_in c file) fs ess -> f ∈ fs -> exists es, file_in c file f es.
Proof. intros Hf (i & Hi)%list_elem_of_lookup. destruct (Forall2_lookup_l _ _ _ _ _ Hf Hi) as (es & _ & ?). by exists es. Qed.

(** A key that some source has lies in the range of that file. *)
Lemma newest_range c file fs ess k v r :
  Forall2 (file_in c file) fs ess -> newest k (sources fs ess) = Some (v, r) ->
  exists f, f ∈ fs /\ bf_first_key f <= k <= bf_last_key f.
Proof.
  intros Hf Hn. pose proof (newest_spec k (sources fs ess)) as Hs. rewrite Hn in Hs.
  destruct Hs as [(s & Hin & _ & Hr) _]. apply sources_elem in Hin as (i & f & es & Hi & He & ->). cbn [snd] in Hr.
  destruct (Forall2_lookup_lr _ _ _ _ _ _ Hf Hi He) as [_ _ _ _ Hrg _ _ _ _].
  apply elem_of_list_to_map_2 in Hr. eapply Forall_forall in Hrg; [|exact Hr].
  exists f. split; [by eapply list_elem_of_lookup_2|done].
Qed.

Lemma level_lookup_out c file fs ess k :
  Forall2 (file_in c file) fs ess -> (forall f, f ∈ fs -> k < bf_first_key f \/ bf_last_key f < k) -> level_lookup k ess = None.
Proof.
  intros Hf Hk. apply ents_map_none. intros e (es & He & Hes)%elem_of_flat Hek. apply list_elem_of_lookup in Hes as [i Hi].
  destruct (Forall2_lookup_r _ _ _ _ _ Hf Hi) as (f & Hfi & Hfe). pose proof (fi_range _ _ _ _ Hfe) as Hr.
  eapply Forall_forall in Hr; [|exact He]. cbn beta in Hr. apply list_elem_of_lookup_2 in Hfi. specialize (Hk f Hfi). lia.
Qed.

Lemma sources_app fs1 fs2 ess1 ess2 :
  length fs1 = length ess1 -> sources (fs1 ++ fs2) (ess1 ++ ess2) = sources fs1 ess1 ++ sources fs2 ess2.
Proof. intros Hl. by rewrite /sources zip_with_app. Qed.
(** ** The catalogue after a merge *)
Lemma released_app ids1 ids2 c c1 c2 : released ids1 c c1 -> released ids2 c1 c2 -> released (ids1 ++ ids2) c c2.
Proof.
  intros [A1 A2 A3 A4 A5] [B1 B2 B3 B4 B5]. destruct (cat_geom_eq _ _ A2) as (_ & _ & G). split; [done|congruence|congruence| |].
  - intros fd Hfd. rewrite B4; [|lia]. rewrite A4 // andb_assoc -negb_orb. do 2 f_equal.
    rewrite -bool_decide_or. apply bool_decide_ext. rewrite elem_of_app. tauto.
  - intros fd Hfd. rewrite B5; [|lia]. by apply A5.
Qed.

Section merged.
Context (c0 c1 c' : C) (io0 io1 : bit_io) (l0 l1 : bit_level) (chunks : list (list ent)) (fs' : list bit_file) (ids : list Z).
Hypothesis Hgeom : cat_geom_ok c0.
Hypothesis Hdone : files_done c0 io0 l0 chunks fs' c1 io1 l1.
Hypothesis Hrel : released ids c1 c'.
Hypothesis Hids : forall id, id ∈ ids -> cat_used c0 id = true.

(** Files that were there and were not merged stay. *)
Lemma merged_keep f es : file_in c0 (io_file io0) f es -> bf_id f ∉ ids -> file_in c' (io_file io1) f es.
Proof.
  intros Hf Hn. destruct (cat_geom_eq _ _ (dn_geom _ _ _ _ _ _ _ _ Hdone)) as (G1 & G2 & G3).
  pose proof (fi_id _ _ _ _ Hf) as Hid. assert (bf_id f ∉ bf_id <$> fs') as Hfr.
  { intros (g & He & Hg)%list_elem_of_fmap. destruct (dn_fresh _ _ _ _ _ _ _ _ Hdone g Hg) as (Hu & _).
    pose proof (fi_used _ _ _ _ Hf). congruence. }
  eapply file_in_frame; [exact Hf| | | | |].
  - rewrite (rl_geom _ _ _ Hrel). apply (dn_geom _ _ _ _ _ _ _ _ Hdone).
  - rewrite (rl_used _ _ _ Hrel); [|lia]. rewrite (dn_used _ _ _ _ _ _ _ _ Hdone) // (fi_used _ _ _ _ Hf).
    by rewrite bool_decide_eq_false_2 // orb_true_r.
  - rewrite (rl_stat _ _ _ Hrel); [|lia]. by apply (dn_stat _ _ _ _ _ _ _ _ Hdone).
  - rewrite (rl_version _ _ _ Hrel) (dn_version _ _ _ _ _ _ _ _ Hdone). lia.
  - intros i Hi. apply (dn_frame _ _ _ _ _ _ _ _ Hdone) => g Hg.
    assert (bf_id f <> bf_id g) as Hne by (intros He; apply Hfr; rewrite He; apply list_elem_of_fmap; by exists g).
    pose proof (slots_apart c0 _ _ Hgeom Hne). lia.
Qed.

Lemma merged_new_id f : f ∈ fs' -> bf_id f ∉ ids.
Proof. intros Hf Hin%Hids. destruct (dn_fresh _ _ _ _ _ _ _ _ Hdone f Hf) as (Hu & _). congruence. Qed.

Lemma merged_new : Forall2 (file_in c' (io_file io1)) fs' chunks.
Proof.
  pose proof (dn_files _ _ _ _ _ _ _ _ Hdone) as Hf. pose proof merged_new_id as Hn. clear -Hf Hn Hrel.
  induction Hf as [|f es fs' chunks Hf Hfs IH]; constructor; [|apply IH; intros g Hg; apply Hn; by right].
  eapply file_in_frame; [exact Hf|apply (rl_geom _ _ _ Hrel)| | | |done].
  - rewrite (rl_used _ _ _ Hrel); [|apply (fi_id _ _ _ _ Hf)]. rewrite bool_decide_eq_false_2; [|by apply Hn; left].
    by rewrite (fi_used _ _ _ _ Hf).
  - apply (rl_stat _ _ _ Hrel), (fi_id _ _ _ _ Hf).
  - by rewrite (rl_version _ _ _ Hrel).
Qed.

Lemma merged_used fd : 0 <= fd < cat_max_fd c0 ->
  cat_used c' fd = bool_decide (fd ∈ bf_id <$> fs') || (negb (bool_decide (fd ∈ ids)) && cat_used c0 fd).
Proof.
  intros Hfd. destruct (cat_geom_eq _ _ (dn_geom _ _ _ _ _ _ _ _ Hdone)) as (G1 & G2 & G3).
  rewrite (rl_used _ _ _ Hrel); [|lia]. rewrite (dn_used _ _ _ _ _ _ _ _ Hdone) //.
  destruct (decide (fd ∈ bf_id <$> fs')) as [Hin|Hin].
  - rewrite (bool_decide_eq_true_2 (fd ∈ bf_id <$> fs')) //. apply list_elem_of_fmap in Hin as (f & -> & Hf).
    by rewrite bool_decide_eq_false_2; [|apply merged_new_id].
  - by rewrite (bool_decide_eq_false_2 (fd ∈ bf_id <$> fs')).
Qed.
End merged.

(** ** The new files between the old ones *)
Section layout.
Context (c : C) (file : area) (fs1 pre rel post : list bit_file) (ess1 epre erel epost : list (list ent)) (merged : list ent).
Hypothesis Hf1 : Forall2 (file_in c file) fs1 ess1.
Hypothesis Hfp : Forall2 (file_in c file) pre epre.
Hypothesis Hfr : Forall2 (file_in c file) rel erel.
Hypothesis Hfq : Forall2 (file_in c file) post epost.
Hypothesis Hdis : lv_disjoint (pre ++ rel ++ post).
Hypothesis Hpre : Forall (fun f => bf_last_key f < files_first_key fs1) pre.
Hypothesis Hpost : Forall (fun f => files_last_key fs1 < bf_first_key f) post.
Hypothesis Hnew : forall k, ents_map merged !! k = snd <$> newest k (sources (fs1 ++ rel) (ess1 ++ erel)).

(** A key of the files that are merged lies between the files that stay. *)
Lemma merged_key_between k v r :
  newest k (sources (fs1 ++ rel) (ess1 ++ erel)) = Some (v, r) ->
  (forall f, f ∈ pre -> bf_last_key f < k) /\ (forall f, f ∈ post -> k < bf_first_key f).
Proof.
  intros Hn. destruct (newest_range c file (fs1 ++ rel) (ess1 ++ erel) k v r ltac:(by apply Forall2_app) Hn) as (g & Hg & Hk).
  apply disjoint_app in Hdis as (_ & Hd2 & Hb1). apply disjoint_app in Hd2 as (_ & _ & Hb2).
  apply elem_of_app in Hg as [Hg|Hg].
  - pose proof (files_first_le _ _ Hg). pose proof (files_last_ge _ _ Hg). split; intros f Hf.
    + eapply Forall_forall in Hpre; [|exact Hf]. cbn beta in Hpre. lia.
    + eapply Forall_forall in Hpost; [|exact Hf]. cbn beta in Hpost. lia.
  - split; intros f Hf.
    + specialize (Hb1 f g Hf ltac:(apply elem_of_app; by left)). rewrite /file_before in Hb1. lia.
    + specialize (Hb2 g f Hg Hf). rewrite /file_before in Hb2. lia.
Qed.

Lemma merged_layout fs' chunks :
  Forall2 (fun f es => bf_first_key f = default 0 (fst <$> head es) /\ bf_last_key f = last_key es) fs' chunks ->
  Forall (fun es => es <> []) chunks -> concat chunks = merged -> ents_sorted merged -> lv_disjoint (pre ++ fs' ++ post).
Proof.
  intros Hr Hne Hc Hs. rewrite -Hc in Hs. pose proof (chunks_disjoint _ _ Hr Hne Hs) as Hd'. rewrite Hc in Hs.
  assert (forall e, e ∈ merged -> (forall f, f ∈ pre -> bf_last_key f < e.1) /\ (forall f, f ∈ post -> e.1 < bf_first_key f)) as Hbt.
  { intros [k r] He. apply ents_map_elem in He; [|done]. rewrite Hnew in He. apply fmap_Some in He as ([v x] & Hn & _).
    by eapply merged_key_between. }
  pose proof Hdis as Hd0. apply disjoint_app in Hd0 as (Hdp & Hd2 & Hb1). apply disjoint_app in Hd2 as (_ & Hdq & _).
  apply disjoint_app. split; [done|]. split; [apply disjoint_app; split; [done|split; [done|]]|].
  - intros f g Hf Hg. destruct (chunk_bounds _ _ f Hr Hne Hf) as (a & b & _ & Hb & _ & Hl). rewrite Hc in Hb.
    rewrite /file_before Hl. by apply (proj2 (Hbt b Hb)).
  - intros f g Hf [Hg|Hg]%elem_of_app; [|apply Hb1; [done|apply elem_of_app; by right]].
    destruct (chunk_bounds _ _ g Hr Hne Hg) as (a & b & Ha & _ & Hfk & _). rewrite Hc in Ha.
    rewrite /file_before Hfk. by apply (proj1 (Hbt a Ha)).
Qed.

(** Looking up in the new level is looking up in both old ones. *)
Lemma merged_lookup chunks k :
  concat chunks = merged -> (forall f g, f ∈ fs1 -> g ∈ rel -> bf_version g < bf_version f) ->
  level_lookup k (epre ++ chunks ++ epost) = pair_lookup k fs1 ess1 (epre ++ erel ++ epost).
Proof.
  intros Hc Hv. rewrite /pair_lookup !level_lookup_app.
  assert (level_lookup k chunks = snd <$> newest k (sources (fs1 ++ rel) (ess1 ++ erel))) as Hm by (by rewrite /level_lookup Hc Hnew).
  pose proof (merged_key_between k) as Hbt. rewrite sources_app in Hm, Hbt; [|by eapply Forall2_length].
  rewrite newest_app_newer in Hm, Hbt; last first.
  { intros s1 s2 (i & f & e & Hi & _ & ->)%sources_elem (a & g & e' & Ha & _ & ->)%sources_elem. cbn.
    apply Hv; by eapply list_elem_of_lookup_2. }
  destruct (newest k (sources fs1 ess1)) as [[v r]|].
  - destruct (Hbt v r eq_refl) as [Hp _]. rewrite (level_lookup_out c file pre epre) //; [by rewrite Hm|].
    intros f Hf. right. by apply Hp.
  - apply disjoint_app in Hdis as (_ & Hd2 & _). apply disjoint_app in Hd2 as (Hdr & _ & _).
    rewrite Hm (newest_disjoint file rel erel k (ld_sorted _ Hdr) (files_holds _ _ _ _ Hfr)). done.
Qed.
End layout.
(** ** Merging *)

(** The entries of the files around the key range, and how many keys the merge has. *)
Definition rel_ents (relative fs2 : list bit_file) (ess2 : list (list ent)) : list (list ent) :=
  (filter (fun p => bf_id p.1 ∈ bf_id <$> relative) (zip fs2 ess2)).*2.
Definition merge_size (ess : list (list ent)) : Z := Z.of_nat (size (ents_map (concat ess))).

Lemma zip_filter_none (ids : list Z) fs (ess : list (list ent)) :
  (forall f, f ∈ fs -> bf_id f ∉ ids) -> filter (fun p : bit_file * list ent => bf_id p.1 ∈ ids) (zip fs ess) = [].
Proof. intros Hn. apply filter_none. intros [f es] Hin%elem_of_zip_l. by apply Hn. Qed.

Lemma rel_ents_split pre rel post epre erel epost :
  NoDup (bf_id <$> pre ++ rel ++ post) -> length pre = length epre -> length rel = length erel ->
  rel_ents rel (pre ++ rel ++ post) (epre ++ erel ++ epost) = erel.
Proof.
  intros Hnd Hp Hr. rewrite /rel_ents zip_with_app // zip_with_app // !filter_app.
  rewrite !fmap_app in Hnd. apply NoDup_app in Hnd as (_ & Hx1 & Hnd). apply NoDup_app in Hnd as (_ & Hx2 & _).
  rewrite (zip_filter_none (bf_id <$> rel) pre); last first.
  { intros f Hf Hin. eapply Hx1; [apply list_elem_of_fmap; by exists f|]. apply elem_of_app. by left. }
  rewrite (zip_filter_none (bf_id <$> rel) post); last first.
  { intros f Hf Hin. eapply Hx2; [exact Hin|]. apply list_elem_of_fmap. by exists f. }
  rewrite app_nil_r. cbn [app]. rewrite filter_all; [|].
  - by apply snd_zip; lia.
  - apply Forall_forall => -[f es] Hin. apply elem_of_zip_l in Hin. apply list_elem_of_fmap. by exists f.
Qed.

Lemma merged_size fs ess merged :
  length fs = length ess -> ents_sorted merged -> (forall k, ents_map merged !! k = snd <$> newest k (sources fs ess)) ->
  Z.of_nat (length merged) = merge_size ess.
Proof.
  intros Hl Hs Hk. rewrite /merge_size. f_equal. rewrite -(map_size_list_to_map (M := gmap Z) merged); [|by apply ents_sorted_nodup].
  rewrite -!(size_dom (D := gset Z)). f_equal. apply set_eq => k. rewrite !elem_of_dom -/(ents_map merged) Hk fmap_is_Some.
  pose proof (newest_spec k (sources fs ess)) as Hn. split.
  - intros [[v r] He]. rewrite He in Hn. destruct Hn as [(s & Hin & _ & Hr) _]. apply sources_elem in Hin as (i & f & es & _ & Hes & ->).
    apply elem_of_list_to_map_2 in Hr. rewrite -elem_of_dom dom_list_to_map elem_of_list_to_set. apply list_elem_of_fmap.
    exists (k, r). split; [done|]. apply elem_of_flat. exists es. split; [done|by eapply list_elem_of_lookup_2].
  - rewrite -elem_of_dom dom_list_to_map elem_of_list_to_set. intros ([k' r] & -> & Hin)%list_elem_of_fmap. cbn [fst].
    apply elem_of_flat in Hin as (es & Hin & Hes). destruct (newest k' (sources fs ess)) as [x|] eqn:En; [by eexists|]. exfalso.
    cbn [fst] in Hn. rewrite En in Hn. apply list_elem_of_lookup in Hes as [i Hi]. destruct (lookup_lt_is_Some_2 fs i) as [f Hf].
    { rewrite Hl. by eapply lookup_lt_Some. }
    specialize (Hn (file_source f es) ltac:(apply list_elem_of_lookup; exists i; apply lookup_zip_with_Some; by exists f, es)).
    cbn in Hn. eapply not_elem_of_list_to_map_2 in Hn. apply Hn, list_elem_of_fmap. by exists (k', r).
Qed.

Lemma merge_size_le ess : merge_size ess <= Z.of_nat (length (concat ess)).
Proof.
  rewrite /merge_size. apply inj_le. generalize (concat ess). intros es. induction es as [|[k r] es IH]; [done|]. cbn [length].
  rewrite /ents_map list_to_map_cons -/(ents_map es). etrans; [|apply le_n_S, IH]. rewrite map_size_insert. by destruct (_ !! _); cbn; lia.
Qed.

Lemma nonempty_concat (ess : list (list ent)) : Forall (fun es => es <> []) ess -> (length ess <= length (concat ess))%nat.
Proof. induction 1 as [|es ess Hne _ IH]; [done|]. cbn [concat length]. rewrite length_app. destruct es; [done|]. cbn [length]. lia. Qed.

Lemma out_room_mono c l n m : out_room c l n -> 0 <= m <= n -> out_room c l m.
Proof.
  intros [R1 R2 R3 R4 R5 R6] Hm.
  assert (m / DEFAULT_LSM_FILE_CAPACITY <= n / DEFAULT_LSM_FILE_CAPACITY) by (apply Z.div_le_mono; [done|lia]).
  split; try done; lia.
Qed.

Lemma without_all ids fs : (forall f, f ∈ fs -> bf_id f ∉ ids) -> without ids fs = fs.
Proof. intros H. apply filter_all, Forall_forall. apply H. Qed.
Lemma without_none ids fs : (forall f, f ∈ fs -> bf_id f ∈ ids) -> without ids fs = [].
Proof. intros H. apply filter_none => f Hf Hn. by apply Hn, H. Qed.

(** What dropping the merged files leaves of the level. *)
Lemma without_merged c0 io0 l0 chunks fs' c1 io1 l1 gs pre rel post file ess :
  files_done c0 io0 l0 chunks fs' c1 io1 l1 -> gs ≡ₚ fs' ++ pre ++ rel ++ post -> StronglySorted file_le gs ->
  Forall2 (file_in c0 file) (pre ++ rel ++ post) ess -> NoDup (bf_id <$> pre ++ rel ++ post) -> lv_disjoint (pre ++ fs' ++ post) ->
  NoDup (bf_id <$> gs) /\ without (bf_id <$> rel) gs = pre ++ fs' ++ post.
Proof.
  intros Hd Hp Hs Hf Hnd Hdis.
  assert (forall f g, f ∈ fs' -> g ∈ pre ++ rel ++ post -> bf_id f <> bf_id g) as Hfresh.
  { intros f g Hf' Hg He. destruct (files_in_elem _ _ _ _ _ Hf Hg) as (es & Hge).
    destruct (dn_fresh _ _ _ _ _ _ _ _ Hd f Hf') as (Hu & _). pose proof (fi_used _ _ _ _ Hge). congruence. }
  pose proof Hnd as Hnd'. rewrite !fmap_app in Hnd'. apply NoDup_app in Hnd' as (_ & Hx1 & Hnd'). apply NoDup_app in Hnd' as (_ & Hx2 & _).
  split.
  - rewrite Hp fmap_app. apply NoDup_app. split; [apply (dn_ids _ _ _ _ _ _ _ _ Hd)|]. split; [|done].
    intros x (f & -> & Hf')%list_elem_of_fmap (g & He & Hg)%list_elem_of_fmap. by apply (Hfresh f g).
  - apply disjoint_unique; [done|by apply filter_sorted|].
    assert (without (bf_id <$> rel) gs ≡ₚ without (bf_id <$> rel) (fs' ++ pre ++ rel ++ post)) as -> by (rewrite /without; by rewrite Hp).
    rewrite /without !filter_app -!/(without _ _).
    rewrite (without_none _ rel); [|intros f Hf'; apply list_elem_of_fmap; by exists f].
    rewrite !without_all; [cbn [app]; by rewrite !app_assoc (Permutation_app_comm fs' pre)| | |].
    + intros f Hf' Hin. eapply Hx2; [exact Hin|]. apply list_elem_of_fmap. by exists f.
    + intros f Hf' Hin. eapply Hx1; [apply list_elem_of_fmap; by exists f|]. apply elem_of_app. by left.
    + intros f Hf' (g & He & Hg)%list_elem_of_fmap. eapply (Hfresh f g); [done| |done]. apply elem_of_app. right. apply elem_of_app. by left.
Qed.
(** The result of a job: level 0 is empty, the lower level holds what both
    held, at most [n] versions were used and there is a free slot. *)
Record job_done (n : nat) j ess1 ess2 j' : Prop := {
  jd_frame : job_frame j j';
  jd_version : cat_version (jb_cat j') <= cat_version (jb_cat j) + Z.of_nat n;
  jd_free : exists fd, 0 <= fd < cat_max_fd (jb_cat j') /\ cat_used (jb_cat j') fd = false;
  jd_size : lv_size (jb_level2 j') <= lv_max_size (jb_level2 j);
  jd_level1 : jb_level1 j' = lv_set_files [] (jb_level1 j);
  jd_level2 : exists gs, jb_level2 j' = lv_set_files gs (jb_level2 j);
  jd_ok : exists ess2', job_ok j' [] ess2' /\
    forall k, level_lookup k ess2' = pair_lookup k (lv_files (jb_level1 j)) ess1 ess2
}.

Lemma geom_ok_eq c c' : cat_geom c' = cat_geom c -> cat_geom_ok c -> cat_geom_ok c'.
Proof. intros (G1 & G2 & G3)%cat_geom_eq [H1 H2 H3]. split; by rewrite ?G1 ?G2 ?G3. Qed.

Lemma nodup_sub {A B} (g : A -> B) (l k : list A) : sublist l k -> NoDup (g <$> k) -> NoDup (g <$> l).
Proof. intros Hs Hn. eapply sublist_NoDup; [exact Hn|by apply fmap_sublist]. Qed.

Section finish.
Context (j j1 j' : job (C := C)) (pre rel post fs' : list bit_file) (ess1 epre erel epost chunks : list (list ent)).
Let fs1 : list bit_file := lv_files (jb_level1 j).
Hypothesis Hjob : job_ok j ess1 (epre ++ erel ++ epost).
Hypothesis Hfiles : lv_files (jb_level2 j) = pre ++ rel ++ post.
Hypothesis Hep : length pre = length epre.
Hypothesis Her : length rel = length erel.
Hypothesis Hdone : files_done (jb_cat j) (jb_io j) (jb_level2 j) chunks fs' (jb_cat j1) (jb_io j1) (jb_level2 j1).
Hypothesis Hlay : lv_disjoint (pre ++ fs' ++ post).

Lemma finish_split :
  Forall2 (file_in (jb_cat j) (io_file (jb_io j))) pre epre /\ Forall2 (file_in (jb_cat j) (io_file (jb_io j))) rel erel /\
  Forall2 (file_in (jb_cat j) (io_file (jb_io j))) post epost.
Proof.
  pose proof (jo_files2 _ _ _ Hjob) as H. rewrite Hfiles in H. apply Forall2_app_inv in H as [Hp H]; [|done].
  by apply Forall2_app_inv in H as [Hr Hq].
Qed.

Lemma finish_old f : f ∈ jb_files j ->
  0 <= bf_id f < cat_max_fd (jb_cat j) /\ cat_used (jb_cat j) (bf_id f) = true /\ bf_version f < cat_version (jb_cat j).
Proof.
  intros [Hf|Hf]%elem_of_app.
  - destruct (files_in_elem _ _ _ _ f (jo_files1 _ _ _ Hjob) Hf) as (es & [X1 X2 X3 _ _ _ _ _ _]). split_and!; try done; lia.
  - destruct (files_in_elem _ _ _ _ f (jo_files2 _ _ _ Hjob) Hf) as (es & [X1 X2 X3 _ _ _ _ _ _]). split_and!; try done; lia.
Qed.

Lemma finish_perm : jb_files j ≡ₚ (pre ++ post) ++ (fs1 ++ rel).
Proof. rewrite /jb_files Hfiles -/fs1. solve_Permutation. Qed.

(** Dropping the files that were merged. *)
Lemma finish_drops : jb_level1 j1 = jb_level1 j ->
  let j' := foldl job_drop2 (foldl job_drop1 j1 fs1) rel in
  jb_level1 j' = lv_set_files [] (jb_level1 j) /\ jb_level2 j' = lv_set_files (pre ++ fs' ++ post) (jb_level2 j) /\
  jb_io j' = jb_io j1 /\ released (bf_id <$> fs1 ++ rel) (jb_cat j1) (jb_cat j').
Proof.
  intros Hl1 j''. destruct (dn_level _ _ _ _ _ _ _ _ Hdone) as (gs & Hgs & Hgsort & Hgp). rewrite Hfiles in Hgp.
  pose proof (jo_ids _ _ _ Hjob) as Hnd. rewrite /jb_files fmap_app Hfiles in Hnd. apply NoDup_app in Hnd as (Hnd1 & _ & Hnd2).
  pose proof (jo_files2 _ _ _ Hjob) as Hf2. rewrite Hfiles in Hf2.
  destruct (without_merged _ _ _ _ _ _ _ _ gs pre rel post _ _ Hdone Hgp Hgsort Hf2 Hnd2 Hlay) as [Hndg Hwg].
  destruct (cat_geom_eq _ _ (dn_geom _ _ _ _ _ _ _ _ Hdone)) as (_ & _ & G3).
  destruct (drop1_ok fs1 j1 (dn_cat _ _ _ _ _ _ _ _ Hdone)) as (D1 & D2 & D3 & D4).
  { by rewrite Hl1. }
  { apply Forall_forall => f Hf. rewrite G3. apply finish_old. apply elem_of_app. by left. }
  set (j2 := foldl job_drop1 j1 fs1) in *. destruct (cat_geom_eq _ _ (rl_geom _ _ _ D1)) as (_ & _ & G3').
  destruct (drop2_ok rel j2 (rl_inv _ _ _ D1)) as (E1 & E2 & E3 & E4).
  { rewrite D3 Hgs. done. }
  { apply Forall_forall => f Hf. rewrite G3' G3. apply finish_old. rewrite finish_perm !elem_of_app. tauto. }
  rewrite D3 Hgs in E4. cbn [lv_set_files lv_files] in E4. rewrite Hwg in E4.
  rewrite D4 Hl1 -/fs1 without_none in E3; [|intros f Hf; apply list_elem_of_fmap; by exists f].
  split; [done|]. split; [done|]. split; [by rewrite /j'' E2|]. rewrite fmap_app. by eapply released_app.
Qed.

(** The state that is left. *)
Hypothesis Hl1' : jb_level1 j' = lv_set_files [] (jb_level1 j).
Hypothesis Hl2' : jb_level2 j' = lv_set_files (pre ++ fs' ++ post) (jb_level2 j).
Hypothesis Hio' : jb_io j' = jb_io j1.
Hypothesis Hrel : released (bf_id <$> fs1 ++ rel) (jb_cat j1) (jb_cat j').

Lemma finish_ids id : id ∈ bf_id <$> fs1 ++ rel -> cat_used (jb_cat j) id = true.
Proof. intros (f & -> & Hf)%list_elem_of_fmap. apply finish_old. rewrite finish_perm elem_of_app. by right. Qed.

Lemma finish_keep f es : f ∈ pre ++ post -> file_in (jb_cat j) (io_file (jb_io j)) f es -> file_in (jb_cat j') (io_file (jb_io j')) f es.
Proof.
  intros Hf Hfe. rewrite Hio'. eapply (merged_keep (jb_cat j)); [apply (jo_geom _ _ _ Hjob)|done|done|done|].
  intros Hin. pose proof (jo_ids _ _ _ Hjob) as Hnd. rewrite finish_perm fmap_app in Hnd. apply NoDup_app in Hnd as (_ & Hx & _).
  eapply Hx; [|exact Hin]. apply list_elem_of_fmap. by exists f.
Qed.

Lemma finish_files' : jb_files j' = pre ++ fs' ++ post.
Proof. by rewrite /jb_files Hl1' Hl2'. Qed.

Lemma finish_forall2 fs es : (forall f, f ∈ fs -> f ∈ pre ++ post) -> Forall2 (file_in (jb_cat j) (io_file (jb_io j))) fs es ->
  Forall2 (file_in (jb_cat j') (io_file (jb_io j'))) fs es.
Proof.
  intros Hin Hf. induction Hf as [|f e fs es Hf Hfs IH]; constructor; [apply finish_keep; [apply Hin; left|done]|].
  apply IH => g Hg. apply Hin. by right.
Qed.

Lemma finish_distinct {B} (g : bit_file -> B) :
  NoDup (g <$> jb_files j) -> NoDup (g <$> fs') -> (forall f h, f ∈ fs' -> h ∈ jb_files j -> g f <> g h) ->
  NoDup (g <$> pre ++ fs' ++ post).
Proof.
  intros Hold Hnew Hne. rewrite finish_perm fmap_app in Hold. apply NoDup_app in Hold as (Hold & _).
  assert (pre ++ fs' ++ post ≡ₚ fs' ++ pre ++ post) as -> by solve_Permutation. rewrite fmap_app. apply NoDup_app.
  split; [done|]. split; [|done]. intros x (f & -> & Hf)%list_elem_of_fmap (h & He & Hh)%list_elem_of_fmap.
  apply (Hne f h); [done| |done]. rewrite finish_perm elem_of_app. by left.
Qed.

Lemma finish_job_ok : job_ok j' [] (epre ++ chunks ++ epost).
Proof.
  destruct finish_split as (Hfp & Hfr & Hfq). pose proof (dn_geom _ _ _ _ _ _ _ _ Hdone) as Hg.
  pose proof (dn_version _ _ _ _ _ _ _ _ Hdone) as Hv. pose proof (jo_version _ _ _ Hjob) as Hv0. split.
  - apply (rl_inv _ _ _ Hrel).
  - eapply geom_ok_eq; [|apply (jo_geom _ _ _ Hjob)]. by rewrite (rl_geom _ _ _ Hrel).
  - rewrite (rl_version _ _ _ Hrel). lia.
  - rewrite Hl1'. apply (jo_level _ _ _ Hjob).
  - rewrite Hl1'. constructor.
  - rewrite Hl2'. cbn [lv_set_files lv_files]. apply Forall2_app; [apply finish_forall2; [|done]|apply Forall2_app; [|apply finish_forall2; [|done]]].
    + intros f Hf. apply elem_of_app. by left.
    + rewrite Hio'. eapply merged_new; [done|done|apply finish_ids].
    + intros f Hf. apply elem_of_app. by right.
  - rewrite finish_files'. apply finish_distinct; [apply (jo_ids _ _ _ Hjob)|apply (dn_ids _ _ _ _ _ _ _ _ Hdone)|].
    intros f h Hf Hh He. destruct (dn_fresh _ _ _ _ _ _ _ _ Hdone f Hf) as (Hu & _). destruct (finish_old h Hh) as (_ & Hu' & _). congruence.
  - rewrite finish_files'. apply finish_distinct; [apply (jo_versions _ _ _ Hjob)|apply (dn_versions _ _ _ _ _ _ _ _ Hdone)|].
    intros f h Hf Hh He. destruct (dn_fresh _ _ _ _ _ _ _ _ Hdone f Hf) as (_ & _ & Hvf & _). destruct (finish_old h Hh) as (_ & _ & Hvh). lia.
  - rewrite Hl1'. by intros f g ?%elem_of_nil.
  - by rewrite Hl2'.
Qed.

Lemma finish_frame : job_frame j j'.
Proof.
  pose proof (dn_geom _ _ _ _ _ _ _ _ Hdone) as Hg. split.
  - by rewrite (rl_geom _ _ _ Hrel).
  - rewrite (rl_version _ _ _ Hrel) (dn_version _ _ _ _ _ _ _ _ Hdone). lia.
  - intros fd Hfd. rewrite (merged_used _ _ _ _ _ _ _ _ _ _ Hdone Hrel finish_ids fd Hfd) finish_files'.
    destruct (decide (fd ∈ bf_id <$> fs')) as [Hin|Hin].
    { rewrite (bool_decide_eq_true_2 (fd ∈ bf_id <$> fs')) // (bool_decide_eq_true_2 (fd ∈ bf_id <$> pre ++ fs' ++ post)) //.
      rewrite !fmap_app !elem_of_app. tauto. }
    rewrite (bool_decide_eq_false_2 (fd ∈ bf_id <$> fs')) //. cbn [orb].
    destruct (decide (fd ∈ bf_id <$> pre ++ post)) as [Hk|Hk].
    + rewrite (bool_decide_eq_true_2 (fd ∈ bf_id <$> pre ++ fs' ++ post)); [|rewrite !fmap_app !elem_of_app in Hk |- *; tauto].
      pose proof Hk as (f & -> & Hf)%list_elem_of_fmap. destruct (finish_old f) as (_ & -> & _); [rewrite finish_perm elem_of_app; by left|].
      rewrite bool_decide_eq_false_2; [done|]. pose proof (jo_ids _ _ _ Hjob) as Hnd. rewrite finish_perm fmap_app in Hnd.
      apply NoDup_app in Hnd as (_ & Hx & _). by apply Hx.
    + rewrite (bool_decide_eq_false_2 (fd ∈ bf_id <$> pre ++ fs' ++ post)); [|rewrite !fmap_app !elem_of_app in Hk Hin |- *; tauto].
      cbn [orb]. do 2 f_equal. apply bool_decide_ext. rewrite finish_perm (fmap_app bf_id (pre ++ post)) (elem_of_app (bf_id <$> pre ++ post)). tauto.
  - intros f es Hf Hn. rewrite Hio'. eapply (merged_keep (jb_cat j)); [apply (jo_geom _ _ _ Hjob)|done|done|done|].
    intros Hin. apply Hn. rewrite finish_perm (fmap_app bf_id (pre ++ post)) elem_of_app. by right.
  - intros f. rewrite finish_files'. intros Hf. assert (f ∈ fs' \/ f ∈ jb_files j) as [Hf'|Hf'].
    { rewrite finish_perm. rewrite !elem_of_app in Hf |- *. tauto. }
    + right. apply (dn_fresh _ _ _ _ _ _ _ _ Hdone f Hf').
    + left. apply list_elem_of_fmap. by exists f.
  - intros f. rewrite finish_files'. intros Hf. assert (f ∈ fs' \/ f ∈ jb_files j) as [Hf'|Hf'].
    { rewrite finish_perm. rewrite !elem_of_app in Hf |- *. tauto. }
    + right. apply (dn_fresh _ _ _ _ _ _ _ _ Hdone f Hf').
    + by left.
  - intros f. rewrite Hl2' Hfiles. cbn [lv_set_files lv_files]. intros Hf. assert (f ∈ fs' \/ f ∈ pre ++ rel ++ post) as [Hf'|Hf'].
    { rewrite !elem_of_app in Hf |- *. tauto. }
    + right. apply (dn_fresh _ _ _ _ _ _ _ _ Hdone f Hf').
    + by left.
Qed.
(** The slot of a file of level 0 is free. *)
Lemma finish_free : fs1 <> [] -> exists fd, 0 <= fd < cat_max_fd (jb_cat j') /\ cat_used (jb_cat j') fd = false.
Proof.
  intros Hne. assert (exists f, f ∈ fs1) as [f Hf] by (destruct fs1 as [|f ?]; [done|]; exists f; left).
  assert (f ∈ jb_files j) as Hfj by (apply elem_of_app; by left). destruct (finish_old f Hfj) as (Hid & Hu & _).
  destruct (cat_geom_eq _ _ (dn_geom _ _ _ _ _ _ _ _ Hdone)) as (_ & _ & G). destruct (cat_geom_eq _ _ (rl_geom _ _ _ Hrel)) as (_ & _ & G').
  exists (bf_id f). rewrite G' G. split; [done|]. rewrite (merged_used _ _ _ _ _ _ _ _ _ _ Hdone Hrel finish_ids _ Hid).
  rewrite (bool_decide_eq_true_2 (bf_id f ∈ bf_id <$> fs1 ++ rel)); [|apply list_elem_of_fmap; exists f; split; [done|]; apply elem_of_app; by left].
  rewrite bool_decide_eq_false_2; [done|]. intros (g & He & Hg)%list_elem_of_fmap.
  destruct (dn_fresh _ _ _ _ _ _ _ _ Hdone g Hg) as (Hu' & _). congruence.
Qed.
End finish.
(** The merge of all of level 0 with the files around their key range. *)
Lemma job_merge_done fuel fd0 j ess1 ess2 :
  let fs1 := lv_files (jb_level1 j) in
  let relative := bit_level_find_relative_files (jb_level2 j) fs1 in
  let ess := ess1 ++ rel_ents relative (lv_files (jb_level2 j)) ess2 in
  job_ok j ess1 ess2 -> fs1 <> [] -> out_room (jb_cat j) (jb_level2 j) (Z.of_nat (length (concat ess))) ->
  (length (concat ess) <= fuel)%nat -> last_ok (merge_size ess) ->
  exists j', job_merge garbage_buffer garbage_leaf fuel fd0 fs1 relative j = Some j' /\ job_done (length (concat ess)) j ess1 ess2 j'.
Proof.
  intros fs1 relative ess Hj Hne Hroom Hfuel Hlast.
  destruct (find_relative_split (jb_level2 j) fs1 (jo_disjoint _ _ _ Hj)) as (pre & post & Hl2 & Hpre & Hpost). fold relative in Hl2.
  pose proof (jo_files2 _ _ _ Hj) as Hf2. rewrite Hl2 in Hf2.
  apply Forall2_app_inv_l in Hf2 as (epre & er & Hfp & Hf2 & ->). apply Forall2_app_inv_l in Hf2 as (erel & epost & Hfr & Hfq & ->).
  pose proof (Forall2_length _ _ _ Hfp) as Hlp. pose proof (Forall2_length _ _ _ Hfr) as Hlr.
  assert (NoDup (bf_id <$> pre ++ relative ++ post)) as Hnd2.
  { pose proof (jo_ids _ _ _ Hj) as Hnd. rewrite /jb_files fmap_app Hl2 in Hnd. by apply NoDup_app in Hnd as (_ & _ & ?). }
  rewrite /ess Hl2 rel_ents_split // in Hroom Hfuel Hlast |- *. clear ess.
  assert (NoDup (bf_version <$> fs1 ++ relative)) as Hndv.
  { eapply nodup_sub; [|apply (jo_versions _ _ _ Hj)]. rewrite /jb_files Hl2 -/fs1. apply sublist_app; [done|].
    apply sublist_inserts_l, sublist_inserts_r. done. }
  destruct (job_merge_ok garbage_buffer garbage_leaf fuel fd0 fs1 relative (ess1 ++ erel) j) as
    (merged & j1 & Hs & Hwf & Hmne & Hnew & Hrun & Hl1 & Hfin); try done.
  { apply (jo_cat _ _ _ Hj). }
  { apply lv_disjoint_le, (jo_disjoint _ _ _ Hj). }
  { apply Forall2_app; [apply (jo_files1 _ _ _ Hj)|done]. }
  { intros [? _]%app_eq_nil. done. }
  rewrite -(merged_size (fs1 ++ relative) (ess1 ++ erel) merged) // in Hlast; last first.
  { rewrite !length_app Hlr. f_equal. apply (Forall2_length _ _ _ (jo_files1 _ _ _ Hj)). }
  destruct (Hfin Hlast) as (chunks & fs' & Hcat & Hdone). eexists. split; [exact Hrun|].
  pose proof (jo_disjoint _ _ _ Hj) as Hdis. rewrite Hl2 in Hdis.
  assert (Forall (fun es => es <> []) chunks) as Hcne.
  { apply Forall_forall => es. intros (i & Hi)%list_elem_of_lookup.
    destruct (Forall2_lookup_r _ _ _ _ _ (dn_files _ _ _ _ _ _ _ _ Hdone) Hi) as (f & _ & Hf).
    by destruct (fi_chain _ _ _ _ Hf) as (? & ? & (_ & ? & _) & _). }
  pose proof (merged_layout _ _ fs1 pre relative post ess1 erel merged (jo_files1 _ _ _ Hj) Hfr Hdis Hpre Hpost Hnew fs' chunks
    (dn_range _ _ _ _ _ _ _ _ Hdone) Hcne Hcat Hs) as Hlay.
  destruct (finish_drops j j1 pre relative post fs' ess1 epre erel epost chunks Hj Hl2 Hlp Hlr Hdone Hlay Hl1) as (F1 & F2 & F3 & F4).
  split.
  - by eapply finish_frame.
  - rewrite (rl_version _ _ _ F4) (dn_version _ _ _ _ _ _ _ _ Hdone) (Forall2_length _ _ _ (dn_files _ _ _ _ _ _ _ _ Hdone)).
    pose proof (nonempty_concat _ Hcne) as Hcl. rewrite Hcat in Hcl. pose proof (merge_size_le (ess1 ++ erel)) as Hml.
    rewrite -(merged_size (fs1 ++ relative) (ess1 ++ erel) merged) // in Hml; [lia|]. rewrite !length_app Hlr. f_equal.
    apply (Forall2_length _ _ _ (jo_files1 _ _ _ Hj)).
  - by eapply finish_free.
  - rewrite F2. pose proof (dn_fit _ _ _ _ _ _ _ _ Hdone) as Hfit. destruct (done_lengths _ _ _ _ _ _ _ _ Hdone) as (_ & Hsz & _).
    rewrite Hsz in Hfit. rewrite /lv_size Hl2 !length_app in Hfit. rewrite /lv_size. cbn [lv_set_files lv_files]. rewrite !length_app. lia.
  - done.
  - by eexists.
  - exists (epre ++ chunks ++ epost). split; [by eapply finish_job_ok|]. intros k.
    apply (merged_lookup _ _ fs1 pre relative post ess1 epre erel epost merged (jo_files1 _ _ _ Hj) Hfp Hfr Hdis Hpre Hpost Hnew); [done|].
    intros f g Hf Hg. apply (jo_newer _ _ _ Hj); [done|]. rewrite Hl2 !elem_of_app. tauto.
Qed.
End compaction_level.
