(* ===== verification/CompactionRun.v ===== *)
(** * Running a compaction job on level 0

    When no file of level 0 overlaps another or a file of the next level, the
    job only gives each a new version and its new level.  Together with the
    merge this shows what [compaction_job_run] does in every case. *)
From S2P Require Import Prelude Codec BlockManager DiskStructs Crypto BitNode Superblock SegValidator Area Bloom Hashtable Catalogue BitFile BitTree BitFileSpec IterFacts Level Compaction MergeFacts FileFacts CompactionFacts CompactionSpec CompactionLevel.

Section compaction_run.
Context {C : Type} {cat : LsmCatalogue C} {cat_ok : LsmCatalogueOk C}.
Context {gcm : Gcm} {gcm_ok : GcmOk} {rng : Rng} {rng_ok : RngOk} {heap : MinHeap} {heap_ok : MinHeapOk}.
Context (garbage_buffer : area) (garbage_leaf : list byte -> bit_leaf).
Implicit Types (c : C) (f : bit_file) (j : job (C := C)).

(** ** A file under a new label *)
Lemma relabel_stat_wf f v level :
  cwf file_stat_codec (bit_file_get_stats f) -> 0 <= v < 2 ^ 64 -> 0 <= level < 2 ^ 64 ->
  cwf file_stat_codec (bit_file_get_stats (bf_relabel v level f)).
Proof.
  intros (H1 & H2 & H3 & H4 & H5 & _ & _ & H8) Hv Hl. split; [exact H1|]. split; [exact H2|]. split; [exact H3|].
  split; [exact H4|]. split; [exact H5|]. split; [exact Hl|]. split; [exact Hv|exact H8].
Qed.

Lemma file_in_relabel c c' file f es level :
  file_in c file f es -> cat_geom c' = cat_geom c -> cat_version c' = cat_version c + 1 -> cat_used c' (bf_id f) = true ->
  0 <= cat_version c < 2 ^ 64 - 1 -> 0 <= level < 2 ^ 64 ->
  cat_stat c' (bf_id f) = Some (bit_file_get_stats (bf_relabel (cat_version c) level f)) ->
  file_in c' file (bf_relabel (cat_version c) level f) es.
Proof.
  intros [H1 H2 H3 H4 H5 H6 H7 H8 H9 H10] Hg Hv Hu Hver Hlev Hst. destruct (cat_geom_eq _ _ Hg) as (G1 & G2 & G3). split.
  - by rewrite G3.
  - done.
  - cbn. lia.
  - destruct H4 as (lo & hi & [A1 A2 A3 A4] & Hb). exists lo, hi. rewrite /slot_lo G1 G2. split; [by split|exact Hb].
  - done.
  - destruct H6 as (lo & hi & Hch & Hb). exists lo, hi. rewrite /slot_lo G1 G2. split; [exact Hch|exact Hb].
  - done.
  - done.
  - apply relabel_stat_wf; [done|lia|lia].
  - rewrite /slot_lo G1 G2. exact H10.
Qed.

(** ** One move *)

(** What a step leaves alone: the data, the slots in use and the files other
    than those named. *)
Record moved (ids : list Z) j j' : Prop := {
  mv_cat : cat_inv (jb_cat j');
  mv_geom : cat_geom (jb_cat j') = cat_geom (jb_cat j);
  mv_used fd : 0 <= fd < cat_max_fd (jb_cat j) -> cat_used (jb_cat j') fd = cat_used (jb_cat j) fd;
  mv_stat fd : 0 <= fd < cat_max_fd (jb_cat j) -> fd ∉ ids -> cat_stat (jb_cat j') fd = cat_stat (jb_cat j) fd;
  mv_version : cat_version (jb_cat j') = cat_version (jb_cat j) + Z.of_nat (length ids);
  mv_io : jb_io j' = jb_io j
}.

Lemma moved_keep ids j j' f es :
  moved ids j j' -> file_in (jb_cat j) (io_file (jb_io j)) f es -> bf_id f ∉ ids -> file_in (jb_cat j') (io_file (jb_io j')) f es.
Proof.
  intros [M1 M2 M3 M4 M5 M6] Hf Hn. pose proof (fi_id _ _ _ _ Hf) as Hid. rewrite M6. eapply file_in_frame; try done.
  - rewrite M3 //. apply (fi_used _ _ _ _ Hf).
  - by apply M4.
  - lia.
Qed.

Lemma moved_app ids1 ids2 j j1 j2 : moved ids1 j j1 -> moved ids2 j1 j2 -> moved (ids1 ++ ids2) j j2.
Proof.
  intros [A1 A2 A3 A4 A5 A6] [B1 B2 B3 B4 B5 B6]. destruct (cat_geom_eq _ _ A2) as (_ & _ & G). split; try congruence.
  - intros fd Hfd. rewrite B3; [|lia]. by apply A3.
  - intros fd Hfd [Hn1 Hn2]%not_elem_of_app. rewrite B4; [|lia|done]. by apply A4.
  - rewrite B5 A5 length_app. lia.
Qed.

Lemma moved_all ids j j' fs ess :
  moved ids j j' -> Forall2 (file_in (jb_cat j) (io_file (jb_io j))) fs ess -> (forall f, f ∈ fs -> bf_id f ∉ ids) ->
  Forall2 (file_in (jb_cat j') (io_file (jb_io j'))) fs ess.
Proof.
  intros Hm Hf Hn. induction Hf as [|f es fs ess Hf Hfs IH]; constructor; [eapply moved_keep; try done; apply Hn; left|].
  apply IH => g Hg. apply Hn. by right.
Qed.

(** The state while files are moved: [fs] are still in level 0, [gs] are in
    the next level, and no two of them overlap. *)
Record move_ok j (fs gs : list bit_file) (ess egs : list (list ent)) : Prop := {
  mo_cat : cat_inv (jb_cat j);
  mo_version : 0 <= cat_version (jb_cat j);
  mo_level1 : lv_files (jb_level1 j) = fs;
  mo_level2 : lv_files (jb_level2 j) = gs;
  mo_files1 : Forall2 (file_in (jb_cat j) (io_file (jb_io j))) fs ess;
  mo_files2 : Forall2 (file_in (jb_cat j) (io_file (jb_io j))) gs egs;
  mo_ids : NoDup (bf_id <$> fs ++ gs);
  mo_versions : NoDup (bf_version <$> gs);
  mo_disjoint : lv_disjoint gs;
  mo_apart f g : f ∈ fs -> g ∈ gs -> ~ file_overlap f g;
  mo_self f g : f ∈ fs -> g ∈ fs -> bf_id f <> bf_id g -> ~ file_overlap f g
}.

Lemma move_cat f j level :
  cat_inv (jb_cat j) -> 0 <= cat_version (jb_cat j) < 2 ^ 64 - 1 -> 0 <= level < 2 ^ 64 -> 0 <= bf_id f < cat_max_fd (jb_cat j) ->
  cwf file_stat_codec (bit_file_get_stats f) ->
  let f' := bf_relabel (cat_version (jb_cat j)) level f in
  exists c1 c2, next_version (jb_cat j) = (cat_version (jb_cat j), c1) /\ (cat_set_file_stats (bf_id f) (bit_file_get_stats f') c1).2 = c2 /\
    (forall l1 l2, moved [bf_id f] j (jb_set_cat c2 (jb_set_level1 l1 (jb_set_level2 l2 j)))) /\
    cat_stat c2 (bf_id f) = Some (bit_file_get_stats f').
Proof.
  intros Hc Hv Hlev Hid Hwf f'. destruct (cat_next_version_ok (jb_cat j) Hc Hv) as (c1 & Hrun & V1 & V2 & V3 & V4).
  destruct (cat_geom_eq _ _ V2) as (_ & _ & G3). exists c1.
  destruct (cat_set_stats_ok c1 (bf_id f) (bit_file_get_stats f') V1 ltac:(lia) ltac:(apply relabel_stat_wf; [done|lia|done]))
    as (c2 & Hset & S1 & S2 & S3 & S4 & S5).
  exists c2. rewrite /next_version Hrun Hset. split; [done|]. split; [done|]. split.
  - intros l1 l2. split; cbn [jb_set_cat jb_set_level1 jb_set_level2 jb_cat jb_io]; try done.
    + congruence.
    + intros fd Hfd. rewrite S4; [|lia]. by apply V4.
    + intros fd Hfd Hn. rewrite S5; [|lia]. case_decide as Hd; [exfalso; apply Hn; rewrite Hd; left|]. by apply V4.
    + rewrite S3 V3. cbn. lia.
  - rewrite S5; [|lia]. by case_decide.
Qed.

Lemma move_step j f fs gs es ess egs :
  move_ok j (f :: fs) gs (es :: ess) egs -> cat_version (jb_cat j) < 2 ^ 64 - 1 -> 0 <= lv_level (jb_level2 j) < 2 ^ 64 ->
  lv_size (jb_level2 j) < lv_max_size (jb_level2 j) ->
  let j' := job_move_file j f in
  exists gs' egs', move_ok j' fs gs' ess egs' /\ moved [bf_id f] j j' /\ jb_level1 j' = lv_set_files fs (jb_level1 j) /\
    jb_level2 j' = lv_set_files gs' (jb_level2 j) /\ egs' ≡ₚ es :: egs /\ bf_id <$> gs' ≡ₚ bf_id f :: (bf_id <$> gs) /\
    forall g, g ∈ gs' -> g ∈ gs \/ cat_version (jb_cat j) <= bf_version g /\ bf_level g = lv_level (jb_level2 j).
Proof.
  intros [M1 M2 M3 M4 M5 M6 M7 M8 M9 M10 M11] Hv Hlev Hroom. apply Forall2_cons in M5 as [Hf M5].
  destruct (move_cat f j (lv_level (jb_level2 j)) M1 ltac:(lia) Hlev (fi_id _ _ _ _ Hf) (fi_stat_wf _ _ _ _ Hf)) as (c1 & c2 & Hn & Hset & Hmv & Hst).
  set (f' := bf_relabel (cat_version (jb_cat j)) (lv_level (jb_level2 j)) f) in *.
  destruct (lv_disjoint_add_file (jb_level2 j) f') as (gs' & Hadd & Hd' & Hp').
  { by rewrite M4. }
  { done. }
  { apply (file_in_range _ _ _ _ Hf). }
  { rewrite M4. intros g Hg. apply (M10 f g); [left|done]. }
  rewrite fmap_app fmap_cons in M7. cbn [app] in M7. apply NoDup_cons in M7 as [Hnf Hnd]. rewrite -fmap_app in Hnf, Hnd.
  assert (lv_disjoint (lv_files (jb_level2 j))) as Hd0 by (by rewrite M4).
  pose proof (bit_level_add_file_split (jb_level2 j) f' Hroom (lv_disjoint_le _ Hd0)) as Hsp. rewrite Hadd in Hsp. injection Hsp as Hgs'. rewrite M4 in Hp', Hgs'.
  set (i := Z.to_nat _) in Hgs'. cbv zeta. rewrite /job_move_file Hn. cbv beta iota zeta. fold f'. change (bf_id f') with (bf_id f).
  rewrite Hset Hadd. cbn [snd].
  assert ((bit_level_remove_file (bf_id f) (jb_level1 j)).2 = lv_set_files fs (jb_level1 j)) as ->.
  { rewrite /bit_level_remove_file M3. cbn [remove_file_loop]. by rewrite Z.eqb_refl. }
  set (j' := jb_set_cat c2 _). pose proof (Hmv (lv_set_files fs (jb_level1 j)) (lv_set_files gs' (jb_level2 j))) as Hmoved. fold j' in Hmoved.
  assert (forall g, g ∈ fs ++ gs -> bf_id g ∉ [bf_id f]) as Hoth.
  { intros g Hg He%list_elem_of_singleton. apply Hnf. rewrite -He. apply list_elem_of_fmap. by exists g. }
  assert (Forall2 (file_in (jb_cat j') (io_file (jb_io j'))) gs egs) as Hgs.
  { eapply moved_all; [exact Hmoved|done|]. intros g Hg. apply Hoth, elem_of_app. by right. }
  assert (file_in (jb_cat j') (io_file (jb_io j')) f' es) as Hf'.
  { apply (file_in_relabel (jb_cat j)); try done; try lia; [apply (mv_geom _ _ _ Hmoved)|exact (mv_version _ _ _ Hmoved)|].
    rewrite (mv_used _ _ _ Hmoved); [|apply (fi_id _ _ _ _ Hf)]. apply (fi_used _ _ _ _ Hf). }
  exists gs', (take i egs ++ es :: drop i egs). split; [split; try done|split; [done|split; [done|split; [done|split; [|split]]]]].
  - exact (mv_cat _ _ _ Hmoved).
  - rewrite (mv_version _ _ _ Hmoved). lia.
  - eapply moved_all; [exact Hmoved|done|]. intros g Hg. apply Hoth, elem_of_app. by left.
  - rewrite Hgs'. apply Forall2_app; [by apply Forall2_take|]. constructor; [done|by apply Forall2_drop].
  - rewrite Hp' fmap_app. cbn. rewrite -Permutation_middle -fmap_app. by apply NoDup_cons.
  - rewrite Hp' fmap_cons. apply NoDup_cons. split; [|done]. intros (g & He & Hg)%list_elem_of_fmap.
    destruct (files_in_elem _ _ _ _ g M6 Hg) as (eg & Hge). pose proof (fi_version _ _ _ _ Hge). cbn in He. lia.
  - intros a g Ha. rewrite Hp'. intros [->|Hg]%elem_of_cons; [|apply M10; [by right|done]].
    apply (M11 a f); [by right|left|]. intros He. apply Hnf. rewrite -He. apply list_elem_of_fmap. exists a. split; [done|].
    apply elem_of_app. by left.
  - intros a g Ha Hg. apply M11; by right.
  - rewrite -{3}(take_drop i egs). by rewrite Permutation_middle.
  - by rewrite Hp' fmap_cons.
  - intros g. rewrite Hp'. intros [->|Hg]%elem_of_cons; [right; split; [cbn; lia|done]|by left].
Qed.

(** ** All moves *)
Lemma move_all fs j gs ess egs :
  move_ok j fs gs ess egs -> cat_version (jb_cat j) + Z.of_nat (length fs) < 2 ^ 64 -> 0 <= lv_level (jb_level2 j) < 2 ^ 64 ->
  lv_size (jb_level2 j) + Z.of_nat (length fs) <= lv_max_size (jb_level2 j) ->
  let j' := foldl job_move_file j fs in
  exists gs' egs', move_ok j' [] gs' [] egs' /\ moved (bf_id <$> fs) j j' /\ jb_level1 j' = lv_set_files [] (jb_level1 j) /\
    jb_level2 j' = lv_set_files gs' (jb_level2 j) /\ egs' ≡ₚ ess ++ egs /\ bf_id <$> gs' ≡ₚ (bf_id <$> fs) ++ (bf_id <$> gs) /\
    forall g, g ∈ gs' -> g ∈ gs \/ cat_version (jb_cat j) <= bf_version g /\ bf_level g = lv_level (jb_level2 j).
Proof.
  revert j gs ess egs. induction fs as [|f fs IH] => j gs ess egs Hm Hv Hlev Hroom; cbn [foldl].
  - pose proof Hm as [M1 M2 M3 M4 M5 M6 _ _ _ _ _]. exists gs, egs. apply Forall2_nil_inv_l in M5 as ->. split; [done|].
    split; [split; try done; cbn; lia|]. split; [rewrite -M3; by destruct (jb_level1 j)|]. split; [rewrite -M4; by destruct (jb_level2 j)|]. split; [done|]. split; [done|]. by left.
  - cbn [length] in Hv, Hroom. destruct ess as [|es ess]; [by pose proof (mo_files1 _ _ _ _ _ Hm) as Hx; inversion Hx|].
    destruct (move_step j f fs gs es ess egs Hm ltac:(lia) Hlev ltac:(lia)) as (gs1 & egs1 & Hm1 & Hmv1 & L1 & L2 & P1 & P2 & V1).
    destruct (IH (job_move_file j f) gs1 ess egs1 Hm1) as (gs' & egs' & Hm' & Hmv' & L1' & L2' & P1' & P2' & V').
    + rewrite (mv_version _ _ _ Hmv1). cbn. lia.
    + by rewrite L2.
    + rewrite L2 /lv_size. cbn [lv_set_files lv_files lv_max_size]. pose proof (Permutation_length P2) as Hl. cbn [length] in Hl.
      rewrite !length_fmap in Hl. rewrite /lv_size (mo_level2 _ _ _ _ _ Hm) in Hroom. lia.
    + exists gs', egs'. split; [done|]. split; [exact (moved_app _ _ _ _ _ Hmv1 Hmv')|]. split; [by rewrite L1' L1|].
      split; [by rewrite L2' L2|]. split; [rewrite P1' P1; by rewrite -Permutation_middle|].
      split; [rewrite P2' P2 fmap_cons; by rewrite -Permutation_middle|].
      intros g [Hg|[Hg Hgl]]%V'; [by apply V1|]. right. rewrite (mv_version _ _ _ Hmv1) in Hg. cbn in Hg. rewrite L2 in Hgl. split; [lia|done].
Qed.
(** ** The job *)
Definition job_relatives j : list bit_file := bit_level_find_relative_files (jb_level2 j) (lv_files (jb_level1 j)).
(** The entries a merge would read. *)
Definition job_input j (ess1 ess2 : list (list ent)) : list (list ent) :=
  ess1 ++ rel_ents (job_relatives j) (lv_files (jb_level2 j)) ess2.
Definition job_merges j : bool := negb (bool_decide (job_relatives j = [])) || lsm_file_overlapping (lv_files (jb_level1 j)).

(** Enough versions, slots and places in the next level; the last file of a
    merge consists of full leaves. *)
Record job_room (fuel : nat) j ess1 ess2 : Prop := {
  jr_fuel : (length (concat (job_input j ess1 ess2)) <= fuel)%nat;
  jr_out : out_room (jb_cat j) (jb_level2 j) (Z.of_nat (length (concat (job_input j ess1 ess2))));
  jr_last : job_merges j = true -> last_ok (merge_size (job_input j ess1 ess2));
  jr_version : cat_version (jb_cat j) + lv_size (jb_level1 j) < 2 ^ 64;
  jr_level : lv_size (jb_level2 j) + lv_size (jb_level1 j) <= lv_max_size (jb_level2 j)
}.

Lemma overlapping_false fs f g :
  lsm_file_overlapping fs = false -> f ∈ fs -> g ∈ fs -> bf_id f <> bf_id g -> ~ file_overlap f g.
Proof.
  intros Ho Hf Hg Hne [H1 H2]. apply not_true_iff_false in Ho. apply Ho. rewrite /lsm_file_overlapping.
  apply existsb_exists. exists f. split; [by apply list_elem_of_In|]. apply existsb_exists. exists g. split; [by apply list_elem_of_In|].
  rewrite /interval_overlapping. by do 3 ztest.
Qed.

Lemma job_move_ok j ess1 ess2 :
  job_ok j ess1 ess2 -> job_merges j = false -> move_ok j (lv_files (jb_level1 j)) (lv_files (jb_level2 j)) ess1 ess2.
Proof.
  intros [J1 J2 J3 J4 J5 J6 J7 J8 J9 J10] [Hrel Ho]%orb_false_iff. apply negb_false_iff, bool_decide_eq_true_1 in Hrel.
  split; try done.
  - rewrite /jb_files fmap_app in J8. by apply NoDup_app in J8 as (_ & _ & ?).
  - intros f g Hf Hg. destruct (find_relative_split (jb_level2 j) (lv_files (jb_level1 j)) J10) as (pre & post & Heq & Hpre & Hpost).
    rewrite Heq in Hg. rewrite /job_relatives in Hrel. rewrite Hrel in Hg. cbn [app] in Hg. rewrite /file_overlap.
    apply elem_of_app in Hg as [Hg|Hg].
    + eapply Forall_forall in Hpre; [|exact Hg]. pose proof (files_first_le _ _ Hf). cbn beta in Hpre. lia.
    + eapply Forall_forall in Hpost; [|exact Hg]. pose proof (files_last_ge _ _ Hf). cbn beta in Hpost. lia.
  - intros f g. by apply overlapping_false.
Qed.

(** A level that has the files of two levels without overlaps holds what they hold. *)
Lemma moved_lookup c c' file file' fs1 fs2 gs ess1 ess2 egs k :
  Forall2 (file_in c file) fs1 ess1 -> Forall2 (file_in c file) fs2 ess2 -> lv_disjoint fs2 ->
  Forall2 (file_in c' file') gs egs -> lv_disjoint gs -> egs ≡ₚ ess1 ++ ess2 ->
  level_lookup k egs = pair_lookup k fs1 ess1 ess2.
Proof.
  intros Hf1 Hf2 Hd2 Hg Hdg Hp. pose proof (level_concat_sorted _ _ _ (ld_sorted _ Hdg) (files_holds _ _ _ _ Hg)) as Hs.
  pose proof (level_concat_sorted _ _ _ (ld_sorted _ Hd2) (files_holds _ _ _ _ Hf2)) as Hs2.
  assert (forall e, e ∈ concat egs <-> (exists es, es ∈ ess1 /\ e ∈ es) \/ e ∈ concat ess2) as Hin.
  { intros e. rewrite !elem_of_flat. setoid_rewrite Hp. setoid_rewrite elem_of_app. naive_solver. }
  apply option_eq => r. rewrite /level_lookup (ents_map_iff _ k r Hs) Hin. rewrite /pair_lookup.
  pose proof (newest_spec k (sources fs1 ess1)) as Hn. destruct (newest k (sources fs1 ess1)) as [[v x]|].
  - destruct Hn as [(s & (i & f & es & Hi & He & ->)%sources_elem & _ & Hr) _]. cbn [snd] in Hr.
    assert ((k, x) ∈ concat egs) as Hx.
    { apply Hin. left. exists es. split; [by eapply list_elem_of_lookup_2|by apply elem_of_list_to_map_2]. }
    rewrite -Hin -(ents_map_iff _ k r Hs). rewrite -(ents_map_iff _ k x Hs) in Hx. rewrite Hx. done.
  - rewrite -/(level_lookup k ess2) /level_lookup (ents_map_iff _ k r Hs2). split; [|by right]. intros [(es & Hes & Hr)|Hr]; [|done].
    exfalso. apply list_elem_of_lookup in Hes as [i Hi]. destruct (Forall2_lookup_r _ _ _ _ _ Hf1 Hi) as (f & Hfi & Hfe).
    specialize (Hn (file_source f es) ltac:(apply list_elem_of_lookup; exists i; apply lookup_zip_with_Some; by exists f, es)).
    cbn in Hn. destruct (fi_ok _ _ _ _ Hfe) as (? & ? & Hok & _). rewrite (ents_map_elem es k r) // in Hn. apply Hok.
Qed.

Lemma job_move_done fuel j ess1 ess2 :
  job_ok j ess1 ess2 -> job_merges j = false -> job_room fuel j ess1 ess2 ->
  job_done (length (lv_files (jb_level1 j))) j ess1 ess2 (foldl job_move_file j (lv_files (jb_level1 j))).
Proof.
  intros Hj Hno [_ [_ _ _ R5 _ R6] _ R3 R4]. pose proof (job_move_ok j ess1 ess2 Hj Hno) as Hm. rewrite {1}/lv_size in R3, R4.
  destruct (move_all _ j _ _ _ Hm R3 R6 ltac:(rewrite {2}/lv_size in R4; lia)) as (gs' & egs' & Hm' & Hmv & L1 & L2 & P1 & P2 & V).
  set (j' := foldl _ j _) in *. pose proof Hm' as [N1 N2 N3 N4 N5 N6 N7 N8 N9 _ _].
  assert (jb_files j' = gs') as Hfs' by (by rewrite /jb_files N3 N4).
  assert (bf_id <$> jb_files j' ≡ₚ bf_id <$> jb_files j) as Hids by (rewrite Hfs' P2 /jb_files fmap_app; done).
  assert (forall f, f ∈ jb_files j -> cat_used (jb_cat j) (bf_id f) = true) as Hused.
  { intros f [Hf|Hf]%elem_of_app.
    - destruct (files_in_elem _ _ _ _ f (jo_files1 _ _ _ Hj) Hf) as (es & Hfe). apply (fi_used _ _ _ _ Hfe).
    - destruct (files_in_elem _ _ _ _ f (jo_files2 _ _ _ Hj) Hf) as (es & Hfe). apply (fi_used _ _ _ _ Hfe). }
  split; [| | | |done|by exists gs'|].
  - split.
    + apply (mv_geom _ _ _ Hmv).
    + rewrite (mv_version _ _ _ Hmv). lia.
    + intros fd Hfd. rewrite (mv_used _ _ _ Hmv) // (bool_decide_ext _ _ (elem_of_Permutation_proper fd _ _ Hids)).
      case_bool_decide as Hin; [|done]. apply list_elem_of_fmap in Hin as (f & -> & Hf). by rewrite Hused.
    + intros f es Hf Hn. eapply moved_keep; [exact Hmv|done|]. intros Hin. apply Hn. rewrite /jb_files fmap_app elem_of_app. by left.
    + intros f Hf. left. rewrite -Hids. apply list_elem_of_fmap. by exists f.
    + intros f. rewrite Hfs'. intros [Hf|[Hf _]]%V; [left|by right]. rewrite /jb_files elem_of_app. by right.
    + intros f. rewrite N4. intros [Hf|[_ Hf]]%V; [by left|by right].
  - rewrite (mv_version _ _ _ Hmv) length_fmap. lia.
  - destruct (nr_free_exists (jb_cat j)) as (fd & Hfd & Hfr).
    { apply Z.le_lt_trans with (2 := R5). apply Z.div_pos; [lia|done]. }
    destruct (cat_geom_eq _ _ (mv_geom _ _ _ Hmv)) as (_ & _ & G). exists fd. rewrite G (mv_used _ _ _ Hmv) //.
  - rewrite /lv_size N4. pose proof (Permutation_length P2) as Hl. rewrite length_app !length_fmap in Hl. rewrite /lv_size in R4. lia.
  - exists egs'. split.
    + split; try done.
      * eapply geom_ok_eq; [apply (mv_geom _ _ _ Hmv)|apply (jo_geom _ _ _ Hj)].
      * rewrite L1. apply (jo_level _ _ _ Hj).
      * by rewrite N3.
      * by rewrite N4.
      * rewrite Hids. apply (jo_ids _ _ _ Hj).
      * by rewrite Hfs'.
      * rewrite N3. by intros f g ?%elem_of_nil.
      * by rewrite N4.
    + intros k. eapply moved_lookup; [apply (jo_files1 _ _ _ Hj)|apply (jo_files2 _ _ _ Hj)|apply (jo_disjoint _ _ _ Hj)|exact N6|done|done].
Qed.

Lemma job_done_mono n m j ess1 ess2 j' : (n <= m)%nat -> job_done n j ess1 ess2 j' -> job_done m j ess1 ess2 j'.
Proof. intros Hle [H1 H2 H3 H4 H5 H6 H7]. split; try done. lia. Qed.

(** A compaction of a level 0 that has files. *)
Lemma compaction_run_done fuel fd0 j ess1 ess2 :
  job_ok j ess1 ess2 -> lv_files (jb_level1 j) <> [] -> job_room fuel j ess1 ess2 ->
  exists j', compaction_job_run garbage_buffer garbage_leaf fuel fd0 j = Some j' /\
    job_done (length (lv_files (jb_level1 j)) + length (concat (job_input j ess1 ess2))) j ess1 ess2 j'.
Proof.
  intros Hj Hne Hr. rewrite /compaction_job_run.
  assert (bit_level_pick_demoted_files (jb_level1 j) = lv_files (jb_level1 j)) as ->.
  { rewrite /bit_level_pick_demoted_files (jo_level _ _ _ Hj). by destruct (lv_files (jb_level1 j)). }
  rewrite -/(job_relatives j). destruct (job_merges j) eqn:Em.
  - destruct (job_merge_done garbage_buffer garbage_leaf fuel fd0 j ess1 ess2 Hj Hne (jr_out _ _ _ _ Hr) (jr_fuel _ _ _ _ Hr) (jr_last _ _ _ _ Hr Em))
      as (j' & Hrun & Hd). exists j'. split; [|eapply job_done_mono; [apply Nat.le_add_l|exact Hd]]. fold (job_relatives j) in Hrun. rewrite /job_merges in Em.
    destruct (job_relatives j) as [|r rs]; [|done]. cbn in Em. by rewrite Em.
  - exists (foldl job_move_file j (lv_files (jb_level1 j))). split; [|eapply job_done_mono; [|by eapply job_move_done]; lia].
    pose proof Em as [Hrel Ho]%orb_false_iff. apply negb_false_iff, bool_decide_eq_true_1 in Hrel. by rewrite Hrel Ho.
Qed.
End compaction_run.
