(* ===== verification/TableSpec.v ===== *)
(** * What the metadata tables promise (source/disk_structs.c, metadata.c)

    The on-disk tables, used over sequences of operations: arrays and bit sets
    against lists, the segment validator as an allocator, the data segment
    table, the reverse index, the superblock, and opening a fresh device.  The
    examples run on [blank_device], a device of zeroed blocks. *)
From S2P Require Import Prelude Codec BlockManager DiskStructs BitNode Superblock SegValidator Dst Catalogue Metadata.

(** ** A device of [n] zeroed blocks *)
Definition zero_block : list byte := replicate (Z.to_nat SWORNDISK_METADATA_BLOCK_SIZE) Byte.x00.
Definition blank_device (n : Z) : dm_block_manager :=
  dm_block_manager_create
    {| bufio_block_size := SWORNDISK_METADATA_BLOCK_SIZE;
       bufio_data := list_to_map ((fun b => (b, zero_block)) <$> seqZ 0 n);
       bufio_dirty := ∅; bufio_write_error := 0 |}.

Lemma blank_block n b : 0 <= b < n -> bm_block (blank_device n) b = Some zero_block.
Proof.
  intros Hb. rewrite /bm_block /blank_device. cbn [dm_block_manager_create bufio bufio_data].
  apply elem_of_list_to_map_1.
  - rewrite -list_fmap_compose. change (NoDup ((fun b : Z => b) <$> seqZ 0 n)). rewrite list_fmap_id. apply NoDup_seqZ.
  - apply list_elem_of_fmap. exists b. split; [done|]. apply elem_of_seqZ. lia.
Qed.

Lemma blank_ok n : bm_ok (blank_device n).
Proof. done. Qed.

Lemma blank_mapped lo hi n : 0 <= lo -> hi <= n -> bm_mapped lo hi (blank_device n).
Proof.
  intros Hlo Hhi b Hb. exists zero_block. split; [apply blank_block; lia|]. apply length_replicate.
Qed.

Lemma blank_da_inv this n :
  da_wf this -> 0 <= da_start this -> da_start this + disk_array_nr_block this <= n -> da_inv this (blank_device n).
Proof. intros Hwf H0 Hn. by apply (bm_mapped_da_inv 0 n); [apply blank_mapped|apply blank_ok| | |]. Qed.

Lemma blank_da_entry this n i :
  da_wf this -> 0 <= da_start this -> da_start this + disk_array_nr_block this <= n -> 0 <= i < da_nr_entry this ->
  da_entry this (blank_device n) i = Some (replicate (Z.to_nat (da_entry_size this)) Byte.x00).
Proof.
  intros Hwf H0 Hn Hi. pose proof (da_owns_entry this i Hwf Hi) as Ho. rewrite /da_owns in Ho.
  rewrite /da_entry blank_block; [|lia]. cbn [mbind option_bind]. f_equal.
  pose proof (da_offset_bound this i Hwf ltac:(lia)) as Hb. destruct Hwf. apply slice_replicate. lia.
Qed.

(** ** Disk arrays *)

(** An array on disk behaves as an array: after [disk_array_set] at an
    index in range, [disk_array_get] returns the new entry there and the old
    one everywhere else, no block outside the array changes, and an index out
    of range is refused with [EINVAL] without any effect. *)
Theorem disk_array_set_get this bm i e :
  da_inv this bm -> length e = Z.to_nat (da_entry_size this) ->
  (0 <= i < da_nr_entry this ->
    exists bm', disk_array_set this i e bm = (Ok tt, bm') /\ da_inv this bm' /\ da_frame this bm bm' /\
      forall j, 0 <= j < da_nr_entry this ->
        (disk_array_get this j bm').1 = if decide (j = i) then Ok e else (disk_array_get this j bm).1) /\
  (~ 0 <= i < da_nr_entry this ->
    disk_array_set this i e bm = (Err EINVAL, bm) /\ disk_array_get this i bm = (Err EINVAL, bm)).
Proof.
  intros Hinv Hl. split; intros Hi.
  - destruct (disk_array_set_ok this bm i e Hinv Hi Hl) as (bm' & Hrun & Hinv' & Hfr & Hent).
    exists bm'. do 3 (split; [done|]). intros j Hj.
    destruct (da_entry_is_some this bm j Hinv Hj) as [x Hx]. specialize (Hent j Hj).
    rewrite (disk_array_get_ok this bm j x Hinv Hj Hx). case_decide.
    + by rewrite (disk_array_get_ok this bm' j e Hinv' Hj Hent).
    + rewrite Hx in Hent. by rewrite (disk_array_get_ok this bm' j x Hinv' Hj Hent).
  - split; [by apply disk_array_set_oob|by apply disk_array_get_oob].
Qed.

Definition sample_array : disk_array := disk_array_create 1 600 8.

Lemma sample_array_inv : da_inv sample_array (blank_device 3).
Proof. apply blank_da_inv; [apply disk_array_create_wf; done|done|vm_compute; congruence]. Qed.

Lemma disk_array_set_get_witness :
  exists bm', disk_array_set sample_array 513 (cenc c_u64 77) (blank_device 3) = (Ok tt, bm') /\
    (disk_array_get sample_array 513 bm').1 = Ok (cenc c_u64 77) /\
    (disk_array_get sample_array 512 bm').1 = (disk_array_get sample_array 512 (blank_device 3)).1.
Proof.
  destruct (disk_array_set_get sample_array (blank_device 3) 513 (cenc c_u64 77) sample_array_inv eq_refl) as [H1 _].
  destruct H1 as (bm' & Hrun & _ & _ & Hget); [split; vm_compute; congruence|].
  exists bm'. split; [exact Hrun|]. split.
  - rewrite Hget; [reflexivity|split; vm_compute; congruence].
  - rewrite Hget; [reflexivity|split; vm_compute; congruence].
Defined.

(** ** Bit sets *)
Inductive bitset_op : Type := BitSet (i : Z) | BitClear (i : Z).
Definition bitset_run (this : disk_bitset) (o : bitset_op) : SE dm_block_manager unit :=
  match o with BitSet i => disk_bitset_set this i | BitClear i => disk_bitset_clear this i end.
(** The same on a list of flags. *)
Definition flags_step (l : list bool) (o : bitset_op) : list bool :=
  match o with
  | BitSet i => if decide (0 <= i) then <[Z.to_nat i := true]> l else l
  | BitClear i => if decide (0 <= i) then <[Z.to_nat i := false]> l else l
  end.
Definition bitset_steps (this : disk_bitset) (os : list bitset_op) (bm : dm_block_manager) : dm_block_manager :=
  foldl (fun bm o => (bitset_run this o bm).2) bm os.

Lemma bitset_run_ok this o bm :
  db_inv this bm ->
  db_inv this (bitset_run this o bm).2 /\
  db_bits this (bitset_run this o bm).2 = flags_step (db_bits this bm) o.
Proof.
  intros Hi. assert (forall i b, db_inv this (__disk_bitset_operate this i b bm).2 /\
    db_bits this (__disk_bitset_operate this i b bm).2 =
      if decide (0 <= i) then <[Z.to_nat i := b]> (db_bits this bm) else db_bits this bm) as Hone.
  { intros i b. destruct (decide (0 <= i < db_nr_bit this)) as [Hr|Hr].
    - rewrite decide_True; [|lia].
      by destruct (disk_bitset_operate_ok this bm i b Hi Hr) as (bm' & -> & Hi' & _ & Hb).
    - rewrite disk_bitset_operate_oob //. split; [done|]. case_decide; [|done].
      rewrite list_insert_ge //. rewrite length_db_bits. lia. }
  destruct o as [i|i]; apply Hone.
Qed.

Lemma bitset_steps_ok this os bm :
  db_inv this bm ->
  db_inv this (bitset_steps this os bm) /\ db_bits this (bitset_steps this os bm) = foldl flags_step (db_bits this bm) os.
Proof.
  revert bm. induction os as [|o os IH] => bm Hi; [done|]. destruct (bitset_run_ok this o bm Hi) as [Hi' Hb].
  destruct (IH _ Hi') as [Hi2 Hb2]. split; [done|]. cbn [bitset_steps foldl]. rewrite -Hb. exact Hb2.
Qed.

(** C20: a bit set on disk refines a list of flags: after any sequence of
    [disk_bitset_set] and [disk_bitset_clear], whatever the indices,
    [disk_bitset_get] of a bit in range returns the flag the list has. *)
Theorem disk_bitset_refines_flags this bm os i :
  db_inv this bm -> 0 <= i < db_nr_bit this ->
  exists b, foldl flags_step (db_bits this bm) os !! Z.to_nat i = Some b /\
    disk_bitset_get this i (bitset_steps this os bm) = (Ok b, bitset_steps this os bm).
Proof.
  intros Hinv Hi. destruct (bitset_steps_ok this os bm Hinv) as [Hinv' Hb]. rewrite -Hb.
  exists (db_bit this (bitset_steps this os bm) i). split; [by apply db_bits_lookup|].
  apply disk_bitset_get_ok; [done|lia|by apply db_bits_lookup].
Qed.

Definition sample_bitset : disk_bitset := disk_bitset_create 1 100.

Lemma sample_bitset_inv : db_inv sample_bitset (blank_device 3).
Proof.
  split; [by apply disk_bitset_create_wf|]. apply blank_da_inv; [by apply disk_bitset_create_wf|done|vm_compute; congruence].
Qed.

Lemma disk_bitset_refines_flags_witness :
  disk_bitset_get sample_bitset 70 (bitset_steps sample_bitset [BitSet 70; BitSet 71; BitClear 71; BitSet 200] (blank_device 3))
  = (Ok true, bitset_steps sample_bitset [BitSet 70; BitSet 71; BitClear 71; BitSet 200] (blank_device 3)).
Proof.
  destruct (disk_bitset_refines_flags sample_bitset (blank_device 3) [BitSet 70; BitSet 71; BitClear 71; BitSet 200] 70
    sample_bitset_inv) as (b & Hb & Hget); [split; vm_compute; congruence|].
  rewrite Hget. vm_compute in Hb. injection Hb as <-. reflexivity.
Defined.

(** ** The segment validator as an allocator *)
Section allocator.
Context {T S : Type} `{BitTableOk T S}.
Local Open Scope se_scope.

(** [n] allocations in a row. *)
Fixpoint alloc_many (n : nat) : SE (sv_state T S) (list Z) :=
  match n with
  | O => se_ret []
  | Datatypes.S n =>
      seg <- seg_validator_alloc ;;
      segs <- alloc_many n ;;
      se_ret (seg :: segs)
  end.

Definition nr_free (st : sv_state T S) : Z := sv_nr_segment st.1 - count_true (sv_bits st).

Lemma alloc_one st :
  sv_inv st -> 0 < nr_free st ->
  exists seg st', seg_validator_alloc st = (Ok seg, st') /\ sv_inv st' /\ 0 <= seg < sv_nr_segment st.1 /\
    sv_nr_segment st'.1 = sv_nr_segment st.1 /\
    sv_bits st !! Z.to_nat seg = Some false /\ sv_bits st' = <[Z.to_nat seg := true]> (sv_bits st).
Proof.
  destruct st as [v s]. intros Hinv Hfree. pose proof (seg_validator_alloc_spec v s Hinv) as Ha.
  destruct (seg_validator_alloc (v, s)) as [[seg|e] st'].
  - destruct Ha as (Hr & Hf & Hb & Hi & _ & Hn & _). by exists seg, st'.
  - exfalso. destruct Ha as (_ & Hall & _). apply count_true_all in Hall. destruct Hinv as (_ & Hl & _).
    rewrite /nr_free in Hfree. cbn [fst] in *. lia.
Qed.

Lemma alloc_full st : sv_inv st -> nr_free st = 0 -> (seg_validator_alloc st).1 = Err ENODATA.
Proof.
  destruct st as [v s]. intros Hinv Hfree. pose proof (seg_validator_alloc_spec v s Hinv) as Ha.
  destruct (seg_validator_alloc (v, s)) as [[seg|e] st'].
  - exfalso. destruct Ha as (_ & Hf & _). destruct Hinv as (_ & Hl & _). rewrite /nr_free in Hfree. cbn [fst] in *.
    assert (count_true (sv_bits (v, s)) = Z.of_nat (length (sv_bits (v, s)))) as Hall by lia.
    apply count_true_all in Hall. rewrite Forall_lookup in Hall. specialize (Hall _ _ Hf). done.
  - by destruct Ha as [-> _].
Qed.

(** Successive allocations hand out distinct slots, each of which was free,
    as long as free slots remain, and mark exactly those; the allocation after
    the last free slot fails with [ENODATA]. *)
Theorem seg_validator_alloc_distinct n st :
  sv_inv st -> Z.of_nat n <= nr_free st ->
  exists segs st', alloc_many n st = (Ok segs, st') /\ length segs = n /\ NoDup segs /\
    (forall seg, seg ∈ segs -> 0 <= seg < sv_nr_segment st.1 /\ sv_bits st !! Z.to_nat seg = Some false) /\
    (forall seg, 0 <= seg < sv_nr_segment st.1 ->
       sv_bits st' !! Z.to_nat seg = if decide (seg ∈ segs) then Some true else sv_bits st !! Z.to_nat seg) /\
    (Z.of_nat n = nr_free st -> (seg_validator_alloc st').1 = Err ENODATA).
Proof.
  revert st. induction n as [|n IH] => st Hinv Hn.
  { exists [], st. split; [done|]. split; [done|]. split; [constructor|]. split; [set_solver|].
    split; [intros x _; case_decide; [set_solver|done]|]. intros Hz. by apply alloc_full. }
  destruct (alloc_one st Hinv ltac:(lia)) as (seg & st1 & Hrun & Hinv1 & Hr & Hnr & Hfree & Hb).
  assert (nr_free st1 = nr_free st - 1) as Hf1.
  { rewrite /nr_free Hnr Hb (count_true_insert _ _ false) //. lia. }
  destruct (IH st1 Hinv1 ltac:(lia)) as (segs & st' & Hrun' & Hl & Hnd & Hwas & Hbits & Hlast).
  pose proof (lookup_lt_Some _ _ _ Hfree) as Hlen.
  exists (seg :: segs), st'. split; [by rewrite /= /se_bind Hrun Hrun'|]. split; [by rewrite /= Hl|].
  assert (seg ∉ segs) as Hnot.
  { intros Hin. apply Hwas in Hin as [_ Hin]. by rewrite Hb list_lookup_insert_eq in Hin. }
  split; [by constructor|]. split; [|split].
  - intros x [->|Hin]%elem_of_cons; [done|]. destruct (Hwas x Hin) as [Hx Hxf]. rewrite Hnr in Hx. split; [done|].
    rewrite Hb list_lookup_insert_ne in Hxf; [done|]. intros He. apply Hnot.
    replace seg with x; [done|lia].
  - intros x Hx. rewrite Hbits; [|by rewrite Hnr]. rewrite Hb.
    destruct (decide (x ∈ segs)); [case_decide; [done|set_solver]|].
    destruct (decide (x = seg)) as [->|Hne].
    + rewrite list_lookup_insert_eq //. case_decide; [done|set_solver].
    + rewrite list_lookup_insert_ne; [|lia]. case_decide; [set_solver|done].
  - intros He. apply Hlast. lia.
Qed.
End allocator.

Definition sample_validator : sv_state disk_bitset dm_block_manager := (seg_validator_create 1 5, blank_device 3).

Lemma sample_validator_inv : sv_inv sample_validator.
Proof.
  split; [|split; [|done]].
  - split; [by apply disk_bitset_create_wf|]. apply blank_da_inv; [by apply disk_bitset_create_wf|done|vm_compute; congruence].
  - vm_compute. reflexivity.
Qed.

Lemma seg_validator_alloc_distinct_witness :
  exists segs st', alloc_many 5 sample_validator = (Ok segs, st') /\ NoDup segs /\
    (seg_validator_alloc st').1 = Err ENODATA.
Proof.
  destruct (seg_validator_alloc_distinct 5 sample_validator sample_validator_inv) as (segs & st' & H1 & _ & H2 & _ & _ & H3).
  - vm_compute. congruence.
  - exists segs, st'. split; [exact H1|]. split; [exact H2|]. apply H3. vm_compute. reflexivity.
Defined.

(** ** Data segment table *)

(** A segment whose victim was taken off the tree stays off it until one of
    its blocks is taken or returned, or it is taken as a whole. *)
Definition refreshed {A} (r : result A) (seg : Z) (popped : gset Z) : gset Z :=
  match r with Ok _ => popped ∖ {[seg]} | Err _ => popped end.

(** The ways the allocator and the data path use the table: whole segments
    are taken, a block is taken when it is free and returned when it is valid
    (or the call is refused), victims are removed and popped.  [popped] keeps
    account of the segments whose victim was removed. *)
Inductive dst_use : dst_state * gset Z -> dst_state * gset Z -> Prop :=
| Use_take_segment seg r st st' popped :
    0 <= seg < dst_nr_segment st.1 -> dst_take_segment seg st = (r, st') -> dst_use (st, popped) (st', refreshed r seg popped)
| Use_take_block blk e r st st' popped :
    0 <= __block_to_segment blk < dst_nr_segment st.1 ->
    dst_entry_at st (__block_to_segment blk) = Some e ->
    de_block_validity_table e !! Z.to_nat (__block_offset_whthin_segment blk) = Some false \/
      de_nr_valid_block e = BLOCKS_PER_SEGMENT ->
    dst_take_block blk st = (r, st') -> dst_use (st, popped) (st', refreshed r (__block_to_segment blk) popped)
| Use_return_block blk e r st st' popped :
    0 <= __block_to_segment blk < dst_nr_segment st.1 ->
    dst_entry_at st (__block_to_segment blk) = Some e ->
    de_block_validity_table e !! Z.to_nat (__block_offset_whthin_segment blk) = Some true \/
      de_nr_valid_block e = 0 ->
    dst_return_block blk st = (r, st') -> dst_use (st, popped) (st', refreshed r (__block_to_segment blk) popped)
| Use_remove_victim seg r st st' popped :
    0 <= seg < dst_nr_segment st.1 -> dst_remove_victim seg st = (r, st') -> dst_use (st, popped) (st', {[seg]} ∪ popped)
| Use_pop_victim v r st st' popped :
    dst_peek_victim st.1 = Some v -> dst_pop_victim st = (r, st') -> dst_use (st, popped) (st', {[vi_segno v]} ∪ popped)
| Use_pop_none r st st' popped : dst_peek_victim st.1 = None -> dst_pop_victim st = (r, st') -> dst_use (st, popped) (st', popped).

(** The victims are exactly the segments with free blocks, but for the popped
    ones; each describes its segment as it is on disk. *)
Definition victims_but (popped : gset Z) (st : dst_state) : Prop :=
  forall v, v ∈ dst_victims st.1 <->
    0 <= vi_segno v < dst_nr_segment st.1 /\ vi_nr_valid_block v < BLOCKS_PER_SEGMENT /\
    dst_entry_at st (vi_segno v) = Some (victim_entry v) /\ vi_segno v ∉ popped.
Definition dst_tracked (u : dst_state * gset Z) : Prop := dst_inv u.1 /\ victims_but u.2 u.1.

Lemma victims_but_step st st' seg popped : dst_step seg st st' -> victims_but popped st ->
  forall v, vi_segno v <> seg -> v ∈ dst_victims st.1 <->
    0 <= vi_segno v < dst_nr_segment st'.1 /\ vi_nr_valid_block v < BLOCKS_PER_SEGMENT /\
    dst_entry_at st' (vi_segno v) = Some (victim_entry v) /\ vi_segno v ∉ popped.
Proof.
  intros (_ & Hn & _ & _ & Hsame) Hv v Hne. rewrite Hn Hv. split; intros (Hr & Hlt & He & Hp); (split; [done|]; split; [done|]; split; [|done]).
  - by rewrite Hsame.
  - by rewrite -Hsame.
Qed.

(** Writing the entry of a segment refreshes its victim. *)
Lemma victims_but_store st st' seg e popped :
  dst_step seg st st' -> victims_but popped st -> 0 <= seg < dst_nr_segment st.1 -> dst_entry_at st' seg = Some e ->
  (forall v, v ∈ dst_victims st'.1 <-> (v ∈ dst_victims st.1 /\ vi_segno v <> seg) \/
     (de_nr_valid_block e < BLOCKS_PER_SEGMENT /\ v = victim_create seg (de_nr_valid_block e) (de_block_validity_table e))) ->
  victims_but (popped ∖ {[seg]}) st'.
Proof.
  intros Hst Hb Hs He Hv v. rewrite Hv. pose proof Hst as (_ & Hn & _). destruct (decide (vi_segno v = seg)) as [Heq|Hne].
  - rewrite Heq He Hn. split.
    + intros [[_ []]|[Hlt ->]]; [done|]. split; [done|]. split; [done|]. split; [by destruct e|set_solver].
    + intros (_ & Hlt & Hev & _). right. injection Hev as ->. split; [done|]. rewrite -Heq. by destruct v.
  - rewrite (victims_but_step _ _ _ _ Hst Hb v Hne). split; [|intros (?&?&?&?); left; split; [set_solver|done]].
    intros [[(? & ? & ? & ?) _]|[_ ->]]; [set_solver|done].
Qed.

Lemma victims_but_remove st st' seg popped :
  dst_step seg st st' -> victims_but popped st ->
  (forall v, v ∈ dst_victims st'.1 <-> v ∈ dst_victims st.1 /\ vi_segno v <> seg) -> victims_but ({[seg]} ∪ popped) st'.
Proof.
  intros Hst Hb Hv v. rewrite Hv. destruct (decide (vi_segno v = seg)) as [Heq|Hne]; [set_solver|].
  rewrite (victims_but_step _ _ _ _ Hst Hb v Hne). set_solver.
Qed.

Lemma dst_return_block_empty st blk e :
  dst_inv st -> 0 <= __block_to_segment blk < dst_nr_segment st.1 ->
  dst_entry_at st (__block_to_segment blk) = Some e ->
  de_nr_valid_block e = 0 -> dst_return_block blk st = (Err EINVAL, st).
Proof.
  intros Hinv Hs He Hz. destruct (dst_entry_inv st _ Hinv Hs) as (e' & He' & _ & Hget).
  rewrite He in He'. injection He' as <-.
  rewrite /dst_return_block (se_bind_ok _ _ _ _ _ Hget) Hz. done.
Qed.

Lemma dst_remove_tracked seg st r st' popped :
  dst_tracked (st, popped) -> dst_remove_victim seg st = (r, st') -> dst_tracked (st', {[seg]} ∪ popped).
Proof.
  intros [Hi Hb] Hr. destruct (dst_remove_victim_ok st seg Hi) as (o & st2 & Hr' & Hi2 & _ & _ & Hs & Hv).
  rewrite Hr in Hr'. injection Hr' as -> ->. split; [done|]. by eapply victims_but_remove.
Qed.

Lemma dst_use_tracked u u' : dst_tracked u -> dst_use u u' -> dst_tracked u'.
Proof.
  intros Ht Hu. destruct Hu as [seg r st st' p Hs Hr|blk e r st st' p Hs He Hb Hr|blk e r st st' p Hs He Hb Hr|seg r st st' p _ Hr|v r st st' p Hp Hr|r st st' p Hp Hr].
  - destruct Ht as [Hi Hv]. destruct (dst_entry_inv st seg Hi Hs) as (e & He & _ & _). destruct (decide (de_nr_valid_block e = 0)) as [Hz|Hz].
    + destruct (dst_take_segment_ok st seg e Hi Hs He Hz) as (st2 & Hr' & Hi' & Hst & He' & Hv').
      rewrite Hr in Hr'. injection Hr' as -> ->. split; [done|]. eapply victims_but_store; [done..|]. intros v. rewrite Hv'. cbn [de_nr_valid_block full_entry]. naive_solver lia.
    + rewrite (dst_take_segment_busy st seg e Hi Hs He Hz) in Hr. by injection Hr as <- <-.
  - destruct Ht as [Hi Hv]. destruct Hb as [Hb|Hb].
    + destruct (dst_take_block_ok st blk e Hi Hs He Hb) as (st2 & Hr' & Hi' & Hst & He' & Hv').
      rewrite Hr in Hr'. injection Hr' as -> ->. split; [done|]. by eapply victims_but_store.
    + rewrite (dst_take_block_full st blk e Hi Hs He Hb) in Hr. by injection Hr as <- <-.
  - destruct Ht as [Hi Hv]. destruct Hb as [Hb|Hb].
    + destruct (dst_return_block_ok st blk e Hi Hs He Hb) as (st2 & Hr' & Hi' & Hst & He' & Hv').
      rewrite Hr in Hr'. injection Hr' as -> ->. split; [done|]. eapply victims_but_store; [done..|].
      destruct (dst_entry_inv st _ Hi Hs) as (e0 & He0 & Hok & _). rewrite He in He0. injection He0 as <-.
      pose proof (entry_count_bounds _ Hok) as Hbd. intros v. rewrite Hv'.
      assert (de_nr_valid_block (entry_mark (__block_offset_whthin_segment blk) false e) < BLOCKS_PER_SEGMENT) by (simpl; lia). naive_solver.
    + rewrite (dst_return_block_empty st blk e Hi Hs He Hb) in Hr. by injection Hr as <- <-.
  - by eapply dst_remove_tracked.
  - rewrite /dst_pop_victim /se_bind /se_get Hp in Hr. by eapply dst_remove_tracked.
  - rewrite /dst_pop_victim /se_bind /se_get Hp in Hr. by injection Hr as <- <-.
Qed.

(** C18: the victims are right.  Start from a well-formed table whose victims
    are exactly its segments with free blocks, but for those popped (none right
    after loading it), and use it through the calls of the allocator and the
    data path - whole segments taken or refused, blocks taken that are invalid
    and returned that are valid (or refused because the segment is full, or
    empty), victims removed and popped.  Then the counter of every segment stays
    the number of its valid blocks; the victims stay exactly the segments with
    free blocks whose victim was not popped since a block of theirs was last
    taken or returned, each described as it is on disk; and the victim offered
    for cleaning has the fewest valid blocks of all of them. *)
Theorem dst_victim_is_best st popped st' popped' :
  dst_inv st -> victims_but popped st -> rtc dst_use (st, popped) (st', popped') ->
  (forall seg, 0 <= seg < dst_nr_segment st'.1 -> exists e, dst_entry_at st' seg = Some e /\
     de_nr_valid_block e = count_true (de_block_validity_table e)) /\
  victims_but popped' st' /\
  (dst_peek_victim st'.1 = None <-> dst_victims st'.1 = []) /\
  forall v, dst_peek_victim st'.1 = Some v -> v ∈ dst_victims st'.1 /\
    forall x, x ∈ dst_victims st'.1 -> vi_nr_valid_block v <= vi_nr_valid_block x.
Proof.
  intros Hi Hb Hr. assert (forall u u', rtc dst_use u u' -> dst_tracked u -> dst_tracked u') as Hall.
  { induction 1 as [|u1 u2 u3 Hu _ IH]; [done|]. intros Ht. by eapply IH, dst_use_tracked. }
  destruct (Hall _ _ Hr ltac:(by split)) as [Hi' Hb']. cbn [fst snd] in Hi', Hb'. pose proof Hi' as (_ & _ & Hent & _). split; [|split; [done|split]].
  - intros seg Hs. destruct (Hent seg Hs) as (e & He & _ & Hc). by exists e.
  - rewrite /dst_peek_victim /rb_first. by destruct (dst_victims st'.1).
  - intros v Hp. split; [|intros x Hx; by eapply dst_peek_victim_first].
    rewrite /dst_peek_victim /rb_first in Hp. destruct (dst_victims st'.1); [done|]. injection Hp as ->. left.
Qed.

Definition sample_dst : dst_state := (dst_blank 1 3, blank_device 3).

Lemma sample_dst_inv : dst_inv sample_dst.
Proof.
  assert (da_wf (dst_array (dst_blank 1 3))) as Hwf by (apply disk_array_create_wf; done).
  split; [done|]. split; [apply blank_da_inv; [done|done|vm_compute; congruence]|]. split; [|apply victims_ok_nil].
  intros s Hs. exists empty_entry. split; [|split; [apply length_replicate|reflexivity]].
  rewrite /dst_entry_at. cbn [fst snd sample_dst]. rewrite blank_da_entry; [|done|done|vm_compute; congruence|exact Hs].
  reflexivity.
Qed.

(** All three segments are free, and none is a victim yet. *)
Lemma sample_dst_popped : victims_but {[0; 1; 2]} sample_dst.
Proof.
  intros v. cbn. split; [intros Hin; by apply not_elem_of_nil in Hin|]. intros (Hs & _ & _ & Hp).
  assert (vi_segno v = 0 \/ vi_segno v = 1 \/ vi_segno v = 2) as Hc by lia. set_solver.
Qed.

(** Segment 1 is taken, then its block 5 returned: a victim with 1023 blocks. *)
Lemma sample_dst_use : exists st2, rtc dst_use (sample_dst, {[0; 1; 2]}) (st2, ({[0; 1; 2]} ∖ {[1]}) ∖ {[1]}) /\
  exists v, dst_peek_victim st2.1 = Some v /\ vi_segno v = 1 /\ vi_nr_valid_block v = 1023.
Proof.
  destruct (dst_entry_inv sample_dst 1 sample_dst_inv ltac:(cbn; lia)) as (e & He & _ & _).
  assert (e = empty_entry) as ->.
  { rewrite /dst_entry_at in He. cbn [fst snd sample_dst] in He. rewrite blank_da_entry in He; [|done|done|vm_compute; congruence|cbn; lia]. by injection He as <-. }
  destruct (dst_take_segment_ok sample_dst 1 empty_entry sample_dst_inv ltac:(cbn; lia) He eq_refl) as (st1 & H1 & Hi1 & Hs1 & He1 & Hv1).
  destruct Hs1 as (_ & Hn1 & _). assert (__block_to_segment 1029 = 1) as Hb by reflexivity. assert (0 <= 1 < dst_nr_segment st1.1) as Hr by (rewrite Hn1; cbn; lia).
  assert (de_block_validity_table full_entry !! Z.to_nat (__block_offset_whthin_segment 1029) = Some true) as Hbit by (vm_compute; reflexivity).
  destruct (dst_return_block_ok st1 1029 full_entry Hi1 Hr He1 Hbit) as (st2 & H2 & Hi2 & _ & _ & Hv2).
  exists st2. split.
  - eapply rtc_l; [exact (Use_take_segment 1 (Ok tt) sample_dst st1 _ ltac:(cbn; lia) H1)|].
    eapply rtc_l; [exact (Use_return_block 1029 full_entry (Ok tt) st1 st2 _ Hr He1 (or_introl Hbit) H2)|]. apply rtc_refl.
  - assert (forall x, x ∈ dst_victims st2.1 -> x = victim_create 1 1023 (de_block_validity_table (entry_mark (__block_offset_whthin_segment 1029) false full_entry))) as Honly.
    { intros x [[Hx _]| ->]%Hv2; [|done]. apply Hv1 in Hx as [Hx _]. by apply not_elem_of_nil in Hx. }
    rewrite /dst_peek_victim /rb_first. destruct (dst_victims st2.1) as [|v l].
    + exfalso. pose proof (proj2 (Hv2 _) (or_intror eq_refl)) as Hin. by apply not_elem_of_nil in Hin.
    + exists v. split; [done|]. by rewrite (Honly v ltac:(left)).
Qed.

Lemma dst_victim_is_best_witness :
  exists st' v, dst_peek_victim st'.1 = Some v /\ vi_segno v = 1 /\ vi_nr_valid_block v = 1023 /\ v ∈ dst_victims st'.1 /\ victims_but {[0; 2]} st'.
Proof.
  destruct sample_dst_use as (st2 & Hr & v & Hp & Hs & Hn).
  destruct (dst_victim_is_best sample_dst {[0; 1; 2]} st2 _ sample_dst_inv sample_dst_popped Hr) as (_ & Hb & _ & Hf).
  exists st2, v. split; [exact Hp|]. split; [exact Hs|]. split; [exact Hn|]. split; [exact (proj1 (Hf v Hp))|].
  assert (({[0; 1; 2]} ∖ {[1]}) ∖ {[1]} = ({[0; 2]} : gset Z)) as <- by (apply (bool_decide_unpack _); vm_compute; exact I). exact Hb.
Defined.

(** C19: the table survives a restart: [dst_init] on the blocks a running table
    left finds every entry unchanged, and its victims are exactly the segments
    with fewer than 1024 valid blocks. *)
Theorem dst_reload st :
  dst_inv st ->
  exists st', dst_init (dst_start st.1) (dst_nr_segment st.1) st = (Ok tt, st') /\ st'.2 = st.2 /\ dst_inv st' /\
    (forall seg, dst_entry_at st' seg = dst_entry_at st seg) /\
    (forall v, v ∈ dst_victims st'.1 <->
       0 <= vi_segno v < dst_nr_segment st.1 /\ vi_nr_valid_block v < BLOCKS_PER_SEGMENT /\
       dst_entry_at st (vi_segno v) = Some (victim_entry v)).
Proof.
  intros (Hwf & Hda & Hent & _). destruct Hwf as [Hnr Harr].
  assert (dst_array (dst_blank (dst_start st.1) (dst_nr_segment st.1)) = dst_array st.1) as Heq by (by rewrite Harr).
  assert (forall seg, dst_entry_at (dst_blank (dst_start st.1) (dst_nr_segment st.1), st.2) seg = dst_entry_at st seg) as Hsame.
  { intros seg. rewrite /dst_entry_at. cbn [fst snd]. by rewrite Heq. }
  destruct (dst_init_ok st (dst_start st.1) (dst_nr_segment st.1) Hnr) as (st' & Hrun & Hi & Hbm & Hst & Hn & Hv).
  { by rewrite Heq. }
  { intros s Hs. rewrite Hsame. by apply Hent. }
  exists st'. split; [done|]. split; [done|]. split; [done|]. split.
  - intros seg. rewrite /dst_entry_at Hbm. destruct Hi as ([_ Ha] & _). by rewrite Ha Hst Hn Harr.
  - intros v. by rewrite Hv Hsame.
Qed.

Lemma dst_reload_witness :
  exists st', dst_init 1 3 sample_dst = (Ok tt, st') /\
    (forall v, v ∈ dst_victims st'.1 <->
       0 <= vi_segno v < 3 /\ vi_nr_valid_block v < BLOCKS_PER_SEGMENT /\
       dst_entry_at sample_dst (vi_segno v) = Some (victim_entry v)).
Proof.
  destruct (dst_reload sample_dst sample_dst_inv) as (st' & H1 & _ & _ & _ & H2). exists st'. split; [exact H1|exact H2].
Defined.

(** ** Reverse index table *)

(** The reverse index remembers the logical block of every physical block:
    after [reverse_index_table_set], [reverse_index_table_get] returns the new
    entry there and the old ones elsewhere; a physical block out of range is
    refused with [EINVAL]. *)
Theorem reverse_index_set_get this bm pba lba :
  da_inv (rit_array this) bm -> da_entry_size (rit_array this) = 8 -> 0 <= lba < 2 ^ 64 ->
  (0 <= pba < da_nr_entry (rit_array this) ->
    exists bm', reverse_index_table_set this pba lba bm = (Ok tt, bm') /\ da_inv (rit_array this) bm' /\
      forall p, 0 <= p < da_nr_entry (rit_array this) ->
        (reverse_index_table_get this p bm').1 =
          if decide (p = pba) then Ok lba else (reverse_index_table_get this p bm).1) /\
  (~ 0 <= pba < da_nr_entry (rit_array this) -> reverse_index_table_set this pba lba bm = (Err EINVAL, bm)).
Proof.
  intros Hinv Hsz Hlba. split; intros Hp; [|by apply disk_array_set_oob].
  destruct (disk_array_set_ok (rit_array this) bm pba (cenc c_u64 lba) Hinv Hp) as (bm' & Hrun & Hinv' & _ & Hent).
  { rewrite Hsz. done. }
  exists bm'. split; [done|]. split; [done|]. intros p Hr. specialize (Hent p Hr).
  destruct (da_entry_is_some _ bm p Hinv Hr) as [x Hx].
  rewrite /reverse_index_table_get /se_bind /__reverse_index_table_get_entry (disk_array_get_ok _ _ _ _ Hinv Hr Hx).
  case_decide as Hd.
  - rewrite (disk_array_get_ok _ _ _ _ Hinv' Hr Hent). cbn [se_ret fst]. by rewrite cdec_enc.
  - rewrite Hx in Hent. by rewrite (disk_array_get_ok _ _ _ _ Hinv' Hr Hent).
Qed.

Definition sample_rit : reverse_index_table := reverse_index_table_create 1 600.

Lemma reverse_index_set_get_witness :
  exists bm', reverse_index_table_set sample_rit 599 12345 (blank_device 3) = (Ok tt, bm') /\
    (reverse_index_table_get sample_rit 599 bm').1 = Ok 12345.
Proof.
  destruct (reverse_index_set_get sample_rit (blank_device 3) 599 12345 sample_array_inv eq_refl) as [H1 _].
  { split; vm_compute; congruence. }
  destruct H1 as (bm' & Hrun & _ & Hget); [split; vm_compute; congruence|].
  exists bm'. split; [exact Hrun|]. rewrite Hget; [reflexivity|split; vm_compute; congruence].
Defined.

(** ** Read-only managers *)

(** A block manager that was switched to read-only ([dm_bm_set_read_only])
    refuses every table update with [EPERM] before anything is changed, and
    reading is unaffected. *)
Theorem read_only_tables this bm i e :
  da_inv this bm -> 0 <= i < da_nr_entry this ->
  let ro := dm_bm_set_read_only bm in
  disk_array_set this i e ro = (Err EPERM, ro) /\
  (forall v, disk_array_format this v ro = (Err EPERM, ro)) /\
  dm_bm_flush ro = (Err EPERM, ro) /\
  disk_array_get this i ro = ((disk_array_get this i bm).1, ro).
Proof.
  intros Hinv Hi ro. pose proof Hinv as (Hwf & [Hro Hv] & Hm).
  destruct (Hm _ (da_owns_entry this i Hwf Hi)) as (d & Hd & _). split; [|split; [|split]].
  - rewrite /disk_array_set. do 2 ztest. reflexivity.
  - intros v. rewrite /disk_array_format. pose proof (da_owns_entry this i Hwf Hi) as Ho. rewrite /da_owns in Ho.
    destruct (Z.to_nat (disk_array_nr_block this)) as [|n] eqn:En; [lia|]. cbn [disk_array_format_loop].
    rewrite (proj2 (Z.leb_gt (disk_array_nr_block this * SWORNDISK_METADATA_BLOCK_SIZE) 0)); [reflexivity|].
    rewrite /SWORNDISK_METADATA_BLOCK_SIZE. lia.
  - reflexivity.
  - rewrite /disk_array_get. do 2 ztest. cbn [orb].
    rewrite /se_bind /se_map_err /dm_bm_read_lock /dm_bufio_read /dm_bm_validate_buffer. cbn [ro dm_bm_set_read_only bufio aux_validator].
    rewrite /bm_block in Hd. rewrite Hd Hv lookup_empty. cbn [dm_block_data dm_block_location fst]. by rewrite Hd.
Qed.

Lemma read_only_tables_witness :
  disk_array_set sample_array 0 (cenc c_u64 1) (dm_bm_set_read_only (blank_device 3)) =
    (Err EPERM, dm_bm_set_read_only (blank_device 3)).
Proof.
  apply (read_only_tables sample_array (blank_device 3) 0 (cenc c_u64 1) sample_array_inv). split; vm_compute; congruence.
Defined.

(** ** Superblock *)
Section superblock_restart.
Context (crc32c : Z -> list byte -> Z).
Hypothesis crc32c_u32 : forall seed l, 0 <= crc32c seed l < 2 ^ 32.

(** The superblock round-trips: what [superblock_write] stores is read
    back field by field and validates, so opening the device again finds it and
    does not ask for formatting. *)
Theorem superblock_write_read bm d s n :
  bm_ok bm -> bufio_write_error (bufio bm) = 0 -> bm_block bm SUPERBLOCK_LOCATION = Some d ->
  length d = Z.to_nat SWORNDISK_METADATA_BLOCK_SIZE -> cwf superblock_tail s -> magic s = SUPERBLOCK_MAGIC ->
  exists bm', superblock_write crc32c s bm = (Ok tt, bm') /\ bufio_dirty (bufio bm') = ∅ /\
    superblock_init crc32c n bm' = (Ok (sb_with_csum (superblock_csum crc32c s) s, false), bm').
Proof.
  intros Hok Hwe Hd Hl Hwf Hm.
  destruct (superblock_write_ok crc32c crc32c_u32 bm d s) as (bm' & Hrun & _ & Hrd & _ & Hdirty); [done|done|done| |done|].
  { rewrite Hl. by apply Nat.leb_le. }
  exists bm'. split; [done|]. split; [done|]. rewrite /superblock_init /se_bind Hrd /superblock_validate.
  rewrite superblock_csum_with_csum. change (magic (sb_with_csum _ s)) with (magic s).
  change (csum (sb_with_csum (superblock_csum crc32c s) s)) with (superblock_csum crc32c s).
  by rewrite Hm !Z.eqb_refl.
Qed.

(** C28: opening a device that holds no valid superblock formats it: the
    regions are laid out one after the other, and every table starts empty -
    no segment taken, no block valid, no reverse mapping, no index file.  Only
    the version counter is still the one derived from the blocks found there. *)
Theorem metadata_init_fresh bm n :
  bm_ok bm -> bufio_write_error (bufio bm) = 0 -> 0 < n <= 2 ^ 32 -> sb_unformatted crc32c bm ->
  bm_mapped 0 (md_limit (superblock_defaults n 0)) bm ->
  exists md bm' c, metadata_init crc32c n bm = (Ok md, bm') /\ md_layout (superblock_defaults n c) /\
    md_describes (superblock_defaults n c) md /\ md_fresh (superblock_defaults n c) (md, bm') /\
    bc_max_version (md_bit_catalogue md) = loaded_version (superblock_defaults n 0) bm.
Proof.
  intros Hok Hwe Hn Hu Hm.
  destruct (metadata_init_fresh_ok crc32c crc32c_u32 bm n Hok Hwe Hn Hu Hm) as (md & bm' & c & H1 & H2 & H3 & H4 & _).
  exists md, bm', c. split; [done|]. split; [by apply default_layout_ok|done].
Qed.
End superblock_restart.

Definition sample_crc (seed : Z) (l : list byte) : Z := u32 (foldl (fun a b => 31 * a + byte_Z b) seed l).
Lemma sample_crc_u32 seed l : 0 <= sample_crc seed l < 2 ^ 32.
Proof. apply u32_range. Qed.

Lemma superblock_write_read_witness :
  exists bm', superblock_write sample_crc (superblock_defaults 4 0) (blank_device 1) = (Ok tt, bm') /\
    superblock_init sample_crc 9 bm' =
      (Ok (sb_with_csum (superblock_csum sample_crc (superblock_defaults 4 0)) (superblock_defaults 4 0), false), bm').
Proof.
  destruct (superblock_write_read sample_crc sample_crc_u32 (blank_device 1) zero_block (superblock_defaults 4 0) 9)
    as (bm' & H1 & _ & H2).
  - apply blank_ok.
  - reflexivity.
  - apply blank_block. split; vm_compute; congruence.
  - apply length_replicate.
  - apply default_cwf. split; vm_compute; congruence.
  - reflexivity.
  - exists bm'. split; [exact H1|exact H2].
Defined.

Lemma metadata_init_fresh_witness :
  exists md bm' c, metadata_init sample_crc 1 (blank_device (md_limit (superblock_defaults 1 0))) = (Ok md, bm') /\
    md_fresh (superblock_defaults 1 c) (md, bm').
Proof.
  destruct (metadata_init_fresh sample_crc sample_crc_u32 (blank_device (md_limit (superblock_defaults 1 0))) 1)
    as (md & bm' & c & H1 & _ & _ & H2 & _).
  - apply blank_ok.
  - reflexivity.
  - split; vm_compute; congruence.
  - exists zero_block. split; [apply blank_block; split; vm_compute; congruence|].
    split; [apply length_replicate|vm_compute; reflexivity].
  - apply blank_mapped; [reflexivity|reflexivity].
  - exists md, bm', c. split; [exact H1|exact H2].
Defined.
