(* ===== verification/CatalogueIface.v ===== *)
(** * The BIT catalogue keeps the promises of [struct lsm_catalogue]

    The function pointers [bit_catalogue_init] installs are those of
    [Catalogue]; with them the catalogue on the metadata device is an instance
    of the interface the LSM tree is verified against. *)
From S2P Require Import Prelude Codec BlockManager DiskStructs Crypto BitNode Superblock SegValidator Area Bloom Hashtable Catalogue BitFile BitTree Level Compaction.

#[export] Instance bit_catalogue_iface : LsmCatalogue bc_state := {|
  cat_alloc_file := bitc_alloc_file;
  cat_release_file := bitc_release_file;
  cat_set_file_stats := bitc_set_file_stats;
  cat_get_all_file_stats := bitc_get_all_file_stats;
  cat_get_next_version := bitc_get_next_version;
  cat_start := fun st => lc_start st.1;
  cat_file_size := fun st => lc_file_size st.1;
  cat_nr_disk_level := fun st => lc_nr_disk_level st.1;
  cat_common_ratio := fun st => lc_common_ratio st.1;
  cat_max_level_nr_file := fun st => lc_max_level_nr_file st.1;
  cat_inv := fun st => bc_inv st /\ bc_disjoint st.1;
  cat_max_fd := bc_max_fd;
  cat_used := fun st fd => match bc_bits st !! Z.to_nat fd with Some true => true | _ => false end;
  cat_stat := bc_stat;
  cat_version := fun st => bc_max_version st.1
|}.

Section iface.
Implicit Types (st : bc_state).

(** The slots in use after one bit of the table was set or cleared. *)
Lemma used_insert st st' fd b :
  bc_inv st -> 0 <= fd < bc_max_fd st -> bc_bits st' = <[Z.to_nat fd := b]> (bc_bits st) ->
  cat_used st' fd = b /\ forall fd', 0 <= fd' < bc_max_fd st -> fd' <> fd -> cat_used st' fd' = cat_used st fd'.
Proof.
  intros (_ & (_ & Hl & _) & _) Hfd Hb. cbn [fst] in Hl. rewrite /= Hb. split.
  - rewrite list_lookup_insert_eq; [by destruct b|]. rewrite /bc_max_fd in Hfd. rewrite /bc_bits. lia.
  - intros fd' Hfd' Hne. rewrite list_lookup_insert_ne; [done|]. lia.
Qed.

Lemma iface_alloc st : cat_inv st ->
  match cat_alloc_file st with
  | (Ok fd, st') => 0 <= fd < cat_max_fd st /\ cat_used st fd = false /\ cat_inv st' /\ cat_geom st' = cat_geom st /\
      cat_version st' = cat_version st /\ cat_used st' fd = true /\
      (forall fd', 0 <= fd' < cat_max_fd st -> fd' <> fd -> cat_used st' fd' = cat_used st fd') /\
      (forall fd', 0 <= fd' < cat_max_fd st -> cat_stat st' fd' = cat_stat st fd')
  | (Err _, _) => forall fd, 0 <= fd < cat_max_fd st -> cat_used st fd = true
  end.
Proof.
  intros [Hinv Hd]. change (cat_alloc_file st) with (bitc_alloc_file st). rewrite bitc_alloc_file_sv /bc_sv /se_zoom.
  pose proof Hinv as (_ & Hsv & _). pose proof (seg_validator_alloc_spec _ _ Hsv) as Hsp.
  destruct (seg_validator_alloc _) as [[fd|e] [v bm]]; cbn [fst snd] in *.
  - destruct Hsp as (Hr & Hb & Hb' & Hsv' & Hfr). destruct (bc_inv_frame st v bm Hinv Hd Hsv' Hfr) as (Hi & Hdj & Hst).
    destruct (used_insert st (bc_set_validity v st.1, bm) fd true Hinv Hr Hb') as [Hu Hu'].
    split; [exact Hr|]. split; [by rewrite /= /bc_bits Hb|]. split; [done|]. split; [|split; [done|split; [done|split; [done|exact Hst]]]].
    destruct Hfr as (_ & Hn & _). rewrite /cat_geom. cbn [cat_start cat_file_size cat_nr_disk_level cat_common_ratio
      cat_max_level_nr_file cat_max_fd bit_catalogue_iface fst]. rewrite /bc_max_fd. cbn [fst bc_set_validity bc_bit_validity_table]. by rewrite Hn.
  - destruct Hsp as (_ & Hall & _). intros fd Hfd. destruct (sv_bits_is_some _ _ fd Hsv Hfd) as [b Hb].
    rewrite /= /bc_bits Hb. eapply Forall_lookup_1 in Hall; [|exact Hb]. by subst b.
Qed.

Lemma iface_release st fd : cat_inv st -> 0 <= fd < cat_max_fd st ->
  exists st', cat_release_file fd st = (Ok tt, st') /\ cat_inv st' /\ cat_geom st' = cat_geom st /\
    cat_version st' = cat_version st /\ cat_used st' fd = false /\
    (forall fd', 0 <= fd' < cat_max_fd st -> fd' <> fd -> cat_used st' fd' = cat_used st fd') /\
    (forall fd', 0 <= fd' < cat_max_fd st -> cat_stat st' fd' = cat_stat st fd').
Proof.
  intros [Hinv Hd] Hfd. pose proof Hinv as (_ & Hsv & _).
  destruct (seg_validator_test_and_return_spec _ _ fd Hsv Hfd) as (old & [v bm] & Hrun & Ho & Hsv' & Hfr & Hb).
  destruct (bc_inv_frame st v bm Hinv Hd Hsv' Hfr) as (Hi & Hdj & Hst).
  destruct (used_insert st (bc_set_validity v st.1, bm) fd false Hinv Hfd Hb) as [Hu Hu'].
  exists (bc_set_validity v st.1, bm). split.
  { change (bitc_release_file fd st = (Ok tt, (bc_set_validity v st.1, bm))). by rewrite /bitc_release_file /se_bind /bc_sv /se_zoom Hrun. }
  split; [done|]. split; [|split; [done|split; [done|split; [done|exact Hst]]]].
  destruct Hfr as (_ & Hn & _). rewrite /cat_geom. cbn [cat_start cat_file_size cat_nr_disk_level cat_common_ratio
    cat_max_level_nr_file cat_max_fd bit_catalogue_iface fst]. rewrite /bc_max_fd. cbn [fst snd bc_set_validity bc_bit_validity_table] in Hn |- *. by rewrite Hn.
Qed.

#[export] Instance bit_catalogue_ok : LsmCatalogueOk bc_state.
Proof.
  split.
  - apply iface_alloc.
  - apply iface_release.
  - intros st fd s [Hinv Hd] Hfd Hw.
    assert (exists bm, (bitc_set_file_stats fd s st).2 = (st.1, bm)) as [bm Hbm].
    { rewrite /bitc_set_file_stats /bc_bm. destruct (disk_array_set _ _ _ _) as [r bm]. by exists bm. }
    destruct (bitc_set_file_stats_ok st fd s Hinv Hd Hfd Hw) as (st' & Hrun & Hi & Hdj & Hb & Hm & Hst).
    rewrite Hrun /= in Hbm. subst st'. eexists. split; [exact Hrun|]. split; [done|]. split; [done|]. split; [done|]. split; [|exact Hst].
    intros fd' _. by rewrite /= Hb.
  - intros st [Hinv Hd] Hv. eexists. split; [reflexivity|]. cbn [snd fst].
    split; [done|]. split; [done|]. split; [|done]. cbn. rewrite u64_small; [done|]. cbn in Hv. lia.
  - intros st [Hinv Hd]. change (cat_get_all_file_stats st) with (bitc_get_all_file_stats st).
    rewrite (bitc_get_all_file_stats_ok st Hinv). do 3 f_equal. rewrite /bc_live_from.
    assert (0 <= bc_max_fd st).
    { destruct Hinv as (_ & (_ & Hl & _) & _). rewrite /bc_max_fd. cbn [fst] in Hl. lia. }
    rewrite Z2Nat.id //. apply list_omap_ext. apply Forall_Forall2_diag, Forall_true => fd. rewrite /bc_live /=.
    by destruct (bc_bits st !! Z.to_nat fd) as [[]|].
Qed.
End iface.
