(* ===== verification/CatalogueSpec.v ===== *)
(** * The BIT catalogue over time (struct bit_catalogue, source/metadata.c)

    The catalogue as a finite map from slots to file stats, and what a restart
    recovers of the version counter. *)
From S2P Require Import Prelude Codec BlockManager DiskStructs Crypto BitNode Superblock SegValidator Dst Catalogue Metadata TableSpec Area Bloom Hashtable BitFile BitTree Level Compaction CatalogueIface.
Local Open Scope se_scope.

(** ** The slots in use, with their stats *)
Record cat_rep (st : bc_state) (m : gmap Z file_stat) : Prop := {
  cr_inv : cat_inv st;
  cr_dom : forall fd s, m !! fd = Some s -> 0 <= fd < cat_max_fd st;
  cr_used : forall fd, 0 <= fd < cat_max_fd st -> cat_used st fd = bool_decide (is_Some (m !! fd));
  cr_stat : forall fd s, m !! fd = Some s -> cat_stat st fd = Some s
}.

(** A file is created by taking a slot and recording its stats there. *)
Definition bitc_create_file (s : file_stat) : SE bc_state Z :=
  fd <- bitc_alloc_file ;;
  bitc_set_file_stats fd s ;;;
  se_ret fd.

Lemma cat_rep_room st m :
  cat_rep st m -> Z.of_nat (size m) < cat_max_fd st -> exists fd, 0 <= fd < cat_max_fd st /\ cat_used st fd = false.
Proof.
  intros Hr Hs. destruct (decide (Exists (fun fd => cat_used st fd = false) (seqZ 0 (cat_max_fd st)))) as [He|He].
  - apply Exists_exists in He as (fd & Hin & Hu). apply elem_of_seqZ in Hin. exists fd. split; [lia|done].
  - exfalso. assert (seqZ 0 (cat_max_fd st) ⊆+ (map_to_list m).*1) as Hsub.
    { apply NoDup_submseteq; [apply NoDup_seqZ|]. intros fd Hin. pose proof Hin as Hin'. apply elem_of_seqZ in Hin'.
      destruct (cat_used st fd) eqn:Hu; [|exfalso; apply He, Exists_exists; by exists fd].
      rewrite (cr_used _ _ Hr) in Hu; [|lia]. apply bool_decide_eq_true in Hu as [s Hs'].
      apply list_elem_of_fmap. exists (fd, s). split; [done|]. by apply elem_of_map_to_list. }
    apply submseteq_length in Hsub. rewrite length_seqZ length_fmap length_map_to_list in Hsub. lia.
Qed.

Lemma cat_rep_create st m s :
  cat_rep st m -> cwf file_stat_codec s -> Z.of_nat (size m) < cat_max_fd st ->
  exists fd st', bitc_create_file s st = (Ok fd, st') /\ m !! fd = None /\ cat_rep st' (<[fd := s]> m) /\
    cat_max_fd st' = cat_max_fd st.
Proof.
  intros Hr Hs Hsz. pose proof (cat_alloc_ok st (cr_inv _ _ Hr)) as Ha.
  destruct (cat_alloc_file st) as [[fd|e] st1] eqn:Ea.
  - destruct Ha as (Hfd & Hu & Hi1 & Hg1 & _ & Hu1 & Huo & Hst1).
    assert (cat_max_fd st1 = cat_max_fd st) as Hm1 by (by injection Hg1).
    destruct (cat_set_stats_ok st1 fd s Hi1 ltac:(lia) Hs) as (st2 & Hset & Hi2 & Hg2 & _ & Hu2 & Hst2).
    assert (cat_max_fd st2 = cat_max_fd st1) as Hm2 by (by injection Hg2).
    rewrite (cr_used _ _ Hr) // in Hu. apply bool_decide_eq_false in Hu. apply eq_None_not_Some in Hu.
    exists fd, st2. split.
    { rewrite /bitc_create_file /se_bind. cbn [cat_alloc_file bit_catalogue_iface] in Ea. rewrite Ea.
      cbn [cat_set_file_stats bit_catalogue_iface] in Hset. by rewrite Hset. }
    split; [done|]. split; [|lia]. split; [done| | |].
    + intros fd' s' [[<- _]|[_ Hl]]%lookup_insert_Some; [lia|]. rewrite Hm2 Hm1. by eapply cr_dom.
    + intros fd' Hfd'. rewrite Hm2 in Hfd'. rewrite Hu2; [|lia]. rewrite Hm1 in Hfd'.
      destruct (decide (fd' = fd)) as [->|Hne].
      * rewrite Hu1 lookup_insert_eq. done.
      * rewrite Huo // lookup_insert_ne //. by apply (cr_used _ _ Hr).
    + intros fd' s' Hl. assert (0 <= fd' < cat_max_fd st1) as Hin.
      { rewrite Hm1. apply lookup_insert_Some in Hl as [[<- _]|[_ Hl]]; [lia|]. by eapply cr_dom. }
      rewrite Hst2 //. apply lookup_insert_Some in Hl as [[-> ->]|[Hne Hl]]; [by case_decide|].
      case_decide; [congruence|]. rewrite Hst1; [|lia]. by apply (cr_stat _ _ Hr).
  - exfalso. destruct (cat_rep_room st m Hr Hsz) as (fd & Hfd & Hu). rewrite Ha // in Hu.
Qed.

Lemma cat_rep_delete st m fd :
  cat_rep st m -> 0 <= fd < cat_max_fd st ->
  exists st', bitc_release_file fd st = (Ok tt, st') /\ cat_rep st' (delete fd m) /\ cat_max_fd st' = cat_max_fd st.
Proof.
  intros Hr Hfd. destruct (cat_release_ok st fd (cr_inv _ _ Hr) Hfd) as (st' & Hrun & Hi & Hg & _ & Hu & Huo & Hst).
  assert (cat_max_fd st' = cat_max_fd st) as Hm by (by injection Hg).
  exists st'. split; [done|]. split; [|done]. split; [done| | |].
  - intros fd' s [_ Hl]%lookup_delete_Some. rewrite Hm. by eapply cr_dom.
  - intros fd' Hfd'. rewrite Hm in Hfd'. destruct (decide (fd' = fd)) as [->|Hne].
    + rewrite Hu lookup_delete_eq. done.
    + rewrite Huo // lookup_delete_ne //. by apply (cr_used _ _ Hr).
  - intros fd' s [Hne Hl]%lookup_delete_Some. rewrite Hst; [by apply (cr_stat _ _ Hr)|]. by eapply cr_dom.
Qed.

Lemma cat_rep_list st m :
  cat_rep st m -> bitc_get_all_file_stats st = (Ok (omap (fun fd => m !! fd) (seqZ 0 (cat_max_fd st)), 0), st).
Proof.
  intros Hr. pose proof (cat_all_stats_ok st (cr_inv _ _ Hr)) as Ha.
  cbn [cat_get_all_file_stats bit_catalogue_iface] in Ha. rewrite Ha. do 3 f_equal.
  apply list_omap_ext. apply Forall_Forall2_diag, Forall_forall => fd Hin. apply elem_of_seqZ in Hin.
  change (bc_max_fd st) with (cat_max_fd st) in Hin.
  rewrite (cr_used _ _ Hr); [|lia]. case_bool_decide as Hs.
  - destruct Hs as [s Hs]. rewrite Hs. by apply (cr_stat _ _ Hr).
  - by apply eq_None_not_Some in Hs.
Qed.

(** C21: the catalogue on disk implements a finite map of files: creating a file
    takes a slot that was free and adds its stats, which succeeds as long as a
    slot is left; releasing a slot removes it; and the listing that
    [bitc_get_all_file_stats] returns is exactly the stats of the files there
    are, in the order of their slots. *)
Theorem bit_catalogue_refines_map st m :
  cat_rep st m ->
  (forall s, cwf file_stat_codec s -> Z.of_nat (size m) < cat_max_fd st ->
     exists fd st', bitc_create_file s st = (Ok fd, st') /\ m !! fd = None /\ cat_rep st' (<[fd := s]> m) /\
       cat_max_fd st' = cat_max_fd st) /\
  (forall fd, 0 <= fd < cat_max_fd st ->
     exists st', bitc_release_file fd st = (Ok tt, st') /\ cat_rep st' (delete fd m) /\ cat_max_fd st' = cat_max_fd st) /\
  bitc_get_all_file_stats st = (Ok (omap (fun fd => m !! fd) (seqZ 0 (cat_max_fd st)), 0), st).
Proof.
  intros Hr. split; [intros; by apply cat_rep_create|]. split; [intros; by apply cat_rep_delete|by apply cat_rep_list].
Qed.

(** ** The version counter after a restart *)
Lemma version_fold_seq (n : nat) l :
  fs_version <$> l = seqZ 0 (Z.of_nat n) -> Z.of_nat n < 2 ^ 64 ->
  foldl version_step 0 l = Z.of_nat n / 2 * 2.
Proof.
  revert l. induction n as [|n IH] => l Hl Hn.
  { destruct l; [done|]. by rewrite fmap_cons in Hl. }
  rewrite seqZ_S in Hl. destruct l as [|x l _] using rev_ind.
  { rewrite fmap_nil in Hl. by destruct (seqZ 0 (Z.of_nat n)). }
  rewrite fmap_app in Hl. apply app_inj_tail in Hl as [Hl Hx]. rewrite foldl_app. cbn [foldl].
  rewrite (IH l Hl ltac:(lia)) /version_step. cbn [list_fmap fmap] in Hx.
  assert (fs_version x = Z.of_nat n) as -> by lia. rewrite /u64 Z.mod_small; [|lia].
  pose proof (Z.div_mod (Z.of_nat n) 2 ltac:(lia)) as Hd. pose proof (Z.mod_pos_bound (Z.of_nat n) 2 ltac:(lia)).
  destruct (Z.ltb_spec (Z.of_nat n / 2 * 2) (Z.of_nat n)) as [Hlt|Hge].
  - assert (Z.of_nat n mod 2 = 1) by lia.
    assert (Z.of_nat (S n) / 2 = Z.of_nat n / 2 + 1) by (symmetry; apply (Z.div_unique _ 2 _ 0); lia). lia.
  - assert (Z.of_nat n mod 2 = 0) by lia.
    assert (Z.of_nat (S n) / 2 = Z.of_nat n / 2) by (symmetry; apply (Z.div_unique _ 2 _ 1); lia). lia.
Qed.

(** C35: the version counter that [bitc_get_current_version] recovers can be a
    version in use: when an odd number of files with versions 0, 1, 2, ... was
    written, as by flushes on a fresh device, the version of the newest file
    is returned and handed out again. *)
Theorem bitc_version_reused st l (j : nat) :
  bitc_get_all_file_stats st = (Ok (l, 0), st) -> fs_version <$> l = seqZ 0 (2 * Z.of_nat j + 1) ->
  2 * Z.of_nat j + 1 < 2 ^ 64 ->
  bitc_get_current_version st = (Ok (2 * Z.of_nat j), st) /\
  exists s, s ∈ l /\ fs_version s = 2 * Z.of_nat j.
Proof.
  intros Hg Hl Hj. replace (2 * Z.of_nat j + 1) with (Z.of_nat (2 * j + 1)) in Hl by lia. split.
  - rewrite /bitc_get_current_version /se_bind Hg. cbn [fst se_ret]. rewrite (version_fold_seq (2 * j + 1) l Hl ltac:(lia)).
    assert (Z.of_nat (2 * j + 1) / 2 = Z.of_nat j) as -> by (symmetry; apply (Z.div_unique _ 2 _ 1); lia).
    by rewrite Z.mul_comm.
  - assert (2 * Z.of_nat j ∈ fs_version <$> l) as Hin by (rewrite Hl; apply elem_of_seqZ; lia).
    apply list_elem_of_fmap in Hin as (s & -> & Hs). by exists s.
Qed.

(** ** A small catalogue: ten slots, on a blank device *)
Definition sample_sb : superblock :=
  {| csum := 0; magic := SUPERBLOCK_MAGIC; blocks_per_seg := BLOCKS_PER_SEGMENT; nr_segment := 1; common_ratio := 10;
     nr_disk_level := 2; max_disk_level_capacity := 1024; index_region_start := 1; journal_size := 0; nr_journal := 0;
     journal_region_start := 1; seg_validity_table_start := 1; data_seg_table_start := 1; reverse_index_table_start := 1;
     block_index_table_catalogue_start := 1 |}.
Definition sample_bitc : bc_state := (bit_catalogue_blank sample_sb, blank_device 4).
Definition sample_stat (version : Z) : file_stat :=
  {| fs_root := 0; fs_id := 0; fs_level := 0; fs_version := version; fs_first_key := 0; fs_last_key := 0;
     fs_root_key := replicate AES_GCM_KEY_SIZE Byte.x00; fs_root_iv := replicate AES_GCM_IV_SIZE Byte.x00;
     fs_filter_begin := 0; fs_node := replicate 16 Byte.x00 |}.

Lemma sample_bitc_rep : cat_rep sample_bitc ∅.
Proof.
  assert (bc_bits sample_bitc = replicate 10 false) as Hbits by (vm_compute; reflexivity).
  assert (da_wf (bc_file_stats sample_bitc.1)) as Hwf by (apply disk_array_create_wf; vm_compute; intuition congruence).
  split.
  - split.
    + split; [split; [exact Hwf|done]|]. split; [|apply blank_da_inv; [exact Hwf|done|vm_compute; congruence]].
      split; [|split; [|done]].
      * split; [by apply disk_bitset_create_wf|]. apply blank_da_inv; [by apply disk_bitset_create_wf|done|vm_compute; congruence].
      * change (Z.of_nat (length (bc_bits sample_bitc)) = 10). by rewrite Hbits.
    + intros b [_ H1] [H2 _].
      assert (da_start (bc_file_stats sample_bitc.1) = 2) as E2 by (vm_compute; reflexivity).
      assert (da_start (db_array (seg_validity_table (bc_bit_validity_table sample_bitc.1))) +
        disk_array_nr_block (db_array (seg_validity_table (bc_bit_validity_table sample_bitc.1))) = 2) as E1
        by (vm_compute; reflexivity). lia.
  - intros fd s Hl. by rewrite lookup_empty in Hl.
  - intros fd Hfd. rewrite lookup_empty. change (cat_max_fd sample_bitc) with 10 in Hfd.
    cbn [cat_used bit_catalogue_iface]. rewrite Hbits lookup_replicate_2; [done|lia].
  - intros fd s Hl. by rewrite lookup_empty in Hl.
Qed.

Lemma bit_catalogue_refines_map_witness :
  exists fd st', bitc_create_file (sample_stat 0) sample_bitc = (Ok fd, st') /\ cat_rep st' {[fd := sample_stat 0]}.
Proof.
  destruct (bit_catalogue_refines_map sample_bitc ∅ sample_bitc_rep) as (H1 & _ & _).
  destruct (H1 (sample_stat 0)) as (fd & st' & Hrun & _ & Hr & _).
  - vm_compute. intuition congruence.
  - vm_compute. reflexivity.
  - exists fd, st'. split; [exact Hrun|exact Hr].
Defined.

Definition sample_bitc3 : bc_state :=
  (bitc_create_file (sample_stat 2) (bitc_create_file (sample_stat 1) (bitc_create_file (sample_stat 0) sample_bitc).2).2).2.

Lemma bitc_version_reused_witness : bitc_get_current_version sample_bitc3 = (Ok 2, sample_bitc3).
Proof.
  apply (bitc_version_reused sample_bitc3 [sample_stat 0; sample_stat 1; sample_stat 2] 1).
  - vm_compute. reflexivity.
  - vm_compute. reflexivity.
  - vm_compute. reflexivity.
Defined.
