(* ===== verification/Instances.v ===== *)
(** * Concrete kernel services

    The development is parametric in the kernel code the sources call (red-black
    rebalancing, [sort], [hash_64], [bsearch], the min-heap) and states what it
    relies on as classes.  These are small instances of them: they show that the
    laws can be met, and make the definitions run on concrete inputs.  A
    catalogue kept in memory does the same for [struct lsm_catalogue]. *)
From S2P Require Import Prelude Codec Hashtable Catalogue Memtable RbMemtable BitFile Level Compaction.

(** ** Red-black tree: no rebalancing *)
Module PlainRb.
Definition spine {V} (l : list (memtable_entry V)) : rb_tree V := foldr (fun e t => rb_node rb_leaf e t) rb_leaf l.
#[export] Instance ops : RbOps := {|
  rb_insert_color V t := t;
  rb_erase V key t := spine (filter (fun e => me_key e <> key) (rb_inorder t))
|}.
Lemma spine_inorder {V} (l : list (memtable_entry V)) : rb_inorder (spine l) = l.
Proof. induction l as [|e l IH]; [done|]. simpl. by rewrite IH. Qed.
#[export] Instance ops_ok : RbOpsOk.
Proof. split; [done|]. intros V key t _. apply spine_inorder. Qed.
End PlainRb.

(** ** [sort]: insertion *)
Module InsertionSort.
Fixpoint insert_by {A} (cmp : A -> A -> Z) (x : A) (l : list A) : list A :=
  match l with [] => [x] | y :: l => if cmp x y <=? 0 then x :: y :: l else y :: insert_by cmp x l end.
#[export] Instance sort : KSort := fun A cmp l => foldr (insert_by cmp) [] l.

Lemma insert_perm {A} (cmp : A -> A -> Z) x l : insert_by cmp x l ≡ₚ x :: l.
Proof.
  induction l as [|y l IH]; [done|]. simpl. destruct (_ <=? _); [done|]. rewrite IH. apply Permutation_swap.
Qed.
Lemma sort_perm {A} (cmp : A -> A -> Z) l : ksort cmp l ≡ₚ l.
Proof. induction l as [|x l IH]; [done|]. change (insert_by cmp x (ksort cmp l) ≡ₚ x :: l). by rewrite insert_perm IH. Qed.

Lemma insert_sorted {A} (cmp : A -> A -> Z) (key : A -> Z) x l :
  (forall y, y ∈ l -> cmp x y = key x - key y) -> StronglySorted (fun a b => key a <= key b) l ->
  StronglySorted (fun a b => key a <= key b) (insert_by cmp x l).
Proof.
  intros Hc. induction 1 as [|y l Hs IH Hall]; [by repeat constructor|]. simpl.
  pose proof (Hc y ltac:(left)) as Hy. destruct (Z.leb_spec (cmp x y) 0).
  - constructor; [by constructor|]. constructor; [lia|]. eapply Forall_impl; [exact Hall|]. intros z Hz. simpl in Hz. lia.
  - constructor; [apply IH; intros; apply Hc; by right|]. rewrite insert_perm. constructor; [lia|done].
Qed.
#[export] Instance sort_ok : KSortOk.
Proof.
  split; [intros A; apply sort_perm|]. intros A cmp key l. induction l as [|x l IH] => Hc; [constructor|].
  change (StronglySorted (fun a b => key a <= key b) (insert_by cmp x (ksort cmp l))). apply insert_sorted.
  - intros y Hy. rewrite sort_perm in Hy. apply Hc; [left|by right].
  - apply IH. intros a b Ha Hb. apply Hc; by right.
Qed.
End InsertionSort.

(** ** [hash_64_generic]: the low bits *)
Module LowBits.
#[export] Instance hash : Hash64 := fun val bits => val mod 2 ^ bits.
#[export] Instance hash_ok : Hash64Ok.
Proof. intros val bits Hb. apply Z.mod_pos_bound. apply Z.pow_pos_nonneg; lia. Qed.
End LowBits.

(** ** [bsearch]: linear *)
Module LinearSearch.
#[export] Instance search : Bsearch := fun A cmp l => fst <$> list_find (fun x => cmp x = 0) l.
#[export] Instance search_ok : BsearchOk.
Proof.
  intros A cmp l _. rewrite /bsearch /search. destruct (list_find (fun x => cmp x = 0) l) as [[i x]|] eqn:E; cbn.
  - apply list_find_Some in E as (Hi & Hx & _). by exists x.
  - apply list_find_None in E. intros x Hx. by eapply Forall_forall in E.
Qed.
End LinearSearch.

(** ** The min-heap: an ordered list *)
Module ListHeap.
Fixpoint push {A} (less : A -> A -> bool) (x : A) (l : list A) : list A :=
  match l with [] => [x] | y :: l => if less y x then y :: push less x l else x :: y :: l end.
#[export] Instance heap : MinHeap := {|
  min_heap_push A less x l := push less x l;
  min_heap_pop A less l := tail l;
  is_min_heap A less l := StronglySorted (fun x y => less y x = false) l
|}.
Lemma push_perm {A} (less : A -> A -> bool) x l : push less x l ≡ₚ x :: l.
Proof. induction l as [|y l IH]; [done|]. simpl. destruct (less y x); [|done]. rewrite IH. apply Permutation_swap. Qed.
#[export] Instance heap_ok : MinHeapOk.
Proof.
  split; cbn.
  - constructor.
  - intros A less key x l Hk Hs. split; [|apply push_perm]. induction Hs as [|y l Hs IH Hall]; [by repeat constructor|]. simpl.
    destruct (less y x) eqn:E.
    + constructor; [done|]. rewrite push_perm. constructor; [|done]. rewrite Hk in E. cbn beta. rewrite Hk. apply Z.ltb_lt in E. apply Z.ltb_ge. lia.
    + constructor; [by constructor|]. constructor; [done|]. eapply Forall_impl; [exact Hall|]. intros z Hz. simpl in Hz.
      rewrite Hk in E; rewrite Hk in Hz. cbn beta. rewrite Hk. apply Z.ltb_ge in E, Hz. apply Z.ltb_ge. lia.
  - intros A less key x l _ Hs. apply StronglySorted_inv in Hs as [Hs _]. done.
  - intros A less key x l Hk Hs y Hy. apply StronglySorted_inv in Hs as [_ Hall]. eapply Forall_forall in Hall; [|exact Hy].
    simpl in Hall. rewrite Hk in Hall. apply Z.ltb_ge in Hall. done.
Qed.
End ListHeap.

(** ** A catalogue in memory: a flag and a stat per slot *)
Module ListCatalogue.
Record cat : Type := {
  lc_slots : list (bool * option file_stat); lc_version : Z;
  lcg_start : Z; lcg_size : Z; lcg_levels : Z; lcg_ratio : Z; lcg_max : Z
}.
Definition set_slots (s : list (bool * option file_stat)) (c : cat) : cat :=
  {| lc_slots := s; lc_version := lc_version c; lcg_start := lcg_start c; lcg_size := lcg_size c;
     lcg_levels := lcg_levels c; lcg_ratio := lcg_ratio c; lcg_max := lcg_max c |}.
Definition alloc : SE cat Z := fun c =>
  match list_find (fun s : bool * option file_stat => s.1 = false) (lc_slots c) with
  | Some (i, s) => (Ok (Z.of_nat i), set_slots (<[i := (true, s.2)]> (lc_slots c)) c)
  | None => (Err ENODATA, c)
  end.
Definition put_slot (fd : Z) (f : bool * option file_stat -> bool * option file_stat) : SE cat unit := fun c =>
  (Ok tt, set_slots (alter f (Z.to_nat fd) (lc_slots c)) c).
Definition used (c : cat) (fd : Z) : bool := default false (fst <$> lc_slots c !! Z.to_nat fd).
Definition stat (c : cat) (fd : Z) : option file_stat := lc_slots c !! Z.to_nat fd ≫= snd.

#[export] Instance iface : LsmCatalogue cat := {|
  cat_alloc_file := alloc;
  cat_release_file fd := put_slot fd (fun s => (false, s.2));
  cat_set_file_stats fd st := put_slot fd (fun s => (s.1, Some st));
  cat_get_all_file_stats c :=
    (Ok (omap (fun fd => if used c fd then stat c fd else None) (seqZ 0 (Z.of_nat (length (lc_slots c)))), 0), c);
  cat_get_next_version c :=
    (Ok (lc_version c),
     {| lc_slots := lc_slots c; lc_version := lc_version c + 1; lcg_start := lcg_start c; lcg_size := lcg_size c;
        lcg_levels := lcg_levels c; lcg_ratio := lcg_ratio c; lcg_max := lcg_max c |});
  cat_start := lcg_start; cat_file_size := lcg_size; cat_nr_disk_level := lcg_levels;
  cat_common_ratio := lcg_ratio; cat_max_level_nr_file := lcg_max;
  cat_inv c := True; cat_max_fd c := Z.of_nat (length (lc_slots c));
  cat_used := used; cat_stat := stat; cat_version := lc_version
|}.

Lemma alter_at c fd f fd' :
  0 <= fd < Z.of_nat (length (lc_slots c)) -> 0 <= fd' < Z.of_nat (length (lc_slots c)) ->
  alter f (Z.to_nat fd) (lc_slots c) !! Z.to_nat fd' =
    if decide (fd' = fd) then f <$> lc_slots c !! Z.to_nat fd' else lc_slots c !! Z.to_nat fd'.
Proof. intros H1 H2. case_decide as Hd; [subst; by rewrite list_lookup_alter_eq|]. rewrite list_lookup_alter_ne; [done|lia]. Qed.

#[export] Instance iface_ok : LsmCatalogueOk cat.
Proof.
  split.
  - intros c _. change (cat_alloc_file c) with (alloc c). rewrite /alloc.
    destruct (list_find _ (lc_slots c)) as [[i s]|] eqn:E.
    + apply list_find_Some in E as (Hi & Hs & _). pose proof (lookup_lt_Some _ _ _ Hi) as Hlt.
      assert (forall fd', fd' <> Z.of_nat i -> 0 <= fd' ->
        <[i := (true, s.2)]> (lc_slots c) !! Z.to_nat fd' = lc_slots c !! Z.to_nat fd') as Hne.
      { intros fd' Hn H0. apply list_lookup_insert_ne. lia. }
      split; [cbn; lia|]. split; [by rewrite /= /used Nat2Z.id Hi /= Hs|]. split; [done|].
      split; [by rewrite /cat_geom /= length_insert|]. split; [done|].
      split; [by rewrite /= /used Nat2Z.id /= list_lookup_insert_eq|]. split.
      * intros fd' Hfd' Hn. rewrite /= /used /= Hne //. lia.
      * intros fd' Hfd'. rewrite /= /stat /=. destruct (decide (fd' = Z.of_nat i)) as [->|Hn]; [|rewrite Hne //; lia].
        by rewrite Nat2Z.id list_lookup_insert_eq // Hi.
    + apply list_find_None in E. intros fd Hfd. cbn in Hfd. destruct (lookup_lt_is_Some_2 (lc_slots c) (Z.to_nat fd)) as [s Hs]; [lia|].
      rewrite /= /used Hs /=. eapply Forall_lookup_1 in E; [|exact Hs]. by destruct s.1.
  - intros c fd _ Hfd. cbn in Hfd. destruct (lookup_lt_is_Some_2 (lc_slots c) (Z.to_nat fd)) as [s Hs]; [lia|].
    eexists. split; [reflexivity|]. split; [done|]. split; [by rewrite /cat_geom /= length_alter|]. split; [done|]. split_and!.
    + rewrite /= /used /= alter_at // decide_True // Hs. done.
    + intros fd' Hfd' Hn. rewrite /= /used /= alter_at // decide_False //.
    + intros fd' Hfd'. rewrite /= /stat /= alter_at //. case_decide; [subst|done]. by rewrite Hs.
  - intros c fd s0 _ Hfd _. cbn in Hfd. destruct (lookup_lt_is_Some_2 (lc_slots c) (Z.to_nat fd)) as [s Hs]; [lia|].
    eexists. split; [reflexivity|]. split; [done|]. split; [by rewrite /cat_geom /= length_alter|]. split; [done|]. split.
    + intros fd' Hfd'. rewrite /= /used /= alter_at //. case_decide; [subst|done]. by rewrite Hs.
    + intros fd' Hfd'. rewrite /= /stat /= alter_at //. case_decide; [subst|done]. by rewrite Hs.
  - intros c _ _. eexists. split; [reflexivity|]. done.
  - done.
Qed.
End ListCatalogue.
