(* ===== verification/MemSpec.v ===== *)
(** * Tables in memory against finite maps (source/hashtable.c, memtable.c)

    Sequences of operations on the linked hash table and on the two memtables,
    compared with the same sequence on a finite map. *)
From S2P Require Import Prelude Codec Hashtable Memtable RbMemtable Catalogue BitFile Level Compaction Instances.

(** ** The linked hash table *)
Section hashtable_spec.
Context {V : Type} `{Hash64Ok}.

Inductive ht_op : Type := HtPut (key : Z) (val : V) | HtGet (key : Z) | HtContains (key : Z) | HtRemove (key : Z) | HtClear.
Inductive ht_out : Type := HtVal (v : option V) | HtRes (r : result V) | HtBool (b : bool) | HtUnit.

Definition ht_step (o : ht_op) (this : linked_hashtable V) : ht_out * linked_hashtable V :=
  match o with
  | HtPut k v => let '(old, this) := linked_hashtable_put k v this in (HtVal old, this)
  | HtGet k => (HtRes (linked_hashtable_get this k), this)
  | HtContains k => (HtBool (linked_hashtable_contains this k), this)
  | HtRemove k => let '(old, this) := linked_hashtable_remove k this in (HtVal old, this)
  | HtClear => (HtUnit, linked_hashtable_clear this)
  end.
Definition ht_spec (o : ht_op) (m : gmap Z V) : ht_out * gmap Z V :=
  match o with
  | HtPut k v => (HtVal (m !! k), <[k := v]> m)
  | HtGet k => (HtRes match m !! k with Some v => Ok v | None => Err ENODATA end, m)
  | HtContains k => (HtBool (bool_decide (is_Some (m !! k))), m)
  | HtRemove k => (HtVal (m !! k), delete k m)
  | HtClear => (HtUnit, ∅)
  end.
Fixpoint ht_run {S} (step : ht_op -> S -> ht_out * S) (os : list ht_op) (s : S) : list ht_out * S :=
  match os with
  | [] => ([], s)
  | o :: os => let '(r, s) := step o s in let '(rs, s) := ht_run step os s in (r :: rs, s)
  end.

Lemma ht_step_ok o this :
  lh_inv this -> let '(r, this') := ht_step o this in
  lh_inv this' /\ ht_spec o (lh_map this) = (r, lh_map this').
Proof.
  intros Hi. destruct o as [k v|k|k|k|]; simpl.
  - pose proof (lh_put_ok this k v Hi) as Hp. destruct (linked_hashtable_put k v this) as [old this'].
    by destruct Hp as (? & -> & ->).
  - by rewrite lh_get_spec.
  - split; [done|]. rewrite /linked_hashtable_contains. pose proof (search_node_spec this k Hi) as Hs.
    destruct (linked_hashtable_search_node this k); by rewrite Hs.
  - pose proof (lh_remove_ok this k Hi) as Hp. destruct (linked_hashtable_remove k this) as [old this'].
    by destruct Hp as (? & -> & ->).
  - destruct (lh_clear_inv this Hi) as [? ->]. done.
Qed.

Lemma ht_run_ok os this :
  lh_inv this -> exists rs this', ht_run ht_step os this = (rs, this') /\ lh_inv this' /\
    ht_run ht_spec os (lh_map this) = (rs, lh_map this').
Proof.
  revert this. induction os as [|o os IH] => this Hi; [by exists [], this|]. cbn [ht_run].
  pose proof (ht_step_ok o this Hi) as Hs. destruct (ht_step o this) as [r this']. destruct Hs as [Hi' ->].
  destruct (IH this' Hi') as (rs & this2 & -> & Hi2 & ->). by exists (r :: rs), this2.
Qed.

(** C23: the hash table refines a finite map: any sequence of operations on a
    new table, rehashing included, returns what a map returns, and its iterator
    then visits every binding exactly once and ends, however long it is asked. *)
Theorem linked_hashtable_refines_map garbage os :
  exists rs this m, ht_run ht_step os (linked_hashtable_create garbage) = (rs, this) /\
    ht_run ht_spec os ∅ = (rs, m) /\
    forall fuel, (length (lh_nodes this) <= fuel)%nat ->
      iter_collect fuel this (linked_hash_iter_init this) ≡ₚ (fun p => __entry p.1 p.2) <$> map_to_list m.
Proof.
  destruct (lh_create_inv (V := V) garbage) as [Hi Hm].
  destruct (ht_run_ok os _ Hi) as (rs & this & Hrun & Hi' & Hspec). rewrite Hm in Hspec.
  exists rs, this, (lh_map this). split; [done|]. split; [done|].
  intros fuel Hf. rewrite lh_iterate_ok //. destruct Hi' as (_ & _ & Hnd).
  rewrite /lh_map. rewrite map_to_list_to_map; [|by rewrite lh_pairs_keys].
  by rewrite /lh_pairs -list_fmap_compose.
Qed.
End hashtable_spec.

Import LowBits InsertionSort PlainRb.

Lemma linked_hashtable_refines_map_witness :
  (ht_run ht_step [HtPut 3 30; HtPut 19 190; HtPut 3 31; HtRemove 19; HtGet 19; HtGet 3]
     (linked_hashtable_create (V := Z) 7)).1 =
  [HtVal None; HtVal None; HtVal (Some 30); HtVal (Some 190); HtRes (Err ENODATA); HtRes (Ok 31)].
Proof.
  destruct (linked_hashtable_refines_map (V := Z) 7 [HtPut 3 30; HtPut 19 190; HtPut 3 31; HtRemove 19; HtGet 19; HtGet 3])
    as (rs & this & m & H1 & H2 & _).
  rewrite H1. cbn [fst]. vm_compute in H2. injection H2 as <- _. reflexivity.
Defined.

(** ** The two memtables *)
Section memtable_ops.
Context {V : Type}.

Inductive mt_op : Type := MtPut (key : Z) (val : V) | MtGet (key : Z) | MtRemove (key : Z) | MtClear | MtEntries | MtSize.
Inductive mt_out : Type :=
| MtVal (v : option V) | MtRes (r : result V) | MtList (l : list (memtable_entry V)) | MtNum (n : Z) | MtUnit.

Definition mt_op_ok (o : mt_op) : Prop :=
  match o with MtPut k _ | MtGet k | MtRemove k => mt_key_ok k | _ => True end.

Definition mt_step {M} `{Memtable M V} (o : mt_op) (m : M) : mt_out * M :=
  match o with
  | MtPut k v => let '(old, m) := mt_put k v m in (MtVal old, m)
  | MtGet k => (MtRes (mt_get m k), m)
  | MtRemove k => let '(old, m) := mt_remove k m in (MtVal old, m)
  | MtClear => (MtUnit, mt_clear m)
  | MtEntries => (MtList (mt_get_all_entry m), m)
  | MtSize => (MtNum (mt_size m), m)
  end.
Fixpoint mt_run {M} `{Memtable M V} (os : list mt_op) (m : M) : list mt_out :=
  match os with
  | [] => []
  | o :: os => let '(r, m) := mt_step o m in r :: mt_run os m
  end.

(** A table's entries are determined by its map. *)
Lemma entries_unique (l k : list (memtable_entry V)) :
  StronglySorted entries_lt l -> StronglySorted entries_lt k ->
  (list_to_map (me_pair <$> l) : gmap Z V) = list_to_map (me_pair <$> k) -> l = k.
Proof.
  intros Hl Hk Heq. assert (me_pair <$> l ≡ₚ me_pair <$> k) as Hp.
  { apply (list_to_map_inj (M := gmap Z)); [| |done]; rewrite me_pair_keys; by apply sorted_lt_nodup. }
  assert (l ≡ₚ k) as Hlk.
  { apply (fmap_Permutation (fun p => Build_memtable_entry p.1 p.2)) in Hp. rewrite -!list_fmap_compose in Hp.
    rewrite !(list_fmap_ext _ id) ?list_fmap_id in Hp; [done|by intros ? []|by intros ? []]. }
  apply (StronglySorted_unique_strong entries_lt); [|done|done|done].
  intros x y _ _ H1 H2. rewrite /entries_lt in H1 H2. lia.
Qed.

Context {M1 M2 : Type} `{MemtableOk M1 V} `{MemtableOk M2 V}.

Definition mt_agree (n : Z) (m1 : M1) (m2 : M2) : Prop :=
  mt_inv m1 /\ mt_inv m2 /\ mt_map m1 = mt_map m2 /\ Z.of_nat (size (mt_map m1)) <= n.

Lemma mt_step_agree n o m1 m2 :
  mt_agree n m1 m2 -> mt_op_ok o -> 0 <= n < 2 ^ 64 - 1 ->
  let '(r1, m1') := mt_step o m1 in let '(r2, m2') := mt_step o m2 in r1 = r2 /\ mt_agree (n + 1) m1' m2'.
Proof.
  intros (J1 & J2 & Heq & Hn) Ho Hb. pose proof (mt_size_ok m1 J1) as Hs1. pose proof (mt_size_ok m2 J2) as Hs2.
  rewrite -Heq in Hs2. destruct o as [k v|k|k| | |]; simpl in *.
  - pose proof (mt_put_ok m1 k v J1 Ho ltac:(lia)) as P1. pose proof (mt_put_ok m2 k v J2 Ho ltac:(lia)) as P2.
    destruct (mt_put k v m1) as [o1 m1'], (mt_put k v m2) as [o2 m2']. destruct P1 as (I1 & -> & E1), P2 as (I2 & -> & E2).
    split; [by rewrite Heq|]. split; [done|]. split; [done|]. split; [by rewrite E1 E2 Heq|]. rewrite E1.
    destruct (mt_map m1 !! k) eqn:E.
    + rewrite map_size_insert_Some; [lia|by rewrite E].
    + rewrite map_size_insert_None //. lia.
  - rewrite (mt_get_ok m1 k J1 Ho) (mt_get_ok m2 k J2 Ho) Heq. split; [done|]. split; [done|]. split; [done|]. split; [done|lia].
  - pose proof (mt_remove_ok m1 k J1 Ho) as P1. pose proof (mt_remove_ok m2 k J2 Ho) as P2.
    destruct (mt_remove k m1) as [o1 m1'], (mt_remove k m2) as [o2 m2']. destruct P1 as (I1 & -> & E1), P2 as (I2 & -> & E2).
    split; [by rewrite Heq|]. split; [done|]. split; [done|]. split; [by rewrite E1 E2 Heq|]. rewrite E1.
    pose proof (map_size_delete k (mt_map m1)) as Hd. destruct (mt_map m1 !! k); rewrite Hd /id; lia.
  - destruct (mt_clear_ok m1 J1) as [I1 E1], (mt_clear_ok m2 J2) as [I2 E2].
    split; [done|]. split; [done|]. split; [done|]. split; [by rewrite E1 E2|]. rewrite E1 map_size_empty. lia.
  - destruct (mt_entries_ok m1 J1) as [S1 E1], (mt_entries_ok m2 J2) as [S2 E2].
    split; [|split; [done|split; [done|split; [done|lia]]]]. f_equal. apply entries_unique; [done|done|]. by rewrite E1 E2.
  - split; [by rewrite Hs1 Hs2|]. split; [done|]. split; [done|]. split; [done|lia].
Qed.

Lemma mt_run_agree n os m1 m2 :
  mt_agree n m1 m2 -> Forall mt_op_ok os -> 0 <= n -> n + Z.of_nat (length os) < 2 ^ 64 - 1 ->
  mt_run os m1 = mt_run os m2.
Proof.
  revert n m1 m2. induction os as [|o os IH] => n m1 m2 Ha; [done|]. intros [Ho Hos]%Forall_cons Hz Hn. cbn [length] in Hn.
  pose proof (mt_step_agree n o m1 m2 Ha Ho ltac:(lia)) as Hs. cbn [mt_run].
  destruct (mt_step o m1) as [r1 m1'], (mt_step o m2) as [r2 m2']. destruct Hs as [-> Ha']. f_equal.
  apply (IH (n + 1)); [done|done|lia|lia].
Qed.
End memtable_ops.
Arguments mt_op : clear implicits.
Arguments mt_out : clear implicits.

Section memtable_spec.
Context {V : Type} `{RbOpsOk} `{Hash64Ok} `{KSortOk}.

(** C22: the two memtables are interchangeable: the hash memtable and the
    red-black tree memtable return the same results to any sequence of
    operations on keys below 2^31, the sorted list of entries included. *)
Theorem memtables_equivalent garbage (os : list (mt_op V)) :
  Forall mt_op_ok os -> Z.of_nat (length os) < 2 ^ 64 - 1 ->
  mt_run os (hash_memtable_create (V := V) garbage) = mt_run os (rbtree_memtable_init (V := V)).
Proof.
  intros Hos Hl. apply (mt_run_agree 0); [|done|done|done].
  destruct (rbtree_memtable_init_ok (V := V)) as [Hi Hm]. destruct (lh_create_inv (V := memtable_entry V) garbage) as [Hc Hcm].
  assert (hm_map (hash_memtable_create (V := V) garbage) = ∅) as Hh by (by rewrite /hm_map /= Hcm fmap_empty).
  split; [|split; [done|split]].
  - split; [done|]. cbn [hm_hashtable hm_size hash_memtable_create]. rewrite Hcm map_size_empty.
    split; [|split; [done|done]]. intros k e He. by rewrite lookup_empty in He.
  - change (mt_map (rbtree_memtable_init (V := V))) with (rm_map (rbtree_memtable_init (V := V))).
    change (mt_map (hash_memtable_create (V := V) garbage)) with (hm_map (hash_memtable_create (V := V) garbage)).
    by rewrite Hh Hm.
  - change (mt_map (hash_memtable_create (V := V) garbage)) with (hm_map (hash_memtable_create (V := V) garbage)).
    by rewrite Hh map_size_empty.
Qed.

(** C36: keys from 2^31 on are mishandled: the comparison of two keys is
    truncated to [int], so a record put under key 2^31 after one under key 0
    is linked on the wrong side and not found again.  (Insertion into a tree
    of fewer than three nodes rotates nothing.) *)
Theorem rbtree_memtable_big_key_lost (v0 v1 : V) :
  (forall t : rb_tree V, (length (rb_inorder t) <= 2)%nat -> rb_insert_color t = t) ->
  rbtree_memtable_get
    (rbtree_memtable_put (2 ^ 31) v1 (rbtree_memtable_put 0 v0 rbtree_memtable_init).2).2 (2 ^ 31) = Err ENODATA.
Proof.
  intros Hc. rewrite {2}/rbtree_memtable_put. cbn [rm_root rbtree_memtable_init rb_inorder length rb_put_loop rb_find_add rb_link].
  rewrite /rb_find_add. cbn [rb_link]. rewrite Hc; [|simpl; lia]. cbn [snd].
  rewrite /rbtree_memtable_put. cbn [rm_root rb_inorder app length rb_put_loop]. rewrite /rb_find_add. cbn [rb_link].
  change (memtable_entry_cmp (Build_memtable_entry (2 ^ 31) v1) (Build_memtable_entry 0 v0) <? 0) with true. cbv iota.
  rewrite Hc; [|simpl; lia]. reflexivity.
Qed.
End memtable_spec.

Definition sample_mt_ops : list (mt_op Z) :=
  [MtPut 9 90; MtPut 4 40; MtPut 9 91; MtEntries; MtRemove 4; MtGet 4; MtSize].

Lemma memtables_equivalent_witness :
  mt_run sample_mt_ops (hash_memtable_create (V := Z) 5) =
    [MtVal None; MtVal None; MtVal (Some 90); MtList [Build_memtable_entry 4 40; Build_memtable_entry 9 91];
     MtVal (Some 40); MtRes (Err ENODATA); MtNum 1].
Proof.
  rewrite (memtables_equivalent 5 sample_mt_ops).
  - vm_compute. reflexivity.
  - repeat (constructor; [vm_compute; intuition congruence|]). constructor.
  - vm_compute. reflexivity.
Defined.

Lemma rbtree_memtable_big_key_lost_witness :
  rbtree_memtable_get
    (rbtree_memtable_put (2 ^ 31) 11 (rbtree_memtable_put 0 10 rbtree_memtable_init).2).2 (2 ^ 31) = Err ENODATA.
Proof. apply (rbtree_memtable_big_key_lost (V := Z) 10 11). intros t _. reflexivity. Defined.
