(* ===== verification/LsmTree.v ===== *)
(** * The log-structured merge tree (struct lsm_tree, source/lsm_tree.c)

    New records go to the memtable; a full memtable becomes a file of level 0;
    a full level is compacted into the next.  A lookup asks the memtable, then
    the levels from the newest to the oldest. *)
From S2P Require Import Prelude Codec BlockManager DiskStructs Crypto BitNode Superblock SegValidator Area Bloom Hashtable Catalogue Memtable BitFile BitTree Level Compaction.

Definition DEFAULT_MEMTABLE_CAPACITY : Z := DEFAULT_LSM_FILE_CAPACITY.

Section lsm_tree.
Context {M : Type} {mt : Memtable M record}.
Context {C : Type} {cat : LsmCatalogue C} {gcm : Gcm} {rng : Rng} {heap : MinHeap} {bs : Bsearch}.
Context (garbage_buffer : area) (garbage_leaf : list byte -> bit_leaf).

Record lsm_tree : Type := {
  lt_io : bit_io;
  lt_catalogue : C;
  lt_memtable : M;
  lt_levels : list bit_level
}.

Definition lt_set_memtable (m : M) (t : lsm_tree) : lsm_tree :=
  {| lt_io := lt_io t; lt_catalogue := lt_catalogue t; lt_memtable := m; lt_levels := lt_levels t |}.
Definition lt_set_level (i : nat) (l : bit_level) (t : lsm_tree) : lsm_tree :=
  {| lt_io := lt_io t; lt_catalogue := lt_catalogue t; lt_memtable := lt_memtable t;
     lt_levels := <[i := l]> (lt_levels t) |}.

(** A job over two levels, and its effect on the tree. *)
Definition lt_job (l1 l2 : bit_level) (t : lsm_tree) : job :=
  {| jb_cat := lt_catalogue t; jb_io := lt_io t; jb_level1 := l1; jb_level2 := l2 |}.
Definition lt_after_job (i : nat) (j : job) (t : lsm_tree) : lsm_tree :=
  {| lt_io := jb_io j; lt_catalogue := jb_cat j; lt_memtable := lt_memtable t;
     lt_levels := <[S i := jb_level2 j]> (<[i := jb_level1 j]> (lt_levels t)) |}.

(** [levels[level + 1]] beyond the array is a fault ([None]).  [depth] bounds
    the recursion; the number of levels is enough. *)
Fixpoint lsm_tree_major_compaction (depth fuel : nat) (fd0 : Z) (level : nat) (t : lsm_tree) : option lsm_tree :=
  match depth with
  | O => None
  | S depth =>
      match lt_levels t !! S level with
      | None => None
      | Some next =>
          match (if bit_level_is_full next then lsm_tree_major_compaction depth fuel fd0 (S level) t else Some t) with
          | None => None
          | Some t =>
              match lt_levels t !! level, lt_levels t !! S level with
              | Some l1, Some l2 =>
                  (fun j => lt_after_job level j t) <$>
                    compaction_job_run garbage_buffer garbage_leaf fuel fd0 (lt_job l1 l2 t)
              | _, _ => None
              end
          end
      end
  end.

(** The entries of the memtable, as the builder takes them. *)
Definition add_memtable (es : list (memtable_entry record)) (st : bb_state) : bb_state :=
  foldl (fun st e => bit_builder_add_entry (__entry (me_key e) (me_val e)) st) st es.

Definition minor_flush (fd0 : Z) (t : lsm_tree) : option lsm_tree :=
  match lt_levels t !! 0%nat with
  | None => None
  | Some l0 =>
      let entries := mt_get_all_entry (lt_memtable t) in
      let '(fd, st, c) := open_builder garbage_buffer fd0 0 (lt_catalogue t) (lt_io t) in
      let '(io, c, l0) := close_builder (add_memtable entries st) c l0 in
      Some {| lt_io := io; lt_catalogue := c; lt_memtable := mt_clear (lt_memtable t);
              lt_levels := <[0%nat := l0]> (lt_levels t) |}
  end.

Definition lsm_tree_minor_compaction (fuel : nat) (fd0 : Z) (t : lsm_tree) : option lsm_tree :=
  match lt_levels t !! 0%nat with
  | None => None
  | Some l0 =>
      (if bit_level_is_full l0 then lsm_tree_major_compaction (length (lt_levels t)) fuel fd0 0 t else Some t)
        ≫= minor_flush fd0
  end.

(** [for (i = 0; i < nr_disk_level; ++i)]: the levels from the [i]-th on. *)
Fixpoint search_levels (file : area) (key : Z) (ls : list bit_level) : result record * list bit_level :=
  match ls with
  | [] => (Err ENODATA, [])
  | l :: ls =>
      match bit_level_search file key l with
      | (Ok r, l) => (Ok r, l :: ls)
      | (Err _, l) => let '(r, ls) := search_levels file key ls in (r, l :: ls)
      end
  end.

Definition lsm_tree_search (key : Z) (t : lsm_tree) : result record * lsm_tree :=
  match mt_get (lt_memtable t) key with
  | Ok r => (Ok r, t)
  | Err _ =>
      let '(r, ls) := search_levels (io_file (lt_io t)) key (lt_levels t) in
      (r, {| lt_io := lt_io t; lt_catalogue := lt_catalogue t; lt_memtable := lt_memtable t; lt_levels := ls |})
  end.

Definition lsm_tree_put (fuel : nat) (fd0 : Z) (key : Z) (val : record) (t : lsm_tree) : option lsm_tree :=
  let t := lt_set_memtable ((mt_put key val (lt_memtable t)).2) t in
  if DEFAULT_MEMTABLE_CAPACITY <=? mt_size (lt_memtable t) then lsm_tree_minor_compaction fuel fd0 t else Some t.

(** A memtable that is not empty is written out; the rest of [destroy] frees memory. *)
Definition lsm_tree_destroy (fuel : nat) (fd0 : Z) (t : lsm_tree) : option lsm_tree :=
  if mt_size (lt_memtable t) =? 0 then Some t else lsm_tree_minor_compaction fuel fd0 t.

(** [for (i = nr_disk_level - 1; i >= 1; --i)]: the levels [1] to [i], with
    [capacity] for the last. *)
Fixpoint create_levels (i : nat) (capacity ratio : Z) : list bit_level :=
  match i with
  | O => []
  | S i' => create_levels i' (capacity / ratio) ratio ++ [bit_level_create (Z.of_nat i) capacity]
  end.

(** [bit_file_create] from a stat, added to its level; a level that does not
    exist faults. *)
Definition load_file (file : area) (ls : option (list bit_level)) (stat : file_stat) : option (list bit_level) :=
  ls ≫= fun ls =>
    let f := bit_file_create file (fs_root stat) (fs_id stat) (fs_level stat) (fs_version stat)
               (fs_first_key stat) (fs_last_key stat) (fs_root_key stat) (fs_root_iv stat) (fs_filter_begin stat) in
    match ls !! Z.to_nat (fs_level stat) with
    | None => None
    | Some l => Some (<[Z.to_nat (fs_level stat) := (bit_level_add_file f l).2]> ls)
    end.

Definition lsm_tree_init (empty : M) (io : bit_io) (c : C) : option lsm_tree :=
  let levels := bit_level_create 0 DEFAULT_LSM_LEVEL0_NR_FILE ::
    create_levels (Z.to_nat (cat_nr_disk_level c - 1)) (cat_max_level_nr_file c) (cat_common_ratio c) in
  match cat_get_all_file_stats c with
  | (Ok (stats, _), c) =>
      (fun ls => {| lt_io := io; lt_catalogue := c; lt_memtable := empty; lt_levels := ls |}) <$>
        foldl (load_file (io_file io)) (Some levels) stats
  | (Err _, _) => None
  end.
End lsm_tree.
