(* ===== verification/Bio.v ===== *)
(** * Block I/O requests (source/bio_operate.c)

    A [bio] is a request for a run of sectors with its payload.  The helpers
    read and set its position and copy the payload to or from a buffer, one
    sector at a time. *)
From S2P Require Import Prelude Codec Crypto BitNode Superblock Area.

Inductive req_op : Type := REQ_OP_READ | REQ_OP_WRITE | REQ_OP_OTHER.
#[export] Instance req_op_eq_dec : EqDecision req_op.
Proof. solve_decision. Defined.

(** [bi_size] is the length of the payload. *)
Record bio : Type := { bi_op : req_op; bi_sector : Z; bi_payload : list byte }.

Definition bi_size (b : bio) : Z := Z.of_nat (length (bi_payload b)).
(** [bio_sectors]: [bi_size >> 9] *)
Definition bio_sectors (b : bio) : Z := Z.shiftr (bi_size b) 9.

(** Both take and give [unsigned int]. *)
Definition bio_get_sector (b : bio) : Z := u32 (bi_sector b).
Definition bio_set_sector (sector : Z) (b : bio) : bio :=
  {| bi_op := bi_op b; bi_sector := u32 sector; bi_payload := bi_payload b |}.
Definition bio_get_data_len (b : bio) : Z := bi_size b.
Definition bio_get_block_address (b : bio) : Z := bio_get_sector b / SECTORS_PER_BLOCK.
Definition bio_block_sector_offset (b : bio) : Z := bio_get_sector b mod SECTORS_PER_BLOCK.
Definition bio_set_payload (data : list byte) (b : bio) : bio :=
  {| bi_op := bi_op b; bi_sector := bi_sector b; bi_payload := data |}.

(** The loop of [__bio_data_transfer] for a write: [rest] is what [total] still
    covers; a split takes one sector while more than one is left, and the
    remainder at the end. *)
Fixpoint transfer_out (fuel : nat) (rest : list byte) (buffer : area) (base offset len : Z) : area :=
  match fuel with
  | O => buffer
  | S fuel =>
      let last := negb (1 <? Z.shiftr (Z.of_nat (length rest)) 9) in
      let split := if last then rest else take (Z.to_nat SECTOR_SIZE) rest in
      if len <? offset + Z.of_nat (length split) then buffer
      else
        let buffer := area_write (base + offset) split buffer in
        if last then buffer
        else transfer_out fuel (drop (Z.to_nat SECTOR_SIZE) rest) buffer base (offset + Z.of_nat (length split)) len
  end.

(** The same loop for a read: the payload with the transferred part replaced. *)
Fixpoint transfer_in (fuel : nat) (rest : list byte) (buffer : area) (base offset len : Z) : list byte :=
  match fuel with
  | O => rest
  | S fuel =>
      let last := negb (1 <? Z.shiftr (Z.of_nat (length rest)) 9) in
      let split := if last then rest else take (Z.to_nat SECTOR_SIZE) rest in
      if len <? offset + Z.of_nat (length split) then rest
      else
        let got := area_read (base + offset) (length split) buffer in
        if last then got
        else got ++ transfer_in fuel (drop (Z.to_nat SECTOR_SIZE) rest) buffer base (offset + Z.of_nat (length split)) len
  end.

(** A round per sector, and one for the remainder, is enough. *)
Definition transfer_fuel (b : bio) : nat := S (length (bi_payload b)).

(** [__bio_data_transfer] copies in the direction of the request. *)
Definition __bio_data_transfer (b : bio) (buffer : area) (base len : Z) : bio * area :=
  match bi_op b with
  | REQ_OP_WRITE => (b, transfer_out (transfer_fuel b) (bi_payload b) buffer base 0 len)
  | REQ_OP_READ => (bio_set_payload (transfer_in (transfer_fuel b) (bi_payload b) buffer base 0 len) b, buffer)
  | REQ_OP_OTHER => (b, buffer)
  end.
Definition bio_get_data (b : bio) (buffer : area) (base len : Z) : area := (__bio_data_transfer b buffer base len).2.
Definition bio_set_data (b : bio) (buffer : area) (base len : Z) : bio := (__bio_data_transfer b buffer base len).1.

(** ** The sector-wise loops copy the whole payload *)
Lemma sector_split (rest : list byte) :
  (1 <? Z.shiftr (Z.of_nat (length rest)) 9) = true -> (1024 <= length rest)%nat.
Proof.
  rewrite Z.shiftr_div_pow2 // => /Z.ltb_lt Hlt. change (2 ^ 9) with 512 in Hlt.
  pose proof (Z.mul_div_le (Z.of_nat (length rest)) 512). lia.
Qed.

Lemma area_write_app off (l k : list byte) a i :
  area_write off (l ++ k) a i = area_write (off + Z.of_nat (length l)) k (area_write off l a) i.
Proof.
  destruct (decide (off <= i < off + Z.of_nat (length (l ++ k)))) as [Hin|Hout]; rewrite length_app in Hin || rewrite length_app in Hout.
  - destruct (lookup_lt_is_Some_2 (l ++ k) (Z.to_nat (i - off))) as [b Hb]; [rewrite length_app; lia|].
    rewrite (area_write_in _ _ _ _ b); [|lia|done]. destruct (decide (i < off + Z.of_nat (length l))).
    + rewrite area_write_out; [|lia]. rewrite lookup_app_l in Hb; [|lia]. by rewrite (area_write_in _ _ _ _ b); [|lia|].
    + rewrite lookup_app_r in Hb; [|lia]. rewrite (area_write_in _ _ _ _ b); [done|lia|]. rewrite -Hb. f_equal. lia.
  - rewrite !area_write_out ?length_app //; lia.
Qed.

Lemma transfer_out_ok fuel rest buffer base offset len :
  (length rest < fuel)%nat -> offset + Z.of_nat (length rest) <= len ->
  forall i, transfer_out fuel rest buffer base offset len i = area_write (base + offset) rest buffer i.
Proof.
  revert rest buffer offset. induction fuel as [|fuel IH] => rest buffer offset Hf Hl i; [lia|].
  cbn [transfer_out]. change (Z.to_nat SECTOR_SIZE) with 512%nat.
  destruct (1 <? _) eqn:Es; cbn [negb].
  - pose proof (sector_split _ Es) as Hlen. rewrite length_take Nat.min_l; [|lia]. ztest.
    rewrite IH; [|rewrite length_drop; lia|rewrite length_drop; lia].
    rewrite -{3}(take_drop 512 rest) area_write_app length_take Nat.min_l; [|lia]. f_equal. lia.
  - by ztest.
Qed.

Lemma transfer_in_ok fuel rest buffer base offset len :
  (length rest < fuel)%nat -> offset + Z.of_nat (length rest) <= len ->
  transfer_in fuel rest buffer base offset len = area_read (base + offset) (length rest) buffer.
Proof.
  revert rest offset. induction fuel as [|fuel IH] => rest offset Hf Hl; [lia|].
  cbn [transfer_in]. change (Z.to_nat SECTOR_SIZE) with 512%nat.
  destruct (1 <? _) eqn:Es; cbn [negb].
  - pose proof (sector_split _ Es) as Hlen. rewrite length_take Nat.min_l; [|lia]. ztest.
    rewrite IH; [|rewrite length_drop; lia|rewrite length_drop; lia].
    rewrite length_drop. apply list_eq_same_length with (length rest).
    + rewrite length_area_read. done.
    + rewrite length_app !length_area_read. lia.
    + intros j x y Hj. rewrite (area_read_lookup _ _ _ _ Hj). intros Hx [= <-].
      destruct (decide (j < 512)%nat) as [Hlt|Hge].
      * rewrite lookup_app_l in Hx; [|rewrite length_area_read; lia].
        rewrite area_read_lookup in Hx; [|lia]. by injection Hx as <-.
      * rewrite lookup_app_r in Hx; [|rewrite length_area_read; lia].
        rewrite length_area_read area_read_lookup in Hx; [|lia]. injection Hx as <-. f_equal. lia.
  - by ztest.
Qed.

Lemma bio_get_data_ok b buffer base i :
  bi_op b = REQ_OP_WRITE ->
  bio_get_data b buffer base (bio_get_data_len b) i = area_write base (bi_payload b) buffer i.
Proof.
  intros Hop. rewrite /bio_get_data /__bio_data_transfer Hop. cbn [snd].
  rewrite transfer_out_ok; [by rewrite Z.add_0_r|rewrite /transfer_fuel; lia|rewrite /bio_get_data_len /bi_size; lia].
Qed.

Lemma bio_set_data_ok b buffer base :
  bi_op b = REQ_OP_READ ->
  bio_set_data b buffer base (bio_get_data_len b) =
    bio_set_payload (area_read base (length (bi_payload b)) buffer) b.
Proof.
  intros Hop. rewrite /bio_set_data /__bio_data_transfer Hop. cbn [fst].
  rewrite transfer_in_ok; [by rewrite Z.add_0_r|rewrite /transfer_fuel; lia|rewrite /bio_get_data_len /bi_size; lia].
Qed.
