(* ===== verification/LevelSpec.v ===== *)
(** * What a level promises to the tree, and the codecs of nodes and requests

    The statements about a [bit_level] as a whole: files come and go without
    breaking the order of the level, the files picked for a merge are all that
    can share a key with the demoted ones, and a search returns the newest
    record of the level.  Behind them, the round trips of the encrypted node
    format and of the sector-wise transfer of a request's payload. *)
From S2P Require Import Prelude Codec Crypto BitNode Superblock Area Bloom Hashtable BitFile BitTree BitFileSpec Level.
From S2P Require Import CatalogueIface Memtable RbMemtable Compaction Instances Bio.

(** ** Files come and go *)
Lemma remove_middle id pre f post :
  Forall (fun g => bf_id g <> id) pre -> bf_id f = id -> remove_file_loop id (pre ++ f :: post) = Some (pre ++ post).
Proof.
  intros Hp Hf. induction Hp as [|g pre Hg Hp IH]; cbn [app remove_file_loop]; [by rewrite Hf Z.eqb_refl|].
  destruct (Z.eqb_spec (bf_id g) id); [done|]. by rewrite IH.
Qed.

(** C17: adding a file that overlaps no file of a level without overlaps keeps
    the level ordered and without overlaps, with exactly that file more; and
    removing it again by its id, when no other file has that id, restores the
    level as it was. *)
Theorem level_add_remove_file this file :
  lv_disjoint (lv_files this) -> lv_size this < lv_max_size this -> file_range_ok file ->
  (forall g, g ∈ lv_files this -> ~ file_overlap file g) -> (forall g, g ∈ lv_files this -> bf_id g <> bf_id file) ->
  exists this', bit_level_add_file file this = (Ok tt, this') /\ lv_disjoint (lv_files this') /\
    lv_files this' ≡ₚ file :: lv_files this /\ bit_level_remove_file (bf_id file) this' = (Ok tt, this).
Proof.
  intros Hd Hm Hf Hno Hid. destruct (lv_disjoint_add_file this file Hd Hm Hf Hno) as (fs' & Hadd & Hd' & Hp).
  pose proof (bit_level_add_file_split this file Hm (lv_disjoint_le _ Hd)) as Hsp. rewrite Hadd in Hsp.
  injection Hsp as Heq. eexists. split; [exact Hadd|]. do 2 (split; [done|]).
  rewrite /bit_level_remove_file. cbn [lv_files lv_set_files]. rewrite Heq remove_middle //.
  - rewrite take_drop. by destruct this.
  - apply Forall_forall => g Hg. apply Hid. by eapply elem_of_take in Hg as (? & ?%list_elem_of_lookup_2 & _).
Qed.

(** ** The files of a merge *)
(** C16: the files found next to the demoted ones are a run of the lower
    level, and every file of that level that shares a key range with one of
    the demoted files is among them. *)
Theorem level_relatives_complete this files :
  lv_disjoint (lv_files this) ->
  (exists pre post, lv_files this = pre ++ bit_level_find_relative_files this files ++ post) /\
  forall f g, f ∈ files -> g ∈ lv_files this -> file_overlap f g -> g ∈ bit_level_find_relative_files this files.
Proof.
  intros Hd. destruct (find_relative_split this files Hd) as (pre & post & Heq & Hpre & Hpost). split; [by exists pre, post|].
  intros f g Hf Hg [Ho1 Ho2]. rewrite Heq in Hg. apply elem_of_app in Hg as [Hg|[Hg|Hg]%elem_of_app]; [exfalso|done|exfalso].
  - eapply Forall_forall in Hpre; [|exact Hg]. cbn beta in Hpre.
    pose proof (files_first_le files f Hf). lia.
  - eapply Forall_forall in Hpost; [|exact Hg]. cbn beta in Hpost.
    pose proof (files_last_ge files f Hf). lia.
Qed.

(** ** Searching *)
Section level_spec.
Context {gcm : Gcm} {gcm_ok : GcmOk} {bs : Bsearch} {bs_ok : BsearchOk}.

(** C15: a search of a level, level 0 with its overlapping files or a deeper
    one without overlaps, returns the record of the newest file that has the
    key, and [-ENODATA] when no file has it; it changes nothing but the leaves
    the files have cached. *)
Theorem level_search_newest file k this ess :
  level_holds file (lv_files this) ess -> Forall (fun f => 0 <= bf_version f) (lv_files this) ->
  lv_level this = 0 \/ lv_disjoint (lv_files this) ->
  let '(r, this') := bit_level_search file k this in
  r = to_result (snd <$> newest k (sources (lv_files this) ess)) /\ level_holds file (lv_files this') ess /\
  exists fs', this' = lv_set_files fs' this /\ Forall2 bf_same (lv_files this) fs'.
Proof.
  intros Hh Hv Hl. destruct (decide (lv_level this = 0)) as [H0|H0]; [by apply level0_search_ok|].
  destruct Hl as [|Hd]; [done|]. rewrite (newest_disjoint file) //; [|apply Hd]. by apply leveln_search_ok.
Qed.
End level_spec.

(** ** The node format *)

(** A node written at the front of a buffer takes exactly the size of its
    kind, and decoding the buffer under the same key and IV gives the node
    back, whatever follows it. *)
Theorem bit_node_roundtrip {gcm : Gcm} {gcm_ok : GcmOk} n k v rest :
  bit_node_wf n ->
  Z.of_nat (length (bit_node_encode n k v)) = (if bn_is_leaf n then BIT_LEAF_NODE_SIZE else BIT_INNER_NODE_SIZE) /\
  bit_node_decode (bit_node_encode n k v ++ rest) (bn_is_leaf n) k v = Ok n.
Proof. intros Hwf. split; [by apply length_bit_node_encode|by apply bit_node_decode_encode]. Qed.

(** ** The payload of a request *)

(** Taking the data of a write request into a buffer and giving it to a
    read request of the same length at the same place gives that request the
    written payload, and the bytes around it are untouched. *)
Theorem bio_data_roundtrip w r buffer base :
  bi_op w = REQ_OP_WRITE -> bi_op r = REQ_OP_READ -> bi_size r = bi_size w ->
  let buffer' := bio_get_data w buffer base (bio_get_data_len w) in
  bi_payload (bio_set_data r buffer' base (bio_get_data_len r)) = bi_payload w /\
  forall i, i < base \/ base + bi_size w <= i -> buffer' i = buffer i.
Proof.
  intros Hw Hr Hs buffer'. split.
  - rewrite bio_set_data_ok //. cbn [bio_set_payload bi_payload]. rewrite /bi_size in Hs. apply Nat2Z.inj in Hs. rewrite Hs.
    rewrite -{2}(area_read_write_eq base (bi_payload w) buffer). apply area_read_ext => i _. rewrite /buffer' bio_get_data_ok //.
  - intros i Hi. rewrite /buffer' bio_get_data_ok //. apply area_write_out. rewrite /bi_size in Hi. lia.
Qed.

(** ** Concrete levels *)
Import ToyGcm ToyRng LinearSearch.

Definition sample_file (id first last : Z) : bit_file :=
  {| bf_id := id; bf_level := 1; bf_version := id; bf_root := 0; bf_root_key := []; bf_root_iv := [];
     bf_first_key := first; bf_last_key := last; bf_cached_leaf := zero_leaf; bf_filter_begin := 0;
     bf_filter := zero_filter |}.
Definition sample_level : bit_level :=
  {| lv_level := 1; lv_capacity := 4; lv_max_size := 12; lv_files := [sample_file 1 0 9; sample_file 2 20 29] |}.

Lemma sample_level_disjoint : lv_disjoint (lv_files sample_level).
Proof. split; repeat constructor; vm_compute; congruence. Qed.

Lemma level_add_remove_file_witness :
  exists this', bit_level_add_file (sample_file 3 12 17) sample_level = (Ok tt, this') /\
    lv_disjoint (lv_files this') /\ bit_level_remove_file 3 this' = (Ok tt, sample_level).
Proof.
  destruct (level_add_remove_file sample_level (sample_file 3 12 17) sample_level_disjoint) as (this' & H1 & H2 & _ & H3).
  - reflexivity.
  - vm_compute. congruence.
  - intros g [->|[->|Hg%elem_of_nil]%elem_of_cons]%elem_of_cons; [| |done]; intros [Ha Hb]; by vm_compute in Ha, Hb.
  - intros g [->|[->|Hg%elem_of_nil]%elem_of_cons]%elem_of_cons; [| |done]; vm_compute; congruence.
  - by exists this'.
Defined.

Lemma level_relatives_complete_witness :
  sample_file 2 20 29 ∈ bit_level_find_relative_files sample_level [sample_file 8 25 40].
Proof.
  destruct (level_relatives_complete sample_level [sample_file 8 25 40] sample_level_disjoint) as [_ Hc].
  apply (Hc (sample_file 8 25 40) (sample_file 2 20 29)); [left|right; left|split; vm_compute; congruence].
Defined.

(** A level of one built file. *)
Definition sample_built : bit_file * bit_io := bit_file_build 4096 3 0 7 area_zero io_zero (sample_ents 16).

Lemma sample_built_holds :
  level_holds (io_file sample_built.2) [sample_built.1] [sample_ents 16] /\ bf_version sample_built.1 = 7.
Proof.
  pose proof (bit_file_build_ok 4096 3 0 7 area_zero io_zero (sample_ents 16) ltac:(lia) (sample_wf 16 ltac:(lia))
    (sample_sorted 16) ltac:(rewrite length_sample; lia) ltac:(rewrite length_sample; vm_compute; congruence)
    ltac:(rewrite length_sample; vm_compute; reflexivity)) as Hok.
  rewrite /sample_built. destruct (bit_file_build _ _ _ _ _ _ _) as [f io']. cbn [fst snd].
  destruct Hok as (hi & Hok & _ & _ & _ & _ & _ & H5 & H6 & H7 & _). split; [|exact H5].
  constructor; [|constructor]. split; [by exists 4096, hi|]. rewrite H6 H7. vm_compute. repeat constructor; congruence.
Qed.

Lemma level_search_newest_witness :
  (bit_level_search (io_file sample_built.2) 5
    {| lv_level := 0; lv_capacity := 4; lv_max_size := 12; lv_files := [sample_built.1] |}).1 = Ok zero_record.
Proof.
  pose proof (level_search_newest (io_file sample_built.2) 5
    {| lv_level := 0; lv_capacity := 4; lv_max_size := 12; lv_files := [sample_built.1] |} [sample_ents 16]
    (proj1 sample_built_holds) ltac:(repeat constructor; rewrite (proj2 sample_built_holds); lia) ltac:(by left)) as Hs.
  destruct (bit_level_search _ _ _) as [r this']. destruct Hs as [-> _]. cbn [lv_files sources zip_with].
  rewrite /file_source (proj2 sample_built_holds). vm_compute. reflexivity.
Defined.

Lemma bit_node_roundtrip_witness :
  bit_node_decode (bit_node_encode (BitLeaf zero_leaf) [] [] ++ [Byte.x07]) true [] [] = Ok (BitLeaf zero_leaf).
Proof.
  exact (proj2 (bit_node_roundtrip (BitLeaf zero_leaf) [] [] [Byte.x07] zero_leaf_wf)).
Defined.

Lemma bio_data_roundtrip_witness :
  let w := {| bi_op := REQ_OP_WRITE; bi_sector := 3; bi_payload := replicate 1100 Byte.x07 |} in
  let r := {| bi_op := REQ_OP_READ; bi_sector := 3; bi_payload := replicate 1100 Byte.x00 |} in
  bi_payload (bio_set_data r (bio_get_data w area_zero 512 (bio_get_data_len w)) 512 (bio_get_data_len r))
    = replicate 1100 Byte.x07.
Proof. intros w r. exact (proj1 (bio_data_roundtrip w r area_zero 512 eq_refl eq_refl ltac:(vm_compute; reflexivity))). Defined.
