(* ===== verification/Segment.v ===== *)
(** * The data path: segment buffer, allocator, cleaner, prefetcher
    (source/segment_buffer.c, segment_allocator.c, dm-sworndisk.c)

    Blocks are written to a segment buffer, encrypted under a fresh key per
    block, and the whole segment goes to the data device when it is full.  The
    index maps a logical block to its physical block, key, IV and MAC.  When
    segments run short, victims with few live blocks are cleaned.

    The data path uses the index through [struct lsm_tree] and the tables
    through [struct metadata]; they share one state, of type [X] here, and are
    the classes [LsmIndex] and [DataMeta].  [None] stands for a fault. *)
From S2P Require Import Prelude Codec BlockManager DiskStructs Crypto BitNode Superblock SegValidator Dst Area Bio BitFile.

Class LsmIndex (X : Type) : Type := {
  ix_search : Z -> SE X record;
  ix_put : Z -> record -> X -> option X
}.

Class DataMeta (X : Type) : Type := {
  sv_next : SE X Z;
  sv_take : Z -> SE X unit;
  sv_test_and_return : Z -> SE X bool;
  sv_count : SE X Z;
  ds_take_segment : Z -> SE X unit;
  ds_take_block : Z -> SE X unit;
  ds_return_block : Z -> SE X unit;
  ds_victim_empty : X -> bool;
  ds_peek_victim : X -> option victim;
  ds_remove_victim : Z -> SE X (option victim);
  ds_threaded : X -> bool;
  rt_set : Z -> Z -> SE X unit;
  rt_get : Z -> SE X Z
}.

(** ** Bitmap searches (lib/find_bit.c): the first bit equal to [b] at or
    after [i], or the size of the map *)
Fixpoint find_from (b : bool) (n : nat) (i : nat) (l : list bool) : nat :=
  match n with
  | O => i
  | S n => match l !! i with
           | Some c => if eqb c b then i else find_from b n (S i) l
           | None => i
           end
  end.
Definition find_next_bit (l : list bool) (i : Z) : Z :=
  Z.of_nat (find_from true (length l - Z.to_nat i) (Z.to_nat i) l).
Definition find_next_zero_bit (l : list bool) (i : Z) : Z :=
  Z.of_nat (find_from false (length l - Z.to_nat i) (Z.to_nat i) l).

Inductive segment_allocator_status : Type := SEGMENT_ALLOCATING | SEGMENT_CLEANING.
#[export] Instance sa_status_eq_dec : EqDecision segment_allocator_status.
Proof. solve_decision. Defined.

Definition LEAST_CLEAN_SEGMENT_ONCE : Z := 1.
Definition THREAD_LOGGING_AHEAD : Z := 1.
Definition MIN_NR_FETCH : Z := 1.
Definition MAX_NR_FETCH : Z := 64.

(** ** struct bio_prefetcher *)
Record bio_prefetcher : Type := {
  pf_buffer : area;
  pf_begin : Z;
  pf_end : Z;
  pf_last_blkaddr : Z;
  pf_nr_fetch : Z
}.

(** ** The state of the data path: [struct default_segment_buffer], [struct
    default_segment_allocator], the prefetcher, the data device, and the index
    and tables *)
Record sworndisk (X : Type) : Type := {
  sd_x : X;
  sd_rng : nat;
  sd_disk : area;
  sb_buffer : area;
  sb_pipe : area;
  sb_cur_segment : Z;
  sb_cur_sector : Z;
  sa_nr_valid_segment : Z;
  sa_status : segment_allocator_status;
  sd_prefetcher : bio_prefetcher
}.
Arguments sd_x {X}. Arguments sd_rng {X}. Arguments sd_disk {X}. Arguments sb_buffer {X}. Arguments sb_pipe {X}.
Arguments sb_cur_segment {X}. Arguments sb_cur_sector {X}. Arguments sa_nr_valid_segment {X}.
Arguments sa_status {X}. Arguments sd_prefetcher {X}. Arguments Build_sworndisk {X}.

Section setters.
Context {X : Type}.
Implicit Types (s : sworndisk X).
Definition set_x (x : X) s : sworndisk X :=
  Build_sworndisk x (sd_rng s) (sd_disk s) (sb_buffer s) (sb_pipe s) (sb_cur_segment s) (sb_cur_sector s)
    (sa_nr_valid_segment s) (sa_status s) (sd_prefetcher s).
Definition set_rng (n : nat) s : sworndisk X :=
  Build_sworndisk (sd_x s) n (sd_disk s) (sb_buffer s) (sb_pipe s) (sb_cur_segment s) (sb_cur_sector s)
    (sa_nr_valid_segment s) (sa_status s) (sd_prefetcher s).
Definition set_disk (d : area) s : sworndisk X :=
  Build_sworndisk (sd_x s) (sd_rng s) d (sb_buffer s) (sb_pipe s) (sb_cur_segment s) (sb_cur_sector s)
    (sa_nr_valid_segment s) (sa_status s) (sd_prefetcher s).
Definition set_bufs (buffer pipe : area) s : sworndisk X :=
  Build_sworndisk (sd_x s) (sd_rng s) (sd_disk s) buffer pipe (sb_cur_segment s) (sb_cur_sector s)
    (sa_nr_valid_segment s) (sa_status s) (sd_prefetcher s).
Definition set_cursor (segment sector : Z) s : sworndisk X :=
  Build_sworndisk (sd_x s) (sd_rng s) (sd_disk s) (sb_buffer s) (sb_pipe s) segment sector
    (sa_nr_valid_segment s) (sa_status s) (sd_prefetcher s).
Definition set_alloc (n : Z) (st : segment_allocator_status) s : sworndisk X :=
  Build_sworndisk (sd_x s) (sd_rng s) (sd_disk s) (sb_buffer s) (sb_pipe s) (sb_cur_segment s) (sb_cur_sector s)
    n st (sd_prefetcher s).
Definition set_prefetcher (p : bio_prefetcher) s : sworndisk X :=
  Build_sworndisk (sd_x s) (sd_rng s) (sd_disk s) (sb_buffer s) (sb_pipe s) (sb_cur_segment s) (sb_cur_sector s)
    (sa_nr_valid_segment s) (sa_status s) p.
End setters.

Section data_path.
Context {X : Type} {ix : LsmIndex X} {dm : DataMeta X} {gcm : Gcm} {rng : Rng}.
Context (NR_SEGMENT : Z).
(** What in-place decryption leaves behind when it fails, what fresh kernel
    memory holds, and the uninitialised [lba] and [record] of the cleaner. *)
Context (garbage_plain : list byte -> list byte) (garbage_memory : area) (garbage_lba : Z) (garbage_record : record).
Implicit Types (s : sworndisk X).

(** ** Block I/O: transfers of whole blocks; a failed transfer is only
    logged, and transfers succeed here *)
Definition sworndisk_write_blocks (blkaddr count : Z) (src : area) (off : Z) (disk : area) : area :=
  area_copy (blkaddr * DATA_BLOCK_SIZE) src off (count * DATA_BLOCK_SIZE) disk.

Definition segbuf_query_encrypted_block s (blkaddr : Z) (buffer : area) (off : Z) : area :=
  let begin := sb_cur_segment s * BLOCKS_PER_SEGMENT in
  let end_ := begin + sb_cur_sector s / SECTORS_PER_BLOCK in
  if (blkaddr <? begin) || (end_ <=? blkaddr) then buffer
  else area_copy off (sb_pipe s) ((blkaddr - begin) * DATA_BLOCK_SIZE) DATA_BLOCK_SIZE buffer.

(** [for (i = 0; i < count; ++i)]: [n] rounds from [i]. *)
Fixpoint segbuf_query_encrypted_blocks s (n : nat) (i : Z) (blkaddr : Z) (buffer : area) (off : Z) : area :=
  match n with
  | O => buffer
  | S n => segbuf_query_encrypted_blocks s n (i + 1) blkaddr
             (segbuf_query_encrypted_block s (blkaddr + i) buffer (off + i * DATA_BLOCK_SIZE)) off
  end.

Definition sworndisk_read_blocks s (blkaddr count : Z) (buffer : area) (off : Z) : area :=
  segbuf_query_encrypted_blocks s (Z.to_nat count) 0 blkaddr
    (area_copy off (sd_disk s) (blkaddr * DATA_BLOCK_SIZE) (count * DATA_BLOCK_SIZE) buffer) off.

(** ** record_create with fresh key and IV; the MAC comes from the encryption *)
Definition record_create (pba : Z) s : record * sworndisk X :=
  ({| pba := pba; mac := replicate AES_GCM_AUTH_SIZE Byte.x00;
      key := rng_bytes (sd_rng s) AES_GCM_KEY_SIZE; iv := rng_bytes (S (sd_rng s)) AES_GCM_IV_SIZE |},
   set_rng (S (S (sd_rng s))) s).
Definition record_set_mac (m : list byte) (r : record) : record :=
  {| pba := pba r; mac := m; key := key r; iv := iv r |}.

(** ** Segment buffer *)
Definition GC_THREADHOLD : Z := u64 (NR_SEGMENT - 16).

Definition sworndisk_should_threaded_logging s : bool :=
  if sa_nr_valid_segment s <? u64 (GC_THREADHOLD - THREAD_LOGGING_AHEAD) then false else ds_threaded (sd_x s).

Definition next_block (threaded_logging : bool) s : option (Z * sworndisk X) :=
  if negb threaded_logging then
    Some ((sb_cur_segment s * SECTOES_PER_SEGMENT + sb_cur_sector s) / SECTORS_PER_BLOCK, s)
  else
    match ds_peek_victim (sd_x s) with
    | None => None
    | Some victim =>
        let offset := find_next_zero_bit (vi_block_validity_table victim) 0 in
        let blkaddr := vi_segno victim * BLOCKS_PER_SEGMENT + offset in
        Some (blkaddr, set_x ((ds_take_block blkaddr (sd_x s)).2) s)
    end.

Definition segbuf_flush_bios s : sworndisk X :=
  set_disk (sworndisk_write_blocks (sb_cur_segment s * BLOCKS_PER_SEGMENT) BLOCKS_PER_SEGMENT (sb_pipe s) 0 (sd_disk s)) s.

(** [push_block]: [alloc] is the allocator's entry point; its error code is ignored. *)
Definition segbuf_push_block (alloc : sworndisk X -> option (result unit * sworndisk X)) (lba : Z) (data : list byte) s
    : option (sworndisk X) :=
  let threaded_logging := sworndisk_should_threaded_logging s in
  let '(pre, x) := ix_search lba (sd_x s) in
  let x := match pre with Ok pre => (ds_return_block (pba pre) x).2 | Err _ => x end in
  match next_block threaded_logging (set_x x s) with
  | None => None
  | Some (pba, s) =>
      let '(record, s) := record_create pba s in
      let off := sb_cur_sector s * SECTOR_SIZE in
      let '(ct, m) := encrypt data (key record) (iv record) pba in
      let s := set_bufs (area_write off data (sb_buffer s)) (area_write off ct (sb_pipe s)) s in
      match ix_put lba (record_set_mac m record) (sd_x s) with
      | None => None
      | Some x =>
          let s := set_x ((rt_set pba lba x).2) s in
          if threaded_logging then
            Some (set_disk (sworndisk_write_blocks pba 1 (sb_pipe s) off (sd_disk s)) s)
          else
            let s := set_cursor (sb_cur_segment s) (sb_cur_sector s + SECTORS_PER_BLOCK) s in
            if SECTOES_PER_SEGMENT <=? sb_cur_sector s then
              let s := segbuf_flush_bios s in
              (fun rs => rs.2) <$> alloc (set_cursor (sb_cur_segment s) 0 s)
            else Some s
      end
  end.

(** ** Segment allocator *)
Definition sa_will_trigger_gc s : bool := GC_THREADHOLD <? sa_nr_valid_segment s.

Definition offset_in_region (offset region_begin region_end : Z) : bool :=
  (region_begin <=? offset) && (offset <? region_end).

(** The loop over the live blocks of a victim, from [offset] on. *)
Fixpoint gc_move_blocks (push : Z -> list byte -> sworndisk X -> option (sworndisk X)) (fuel : nat) (victim : victim)
    (offset region_begin region_end : Z) (buffer : area) s : option (sworndisk X) :=
  match fuel with
  | O => None
  | S fuel =>
      if offset <? BLOCKS_PER_SEGMENT then
        let pba := vi_segno victim * BLOCKS_PER_SEGMENT + offset in
        let '(region_begin, region_end, buffer) :=
          if offset_in_region offset region_begin region_end then (region_begin, region_end, buffer)
          else
            let region_end := find_next_zero_bit (vi_block_validity_table victim) offset in
            (offset, region_end,
             sworndisk_read_blocks s pba (region_end - offset) buffer (offset * DATA_BLOCK_SIZE)) in
        let '(lba, x) := match rt_get pba (sd_x s) with (Ok lba, x) => (lba, x) | (Err _, x) => (garbage_lba, x) end in
        let '(record, x) := match ix_search lba x with (Ok r, x) => (r, x) | (Err _, x) => (garbage_record, x) end in
        let s := set_x x s in
        let data := area_read (offset * DATA_BLOCK_SIZE) (Z.to_nat DATA_BLOCK_SIZE) buffer in
        match decrypt data (key record) (iv record) (mac record) (BitNode.pba record) with
        | Ok plaintext =>
            push lba plaintext s ≫=
            gc_move_blocks push fuel victim (find_next_bit (vi_block_validity_table victim) (offset + 1))
              region_begin region_end buffer
        | Err _ =>
            gc_move_blocks push fuel victim (find_next_bit (vi_block_validity_table victim) (offset + 1))
              region_begin region_end buffer s
        end
      else Some s
  end.

(** [while (clean < target && !victim_empty)] *)
Fixpoint gc_loop (push : Z -> list byte -> sworndisk X -> option (sworndisk X)) (fuel : nat) (clean : Z) (buffer : area) s
    : option (sworndisk X) :=
  match fuel with
  | O => None
  | S fuel =>
      if (clean <? LEAST_CLEAN_SEGMENT_ONCE * BLOCKS_PER_SEGMENT) && negb (ds_victim_empty (sd_x s)) then
        match ds_peek_victim (sd_x s) with
        | None => None
        | Some victim =>
            (if vi_nr_valid_block victim =? 0 then Some s
             else gc_move_blocks push (S (Z.to_nat BLOCKS_PER_SEGMENT)) victim
                    (find_next_bit (vi_block_validity_table victim) 0) 0 0 buffer s) ≫= fun s =>
            let '(r, x) := sv_test_and_return (vi_segno victim) (sd_x s) in
            let valid := match r with Ok valid => valid | Err _ => false end in
            let clean := if valid then clean + (BLOCKS_PER_SEGMENT - vi_nr_valid_block victim) else clean in
            let nr := if valid then u64 (sa_nr_valid_segment s - 1) else sa_nr_valid_segment s in
            let x := (ds_remove_victim (vi_segno victim) x).2 in
            gc_loop push fuel clean buffer (set_alloc nr (sa_status s) (set_x x s))
        end
      else Some s
  end.

Definition sa_foreground_gc (push : Z -> list byte -> sworndisk X -> option (sworndisk X)) (fuel : nat) s
    : option (sworndisk X) :=
  (fun s => set_alloc (sa_nr_valid_segment s) SEGMENT_ALLOCATING s) <$>
    gc_loop push fuel 0 garbage_memory (set_alloc (sa_nr_valid_segment s) SEGMENT_CLEANING s).

(** [alloc(al, &cur_segment)]: the new segment number is stored by [next].
    Allocation, cleaning and pushing call each other; [depth] bounds that
    recursion, and cleaning is not entered while cleaning. *)
Fixpoint sa_alloc (depth fuel : nat) s : option (result unit * sworndisk X) :=
  match depth with
  | O => None
  | S depth =>
      match sv_next (sd_x s) with
      | (Err e, x) => Some (Err e, set_x x s)
      | (Ok seg, x) =>
          let s := set_cursor seg (sb_cur_sector s) (set_x x s) in
          match sv_take seg (sd_x s) with
          | (Err e, x) => Some (Err e, set_x x s)
          | (Ok _, x) =>
              let s := set_alloc (u64 (sa_nr_valid_segment s + 1)) (sa_status s) (set_x x s) in
              match ds_take_segment seg (sd_x s) with
              | (Err e, x) => Some (Err e, set_x x s)
              | (Ok _, x) =>
                  let s := set_x x s in
                  if sa_will_trigger_gc s && negb (bool_decide (sa_status s = SEGMENT_CLEANING)) then
                    (fun s => (Ok tt, s)) <$> sa_foreground_gc (segbuf_push_block (sa_alloc depth fuel)) fuel s
                  else Some (Ok tt, s)
              end
          end
      end
  end.

(** [push_bio] *)
Definition segbuf_push_bio (alloc : sworndisk X -> option (result unit * sworndisk X)) (b : bio) s : option (sworndisk X) :=
  let lba := bio_get_block_address b in
  let slot := sb_cur_sector s * SECTOR_SIZE in
  let fill s :=
    let buffer := bio_get_data b (sb_buffer s) (slot + bio_block_sector_offset b * SECTOR_SIZE) (bio_get_data_len b) in
    let s := set_bufs buffer (sb_pipe s) s in
    segbuf_push_block alloc lba (area_read slot (Z.to_nat DATA_BLOCK_SIZE) (sb_buffer s)) s in
  if SECTORS_PER_BLOCK <=? bio_sectors b then fill s
  else
    match ix_search lba (sd_x s) with
    | (Err _, x) => fill (set_x x s)
    | (Ok r, x) =>
        let s := set_x x s in
        let buf_begin := sb_cur_segment s * BLOCKS_PER_SEGMENT in
        let buf_end := buf_begin + sb_cur_sector s / SECTORS_PER_BLOCK in
        if (pba r <? buf_begin) || (buf_end <=? pba r) then
          let buffer := sworndisk_read_blocks s (pba r) 1 (sb_buffer s) slot in
          let ct := area_read slot (Z.to_nat DATA_BLOCK_SIZE) buffer in
          let pt := match decrypt ct (key r) (iv r) (mac r) (pba r) with Ok pt => pt | Err _ => garbage_plain ct end in
          fill (set_bufs (area_write slot pt buffer) (sb_pipe s) s)
        else
          let off := (pba r - buf_begin) * DATA_BLOCK_SIZE in
          let buffer := bio_get_data b (sb_buffer s) (off + bio_block_sector_offset b * SECTOR_SIZE) (bio_get_data_len b) in
          let '(ct, m) := encrypt (area_read off (Z.to_nat DATA_BLOCK_SIZE) buffer) (key r) (iv r) (pba r) in
          let s := set_bufs buffer (area_write off ct (sb_pipe s)) s in
          (fun x => set_x x s) <$> ix_put lba (record_set_mac m r) (sd_x s)
    end.

Definition segbuf_query_bio (b : bio) s : result bio :=
  let bi_sector := bio_get_sector b in
  let begin := sb_cur_segment s * SECTOES_PER_SEGMENT in
  let end_ := begin + sb_cur_sector s in
  if (bi_sector <? begin) || (end_ <? bi_sector + bio_sectors b) then Err ENODATA
  else Ok (bio_set_data b (sb_buffer s) ((bi_sector - begin) * SECTOR_SIZE) (bio_get_data_len b)).

(** ** Prefetcher *)
Definition bio_prefetcher_init : bio_prefetcher :=
  {| pf_buffer := garbage_memory; pf_begin := 0; pf_end := 0; pf_last_blkaddr := 0; pf_nr_fetch := MIN_NR_FETCH + 1 |}.
Definition __bio_prefetcher_incache (this : bio_prefetcher) (blkaddr : Z) : bool :=
  (pf_begin this <=? blkaddr) && (blkaddr <? pf_end this).
Definition bio_prefetcher_clear (this : bio_prefetcher) : bio_prefetcher :=
  {| pf_buffer := pf_buffer this; pf_begin := 0; pf_end := 0; pf_last_blkaddr := pf_last_blkaddr this;
     pf_nr_fetch := pf_nr_fetch this |}.

Definition bio_prefetcher_get (blkaddr : Z) s : list byte * sworndisk X :=
  let this := sd_prefetcher s in
  let this :=
    if negb (__bio_prefetcher_incache this blkaddr) then
      let remain_block := u64 (NR_SEGMENT * BLOCKS_PER_SEGMENT - blkaddr) in
      let fetched := Z.min (pf_nr_fetch this) remain_block in
      {| pf_buffer := sworndisk_read_blocks s blkaddr fetched (pf_buffer this) 0;
         pf_begin := blkaddr; pf_end := blkaddr + fetched; pf_last_blkaddr := pf_last_blkaddr this;
         pf_nr_fetch := if u64 (pf_last_blkaddr this - pf_begin this) <? pf_nr_fetch this / 4 * 3
                        then Z.max (Z.shiftr (pf_nr_fetch this) 1) (MIN_NR_FETCH + 1) else pf_nr_fetch this |}
    else
      {| pf_buffer := pf_buffer this; pf_begin := pf_begin this; pf_end := pf_end this; pf_last_blkaddr := blkaddr;
         pf_nr_fetch := if Z.shiftr (pf_nr_fetch this) 1 <=? blkaddr - pf_begin this
                        then Z.min (Z.shiftl (pf_nr_fetch this) 1) MAX_NR_FETCH else pf_nr_fetch this |} in
  (area_read ((blkaddr - pf_begin this) * DATA_BLOCK_SIZE) (Z.to_nat DATA_BLOCK_SIZE) (pf_buffer this),
   set_prefetcher this s).

(** ** Requests *)
Definition sworndisk_do_read (b : bio) s : bio * sworndisk X :=
  match ix_search (bio_get_block_address b) (sd_x s) with
  | (Err _, x) => (b, set_x x s)
  | (Ok r, x) =>
      let s := set_x x s in
      let b := bio_set_sector (pba r * SECTORS_PER_BLOCK + bio_block_sector_offset b) b in
      match segbuf_query_bio b s with
      | Ok b => (b, s)
      | Err _ =>
          let '(ct, s) := bio_prefetcher_get (pba r) s in
          match decrypt ct (key r) (iv r) (mac r) (pba r) with
          | Ok pt =>
              let buffer := area_write 0 pt garbage_memory in
              (bio_set_data b buffer (bio_block_sector_offset b * SECTOR_SIZE) (bio_get_data_len b), s)
          | Err _ => (b, s)
          end
      end
  end.

(** Allocation calls the cleaner, the cleaner pushes, pushing allocates:
    depth two is as deep as it gets. *)
Definition sa_alloc_depth : nat := 2.

Definition sworndisk_do_write (fuel : nat) (b : bio) s : option (sworndisk X) :=
  (fun s => set_prefetcher (bio_prefetcher_clear (sd_prefetcher s)) s) <$>
    segbuf_push_bio (sa_alloc sa_alloc_depth fuel) b s.

(** ** Life cycle of the buffer and the allocator *)
Definition sa_init (x : X) : result (Z * segment_allocator_status) * X :=
  match sv_count x with
  | (Ok n, x) => (Ok (n, SEGMENT_ALLOCATING), x)
  | (Err e, x) => (Err e, x)
  end.
Definition segbuf_init (fuel : nat) s : option (result unit * sworndisk X) :=
  match sa_alloc sa_alloc_depth fuel s with
  | Some (Ok _, s) => Some (Ok tt, set_bufs garbage_memory garbage_memory (set_cursor (sb_cur_segment s) 0 s))
  | r => r
  end.
Definition segbuf_destroy s : sworndisk X := segbuf_flush_bios s.
End data_path.
