(* ===== verification/Device.v ===== *)
(** * The device-mapper target (source/dm-sworndisk.c, source/async.c)

    The target splits requests at block boundaries and queues them; a worker
    takes the queue, runs writes itself and hands reads to other workers,
    limited by a counting semaphore.  The constructor and the destructor build
    and take down the components. *)
From S2P Require Import Prelude Codec BlockManager DiskStructs Crypto BitNode Superblock SegValidator Dst Area Bio BitFile Segment.

Inductive map_result : Type := DM_MAPIO_SUBMITTED | DM_MAPIO_REMAPPED.

Definition MAX_READER : Z := 4.

(** ** Requests in flight

    [dq_deferred] is [deferred_bios] and [dq_taken] the worker's private list;
    [dq_reading] are the reads handed to other workers: the closures on the
    work queue.  [dq_count] is the semaphore [max_reader].  [dq_done] are the
    finished requests, newest first: each as it was accepted, with the bio as it
    was handed back ([bio_endio]); and [dq_dropped] the reads for which there
    was no memory for a closure. *)
Record queue (X : Type) : Type := {
  dq_disk : sworndisk X;
  dq_deferred : list bio;
  dq_taken : list bio;
  dq_reading : list bio;
  dq_count : Z;
  dq_done : list (bio * bio);
  dq_dropped : list bio
}.
Arguments dq_disk {X}. Arguments dq_deferred {X}. Arguments dq_taken {X}. Arguments dq_reading {X}.
Arguments dq_count {X}. Arguments dq_done {X}. Arguments dq_dropped {X}. Arguments Build_queue {X}.

(** [go(fn, context)]: a closure is put on the work queue, unless [kmalloc]
    fails; then nothing happens.  [unscheduled] keeps account of those. *)
Definition go {A} (kmalloc : bool) (context : A) (work : list A) : list A := if kmalloc then context :: work else work.
Definition unscheduled {A} (kmalloc : bool) (context : A) (dropped : list A) : list A := if kmalloc then dropped else context :: dropped.

(** [dm_accept_partial_bio]: the rest is resubmitted by the device mapper. *)
Definition dm_accept_partial_bio (b : bio) (n : Z) : bio :=
  bio_set_payload (take (Z.to_nat (n * SECTOR_SIZE)) (bi_payload b)) b.

Definition map_split (b : bio) : bio :=
  let block_aligned := SECTORS_PER_BLOCK - bio_block_sector_offset b in
  if block_aligned <? bio_sectors b then dm_accept_partial_bio b block_aligned else b.

Definition dm_sworndisk_target_map {X} (b : bio) (q : queue X) : map_result * queue X :=
  let b := map_split b in
  match bi_op b with
  | REQ_OP_READ | REQ_OP_WRITE =>
      (DM_MAPIO_SUBMITTED,
       Build_queue (dq_disk q) (dq_deferred q ++ [b]) (dq_taken q) (dq_reading q) (dq_count q) (dq_done q) (dq_dropped q))
  | REQ_OP_OTHER => (DM_MAPIO_REMAPPED, q)
  end.

Section target.
Context {X : Type} {ix : LsmIndex X} {dm : DataMeta X} {gcm : Gcm} {rng : Rng}.
Context (NR_SEGMENT : Z) (garbage_plain : list byte -> list byte) (garbage_memory : area)
        (garbage_lba : Z) (garbage_record : record) (fuel : nat).

(** The steps of [process_deferred_bios] and of [closure_exec] with
    [async_read], each atomic under the locks the code holds. *)
Inductive work_step : queue X -> queue X -> Prop :=
| Step_take disk deferred reading count done dropped :
    (** [bio_list_take_safe] *)
    work_step (Build_queue disk deferred [] reading count done dropped) (Build_queue disk [] deferred reading count done dropped)
| Step_read disk deferred b taken reading count done dropped kmalloc :
    (** [down_timeout] got the semaphore *)
    bi_op b = REQ_OP_READ -> 0 < count ->
    work_step (Build_queue disk deferred (b :: taken) reading count done dropped)
              (Build_queue disk deferred taken (go kmalloc b reading) (count - 1) done (unscheduled kmalloc b dropped))
| Step_read_timeout disk deferred b taken reading done dropped kmalloc :
    (** it timed out; the read is started all the same *)
    bi_op b = REQ_OP_READ ->
    work_step (Build_queue disk deferred (b :: taken) reading 0 done dropped)
              (Build_queue disk deferred taken (go kmalloc b reading) 0 done (unscheduled kmalloc b dropped))
| Step_write disk disk' deferred b taken reading count done dropped :
    bi_op b = REQ_OP_WRITE ->
    sworndisk_do_write NR_SEGMENT garbage_plain garbage_memory garbage_lba garbage_record fuel b disk = Some disk' ->
    work_step (Build_queue disk deferred (b :: taken) reading count done dropped)
              (Build_queue disk' deferred taken reading count ((b, b) :: done) dropped)
| Step_finish disk disk' deferred taken pre b post b' count done dropped :
    (** [async_read]: the read itself, then [up(&max_reader)] *)
    sworndisk_do_read NR_SEGMENT garbage_memory b disk = (b', disk') ->
    work_step (Build_queue disk deferred taken (pre ++ b :: post) count done dropped)
              (Build_queue disk' deferred taken (pre ++ post) (count + 1) ((b, b') :: done) dropped).

(** A request comes in, or the workers go on. *)
Inductive dev_step (q q' : queue X) : Prop :=
| Step_map b r : dm_sworndisk_target_map b q = (r, q') -> dev_step q q'
| Step_work : work_step q q' -> dev_step q q'.

Definition queue_init (disk : sworndisk X) : queue X := Build_queue disk [] [] [] MAX_READER [] [].
End target.

(** ** Constructor

    The outcome of each call the constructor makes; [None] in [ce_start] is a
    third argument that does not scan. *)
Record ctr_env : Type := {
  ce_argc : Z;
  ce_alloc : bool;
  ce_start : option Z;
  ce_data_dev : bool;
  ce_metadata_dev : bool;
  ce_io_client : bool;
  ce_meta : bool;
  ce_cipher : bool;
  ce_lsm_tree : bool;
  ce_seg_allocator : bool;
  ce_seg_buffer : bool
}.

Inductive component : Type := SegBuffer | SegAllocator | LsmTree | Meta | Cipher | IoClient.
#[export] Instance component_eq_dec : EqDecision component.
Proof. solve_decision. Defined.

(** [Ctr_err ret l]: the error code ([None] when [ret] was never set) and the
    components that were destroyed; [Ctr_fault]: a null dereference. *)
Inductive ctr_outcome : Type :=
| Ctr_ok
| Ctr_err (ret : option Z) (destroyed : list component)
| Ctr_fault.

(** The [bad:] path, for the components that were created, in its order. *)
Definition ctr_bad (ret : option Z) (created : list component) : ctr_outcome :=
  Ctr_err ret (filter (fun c => c ∈ created) [SegBuffer; SegAllocator; LsmTree; Meta; Cipher; IoClient]).

(** [bad:] starts with [&sworndisk->prefetcher], which faults on a null
    [sworndisk]. *)
Definition dm_sworndisk_target_ctr (env : ctr_env) : ctr_outcome :=
  if negb (ce_argc env =? 3) then Ctr_fault
  else if negb (ce_alloc env) then Ctr_fault
  else match ce_start env with
  | None => ctr_bad (Some (- EINVAL)) []
  | Some _ =>
      if negb (ce_data_dev env) then ctr_bad None []
      else if negb (ce_metadata_dev env) then ctr_bad None []
      else if negb (ce_io_client env) then ctr_bad (Some (- EAGAIN)) []
      else if negb (ce_meta env) then ctr_bad (Some (- EAGAIN)) [IoClient]
      else if negb (ce_cipher env) then ctr_bad (Some (- EAGAIN)) [IoClient; Meta]
      else if negb (ce_lsm_tree env) then ctr_bad (Some (- EAGAIN)) [IoClient; Meta; Cipher]
      else if negb (ce_seg_allocator env) then ctr_bad (Some (- EAGAIN)) [IoClient; Meta; Cipher; LsmTree]
      else if negb (ce_seg_buffer env) then ctr_bad (Some (- EAGAIN)) [IoClient; Meta; Cipher; LsmTree; SegAllocator]
      else Ctr_ok
  end.

(** ** What the target guarantees *)
Definition bio_in_block (b : bio) : Prop := bio_block_sector_offset b + bio_sectors b <= SECTORS_PER_BLOCK.

Lemma map_split_in_block b : bio_in_block (map_split b).
Proof.
  rewrite /map_split /bio_in_block.
  assert (0 <= bio_block_sector_offset b < 8) as Ho by (apply Z.mod_pos_bound; done).
  change SECTORS_PER_BLOCK with 8. destruct (Z.ltb_spec (8 - bio_block_sector_offset b) (bio_sectors b)); [|lia].
  change (bio_block_sector_offset (dm_accept_partial_bio b _)) with (bio_block_sector_offset b).
  rewrite /bio_sectors /bi_size /dm_accept_partial_bio /bio_set_payload. cbn [bi_payload].
  rewrite length_take Z.shiftr_div_pow2 //. change (2 ^ 9) with 512. change SECTOR_SIZE with 512.
  pose proof (Z.div_le_mono (Z.of_nat (Z.to_nat ((8 - bio_block_sector_offset b) * 512) `min` length (bi_payload b)))
    ((8 - bio_block_sector_offset b) * 512) 512 ltac:(lia) ltac:(lia)) as Hd.
  rewrite Z.div_mul // in Hd. lia.
Qed.

Section target_facts.
Context {X : Type} {ix : LsmIndex X} {dm : DataMeta X} {gcm : Gcm} {rng : Rng}.
Context (NR_SEGMENT : Z) (garbage_plain : list byte -> list byte) (garbage_memory : area)
        (garbage_lba : Z) (garbage_record : record) (fuel : nat).
Let step := dev_step NR_SEGMENT garbage_plain garbage_memory garbage_lba garbage_record fuel.

Definition all_bios (q : queue X) : list bio := dq_deferred q ++ dq_taken q ++ dq_reading q.

Record queue_inv (q : queue X) : Prop := {
  qi_block : Forall bio_in_block (all_bios q);
  qi_op : Forall (fun b => bi_op b <> REQ_OP_OTHER) (all_bios q);
  qi_reading : Forall (fun b => bi_op b = REQ_OP_READ) (dq_reading q);
  qi_count : 0 <= dq_count q;
  qi_permits : MAX_READER <= dq_count q + Z.of_nat (length (dq_reading q)) + Z.of_nat (length (dq_dropped q))
}.

Lemma map_inv b q r q' : queue_inv q -> dm_sworndisk_target_map b q = (r, q') -> queue_inv q'.
Proof.
  intros [H1 H2 H3 H4 H5]. rewrite /dm_sworndisk_target_map. pose proof (map_split_in_block b) as Hs.
  assert (bi_op (map_split b) <> REQ_OP_OTHER ->
    queue_inv (Build_queue (dq_disk q) (dq_deferred q ++ [map_split b]) (dq_taken q) (dq_reading q) (dq_count q) (dq_done q) (dq_dropped q))) as Hadd.
  { intros Hop. split; try done; rewrite /all_bios /= -!app_assoc.
    - rewrite /all_bios in H1. apply Forall_app in H1 as [H1a H1b]. apply Forall_app. split; [done|]. by constructor.
    - rewrite /all_bios in H2. apply Forall_app in H2 as [H2a H2b]. apply Forall_app. split; [done|]. by constructor. }
  destruct (bi_op (map_split b)); intros [= <- <-]; [by apply Hadd|by apply Hadd|done].
Qed.

Lemma step_inv q q' : queue_inv q -> step q q' -> queue_inv q'.
Proof.
  intros Hq [b r Hm|Hw]; [by eapply map_inv|]. destruct Hw as [|? ? ? ? ? ? ? ? []|? ? ? ? ? ? ? []| |]; destruct Hq as [H1 H2 H3 H4 H5];
    rewrite /all_bios /= in H1 H2; simpl in *;
    rewrite ?Forall_app ?Forall_cons in H1 H2 H3; rewrite ?Forall_app ?Forall_cons in H1 H2;
    (split; rewrite /all_bios /=; rewrite ?Forall_app ?Forall_cons; rewrite ?Forall_app ?Forall_cons; try done;
     rewrite ?length_app /= in H5 |- *; try lia; naive_solver).
Qed.
End target_facts.
