(* ===== verification/DataPath.v ===== *)
(** * The data path keeps what was written

    The laws the data path relies on of the index and the tables
    ([DataPathOk]), the invariant that ties index, segment buffer, device and
    prefetcher together, and what reads and writes do to the disk's contents,
    a map from logical blocks to their data. *)
From S2P Require Import Prelude Codec BlockManager DiskStructs Crypto BitNode Superblock SegValidator Dst Area Bio BitFile BitFileSpec Segment.

(** ** What the data path relies on of the index and the tables

    The views of their common state: the index, the segments in use, the valid
    blocks and the segments with invalid ones (the victims), and the reverse
    index. *)
Class DataView (X : Type) : Type := {
  x_inv : X -> Prop;
  x_map : X -> gmap Z record;
  x_used : X -> Z -> bool;
  x_valid : X -> Z -> bool;
  x_lba : X -> Z -> Z;
  x_victims : X -> gset Z;
  (** the keys the index takes, and that it takes so many more records *)
  x_key : Z -> Prop;
  x_room : nat -> X -> Prop
}.

(** The validity bits of a segment and their number; the segments in use. *)
Definition seg_bits (valid : Z -> bool) (seg : Z) : list bool := valid <$> seqZ (seg * BLOCKS_PER_SEGMENT) BLOCKS_PER_SEGMENT.
Definition seg_count (valid : Z -> bool) (seg : Z) : Z := count_true (seg_bits valid seg).
Definition nr_used (NR_SEGMENT : Z) (used : Z -> bool) : Z := count_true (used <$> seqZ 0 NR_SEGMENT).

Record x_is `{DataView X} (x' : X) (m : gmap Z record) (used valid : Z -> bool) (lba : Z -> Z) (vs : gset Z) : Prop := {
  xs_inv : x_inv x';
  xs_map : x_map x' = m;
  xs_used i : x_used x' i = used i;
  xs_valid b : x_valid x' b = valid b;
  xs_lba b : x_lba x' b = lba b;
  xs_victims : x_victims x' = vs
}.
(** A step that leaves the index as it is. *)
Definition x_next `{DataView X} (x x' : X) (used valid : Z -> bool) (lba : Z -> Z) (vs : gset Z) : Prop :=
  x_is x' (x_map x) used valid lba vs /\ forall n, x_room n x -> x_room n x'.
Definition x_same `{DataView X} (x x' : X) : Prop := x_next x x' (x_used x) (x_valid x) (x_lba x) (x_victims x).

Class DataPathOk (X : Type) {ix : LsmIndex X} {dm : DataMeta X} {dv : DataView X} (NR_SEGMENT : Z) : Prop := {
  x_room_le (x : X) n k : (n <= k)%nat -> x_room k x -> x_room n x;
  x_victims_range (x : X) i : x_inv x -> i ∈ x_victims x -> 0 <= i < NR_SEGMENT;
  ix_search_ok x lba : x_inv x -> x_key lba ->
    exists x', ix_search lba x = (match x_map x !! lba with Some r => Ok r | None => Err ENODATA end, x') /\ x_same x x';
  ix_put_ok x lba r : x_inv x -> x_key lba -> x_room 1 x -> cwf record_codec r ->
    exists x', ix_put lba r x = Some x' /\ x_is x' (<[lba := r]> (x_map x)) (x_used x) (x_valid x) (x_lba x) (x_victims x) /\
      forall n, x_room (S n) x -> x_room n x';
  sv_next_ok x : x_inv x ->
    match sv_next x with
    | (Ok seg, x') => 0 <= seg < NR_SEGMENT /\ x_used x seg = false /\ x_same x x'
    | (Err _, x') => x_same x x' /\ forall i, 0 <= i < NR_SEGMENT -> x_used x i = true
    end;
  sv_take_ok x seg : x_inv x -> 0 <= seg < NR_SEGMENT ->
    exists x', sv_take seg x = (Ok tt, x') /\
      x_next x x' (fun i => (i =? seg) || x_used x i) (x_valid x) (x_lba x) (x_victims x);
  sv_test_and_return_ok x seg : x_inv x -> 0 <= seg < NR_SEGMENT ->
    exists x', sv_test_and_return seg x = (Ok (x_used x seg), x') /\
      x_next x x' (fun i => negb (i =? seg) && x_used x i) (x_valid x) (x_lba x) (x_victims x);
  sv_count_ok x : x_inv x -> exists x', sv_count x = (Ok (nr_used NR_SEGMENT (x_used x)), x') /\ x_same x x';
  ds_take_segment_ok x seg : x_inv x -> 0 <= seg < NR_SEGMENT ->
    (forall b, b / BLOCKS_PER_SEGMENT = seg -> x_valid x b = false) ->
    exists x', ds_take_segment seg x = (Ok tt, x') /\
      x_next x x' (x_used x) (fun b => (b / BLOCKS_PER_SEGMENT =? seg) || x_valid x b) (x_lba x) (x_victims x ∖ {[seg]});
  ds_return_block_ok x pba : x_inv x -> 0 <= pba < NR_SEGMENT * BLOCKS_PER_SEGMENT -> x_valid x pba = true ->
    x_next x (ds_return_block pba x).2 (x_used x) (fun b => negb (b =? pba) && x_valid x b) (x_lba x)
      ({[pba / BLOCKS_PER_SEGMENT]} ∪ x_victims x);
  ds_peek_victim_ok x : x_inv x ->
    match ds_peek_victim x with
    | Some v => vi_segno v ∈ x_victims x /\ vi_block_validity_table v = seg_bits (x_valid x) (vi_segno v) /\
        vi_nr_valid_block v = seg_count (x_valid x) (vi_segno v) /\
        (forall i, i ∈ x_victims x -> vi_nr_valid_block v <= seg_count (x_valid x) i)
    | None => x_victims x = ∅
    end;
  ds_victim_empty_ok x : x_inv x -> ds_victim_empty x = bool_decide (x_victims x = ∅);
  ds_threaded_ok x : x_inv x ->
    ds_threaded x = match ds_peek_victim x with Some v => BLOCKS_PER_SEGMENT / 4 * 3 <? vi_nr_valid_block v | None => false end;
  ds_remove_victim_ok x seg : x_inv x ->
    x_next x (ds_remove_victim seg x).2 (x_used x) (x_valid x) (x_lba x) (x_victims x ∖ {[seg]});
  rt_set_ok x pba lba : x_inv x -> 0 <= pba < NR_SEGMENT * BLOCKS_PER_SEGMENT -> x_key lba ->
    x_next x (rt_set pba lba x).2 (x_used x) (x_valid x) (fun b => if b =? pba then lba else x_lba x b) (x_victims x);
  rt_get_ok x pba : x_inv x -> 0 <= pba < NR_SEGMENT * BLOCKS_PER_SEGMENT ->
    exists x', rt_get pba x = (Ok (x_lba x pba), x') /\ x_same x x';
  x_victims_open (x : X) i : x_inv x -> i ∈ x_victims x -> seg_count (x_valid x) i < BLOCKS_PER_SEGMENT;
  ds_take_block_ok x pba : x_inv x -> 0 <= pba < NR_SEGMENT * BLOCKS_PER_SEGMENT -> x_valid x pba = false ->
    exists vs, vs ⊆ {[pba / BLOCKS_PER_SEGMENT]} ∪ x_victims x /\
      (seg_count (fun b => (b =? pba) || x_valid x b) (pba / BLOCKS_PER_SEGMENT) < BLOCKS_PER_SEGMENT -> pba / BLOCKS_PER_SEGMENT ∈ vs) /\
      x_next x (ds_take_block pba x).2 (x_used x) (fun b => (b =? pba) || x_valid x b) (x_lba x) vs
}.

Section data_path_facts.
Context {X : Type} {ix : LsmIndex X} {dm : DataMeta X} {dv : DataView X} {gcm : Gcm} {gcm_ok : GcmOk} {rng : Rng} {rng_ok : RngOk}.
Context (NR_SEGMENT : Z) {ok : DataPathOk X NR_SEGMENT}.
Context (garbage_plain : list byte -> list byte) (garbage_memory : area) (garbage_lba : Z) (garbage_record : record).
Implicit Types (s : sworndisk X) (x : X).

Lemma x_next_trans x y z u1 v1 l1 vs1 u2 v2 l2 vs2 :
  x_next x y u1 v1 l1 vs1 -> x_next y z u2 v2 l2 vs2 -> x_next x z u2 v2 l2 vs2.
Proof. intros [[H1 H2 _ _ _ _] H3] [[I1 I2 I3 I4 I5 I6] I7]. split; [split; try done; congruence|auto]. Qed.
Lemma x_same_next x y z u v l vs :
  x_same x y -> x_next y z u v l vs -> x_next x z u v l vs.
Proof. intros H1 H2. exact (x_next_trans _ _ _ _ _ _ _ _ _ _ _ H1 H2). Qed.
Lemma x_same_refl x : x_inv x -> x_same x x.
Proof. done. Qed.
Lemma x_same_trans x y z : x_same x y -> x_same y z -> x_same x z.
Proof.
  intros [[H1 H2 H3 H4 H5 H6] H7] [[I1 I2 I3 I4 I5 I6] I7].
  split; [split; [done|congruence|intros; rewrite I3; apply H3|intros; rewrite I4; apply H4|intros; rewrite I5; apply H5|congruence]|auto].
Qed.

(** ** Where the ciphertext of a block is *)
Definition sb_filled s : Z := sb_cur_sector s / SECTORS_PER_BLOCK.
Definition in_segbuf s (b : Z) : bool :=
  (sb_cur_segment s * BLOCKS_PER_SEGMENT <=? b) && (b <? sb_cur_segment s * BLOCKS_PER_SEGMENT + sb_filled s).
Definition slot_of s (b : Z) : Z := (b - sb_cur_segment s * BLOCKS_PER_SEGMENT) * DATA_BLOCK_SIZE.
Definition block_bytes : nat := Z.to_nat DATA_BLOCK_SIZE.
Definition stored s (b : Z) : list byte :=
  if in_segbuf s b then area_read (slot_of s b) block_bytes (sb_pipe s)
  else area_read (b * DATA_BLOCK_SIZE) block_bytes (sd_disk s).

Lemma area_read_copy_in doff src soff len dst off (n : nat) :
  doff <= off -> off + Z.of_nat n <= doff + len ->
  area_read off n (area_copy doff src soff len dst) = area_read (soff + (off - doff)) n src.
Proof.
  intros H1 H2. apply list_eq_same_length with n; try apply length_area_read.
  intros i x y Hi. rewrite !area_read_lookup //. intros [= <-] [= <-]. rewrite area_copy_inside; [|lia]. f_equal. lia.
Qed.
Lemma area_read_copy_out doff src soff len dst off (n : nat) :
  off + Z.of_nat n <= doff \/ doff + len <= off ->
  area_read off n (area_copy doff src soff len dst) = area_read off n dst.
Proof. intros Hd. apply area_read_ext => i Hi. apply area_copy_outside. lia. Qed.

(** ** Reading blocks: the device, overlaid with the segment buffer *)
Lemma query_loop_ok s n i blkaddr buffer off j :
  0 <= j ->
  area_read (off + j * DATA_BLOCK_SIZE) block_bytes (segbuf_query_encrypted_blocks s n i blkaddr buffer off) =
    if (i <=? j) && (j <? i + Z.of_nat n) && in_segbuf s (blkaddr + j)
    then area_read (slot_of s (blkaddr + j)) block_bytes (sb_pipe s)
    else area_read (off + j * DATA_BLOCK_SIZE) block_bytes buffer.
Proof.
  change DATA_BLOCK_SIZE with 4096. revert i buffer. induction n as [|n IH] => i buffer Hj; cbn [segbuf_query_encrypted_blocks].
  { zbool; simpl; done || lia. }
  rewrite IH //. rewrite /segbuf_query_encrypted_block. change DATA_BLOCK_SIZE with 4096. rewrite -/(sb_filled s).
  set (B := sb_cur_segment s * BLOCKS_PER_SEGMENT).
  assert (forall b, (b <? B) || (B + sb_filled s <=? b) = negb (in_segbuf s b)) as Hneg.
  { intros b. rewrite /in_segbuf -/B. zbool; simpl; done || lia. }
  rewrite Hneg. destruct (decide (i = j)) as [->|Hne].
  - replace (j + 1 <=? j) with false by (symmetry; apply Z.leb_gt; lia). cbn [andb]. rewrite Z.leb_refl. ztest. cbn [andb].
    destruct (in_segbuf s (blkaddr + j)); cbn [negb]; [|done]. rewrite /block_bytes.
    rewrite area_read_copy_in; [|lia|change (Z.of_nat (Z.to_nat DATA_BLOCK_SIZE)) with 4096; lia].
    f_equal. rewrite /slot_of -/B. change DATA_BLOCK_SIZE with 4096. lia.
  - replace ((i <=? j) && (j <? i + Z.of_nat (S n))) with ((i + 1 <=? j) && (j <? i + 1 + Z.of_nat n))
      by (zbool; simpl; done || lia).
    destruct (_ && in_segbuf s (blkaddr + j)); [done|]. destruct (in_segbuf s (blkaddr + i)); cbn [negb]; [|done].
    rewrite area_read_copy_out; [done|]. rewrite /block_bytes. change (Z.of_nat (Z.to_nat DATA_BLOCK_SIZE)) with 4096. lia.
Qed.

Lemma read_blocks_ok s blkaddr count buffer off j :
  0 <= j < count ->
  area_read (off + j * DATA_BLOCK_SIZE) block_bytes (sworndisk_read_blocks s blkaddr count buffer off) =
    stored s (blkaddr + j).
Proof.
  intros Hj. rewrite /sworndisk_read_blocks query_loop_ok; [|lia]. rewrite Z2Nat.id; [|lia].
  do 2 ztest. cbn [andb]. rewrite /stored. destruct (in_segbuf s (blkaddr + j)); [done|].
  change DATA_BLOCK_SIZE with 4096 in *. rewrite /block_bytes.
  rewrite area_read_copy_in; [f_equal; lia|lia|]. change (Z.of_nat (Z.to_nat DATA_BLOCK_SIZE)) with 4096. lia.
Qed.

(** ** Invariant *)
Definition block_holds s (r : record) (data : list byte) : Prop :=
  cwf record_codec r /\ 0 <= pba r < NR_SEGMENT * BLOCKS_PER_SEGMENT /\
  x_used (sd_x s) (pba r / BLOCKS_PER_SEGMENT) = true /\
  length data = block_bytes /\ encrypt data (key r) (iv r) (pba r) = (stored s (pba r), mac r) /\
  (pba r / BLOCKS_PER_SEGMENT = sb_cur_segment s -> in_segbuf s (pba r) = true) /\
  (in_segbuf s (pba r) = true -> area_read (slot_of s (pba r)) block_bytes (sb_buffer s) = data).

(** The prefetcher's buffer agrees with what is stored. *)
Definition prefetch_ok s : Prop :=
  2 <= pf_nr_fetch (sd_prefetcher s) <= MAX_NR_FETCH /\ 0 <= pf_begin (sd_prefetcher s) /\
  pf_end (sd_prefetcher s) <= pf_begin (sd_prefetcher s) + MAX_NR_FETCH /\
  forall b, pf_begin (sd_prefetcher s) <= b < pf_end (sd_prefetcher s) ->
    area_read ((b - pf_begin (sd_prefetcher s)) * DATA_BLOCK_SIZE) block_bytes (pf_buffer (sd_prefetcher s)) = stored s b.

Definition cursor_ok s : Prop :=
  0 <= sb_cur_segment s < NR_SEGMENT /\ 0 <= sb_cur_sector s <= SECTOES_PER_SEGMENT /\
  sb_cur_sector s mod SECTORS_PER_BLOCK = 0 /\ x_used (sd_x s) (sb_cur_segment s) = true.

(** The slots of the segment buffer that are still to be filled. *)
Definition in_slots s (b : Z) : Prop :=
  sb_cur_segment s * BLOCKS_PER_SEGMENT + sb_filled s <= b < (sb_cur_segment s + 1) * BLOCKS_PER_SEGMENT.

Record dp_core s (content : gmap Z (list byte)) : Prop := {
  di_nr : 0 < NR_SEGMENT /\ NR_SEGMENT * SECTOES_PER_SEGMENT <= 2 ^ 32;
  di_x : x_inv (sd_x s);
  di_cursor : cursor_ok s;
  di_dom : dom content = dom (x_map (sd_x s));
  di_block lba r data : x_map (sd_x s) !! lba = Some r -> content !! lba = Some data -> block_holds s r data;
  (** a mapped block is valid, and its entry of the reverse index leads back to it *)
  di_live lba r : x_map (sd_x s) !! lba = Some r -> x_key lba /\ x_valid (sd_x s) (pba r) = true /\ x_lba (sd_x s) (pba r) = lba;
  (** a valid block is mapped, or waits for its data; blocks of free segments are invalid *)
  di_slots b : in_slots s b -> x_valid (sd_x s) b = true;
  di_mapped b : 0 <= b < NR_SEGMENT * BLOCKS_PER_SEGMENT -> x_valid (sd_x s) b = true ->
    in_slots s b \/ exists lba r, x_map (sd_x s) !! lba = Some r /\ pba r = b;
  di_free b : 0 <= b < NR_SEGMENT * BLOCKS_PER_SEGMENT -> x_used (sd_x s) (b / BLOCKS_PER_SEGMENT) = false -> x_valid (sd_x s) b = false;
  di_count : sa_nr_valid_segment s = nr_used NR_SEGMENT (x_used (sd_x s))
}.
(** Between requests the prefetcher is coherent and the segment buffer has a free slot. *)
Definition dp_inv s (content : gmap Z (list byte)) : Prop :=
  dp_core s content /\ prefetch_ok s /\ sb_cur_sector s < SECTOES_PER_SEGMENT.

Lemma block_holds_ext s s' r data :
  (forall i, x_used (sd_x s') i = x_used (sd_x s) i) -> sd_disk s' = sd_disk s -> sb_pipe s' = sb_pipe s ->
  sb_buffer s' = sb_buffer s -> sb_cur_segment s' = sb_cur_segment s -> sb_cur_sector s' = sb_cur_sector s ->
  block_holds s r data -> block_holds s' r data.
Proof.
  intros H1 H2 H3 H4 H5 H6. rewrite /block_holds /stored /in_segbuf /slot_of /sb_filled H1 H2 H3 H4 H5 H6. done.
Qed.

(** The index and the tables may change behind the data path's back, as long
    as their contents stay. *)
Lemma nr_used_ext used used' : (forall i, 0 <= i < NR_SEGMENT -> used' i = used i) -> nr_used NR_SEGMENT used' = nr_used NR_SEGMENT used.
Proof.
  intros H. rewrite /nr_used. f_equal. apply list_fmap_ext => i y Hy. apply list_elem_of_lookup_2, elem_of_seqZ in Hy. apply H. lia.
Qed.

Lemma dp_core_same s x content : dp_core s content -> x_same (sd_x s) x -> dp_core (set_x x s) content.
Proof.
  intros [H1 H2 H3 H4 H5 H6 H7 H8 H9 H10] [[I1 I2 I3 I4 I5 I6] I7]. split; try done; cbn [set_x sd_x sa_nr_valid_segment]; rewrite ?I2 //.
  - destruct H3 as (C1 & C2 & C3 & C4). split; [exact C1|]. split; [exact C2|]. split; [exact C3|].
    cbn [set_x sd_x sb_cur_segment]. by rewrite I3.
  - intros lba r data Hr Hd. eapply block_holds_ext; [exact I3|..|by eapply H5]; done.
  - intros lba r. rewrite I4 I5. apply H6.
  - intros b. rewrite I4. apply H7.
  - intros b. rewrite I4. apply H8.
  - intros b. rewrite I3 I4. apply H9.
  - rewrite H10. apply nr_used_ext => i _. symmetry. apply I3.
Qed.

Lemma di_inj s content lba1 lba2 r1 r2 : dp_core s content ->
  x_map (sd_x s) !! lba1 = Some r1 -> x_map (sd_x s) !! lba2 = Some r2 -> pba r1 = pba r2 -> lba1 = lba2.
Proof.
  intros Hc H1 H2 He. destruct (di_live _ _ Hc _ _ H1) as (_ & _ & L1). destruct (di_live _ _ Hc _ _ H2) as (_ & _ & L2). congruence.
Qed.

(** ** Reading *)
Lemma prefetcher_get_ok s blkaddr :
  prefetch_ok s -> 0 <= blkaddr < NR_SEGMENT * BLOCKS_PER_SEGMENT -> NR_SEGMENT * SECTOES_PER_SEGMENT <= 2 ^ 32 ->
  let '(ct, s') := bio_prefetcher_get NR_SEGMENT blkaddr s in
  ct = stored s blkaddr /\ prefetch_ok s' /\ exists p, s' = set_prefetcher p s.
Proof.
  intros (Hn & Hb0 & He & Hbuf) Hblk Hnr. change SECTOES_PER_SEGMENT with 8192 in Hnr.
  change BLOCKS_PER_SEGMENT with 1024 in Hblk. rewrite /bio_prefetcher_get. set (this := sd_prefetcher s) in *.
  assert (0 <= Z.shiftr (pf_nr_fetch this) 1) as Hsh by (apply Z.shiftr_nonneg; lia).
  destruct (__bio_prefetcher_incache this blkaddr) eqn:Ein; cbn [negb].
  - rewrite /__bio_prefetcher_incache in Ein. apply andb_true_iff in Ein as [E1%Z.leb_le E2%Z.ltb_lt].
    split; [by apply Hbuf|]. split; [|by eexists]. split; [|done].
    cbn [set_prefetcher sd_prefetcher pf_nr_fetch]. rewrite Z.shiftl_mul_pow2 // /MAX_NR_FETCH in Hn |- *.
    destruct (_ <=? _); lia.
  - assert (Z.shiftr (pf_nr_fetch this) 1 <= pf_nr_fetch this) as Hle.
    { rewrite Z.shiftr_div_pow2 // Z.pow_1_r. apply Z.div_le_upper_bound; lia. }
    cbn [pf_begin pf_buffer]. rewrite Z.sub_diag Z.mul_0_l.
    assert (u64 (NR_SEGMENT * BLOCKS_PER_SEGMENT - blkaddr) = NR_SEGMENT * 1024 - blkaddr) as ->.
    { change BLOCKS_PER_SEGMENT with 1024. apply u64_small. lia. }
    set (fetched := Z.min _ _). rewrite /MAX_NR_FETCH in Hn.
    split; [|split; [|by eexists]].
    + pose proof (read_blocks_ok s blkaddr fetched (pf_buffer this) 0 0 ltac:(lia)) as Hrd.
      by rewrite Z.add_0_r in Hrd.
    + split; [|split; [|split]]; cbn [set_prefetcher sd_prefetcher pf_nr_fetch pf_begin pf_end pf_buffer].
      * rewrite /MIN_NR_FETCH /MAX_NR_FETCH. destruct (_ <? _); lia.
      * lia.
      * rewrite /MAX_NR_FETCH. lia.
      * intros b Hb. rewrite -(Z.add_0_l ((b - blkaddr) * DATA_BLOCK_SIZE)).
        change (stored (set_prefetcher _ s) b) with (stored s b).
        replace b with (blkaddr + (b - blkaddr)) at 2 by lia. apply read_blocks_ok. lia.
Qed.

(** A request that is a number of whole sectors inside one block. *)
Definition bio_wf (b : bio) : Prop :=
  0 < bio_sectors b /\ bi_size b = 512 * bio_sectors b /\ bio_block_sector_offset b + bio_sectors b <= SECTORS_PER_BLOCK.
Definition bio_off (b : bio) : nat := Z.to_nat (bio_block_sector_offset b * SECTOR_SIZE).

Lemma bio_off_bounds b : 0 <= bio_block_sector_offset b < 8 /\ Z.of_nat (bio_off b) = bio_block_sector_offset b * 512.
Proof.
  assert (0 <= bio_block_sector_offset b < 8) as H by (apply Z.mod_pos_bound; done).
  split; [done|]. rewrite /bio_off. change SECTOR_SIZE with 512. lia.
Qed.

(** The request redirected to a physical block. *)
Lemma redirect_sector b p :
  0 <= p < NR_SEGMENT * 1024 -> NR_SEGMENT * 8192 <= 2 ^ 32 ->
  let b' := bio_set_sector (p * SECTORS_PER_BLOCK + bio_block_sector_offset b) b in
  bio_get_sector b' = p * 8 + bio_block_sector_offset b /\ bio_block_sector_offset b' = bio_block_sector_offset b.
Proof.
  intros Hp Hnr b'. destruct (bio_off_bounds b) as [Ho _].
  assert (bio_get_sector b' = p * 8 + bio_block_sector_offset b) as Hs.
  { rewrite /b' /bio_get_sector /bio_set_sector. cbn [bi_sector]. change SECTORS_PER_BLOCK with 8.
    rewrite (u32_small (p * 8 + _)); [|lia]. apply u32_small. lia. }
  split; [done|]. rewrite /bio_block_sector_offset Hs. change SECTORS_PER_BLOCK with 8.
  change (bio_get_sector b mod 8) with (bio_block_sector_offset b).
  rewrite Z.add_comm Z.mod_add // Z.mod_small //.
Qed.

Lemma in_segbuf_spec s b :
  in_segbuf s b = true <->
  sb_cur_segment s * 1024 <= b < sb_cur_segment s * 1024 + sb_cur_sector s / 8.
Proof. rewrite /in_segbuf /sb_filled. change BLOCKS_PER_SEGMENT with 1024. change SECTORS_PER_BLOCK with 8. zbool; simpl; split; done || lia. Qed.

(** What reading needs to know of a block and of the segment buffer. *)
Definition block_at s (r : record) (data : list byte) : Prop :=
  0 <= pba r < NR_SEGMENT * BLOCKS_PER_SEGMENT /\ length data = block_bytes /\
  encrypt data (key r) (iv r) (pba r) = (stored s (pba r), mac r) /\
  (in_segbuf s (pba r) = true -> area_read (slot_of s (pba r)) block_bytes (sb_buffer s) = data).
Definition cursor_pos s : Prop :=
  0 <= sb_cur_segment s < NR_SEGMENT /\ 0 <= sb_cur_sector s <= SECTOES_PER_SEGMENT /\ sb_cur_sector s mod SECTORS_PER_BLOCK = 0.
Lemma block_holds_at s r data : block_holds s r data -> block_at s r data.
Proof. intros (_ & H1 & _ & H2 & H3 & _ & H4). done. Qed.
Lemma cursor_ok_pos s : cursor_ok s -> cursor_pos s.
Proof. intros (H1 & H2 & H3 & _). done. Qed.

Lemma query_bio_ok s b r data :
  cursor_pos s -> bi_op b = REQ_OP_READ -> bio_wf b -> NR_SEGMENT * 8192 <= 2 ^ 32 -> 0 <= pba r < NR_SEGMENT * BLOCKS_PER_SEGMENT ->
  (in_segbuf s (pba r) = true -> area_read (slot_of s (pba r)) block_bytes (sb_buffer s) = data) ->
  let b' := bio_set_sector (pba r * SECTORS_PER_BLOCK + bio_block_sector_offset b) b in
  segbuf_query_bio b' s =
    if in_segbuf s (pba r) then Ok (bio_set_payload (slice (bio_off b) (length (bi_payload b)) data) b') else Err ENODATA.
Proof.
  intros (Hseg & Hsec & Hm) Hop (Hn0 & Hsz & Hin) Hnr Hp Hbuf b'.
  change BLOCKS_PER_SEGMENT with 1024 in Hp. change SECTORS_PER_BLOCK with 8 in Hm, Hin. change SECTOES_PER_SEGMENT with 8192 in Hsec.
  destruct (redirect_sector b (pba r) Hp Hnr) as [Hs Ho]. rewrite -/b' in Hs, Ho.
  destruct (bio_off_bounds b) as [Hob Hoff].
  assert (sb_cur_sector s = 8 * (sb_cur_sector s / 8)) as Hdiv by (pose proof (Z.div_mod (sb_cur_sector s) 8); lia).
  rewrite /segbuf_query_bio Hs. change (bio_sectors b') with (bio_sectors b). change SECTOES_PER_SEGMENT with 8192.
  pose proof (in_segbuf_spec s (pba r)) as Hiff.
  destruct (in_segbuf s (pba r)).
  - destruct (proj1 Hiff eq_refl). replace (_ || _) with false by (zbool; simpl; done || lia).
    f_equal. rewrite (bio_set_data_ok b'); [|done]. f_equal. change (bi_payload b') with (bi_payload b).
    rewrite -(Hbuf eq_refl). rewrite -area_read_slice; last first.
    { rewrite /block_bytes. change DATA_BLOCK_SIZE with 4096. rewrite /bi_size in Hsz. lia. }
    f_equal. rewrite Hoff /slot_of. change SECTOR_SIZE with 512. change DATA_BLOCK_SIZE with 4096.
    change BLOCKS_PER_SEGMENT with 1024. lia.
  - replace (_ || _) with true; [done|]. destruct (decide (sb_cur_segment s * 1024 <= pba r)).
    + assert (sb_cur_segment s * 1024 + sb_cur_sector s / 8 <= pba r).
      { destruct (decide (pba r < sb_cur_segment s * 1024 + sb_cur_sector s / 8)); [|lia]. destruct Hiff as [_ Hi].
        discriminate Hi. lia. }
      zbool; simpl; done || lia.
    + zbool; simpl; done || lia.
Qed.

Lemma content_record s content lba data :
  dp_core s content -> content !! lba = Some data -> exists r, x_map (sd_x s) !! lba = Some r /\ block_holds s r data.
Proof.
  intros Hc Hd. assert (lba ∈ dom (x_map (sd_x s))) as [r Hr]%elem_of_dom.
  { rewrite -(di_dom _ _ Hc). by apply elem_of_dom_2 in Hd. }
  exists r. split; [done|]. by eapply di_block.
Qed.
Lemma content_none s content lba : dp_core s content -> content !! lba = None <-> x_map (sd_x s) !! lba = None.
Proof. intros Hc. rewrite -!not_elem_of_dom. by rewrite (di_dom _ _ Hc). Qed.

(** What reading leaves alone. *)
Definition read_frame s s' : Prop :=
  x_same (sd_x s) (sd_x s') /\ sa_nr_valid_segment s' = sa_nr_valid_segment s /\ sb_cur_sector s' = sb_cur_sector s.

(** A block that the index finds. *)
Lemma do_read_found s b r x' data :
  ix_search (bio_get_block_address b) (sd_x s) = (Ok r, x') -> cursor_pos s -> prefetch_ok s -> NR_SEGMENT * 8192 <= 2 ^ 32 -> block_at s r data ->
  bi_op b = REQ_OP_READ -> bio_wf b ->
  let '(b', s') := sworndisk_do_read NR_SEGMENT garbage_memory b s in
  bi_payload b' = slice (bio_off b) (length (bi_payload b)) data /\ prefetch_ok s' /\ exists p, s' = set_prefetcher p (set_x x' s).
Proof.
  intros Hix Hcur Hpf Hnr Hbh Hop Hwf. rewrite /sworndisk_do_read Hix. set (s1 := set_x x' s).
  assert (prefetch_ok s1) as Hpf1 by exact Hpf. assert (block_at s1 r data) as Hbh1 by exact Hbh.
  destruct Hbh1 as (Hp & Hl & Henc & Hbuf).
  pose proof (query_bio_ok s1 b r data Hcur Hop Hwf Hnr Hp Hbuf) as Hq. cbn zeta in Hq. rewrite Hq.
  destruct (in_segbuf s1 (pba r)); [split; [done|]; split; [done|by exists (sd_prefetcher s)]|].
  pose proof (prefetcher_get_ok s1 (pba r) Hpf1 Hp ltac:(change SECTOES_PER_SEGMENT with 8192; lia)) as Hget.
  destruct (bio_prefetcher_get NR_SEGMENT (pba r) s1) as [ct s2]. destruct Hget as (-> & Hpf2 & p & ->).
  rewrite (decrypt_encrypt _ _ _ _ _ _ Henc). split; [|split; [done|by exists p]].
  rewrite (bio_set_data_ok (bio_set_sector _ b)); [|done]. change BLOCKS_PER_SEGMENT with 1024 in Hp.
  destruct (redirect_sector b (pba r) Hp Hnr) as [_ Ho]. rewrite Ho. cbn [bio_set_payload bio_set_sector bi_payload].
  destruct (bio_off_bounds b) as [_ Hoff]. destruct Hwf as (_ & Hsz & Hin). rewrite /bi_size in Hsz. change SECTORS_PER_BLOCK with 8 in Hin.
  change SECTOR_SIZE with 512. rewrite -Hoff -(Z.add_0_l (Z.of_nat (bio_off b))).
  rewrite (area_read_slice 0 (bio_off b) (length (bi_payload b)) (length data)); [by rewrite area_read_write_eq|].
  rewrite Hl /block_bytes. change (Z.to_nat DATA_BLOCK_SIZE) with 4096%nat. lia.
Qed.

Lemma do_read_ok s content b :
  dp_inv s content -> bi_op b = REQ_OP_READ -> bio_wf b -> x_key (bio_get_block_address b) ->
  let '(b', s') := sworndisk_do_read NR_SEGMENT garbage_memory b s in
  dp_inv s' content /\ read_frame s s' /\
  bi_payload b' = match content !! bio_get_block_address b with
                  | Some data => slice (bio_off b) (length (bi_payload b)) data
                  | None => bi_payload b
                  end.
Proof.
  intros (Hc & Hpf & Hlt) Hop Hwf Hkey. destruct (ix_search_ok (sd_x s) _ (di_x _ _ Hc) Hkey) as (x' & Hix & Hsame).
  pose proof (dp_core_same s x' content Hc Hsame) as Hc'.
  destruct (content !! bio_get_block_address b) as [data|] eqn:Hd; last first.
  { apply (content_none _ _ _ Hc) in Hd. rewrite Hd in Hix. by rewrite /sworndisk_do_read Hix. }
  destruct (content_record _ _ _ _ Hc Hd) as (r & Hr & Hbh). rewrite Hr in Hix. pose proof (di_nr _ _ Hc) as [Hnr0 Hnr].
  pose proof (do_read_found s b r x' data Hix (cursor_ok_pos _ (di_cursor _ _ Hc)) Hpf Hnr (block_holds_at _ _ _ Hbh) Hop Hwf) as Hf.
  destruct (sworndisk_do_read NR_SEGMENT garbage_memory b s) as [b' s']. destruct Hf as (Hp & Hpf' & p & ->).
  split; [split; [split; try apply Hc'|done]|]. split; [done|exact Hp].
Qed.

(** ** Writing a block *)
Lemma record_wf r :
  0 <= pba r < 2 ^ 64 -> length (mac r) = AES_GCM_AUTH_SIZE -> length (key r) = AES_GCM_KEY_SIZE ->
  length (iv r) = AES_GCM_IV_SIZE -> cwf record_codec r.
Proof. intros H1 H2 H3 H4. split; [exact H1|]. split; [exact H2|]. split; [exact H3|exact H4]. Qed.

(** The state after the new block was placed in the next slot of the buffer
    and its record [r] was put into the index, whose state is [x]. *)
Definition placed s (x : X) (n : nat) (data ct : list byte) : sworndisk X :=
  let off := sb_cur_sector s * SECTOR_SIZE in
  set_cursor (sb_cur_segment s) (sb_cur_sector s + SECTORS_PER_BLOCK)
    (set_x x (set_bufs (area_write off data (sb_buffer s)) (area_write off ct (sb_pipe s)) (set_rng n s))).
Definition next_pba s : Z := (sb_cur_segment s * SECTOES_PER_SEGMENT + sb_cur_sector s) / SECTORS_PER_BLOCK.

Lemma next_pba_eq s : cursor_ok s -> next_pba s = sb_cur_segment s * 1024 + sb_cur_sector s / 8 /\
  sb_cur_sector s = 8 * (sb_cur_sector s / 8).
Proof.
  intros (_ & _ & Hm & _). change SECTORS_PER_BLOCK with 8 in Hm. rewrite /next_pba.
  change SECTOES_PER_SEGMENT with 8192. change SECTORS_PER_BLOCK with 8.
  replace (sb_cur_segment s * 8192 + sb_cur_sector s) with (sb_cur_sector s + sb_cur_segment s * 1024 * 8) by lia.
  rewrite Z.div_add //. pose proof (Z.div_mod (sb_cur_sector s) 8). lia.
Qed.

Lemma seg_of b g : b / 1024 = g <-> g * 1024 <= b < g * 1024 + 1024.
Proof.
  pose proof (Z.div_mod b 1024 ltac:(done)). pose proof (Z.mod_pos_bound b 1024 ltac:(done)). split; [lia|].
  intros. symmetry. apply (Z.div_unique b 1024 g (b - g * 1024)); lia.
Qed.

(** The new block's place is free, and the blocks in the buffer stay where they are. *)
Lemma placed_in_segbuf s x n data ct r :
  cursor_ok s -> sb_cur_sector s < SECTOES_PER_SEGMENT -> (pba r / BLOCKS_PER_SEGMENT = sb_cur_segment s -> in_segbuf s (pba r) = true) ->
  in_segbuf (placed s x n data ct) (pba r) = in_segbuf s (pba r) /\ pba r <> next_pba s.
Proof.
  intros Hcur Hlt H6. destruct (next_pba_eq s Hcur) as [Hnp Hdiv]. set (s' := placed s x n data ct).
  pose proof (in_segbuf_spec s (pba r)) as I1. pose proof (in_segbuf_spec s' (pba r)) as I2.
  change (sb_cur_segment s') with (sb_cur_segment s) in I2.
  change (sb_cur_sector s' / 8) with ((sb_cur_sector s + 1 * 8) / 8) in I2. rewrite Z.div_add // in I2.
  change BLOCKS_PER_SEGMENT with 1024 in H6. rewrite seg_of in H6.
  destruct Hcur as (_ & Hsec & _). change SECTOES_PER_SEGMENT with 8192 in Hsec, Hlt.
  destruct (in_segbuf s (pba r)).
  - destruct (proj1 I1 eq_refl). split; [apply I2; lia|lia].
  - assert (~ (sb_cur_segment s * 1024 <= pba r < sb_cur_segment s * 1024 + 1024)) as Hno by (intros Hs; specialize (H6 Hs); done).
    split; [|lia]. destruct (in_segbuf s' (pba r)); [|done]. destruct (proj1 I2 eq_refl). lia.
Qed.

(** What placing a block does to the blocks that were there. *)
Lemma placed_block s x n data ct r d :
  cursor_ok s -> sb_cur_sector s < SECTOES_PER_SEGMENT -> (forall i, x_used x i = x_used (sd_x s) i) ->
  length data = block_bytes -> length ct = block_bytes -> block_holds s r d ->
  block_holds (placed s x n data ct) r d.
Proof.
  intros Hcur Hlt Hu Hl Hlc (H1 & H2 & H3 & H4 & H5 & H6 & H7). destruct (next_pba_eq s Hcur) as [_ Hdiv].
  destruct (placed_in_segbuf s x n data ct r Hcur Hlt H6) as [Hin Hne]. set (s' := placed s x n data ct) in *.
  assert (in_segbuf s (pba r) = true -> forall (l : list byte) a, length l = block_bytes ->
    area_read (slot_of s (pba r)) block_bytes (area_write (sb_cur_sector s * SECTOR_SIZE) l a) =
    area_read (slot_of s (pba r)) block_bytes a) as Hkeep.
  { intros [Ha Hb]%in_segbuf_spec l a Hll. apply area_read_write_ne. left. rewrite /slot_of /block_bytes.
    change (Z.of_nat (Z.to_nat DATA_BLOCK_SIZE)) with 4096. change DATA_BLOCK_SIZE with 4096. change SECTOR_SIZE with 512.
    change BLOCKS_PER_SEGMENT with 1024. lia. }
  assert (stored s' (pba r) = stored s (pba r)) as Hst.
  { rewrite /stored Hin. destruct (in_segbuf s (pba r)) eqn:E; [|done]. by apply Hkeep. }
  split; [done|]. split; [done|]. split; [by rewrite -H3 -Hu|]. split; [done|]. rewrite Hst. split; [done|]. rewrite Hin. split; [done|].
  intros Hi. rewrite -(H7 Hi). by apply Hkeep.
Qed.

Lemma placed_new s x n data ct r :
  cursor_ok s -> sb_cur_sector s < SECTOES_PER_SEGMENT -> (forall i, x_used x i = x_used (sd_x s) i) ->
  length data = block_bytes -> length ct = block_bytes -> cwf record_codec r -> pba r = next_pba s ->
  encrypt data (key r) (iv r) (pba r) = (ct, mac r) ->
  block_holds (placed s x n data ct) r data.
Proof.
  intros Hcur Hlt Hu Hl Hlc Hwf Hp Henc. destruct (next_pba_eq s Hcur) as [Hnp Hdiv]. set (s' := placed s x n data ct).
  pose proof Hcur as (Hseg & Hsec & _ & Hused). change SECTOES_PER_SEGMENT with 8192 in Hlt, Hsec.
  assert (in_segbuf s' (pba r) = true) as Hin.
  { apply in_segbuf_spec. change (sb_cur_segment s') with (sb_cur_segment s).
    change (sb_cur_sector s' / 8) with ((sb_cur_sector s + 1 * 8) / 8). rewrite Z.div_add //. lia. }
  assert (slot_of s' (pba r) = sb_cur_sector s * SECTOR_SIZE) as Hslot.
  { rewrite /slot_of. change (sb_cur_segment s') with (sb_cur_segment s). change BLOCKS_PER_SEGMENT with 1024.
    change DATA_BLOCK_SIZE with 4096. change SECTOR_SIZE with 512. lia. }
  assert (pba r / 1024 = sb_cur_segment s) as Hsg by (apply seg_of; lia).
  split; [done|]. change BLOCKS_PER_SEGMENT with 1024. split; [lia|].
  split; [change (sd_x s') with x; by rewrite Hu Hsg|]. split; [done|].
  split; [|split; [done|]].
  - rewrite Henc. f_equal. rewrite /stored Hin Hslot -Hlc. symmetry. apply area_read_write_eq.
  - intros _. rewrite Hslot -Hl. apply area_read_write_eq.
Qed.

(** The valid blocks after the block of [lba] was given up. *)
Definition dropped s (lba b : Z) : bool :=
  match x_map (sd_x s) !! lba with Some r0 => negb (b =? pba r0) && x_valid (sd_x s) b | None => x_valid (sd_x s) b end.
Definition with_lba s (pba lba b : Z) : Z := if b =? pba then lba else x_lba (sd_x s) b.

Lemma content_of s content lba r : dp_core s content -> x_map (sd_x s) !! lba = Some r -> exists d, content !! lba = Some d /\ block_holds s r d.
Proof.
  intros Hc Hr. destruct (content !! lba) as [d|] eqn:E; [exists d; split; [done|by eapply di_block]|].
  apply (content_none _ _ _ Hc) in E. congruence.
Qed.

(** A mapped block is not one of the slots to be filled. *)
Lemma mapped_not_slot s content lba r : dp_core s content -> x_map (sd_x s) !! lba = Some r -> ~ in_slots s (pba r).
Proof.
  intros Hc Hr. destruct (content_of _ _ _ _ Hc Hr) as (d & _ & _ & _ & _ & _ & _ & H6 & _).
  rewrite /in_slots. change BLOCKS_PER_SEGMENT with 1024 in *. intros Hs.
  destruct (di_cursor _ _ Hc) as (_ & Hsec & _). pose proof (Z.div_pos (sb_cur_sector s) 8 ltac:(lia) ltac:(lia)).
  change (sb_filled s) with (sb_cur_sector s / 8) in Hs. rewrite seg_of in H6. pose proof (proj1 (in_segbuf_spec s _) (H6 ltac:(lia))). lia.
Qed.

Lemma next_pba_slot s : cursor_ok s -> sb_cur_sector s < SECTOES_PER_SEGMENT -> in_slots s (next_pba s).
Proof.
  intros Hcur Hlt. destruct (next_pba_eq s Hcur) as [Hnp Hdiv]. change SECTOES_PER_SEGMENT with 8192 in Hlt.
  rewrite /in_slots Hnp. change (sb_filled s) with (sb_cur_sector s / 8). change BLOCKS_PER_SEGMENT with 1024. lia.
Qed.

Lemma dropped_other s content lba lba2 r2 : dp_core s content -> x_map (sd_x s) !! lba2 = Some r2 -> lba2 <> lba ->
  dropped s lba (pba r2) = true.
Proof.
  intros Hc Hr2 Hne. destruct (di_live _ _ Hc _ _ Hr2) as (_ & Hv & _). rewrite /dropped.
  destruct (x_map (sd_x s) !! lba) as [r0|] eqn:E; [|done]. rewrite Hv andb_true_r. apply negb_true_iff, Z.eqb_neq.
  intros He. apply Hne. by eapply di_inj.
Qed.

Lemma dropped_slot s content lba b : dp_core s content -> in_slots s b -> dropped s lba b = true.
Proof.
  intros Hc Hs. pose proof (di_slots _ _ Hc b Hs) as Hv. rewrite /dropped. destruct (x_map (sd_x s) !! lba) as [r0|] eqn:E; [|done].
  rewrite Hv andb_true_r. apply negb_true_iff, Z.eqb_neq. intros ->. by eapply mapped_not_slot.
Qed.

Lemma placed_slots s x n data ct b :
  cursor_ok s -> in_slots s b <-> b = next_pba s /\ sb_cur_sector s < SECTOES_PER_SEGMENT \/ in_slots (placed s x n data ct) b.
Proof.
  intros Hcur. destruct (next_pba_eq s Hcur) as [Hnp Hdiv]. rewrite /in_slots. change (sb_filled s) with (sb_cur_sector s / 8).
  change (sb_filled (placed s x n data ct)) with ((sb_cur_sector s + 1 * 8) / 8). rewrite Z.div_add //.
  change (sb_cur_segment (placed s x n data ct)) with (sb_cur_segment s). rewrite Hnp.
  change BLOCKS_PER_SEGMENT with 1024. change SECTOES_PER_SEGMENT with 8192. lia.
Qed.

Lemma placed_core s content x n lba data ct r vs :
  dp_core s content -> sb_cur_sector s < SECTOES_PER_SEGMENT -> x_key lba ->
  x_is x (<[lba := r]> (x_map (sd_x s))) (x_used (sd_x s)) (dropped s lba) (with_lba s (next_pba s) lba) vs ->
  length data = block_bytes -> length ct = block_bytes ->
  cwf record_codec r -> pba r = next_pba s -> encrypt data (key r) (iv r) (pba r) = (ct, mac r) ->
  dp_core (placed s x n data ct) (<[lba := data]> content).
Proof.
  intros Hc Hlt Hkey [Hx Hm Hu Hv Hlb _] Hl Hlc Hwf Hp Henc. pose proof (di_cursor _ _ Hc) as Hcur.
  pose proof (next_pba_slot s Hcur Hlt) as Hslot. pose proof (fun b => placed_slots s x n data ct b Hcur) as Hsl.
  assert (forall lba' r', x_map (sd_x s) !! lba' = Some r' -> pba r' <> next_pba s) as Hold.
  { intros lba' r' Hr' He. apply (mapped_not_slot _ _ _ _ Hc Hr'). by rewrite He. }
  split; cbn [placed set_cursor set_x set_bufs set_rng sd_x sa_nr_valid_segment].
  - apply (di_nr _ _ Hc).
  - done.
  - destruct Hcur as (C1 & C2 & C3 & C4). change SECTOES_PER_SEGMENT with 8192 in Hlt, C2.
    change SECTORS_PER_BLOCK with 8 in *. rewrite /cursor_ok.
    change (sb_cur_sector (placed s x n data ct)) with (sb_cur_sector s + 8).
    change (sb_cur_segment (placed s x n data ct)) with (sb_cur_segment s).
    change (sd_x (placed s x n data ct)) with x. change SECTOES_PER_SEGMENT with 8192. split; [done|]. change SECTORS_PER_BLOCK with 8.
    pose proof (Z.div_mod (sb_cur_sector s) 8 ltac:(done)). split; [lia|]. split; [|by rewrite Hu].
    by rewrite -{1}(Z.mul_1_l 8) Z.mod_add.
  - by rewrite Hm !dom_insert_L (di_dom _ _ Hc).
  - intros lba' r' d. rewrite Hm. destruct (decide (lba' = lba)) as [->|Hne].
    + rewrite !lookup_insert_eq. intros [= <-] [= <-]. by apply placed_new.
    + rewrite !lookup_insert_ne //. intros Hr' Hd. apply placed_block; try done. by eapply di_block.
  - intros lba' r'. rewrite Hm Hv Hlb. destruct (decide (lba' = lba)) as [->|Hne].
    + rewrite lookup_insert_eq. intros [= <-]. split; [done|]. rewrite Hp /with_lba Z.eqb_refl. split; [|done]. by eapply dropped_slot.
    + rewrite lookup_insert_ne //. intros Hr'. destruct (di_live _ _ Hc _ _ Hr') as (K1 & _ & K3). split; [done|].
      split; [by eapply dropped_other|]. rewrite /with_lba. by rewrite (proj2 (Z.eqb_neq _ _) (Hold _ _ Hr')).
  - intros b Hb. rewrite Hv. apply (dropped_slot _ _ _ _ Hc), Hsl. by right.
  - intros b Hb. rewrite Hv Hm => Hvb.
    assert (x_valid (sd_x s) b = true) as Hvb0.
    { rewrite /dropped in Hvb. destruct (x_map (sd_x s) !! lba); [|done]. by apply andb_true_iff in Hvb as [_ ?]. }
    destruct (di_mapped _ _ Hc b Hb Hvb0) as [Hs|(lba2 & r2 & Hr2 & <-)].
    + apply Hsl in Hs as [[-> _]|Hs]; [|by left]. right. exists lba, r. by rewrite lookup_insert_eq.
    + right. exists lba2, r2. split; [|done]. rewrite lookup_insert_ne //. intros <-. rewrite /dropped Hr2 Z.eqb_refl in Hvb. done.
  - intros b Hb. rewrite Hu Hv => Hf. pose proof (di_free _ _ Hc b Hb Hf) as Hvb. rewrite /dropped Hvb.
    destruct (x_map (sd_x s) !! lba); [apply andb_false_r|done].
  - rewrite (di_count _ _ Hc). apply nr_used_ext => i _. symmetry. apply Hu.
Qed.

(** What one pushed block leaves of the tables: [vs] are the victims. *)
Definition pushed_victims s (lba : Z) : gset Z :=
  match x_map (sd_x s) !! lba with Some r0 => {[pba r0 / BLOCKS_PER_SEGMENT]} ∪ x_victims (sd_x s) | None => x_victims (sd_x s) end.

(** The state [push_block] leaves before the segment buffer may be written out. *)
Record pushed s s1 (lba : Z) (content : gmap Z (list byte)) : Prop := {
  pu_core : dp_core s1 content;
  pu_sector : sb_cur_sector s1 = sb_cur_sector s + 8;
  pu_segment : sb_cur_segment s1 = sb_cur_segment s;
  pu_prefetcher : sd_prefetcher s1 = sd_prefetcher s;
  pu_nr : sa_nr_valid_segment s1 = sa_nr_valid_segment s;
  pu_status : sa_status s1 = sa_status s;
  pu_disk : sd_disk s1 = sd_disk s;
  pu_used i : x_used (sd_x s1) i = x_used (sd_x s) i;
  pu_valid b : x_valid (sd_x s1) b = dropped s lba b;
  pu_victims : x_victims (sd_x s1) = pushed_victims s lba;
  pu_record : exists r, x_map (sd_x s1) = <[lba := r]> (x_map (sd_x s)) /\ pba r = next_pba s;
  pu_room n : x_room (S n) (sd_x s) -> x_room n (sd_x s1)
}.

(** The index is searched and the block the record leads to is given up. *)
Definition returned (lba : Z) (x : X) : X :=
  match ix_search lba x with (Ok pre, x) => (ds_return_block (pba pre) x).2 | (Err _, x) => x end.
Lemma returned_ok s content lba : dp_core s content -> x_key lba ->
  x_next (sd_x s) (returned lba (sd_x s)) (x_used (sd_x s)) (dropped s lba) (x_lba (sd_x s)) (pushed_victims s lba).
Proof.
  intros Hc Hkey. rewrite /returned. destruct (ix_search_ok (sd_x s) lba (di_x _ _ Hc) Hkey) as (x1 & -> & Hs1).
  pose proof Hs1 as [[J1 J2 J3 J4 J5 J6] J7]. rewrite /dropped /pushed_victims. destruct (x_map (sd_x s) !! lba) as [r|] eqn:Er; [|done].
  destruct (content_of _ _ _ _ Hc Er) as (d & _ & _ & Hpr & _). destruct (di_live _ _ Hc _ _ Er) as (_ & Hv & _).
  pose proof (ds_return_block_ok x1 (pba r) J1 Hpr ltac:(by rewrite J4)) as [[K1 K2 K3 K4 K5 K6] K7].
  split; [split; [done|congruence|intros; rewrite K3; apply J3|intros; by rewrite K4 J4|intros; rewrite K5; apply J5|by rewrite K6 J6]|auto].
Qed.

(** A block is sealed for its place [p] under a fresh key, and the index and
    the reverse index are told of it. *)
Definition fresh_record (p : Z) (n : nat) : record :=
  {| pba := p; mac := replicate AES_GCM_AUTH_SIZE Byte.x00; key := rng_bytes n AES_GCM_KEY_SIZE; iv := rng_bytes (S n) AES_GCM_IV_SIZE |}.
Record sealed s (lba p : Z) (data ct : list byte) (r : record) (x : X) (valid : Z -> bool) (vs : gset Z) : Prop := {
  se_x : x_is x (<[lba := r]> (x_map (sd_x s))) (x_used (sd_x s)) valid (with_lba s p lba) vs;
  se_room n : x_room (S n) (sd_x s) -> x_room n x;
  se_ct : length ct = block_bytes;
  se_wf : cwf record_codec r;
  se_pba : pba r = p;
  se_enc : encrypt data (key r) (iv r) p = (ct, mac r)
}.
Lemma seal_ok s x valid vs lba p data :
  x_next (sd_x s) x (x_used (sd_x s)) valid (x_lba (sd_x s)) vs -> x_key lba -> x_room 1 (sd_x s) ->
  0 < NR_SEGMENT /\ NR_SEGMENT * SECTOES_PER_SEGMENT <= 2 ^ 32 -> 0 <= p < NR_SEGMENT * BLOCKS_PER_SEGMENT -> length data = block_bytes ->
  let rc := fresh_record p (sd_rng s) in
  exists ct m x3, encrypt data (key rc) (iv rc) p = (ct, m) /\ ix_put lba (record_set_mac m rc) x = Some x3 /\
    sealed s lba p data ct (record_set_mac m rc) (rt_set p lba x3).2 valid vs.
Proof.
  intros [[M1 M2 M3 M4 M5 M6] M7] Hkey Hroom [_ Hnr] Hp Hl rc. destruct (encrypt data (key rc) (iv rc) p) as [ct m] eqn:Henc.
  assert (length ct = block_bytes) as Hct by (rewrite -Hl -(length_encrypt data (key rc) (iv rc) p) Henc; done).
  assert (length m = AES_GCM_AUTH_SIZE) as Hml by (rewrite -(length_encrypt_mac data (key rc) (iv rc) p) Henc; done).
  assert (cwf record_codec (record_set_mac m rc)) as Hwf.
  { change SECTOES_PER_SEGMENT with 8192 in Hnr. change BLOCKS_PER_SEGMENT with 1024 in Hp.
    apply record_wf; [change (0 <= p < 2 ^ 64); lia|done|apply rng_bytes_length|apply rng_bytes_length]. }
  destruct (ix_put_ok x lba (record_set_mac m rc) M1 Hkey (M7 1%nat Hroom) Hwf) as (x3 & Hput & [N1 N2 N3 N4 N5 N6] & N7).
  pose proof (rt_set_ok (NR_SEGMENT := NR_SEGMENT) x3 p lba N1 Hp Hkey) as [[P1 P2 P3 P4 P5 P6] P7].
  exists ct, m, x3. split; [done|]. split; [done|]. split; try done; [|intros k Hk; apply P7, N7, M7, Hk].
  split; [done|congruence|intros; by rewrite P3 N3 M3|intros; by rewrite P4 N4 M4|intros; by rewrite P5 N5 M5|congruence].
Qed.

(** [push_block] without threaded logging. *)
Lemma push_block_ok alloc lba data s content :
  dp_core s content -> sb_cur_sector s < SECTOES_PER_SEGMENT -> x_key lba -> x_room 1 (sd_x s) ->
  length data = block_bytes -> sworndisk_should_threaded_logging NR_SEGMENT s = false ->
  exists s1, pushed s s1 lba (<[lba := data]> content) /\
    segbuf_push_block NR_SEGMENT alloc lba data s =
      if SECTOES_PER_SEGMENT <=? sb_cur_sector s1
      then (fun rs => rs.2) <$> alloc (set_cursor (sb_cur_segment s1) 0 (segbuf_flush_bios s1)) else Some s1.
Proof.
  intros Hc Hlt Hkey Hroom Hl Hth. pose proof (returned_ok s content lba Hc Hkey) as Hs2. rewrite /returned in Hs2.
  rewrite /segbuf_push_block Hth. destruct (ix_search lba (sd_x s)) as [pre x1]. set (x2 := match pre with Ok _ => _ | Err _ => _ end).
  assert (x_next (sd_x s) x2 (x_used (sd_x s)) (dropped s lba) (x_lba (sd_x s)) (pushed_victims s lba)) as Hx2 by (rewrite /x2; by destruct pre).
  change (next_block false (set_x x2 s)) with (Some (next_pba s, set_x x2 s)). cbn [record_create].
  pose proof (di_nr _ _ Hc) as [Hnr0 Hnr]. destruct (next_pba_eq s (di_cursor _ _ Hc)) as [Hnp Hdiv].
  pose proof (di_cursor _ _ Hc) as (C1 & C2 & _). change SECTOES_PER_SEGMENT with 8192 in C2, Hlt.
  destruct (seal_ok s x2 _ _ lba (next_pba s) data Hx2 Hkey Hroom ltac:(done) ltac:(change BLOCKS_PER_SEGMENT with 1024; lia) Hl)
    as (ct & m & x3 & Henc & Hput & [Hx4 Hr4 Hct Hwf _ Hmac]).
  rewrite /fresh_record in Henc, Hput, Hx4, Hwf, Hmac. set (rc := {| pba := next_pba s; mac := _; key := _; iv := _ |}) in *.
  change (sd_rng (set_x x2 s)) with (sd_rng s). fold rc. rewrite Henc. cbn [set_bufs sd_x set_rng set_x]. rewrite Hput.
  exists (placed s (rt_set (next_pba s) lba x3).2 (S (S (sd_rng s))) data ct). split; [|reflexivity].
  split; try done.
  - by apply (placed_core s content _ _ lba data ct (record_set_mac m rc) (pushed_victims s lba)).
  - apply (xs_used _ _ _ _ _ _ Hx4).
  - apply (xs_valid _ _ _ _ _ _ Hx4).
  - apply (xs_victims _ _ _ _ _ _ Hx4).
  - exists (record_set_mac m rc). split; [apply (xs_map _ _ _ _ _ _ Hx4)|done].
Qed.

(** ** A full segment is written out and a free one taken *)

Lemma fmap_seqZ_insert (f g : Z -> bool) start n i v :
  start <= i < start + n -> (forall j, start <= j < start + n -> g j = if j =? i then v else f j) ->
  g <$> seqZ start n = <[Z.to_nat (i - start) := v]> (f <$> seqZ start n).
Proof.
  intros Hi Hg. apply list_eq => k. destruct (decide (Z.of_nat k < n)) as [Hk|Hk]; last first.
  { rewrite !(lookup_ge_None_2 _ k) // ?length_insert length_fmap length_seqZ; lia. }
  destruct (decide (k = Z.to_nat (i - start))) as [->|Hne].
  - rewrite list_lookup_insert_eq; [|rewrite length_fmap length_seqZ; lia]. rewrite list_lookup_fmap lookup_seqZ_lt; [|lia].
    cbn. rewrite Hg; [|lia]. replace (start + Z.of_nat (Z.to_nat (i - start))) with i by lia. by rewrite Z.eqb_refl.
  - rewrite list_lookup_insert_ne; [|lia]. rewrite (list_lookup_fmap g) (list_lookup_fmap f) lookup_seqZ_lt; [|lia]. cbn. rewrite Hg; [|lia]. by ztest.
Qed.

Lemma lookup_fmap_seqZ (f : Z -> bool) start n i : start <= i < start + n -> (f <$> seqZ start n) !! Z.to_nat (i - start) = Some (f i).
Proof. intros Hi. rewrite list_lookup_fmap lookup_seqZ_lt; [|lia]. cbn. do 2 f_equal. lia. Qed.

Lemma nr_used_bound used : 0 < NR_SEGMENT -> 0 <= nr_used NR_SEGMENT used <= NR_SEGMENT.
Proof. intros HN. rewrite /nr_used. pose proof (count_true_bound (used <$> seqZ 0 NR_SEGMENT)) as Hb. rewrite length_fmap length_seqZ in Hb. lia. Qed.
Lemma nr_used_take used seg : 0 <= seg < NR_SEGMENT -> used seg = false ->
  nr_used NR_SEGMENT (fun i => (i =? seg) || used i) = nr_used NR_SEGMENT used + 1.
Proof.
  intros Hs Hf. rewrite /nr_used (fmap_seqZ_insert used _ 0 _ seg true); [|lia|intros; by destruct (_ =? _)].
  rewrite (count_true_insert _ _ false); [lia|]. rewrite lookup_fmap_seqZ; [by rewrite Hf|lia].
Qed.
Lemma nr_used_return used seg : 0 <= seg < NR_SEGMENT ->
  nr_used NR_SEGMENT (fun i => negb (i =? seg) && used i) = nr_used NR_SEGMENT used - (if used seg then 1 else 0).
Proof.
  intros Hs. rewrite /nr_used (fmap_seqZ_insert used _ 0 _ seg false); [|lia|intros; by destruct (_ =? _)].
  rewrite (count_true_insert _ _ (used seg)); [destruct (used seg); lia|]. apply lookup_fmap_seqZ. lia.
Qed.
Lemma nr_used_all used : 0 < NR_SEGMENT -> (forall i, 0 <= i < NR_SEGMENT -> used i = true) -> nr_used NR_SEGMENT used = NR_SEGMENT.
Proof.
  intros HN Hall. rewrite /nr_used. transitivity (Z.of_nat (length (used <$> seqZ 0 NR_SEGMENT))); [|rewrite length_fmap length_seqZ; lia].
  apply count_true_all, Forall_fmap, Forall_forall. intros i Hi%elem_of_seqZ. apply Hall. lia.
Qed.

(** A segment was taken: it is in use, all its blocks count as valid, and it is no victim. *)
Definition took (x x' : X) (seg : Z) : Prop :=
  x_next x x' (fun i => (i =? seg) || x_used x i) (fun b => (b / BLOCKS_PER_SEGMENT =? seg) || x_valid x b) (x_lba x) (x_victims x ∖ {[seg]}).

(** Allocation of a segment, up to the point where the cleaner may run. *)
Lemma sa_alloc_ok depth fuel s :
  x_inv (sd_x s) -> 0 < NR_SEGMENT -> NR_SEGMENT * SECTOES_PER_SEGMENT <= 2 ^ 32 ->
  (forall b, 0 <= b < NR_SEGMENT * BLOCKS_PER_SEGMENT -> x_used (sd_x s) (b / BLOCKS_PER_SEGMENT) = false -> x_valid (sd_x s) b = false) ->
  sa_nr_valid_segment s = nr_used NR_SEGMENT (x_used (sd_x s)) -> sa_nr_valid_segment s < NR_SEGMENT ->
  exists seg x', 0 <= seg < NR_SEGMENT /\ x_used (sd_x s) seg = false /\ took (sd_x s) x' seg /\
    let s' := set_x x' (set_alloc (sa_nr_valid_segment s + 1) (sa_status s) (set_cursor seg (sb_cur_sector s) s)) in
    sa_alloc NR_SEGMENT garbage_memory garbage_lba garbage_record (S depth) fuel s =
      if sa_will_trigger_gc NR_SEGMENT s' && negb (bool_decide (sa_status s' = SEGMENT_CLEANING))
      then (fun s => (Ok tt, s)) <$> sa_foreground_gc garbage_memory garbage_lba garbage_record
             (segbuf_push_block NR_SEGMENT (sa_alloc NR_SEGMENT garbage_memory garbage_lba garbage_record depth fuel)) fuel s'
      else Some (Ok tt, s').
Proof.
  intros Hx HN Hnr Hfree Hcnt Hlt. cbn [sa_alloc].
  pose proof (sv_next_ok (sd_x s) Hx) as Hnx. destruct (sv_next (sd_x s)) as [[seg|e] x1]; last first.
  { destruct Hnx as [_ Hall]. rewrite nr_used_all // in Hcnt. lia. }
  destruct Hnx as (Hseg & Hus & [[I1 I2 I3 I4 I5 I6] I7]). cbn [set_cursor set_x sd_x].
  destruct (sv_take_ok x1 seg I1 Hseg) as (x2 & -> & [[J1 J2 J3 J4 J5 J6] J7]). cbn [set_alloc set_x sd_x].
  destruct (ds_take_segment_ok x2 seg J1 Hseg) as (x3 & -> & [[K1 K2 K3 K4 K5 K6] K7]).
  { intros b Hb. rewrite J4 I4. apply Hfree; [|by rewrite Hb]. change BLOCKS_PER_SEGMENT with 1024 in *. apply seg_of in Hb. lia. }
  exists seg, x3. split; [done|]. split; [done|]. split.
  { split; [split; [done|congruence|intros; by rewrite K3 J3 I3|intros; by rewrite K4 J4 I4|intros; by rewrite K5 J5 I5|by rewrite K6 J6 I6]|auto]. }
  cbn [set_cursor set_alloc set_x sa_nr_valid_segment sa_status sb_cur_sector]. change SECTOES_PER_SEGMENT with 8192 in Hnr.
  pose proof (nr_used_bound (x_used (sd_x s)) HN). rewrite (u64_small (sa_nr_valid_segment s + 1)); [done|lia].
Qed.

(** The segment that was just filled is on the device afterwards. *)
Lemma flush_core s content seg x' :
  dp_core s content -> sb_cur_sector s = SECTOES_PER_SEGMENT -> 0 <= seg < NR_SEGMENT -> x_used (sd_x s) seg = false ->
  took (sd_x s) x' seg ->
  dp_core (set_x x' (set_alloc (sa_nr_valid_segment s + 1) (sa_status s) (set_cursor seg 0 (segbuf_flush_bios s)))) content.
Proof.
  intros Hc Hfull Hseg Hus [[I1 I2 I3 I4 I5 I6] _]. set (s' := set_x x' _). pose proof (di_cursor _ _ Hc) as (C1 & _).
  assert (forall b, in_segbuf s' b = false) as Hnone.
  { intros b. pose proof (in_segbuf_spec s' b) as I. change (sb_cur_sector s' / 8) with 0 in I.
    destruct (in_segbuf s' b); [|done]. destruct (proj1 I eq_refl). lia. }
  assert (forall b, in_slots s' b <-> b / BLOCKS_PER_SEGMENT = seg) as Hsl.
  { intros b. rewrite /in_slots. change BLOCKS_PER_SEGMENT with 1024. rewrite seg_of. change (sb_filled s') with 0. change (sb_cur_segment s') with seg. lia. }
  assert (forall b, ~ in_slots s b) as Hno.
  { intros b. rewrite /in_slots /sb_filled Hfull. change (SECTOES_PER_SEGMENT / SECTORS_PER_BLOCK) with 1024. change BLOCKS_PER_SEGMENT with 1024. lia. }
  split; try done; cbn [s' set_x sd_x set_alloc sa_nr_valid_segment].
  - apply (di_nr _ _ Hc).
  - split; [done|]. split; [by vm_compute|]. split; [done|]. change (x_used x' seg = true). by rewrite I3 Z.eqb_refl.
  - rewrite I2. apply (di_dom _ _ Hc).
  - intros lba r d Hr Hd. rewrite I2 in Hr.
    pose proof (di_block _ _ Hc _ _ _ Hr Hd) as (H1 & H2 & H3 & H4 & H5 & H6 & H7).
    change BLOCKS_PER_SEGMENT with 1024 in H2, H3, H6. pose proof (seg_of (pba r) (sb_cur_segment s)) as Hsg.
    assert (stored s' (pba r) = stored s (pba r)) as Hst.
    { rewrite /stored Hnone. pose proof (in_segbuf_spec s (pba r)) as I. rewrite Hfull in I. change (SECTOES_PER_SEGMENT / 8) with 1024 in I.
      cbn [s' set_x set_alloc set_cursor segbuf_flush_bios set_disk sd_disk]. rewrite /sworndisk_write_blocks /block_bytes.
      change (Z.to_nat DATA_BLOCK_SIZE) with 4096%nat. change DATA_BLOCK_SIZE with 4096. change BLOCKS_PER_SEGMENT with 1024.
      destruct (in_segbuf s (pba r)).
      - destruct (proj1 I eq_refl). rewrite area_read_copy_in; [|lia|lia]. f_equal. rewrite /slot_of.
        change DATA_BLOCK_SIZE with 4096. change BLOCKS_PER_SEGMENT with 1024. lia.
      - rewrite area_read_copy_out; [done|]. destruct (decide (sb_cur_segment s * 1024 <= pba r < sb_cur_segment s * 1024 + 1024)); [|lia].
        exfalso. apply I in a. done. }
    split; [done|]. change BLOCKS_PER_SEGMENT with 1024. split; [done|].
    split; [change (x_used x' (pba r / 1024) = true); rewrite I3 H3 orb_true_r //|].
    split; [done|]. rewrite Hst. split; [done|]. rewrite Hnone. split; [|done].
    intros Hs. change (sb_cur_segment s') with seg in Hs. congruence.
  - intros lba r. rewrite I2 I4 I5 => Hr. destruct (di_live _ _ Hc _ _ Hr) as (L1 & L2 & L3). by rewrite L2 orb_true_r.
  - intros b Hb%Hsl. by rewrite I4 Hb Z.eqb_refl.
  - intros b Hb. rewrite I4 I2 => /orb_true_iff [Hs|Hv]; [left; apply Hsl; by apply Z.eqb_eq in Hs|].
    right. destruct (di_mapped _ _ Hc b Hb Hv) as [Hs|?]; [by apply Hno in Hs|done].
  - intros b Hb. rewrite I3 I4 => /orb_false_iff [-> Hu]. by apply (di_free _ _ Hc).
  - rewrite (di_count _ _ Hc) -(nr_used_take _ seg) //. apply nr_used_ext => i _. symmetry. apply I3.
Qed.

(** Bytes of the free slot of the plaintext buffer do not matter. *)
Lemma scratch_core s content buffer :
  dp_core s content -> sb_cur_sector s < SECTOES_PER_SEGMENT ->
  (forall i, i < sb_cur_sector s * SECTOR_SIZE -> buffer i = sb_buffer s i) ->
  dp_core (set_bufs buffer (sb_pipe s) s) content.
Proof.
  intros Hc Hlt Hbuf. split; try apply Hc. intros lba r d Hr Hd.
  pose proof (di_block _ _ Hc _ _ _ Hr Hd) as (H1 & H2 & H3 & H4 & H5 & H6 & H7).
  do 6 (split; [done|]). intros Hi. rewrite -(H7 Hi). apply area_read_ext => i. cbn [set_bufs sb_buffer].
  change (in_segbuf (set_bufs buffer (sb_pipe s) s) (pba r)) with (in_segbuf s (pba r)) in Hi.
  apply in_segbuf_spec in Hi. destruct (next_pba_eq s (di_cursor _ _ Hc)) as [_ Hdiv].
  change (slot_of (set_bufs buffer (sb_pipe s) s) (pba r)) with (slot_of s (pba r)).
  rewrite /slot_of /block_bytes. change (Z.of_nat (Z.to_nat DATA_BLOCK_SIZE)) with 4096. change DATA_BLOCK_SIZE with 4096.
  change BLOCKS_PER_SEGMENT with 1024. intros Hr'. apply Hbuf. change SECTOR_SIZE with 512. lia.
Qed.

(** Changing a block that is still in the buffer, in place. *)
Lemma modify_core s content x lba r d d' ct m buffer :
  dp_core s content -> x_map (sd_x s) !! lba = Some r -> content !! lba = Some d -> in_segbuf s (pba r) = true ->
  x_is x (<[lba := record_set_mac m r]> (x_map (sd_x s))) (x_used (sd_x s)) (x_valid (sd_x s)) (x_lba (sd_x s)) (x_victims (sd_x s)) ->
  length d' = block_bytes -> encrypt d' (key r) (iv r) (pba r) = (ct, m) ->
  area_read (slot_of s (pba r)) block_bytes buffer = d' ->
  (forall i, ~ (slot_of s (pba r) <= i < slot_of s (pba r) + DATA_BLOCK_SIZE) -> buffer i = sb_buffer s i) ->
  dp_core (set_x x (set_bufs buffer (area_write (slot_of s (pba r)) ct (sb_pipe s)) s)) (<[lba := d']> content).
Proof.
  intros Hc Hr Hd Hin [Hx Hm Hu Hv Hlb _] Hl Henc Hrd Hout. set (s' := set_x x _).
  pose proof (di_block _ _ Hc _ _ _ Hr Hd) as (W1 & W2 & W3 & _ & _ & W6 & _).
  assert (length ct = block_bytes) as Hct by (rewrite -Hl -(length_encrypt d' (key r) (iv r) (pba r)) Henc; done).
  assert (length m = AES_GCM_AUTH_SIZE) as Hml by (rewrite -(length_encrypt_mac d' (key r) (iv r) (pba r)) Henc; done).
  assert (forall b, in_segbuf s' b = in_segbuf s b) as Hsame by done.
  split; cbn [s' set_x set_bufs sd_x sa_nr_valid_segment]; rewrite ?Hm.
  - apply (di_nr _ _ Hc).
  - done.
  - destruct (di_cursor _ _ Hc) as (C1 & C2 & C3 & C4). split; [done|]. split; [done|]. split; [done|]. cbn [s' set_x sd_x]. by rewrite Hu.
  - by rewrite !dom_insert_L (di_dom _ _ Hc).
  - intros lba2 r2 d2. destruct (decide (lba2 = lba)) as [->|Hne].
    + rewrite !lookup_insert_eq. intros [= <-] [= <-]. destruct W1 as (P1 & _ & P3 & P4).
      split; [by apply record_wf|]. split; [done|]. split; [by cbn [s' set_x sd_x]; rewrite Hu|]. split; [done|].
      split; [|split; [done|by intros _]]. cbn [record_set_mac key iv pba mac]. rewrite Henc. f_equal.
      rewrite /stored Hsame Hin -Hct. symmetry. apply area_read_write_eq.
    + rewrite !lookup_insert_ne //. intros Hr2 Hd2.
      pose proof (di_block _ _ Hc _ _ _ Hr2 Hd2) as (H1 & H2 & H3 & H4 & H5 & H6 & H7).
      assert (pba r2 <> pba r) as Hnp by (intros He; apply Hne; by eapply di_inj).
      assert (slot_of s (pba r2) + DATA_BLOCK_SIZE <= slot_of s (pba r) \/ slot_of s (pba r) + DATA_BLOCK_SIZE <= slot_of s (pba r2)) as Hdis.
      { rewrite /slot_of. change DATA_BLOCK_SIZE with 4096. lia. }
      change DATA_BLOCK_SIZE with 4096 in Hdis, Hout. assert (Z.of_nat block_bytes = 4096) as Hbb by done.
      assert (stored s' (pba r2) = stored s (pba r2)) as Hst.
      { rewrite /stored Hsame. destruct (in_segbuf s (pba r2)); [|done]. apply area_read_write_ne. rewrite Hct Hbb.
        change (slot_of s' (pba r2)) with (slot_of s (pba r2)). lia. }
      split; [done|]. split; [done|]. split; [by cbn [s' set_x sd_x]; rewrite Hu|]. split; [done|]. rewrite Hst. split; [done|].
      split; [done|]. intros Hi. rewrite -(H7 Hi). apply area_read_ext => i Hri. apply Hout.
      change (slot_of s' (pba r2)) with (slot_of s (pba r2)) in Hri. lia.
  - intros lba2 r2. rewrite Hv Hlb. destruct (decide (lba2 = lba)) as [->|Hne]; [|rewrite lookup_insert_ne //; apply (di_live _ _ Hc)].
    rewrite lookup_insert_eq. intros [= <-]. apply (di_live _ _ Hc _ _ Hr).
  - intros b. rewrite Hv. apply (di_slots _ _ Hc).
  - intros b Hb. rewrite Hv => Hvb. destruct (di_mapped _ _ Hc b Hb Hvb) as [?|(lba2 & r2 & Hr2 & <-)]; [by left|]. right.
    destruct (decide (lba2 = lba)) as [->|Hne]; [|exists lba2, r2; by rewrite lookup_insert_ne].
    exists lba, (record_set_mac m r). rewrite lookup_insert_eq. split; [done|]. rewrite Hr in Hr2. by injection Hr2 as <-.
  - intros b Hb. rewrite Hu Hv. by apply (di_free _ _ Hc).
  - rewrite (di_count _ _ Hc). apply nr_used_ext => i _. symmetry. apply Hu.
Qed.

End data_path_facts.
