(* ===== verification/Cleaning.v ===== *)
(** * Cleaning keeps every block

    The foreground cleaner moves the valid blocks of victim segments to the
    segment buffer and gives the segments back, while pushing the blocks it
    moves may fill and replace the segment buffer.  With victims that are worth
    cleaning it terminates, the contents stay, and it uses no more segments
    than it frees. *)
From S2P Require Import Prelude Codec BlockManager DiskStructs Crypto BitNode Superblock SegValidator Dst Area Bio BitFile BitFileSpec Segment DataPath.

(** ** Bitmap searches *)
Lemma find_from_spec b n i (l : list bool) : (i + n = length l)%nat ->
  let p := find_from b n i l in
  (i <= p <= length l)%nat /\ (forall j, (i <= j < p)%nat -> l !! j = Some (negb b)) /\ ((p < length l)%nat -> l !! p = Some b).
Proof.
  revert i. induction n as [|n IH] => i Hi; cbn [find_from]; [split; [lia|split; intros; lia]|].
  destruct (lookup_lt_is_Some_2 l i ltac:(lia)) as [c Hc]. rewrite Hc. destruct (eqb_spec c b) as [->|Hne]; [split; [lia|split; [intros; lia|done]]|].
  destruct (IH (S i) ltac:(lia)) as (H1 & H2 & H3). split; [lia|]. split; [|done].
  intros j Hj. destruct (decide (j = i)) as [->|]; [rewrite Hc; by destruct c, b|apply H2; lia].
Qed.

Lemma find_next_spec b (l : list bool) i : 0 <= i <= Z.of_nat (length l) ->
  let p := Z.of_nat (find_from b (length l - Z.to_nat i) (Z.to_nat i) l) in
  i <= p <= Z.of_nat (length l) /\ (forall j, i <= j < p -> l !! Z.to_nat j = Some (negb b)) /\
  (p < Z.of_nat (length l) -> l !! Z.to_nat p = Some b).
Proof.
  intros Hi. destruct (find_from_spec b (length l - Z.to_nat i) (Z.to_nat i) l ltac:(lia)) as (H1 & H2 & H3).
  split; [lia|]. split; [intros j Hj; apply H2; lia|]. rewrite Nat2Z.id. intros; apply H3; lia.
Qed.

(** ** The bits of a segment *)
Lemma length_seg_bits valid seg : length (seg_bits valid seg) = 1024%nat.
Proof. by rewrite /seg_bits length_fmap length_seqZ. Qed.
Lemma seg_bits_lookup valid seg j : 0 <= j < 1024 -> seg_bits valid seg !! Z.to_nat j = Some (valid (seg * 1024 + j)).
Proof.
  intros Hj. rewrite /seg_bits. change BLOCKS_PER_SEGMENT with 1024. rewrite list_lookup_fmap lookup_seqZ_lt; [|lia].
  cbn. do 2 f_equal. lia.
Qed.
Lemma seg_bits_ext valid valid' seg : (forall b, b / 1024 = seg -> valid' b = valid b) -> seg_bits valid' seg = seg_bits valid seg.
Proof.
  intros H. apply list_fmap_ext => i b Hb. apply list_elem_of_lookup_2, elem_of_seqZ in Hb. change BLOCKS_PER_SEGMENT with 1024 in Hb.
  apply H, seg_of. lia.
Qed.
Lemma seg_count_bound valid seg : 0 <= seg_count valid seg <= 1024.
Proof. rewrite /seg_count. pose proof (count_true_bound (seg_bits valid seg)) as H. rewrite length_seg_bits in H. lia. Qed.
(** One block less. *)
Lemma seg_count_drop valid valid' b : valid b = true -> (forall b', valid' b' = negb (b' =? b) && valid b') ->
  seg_count valid' (b / 1024) = seg_count valid (b / 1024) - 1.
Proof.
  intros Hb Hv. pose proof (proj1 (seg_of b (b / 1024)) eq_refl) as Hr. rewrite /seg_count /seg_bits. change BLOCKS_PER_SEGMENT with 1024.
  rewrite (fmap_seqZ_insert valid _ _ _ b false); [|lia|intros; rewrite Hv; by destruct (_ =? _)].
  rewrite (count_true_insert _ _ true); [lia|]. rewrite lookup_fmap_seqZ; [by rewrite Hb|lia].
Qed.
(** A segment with an invalid block is not full. *)
Lemma seg_count_open valid b : valid b = false -> seg_count valid (b / 1024) < 1024.
Proof.
  intros Hb. set (more := fun b' => (b' =? b) || valid b'). pose proof (seg_count_bound more (b / 1024)).
  rewrite (seg_count_drop more valid b); [lia|by rewrite /more Z.eqb_refl|].
  intros b'. rewrite /more. destruct (Z.eqb_spec b' b) as [->|]; [done|by destruct (valid b')].
Qed.
Lemma seg_count_ext valid valid' seg : (forall b, b / 1024 = seg -> valid' b = valid b) -> seg_count valid' seg = seg_count valid seg.
Proof. intros H. by rewrite /seg_count (seg_bits_ext _ _ _ H). Qed.
Lemma seg_count_zero valid seg : seg_count valid seg = 0 <-> forall b, b / 1024 = seg -> valid b = false.
Proof.
  split.
  - intros H0 b Hb. destruct (valid b) eqn:Ev; [|done]. subst seg.
    pose proof (seg_count_drop valid (fun b' => negb (b' =? b) && valid b') b Ev (fun _ => eq_refl)).
    pose proof (seg_count_bound (fun b' => negb (b' =? b) && valid b') (b / 1024)). lia.
  - intros Hf. by rewrite /seg_count (seg_bits_ext (fun _ => false)).
Qed.

Section cleaning.
Context {X : Type} {ix : LsmIndex X} {dm : DataMeta X} {dv : DataView X} {gcm : Gcm} {gcm_ok : GcmOk} {rng : Rng} {rng_ok : RngOk}.
Context (NR_SEGMENT : Z) {ok : DataPathOk X NR_SEGMENT}.
Context (garbage_memory : area) (garbage_lba : Z) (garbage_record : record).
Implicit Types (s : sworndisk X) (x : X).
Let core := dp_core NR_SEGMENT.
Let alloc := sa_alloc NR_SEGMENT garbage_memory garbage_lba garbage_record.
Let push depth fuel := segbuf_push_block NR_SEGMENT (alloc depth fuel).

Lemma stored_outside s b : cursor_ok NR_SEGMENT s -> b / 1024 <> sb_cur_segment s ->
  stored s b = area_read (b * DATA_BLOCK_SIZE) block_bytes (sd_disk s).
Proof.
  intros (_ & Hsec & _) Hb. rewrite /stored. pose proof (in_segbuf_spec s b) as Hi. destruct (in_segbuf s b); [|done].
  exfalso. apply Hb, seg_of. destruct (proj1 Hi eq_refl). change SECTOES_PER_SEGMENT with 8192 in Hsec.
  pose proof (Z.div_le_mono (sb_cur_sector s) 8192 8 ltac:(lia) ltac:(lia)). change (8192 / 8) with 1024 in H1. lia.
Qed.

(** Threaded logging is off while there is a victim with free space enough. *)
Lemma not_threaded s i : x_inv (sd_x s) -> i ∈ x_victims (sd_x s) -> seg_count (x_valid (sd_x s)) i <= 768 ->
  sworndisk_should_threaded_logging NR_SEGMENT s = false.
Proof.
  intros Hx Hi Hc. rewrite /sworndisk_should_threaded_logging. destruct (_ <? _); [done|].
  rewrite (ds_threaded_ok _ Hx). pose proof (ds_peek_victim_ok _ Hx) as Hp. destruct (ds_peek_victim (sd_x s)) as [v|]; [|done].
  destruct Hp as (_ & _ & _ & Hmin). specialize (Hmin i Hi). change (BLOCKS_PER_SEGMENT / 4 * 3) with 768. apply Z.ltb_ge. lia.
Qed.

(** ** One block moved *)

(** The state the cleaner works in: segment [V] is being cleaned. *)
Record gc_state (V : Z) s (content : gmap Z (list byte)) : Prop := {
  gs_core : core s content;
  gs_lt : sb_cur_sector s < SECTOES_PER_SEGMENT;
  gs_status : sa_status s = SEGMENT_CLEANING;
  gs_cur : sb_cur_segment s ∉ x_victims (sd_x s);
  gs_victim : V ∈ x_victims (sd_x s);
  gs_worth : seg_count (x_valid (sd_x s)) V <= 768
}.

(** What moving blocks out of [V] leaves alone. *)
Record gc_step (V : Z) s s' : Prop := {
  ge_prefetcher : sd_prefetcher s' = sd_prefetcher s;
  ge_victims i : i ∈ x_victims (sd_x s') -> i ∈ x_victims (sd_x s);
  ge_kept i : i ∈ x_victims (sd_x s) -> x_used (sd_x s) i = true -> i ∈ x_victims (sd_x s');
  ge_used i : x_used (sd_x s) i = true -> x_used (sd_x s') i = true;
  ge_other b : b / 1024 <> V -> b / 1024 ∈ x_victims (sd_x s') -> x_valid (sd_x s') b = x_valid (sd_x s) b;
  ge_stored b : b / 1024 = V -> stored s' b = stored s b
}.

Lemma gc_step_refl V s : gc_step V s s.
Proof. done. Qed.
Lemma gc_step_trans V s1 s2 s3 : gc_step V s1 s2 -> gc_step V s2 s3 -> gc_step V s1 s3.
Proof.
  intros [H1 H2 H3 H4 H5 H6] [I1 I2 I3 I4 I5 I6]. split; [congruence|auto|auto|auto| |].
  - intros b Hb Hv. rewrite I5 //. apply H5; [done|]. by apply I2.
  - intros b Hb. rewrite I6 //. by apply H6.
Qed.

(** The block is in the buffer: one block less in [V]. *)
Lemma gc_pushed V s s1 content lba r :
  gc_state V s content -> x_map (sd_x s) !! lba = Some r -> pba r / 1024 = V -> pushed NR_SEGMENT s s1 lba content ->
  (forall b, x_valid (sd_x s1) b = negb (b =? pba r) && x_valid (sd_x s) b) /\
  (forall i, i ∈ x_victims (sd_x s1) <-> i ∈ x_victims (sd_x s)) /\
  seg_count (x_valid (sd_x s1)) V = seg_count (x_valid (sd_x s)) V - 1 /\ gc_step V s s1.
Proof.
  intros [Hc Hlt Hst Hcur Hvic Hworth] Hr HV [U1 _ U3 U4 _ _ U7 U8 U9 U10 _ _]. destruct (di_live _ _ _ Hc _ _ Hr) as (_ & Hval & _).
  assert (forall b, x_valid (sd_x s1) b = negb (b =? pba r) && x_valid (sd_x s) b) as Hdrop by (intros b; by rewrite U9 /dropped Hr).
  assert (forall i, i ∈ x_victims (sd_x s1) <-> i ∈ x_victims (sd_x s)) as Hvs.
  { intros i. rewrite U10 /pushed_victims Hr. change BLOCKS_PER_SEGMENT with 1024. rewrite HV. set_solver. }
  pose proof (seg_count_drop (x_valid (sd_x s)) (x_valid (sd_x s1)) (pba r) Hval Hdrop) as Hcnt. rewrite HV in Hcnt.
  assert (sb_cur_segment s <> V) as HcV by (intros He; by rewrite He in Hcur).
  do 3 (split; [done|]). split; [done|by intros i ?%Hvs|by intros i ?%Hvs ?|by intros i ?; rewrite U8| |].
  - intros b Hb _. rewrite Hdrop. destruct (Z.eqb_spec b (pba r)) as [->|]; done.
  - intros b Hb. rewrite !stored_outside ?U7 ?U3 ?Hb //; [by destruct Hc|by destruct U1].
Qed.

(** The full segment is written out and segment [seg] taken. *)
Definition gc_fresh (seg : Z) (x' : X) s : sworndisk X :=
  set_x x' (set_alloc (sa_nr_valid_segment s + 1) (sa_status s) (set_cursor seg 0 (segbuf_flush_bios s))).
Lemma gc_fresh_ok V s content seg x' :
  core s content -> sb_cur_sector s = SECTOES_PER_SEGMENT -> sb_cur_segment s <> V -> 0 <= seg < NR_SEGMENT -> x_used (sd_x s) seg = false ->
  x_used (sd_x s) V = true -> took (sd_x s) x' seg ->
  core (gc_fresh seg x' s) content /\ (forall i, i ∈ x_victims x' <-> i ∈ x_victims (sd_x s) /\ i <> seg) /\ seg <> V /\
  (forall b, b / 1024 = V -> x_valid x' b = x_valid (sd_x s) b) /\ gc_step V s (gc_fresh seg x' s).
Proof.
  intros Hc Hsec HcV Hseg Hus HuV Htook. pose proof (flush_core NR_SEGMENT s content seg x' Hc Hsec Hseg Hus Htook) as Hc'. fold (gc_fresh seg x' s) in Hc'.
  assert (seg <> V) as HsV by (intros ->; congruence). destruct Htook as [[I1 I2 I3 I4 I5 I6] I7].
  assert (forall i, i ∈ x_victims x' <-> i ∈ x_victims (sd_x s) /\ i <> seg) as Hvs' by (intros i; by rewrite I6 elem_of_difference elem_of_singleton).
  assert (forall b, b / 1024 <> seg -> x_valid x' b = x_valid (sd_x s) b) as Hval'.
  { intros b Hb. rewrite I4. change BLOCKS_PER_SEGMENT with 1024. by ztest. }
  do 3 (split; [done|]). split; [intros b Hb; apply Hval'; congruence|]. split; try done; cbn [gc_fresh set_x sd_x].
  - by intros i [Hi _]%Hvs'.
  - intros i Hi Hu. apply Hvs'. split; [done|]. intros ->. congruence.
  - intros i Hu. by rewrite I3 Hu orb_true_r.
  - intros b Hb [_ Hne]%Hvs'. by apply Hval'.
  - intros b Hb. rewrite !stored_outside ?Hb //; [|by destruct Hc|by destruct Hc']. cbn [gc_fresh set_x set_alloc set_cursor segbuf_flush_bios set_disk sd_disk].
    rewrite /sworndisk_write_blocks area_read_copy_out; [done|]. change (Z.of_nat block_bytes) with 4096. change DATA_BLOCK_SIZE with 4096.
    change BLOCKS_PER_SEGMENT with 1024. apply seg_of in Hb. lia.
Qed.

Lemma gc_push_ok depth fuel V s content lba r d k :
  gc_state V s content -> x_room (S k) (sd_x s) -> x_map (sd_x s) !! lba = Some r -> content !! lba = Some d -> pba r / 1024 = V ->
  (sb_filled s = 1023 -> sa_nr_valid_segment s < NR_SEGMENT) ->
  exists s', push (S depth) fuel lba d s = Some s' /\ gc_state V s' content /\ gc_step V s s' /\ x_room k (sd_x s') /\
    (forall b, b / 1024 = V -> x_valid (sd_x s') b = negb (b =? pba r) && x_valid (sd_x s) b) /\
    (sb_filled s' = sb_filled s + 1 /\ sa_nr_valid_segment s' = sa_nr_valid_segment s \/
     sb_filled s = 1023 /\ sb_filled s' = 0 /\ sa_nr_valid_segment s' = sa_nr_valid_segment s + 1).
Proof.
  intros Hg Hroom Hr Hd HV Hfree. pose proof Hg as [Hc Hlt Hst Hcur Hvic Hworth]. pose proof (di_live _ _ _ Hc _ _ Hr) as (Hkey & _ & _).
  destruct (content_of _ _ _ _ _ Hc Hr) as (d' & Hd' & _ & Hpr & Hused & Hl & _). rewrite Hd in Hd'. injection Hd' as <-.
  change BLOCKS_PER_SEGMENT with 1024 in Hused. rewrite HV in Hused.
  destruct (push_block_ok NR_SEGMENT (alloc (S depth) fuel) lba d s content Hc Hlt Hkey
    (x_room_le _ 1 (S k) ltac:(lia) Hroom) Hl (not_threaded s V (di_x _ _ _ Hc) Hvic Hworth)) as (s1 & Hpu & Hrun).
  rewrite insert_id // in Hpu. destruct (gc_pushed V s s1 content lba r Hg Hr HV Hpu) as (Hdrop & Hvs & Hcnt & Hstep1).
  destruct Hpu as [U1 U2 U3 U4 U5 U6 U7 U8 U9 U10 (r1 & U11 & _) U12]. destruct (di_cursor _ _ _ Hc) as (_ & Hsec & Hmod & _).
  change SECTOES_PER_SEGMENT with 8192 in Hlt, Hsec. change SECTORS_PER_BLOCK with 8 in Hmod.
  assert (sb_cur_sector s = 8 * sb_filled s) as Hfil.
  { change (sb_filled s) with (sb_cur_sector s / 8). pose proof (Z.div_mod (sb_cur_sector s) 8). lia. }
  rewrite /push Hrun U2. change SECTOES_PER_SEGMENT with 8192. destruct (Z.leb_spec 8192 (sb_cur_sector s + 8)) as [Hge|Hless]; last first.
  { exists s1. split; [done|]. split; [split; try done; [rewrite U2; exact Hless|congruence|by rewrite U3 Hvs|by apply Hvs|lia]|].
    split; [done|]. split; [by apply U12|]. split; [done|]. left. split; [|done].
    change (sb_filled s1) with (sb_cur_sector s1 / 8). change (sb_filled s) with (sb_cur_sector s / 8). rewrite U2 -{1}(Z.mul_1_l 8) Z.div_add //. }
  assert (sb_filled s = 1023) as Hfull by lia. set (s2 := set_cursor (sb_cur_segment s1) 0 (segbuf_flush_bios s1)). pose proof (di_nr _ _ _ Hc) as [HN Hnr].
  destruct (sa_alloc_ok NR_SEGMENT garbage_memory garbage_lba garbage_record depth fuel s2 (di_x _ _ _ U1) HN Hnr
    (di_free _ _ _ U1) (di_count _ _ _ U1)) as (seg & x' & Hseg & Hus & Htook & Halloc).
  { change (sa_nr_valid_segment s1 < NR_SEGMENT). rewrite U5. by apply Hfree. }
  cbn zeta in Halloc. cbn [set_x set_alloc sa_status] in Halloc.
  change (sa_status s2) with (sa_status s1) in Halloc. rewrite U6 Hst bool_decide_true // andb_false_r in Halloc.
  change (sd_x s2) with (sd_x s1) in Hus, Htook. rewrite /alloc Halloc. exists (gc_fresh seg x' s1). split; [by rewrite /gc_fresh U6 Hst|].
  assert (sb_cur_segment s1 <> V) as HcV by (rewrite U3; intros He; by rewrite He in Hcur).
  destruct (gc_fresh_ok V s1 content seg x' U1 ltac:(rewrite U2; change SECTOES_PER_SEGMENT with 8192; lia) HcV Hseg Hus ltac:(by rewrite U8) Htook)
    as (Hc' & Hvs' & HsV & Hval' & Hstep2).
  split; [split; try done; cbn [gc_fresh set_x sd_x sb_cur_segment]|].
  - change (sa_status s1 = SEGMENT_CLEANING). congruence.
  - change (seg ∉ x_victims x'). rewrite Hvs'. by intros [_ ?].
  - rewrite Hvs'. split; [by apply Hvs|congruence].
  - rewrite (seg_count_ext (x_valid (sd_x s1))) //. lia.
  - split; [by eapply gc_step_trans|]. split; [by apply (proj2 Htook), U12|]. split; [intros b Hb; cbn [gc_fresh set_x sd_x]; by rewrite Hval'|].
    right. split; [done|]. split; [done|]. by rewrite -U5.
Qed.
(** ** All blocks of a victim *)
Lemma gc_state_same V s x content : gc_state V s content -> x_same (sd_x s) x -> gc_state V (set_x x s) content.
Proof.
  intros [Hc Hlt Hst Hcur Hvic Hw] Hs. pose proof (dp_core_same NR_SEGMENT s x content Hc Hs) as Hc'.
  destruct Hs as [[I1 I2 I3 I4 I5 I6] I7]. split; try done; cbn [set_x sd_x sb_cur_segment]; rewrite ?I6 //.
  rewrite /seg_count (seg_bits_ext (x_valid (sd_x s))) //.
Qed.
Lemma gc_step_same V s x : x_same (sd_x s) x -> gc_step V s (set_x x s).
Proof.
  intros [[I1 I2 I3 I4 I5 I6] I7]. split; try done; cbn [set_x sd_x]; rewrite ?I6 //. intros i. by rewrite I3.
Qed.

(** The blocks of the victim that are read at once. *)
Definition region_ok V s (region_begin region_end : Z) (buffer : area) : Prop :=
  forall j, region_begin <= j < region_end -> 0 <= j < 1024 -> area_read (j * DATA_BLOCK_SIZE) block_bytes buffer = stored s (V * 1024 + j).

Lemma region_read V T s o region_begin region_end buffer :
  length T = 1024%nat -> 0 <= o < 1024 -> T !! Z.to_nat o = Some true -> region_ok V s region_begin region_end buffer ->
  exists rb re buf,
    (if offset_in_region o region_begin region_end then (region_begin, region_end, buffer)
     else (o, find_next_zero_bit T o,
           sworndisk_read_blocks s (V * BLOCKS_PER_SEGMENT + o) (find_next_zero_bit T o - o) buffer (o * DATA_BLOCK_SIZE))) = (rb, re, buf) /\
    rb <= o < re /\ region_ok V s rb re buf.
Proof.
  intros HT Ho Hbit Hreg. destruct (offset_in_region o region_begin region_end) eqn:E.
  { apply andb_true_iff in E as [?%Z.leb_le ?%Z.ltb_lt]. eexists _, _, _. done. }
  eexists _, _, _. split; [reflexivity|]. destruct (find_next_spec false T o ltac:(lia)) as (H1 & _ & H3). fold (find_next_zero_bit T o) in H1, H3.
  assert (find_next_zero_bit T o <> o) by (intros He; rewrite He in H3; specialize (H3 ltac:(lia)); congruence).
  split; [lia|]. intros j Hj _. change BLOCKS_PER_SEGMENT with 1024.
  replace (j * DATA_BLOCK_SIZE) with (o * DATA_BLOCK_SIZE + (j - o) * DATA_BLOCK_SIZE) by lia.
  rewrite read_blocks_ok; [|lia]. f_equal. lia.
Qed.

(** A valid block of the victim is mapped, and the cleaner finds its record. *)
Lemma gc_find_ok V s content b :
  core s content -> 0 <= V < NR_SEGMENT -> sb_cur_segment s <> V -> b / 1024 = V -> x_valid (sd_x s) b = true ->
  exists lba r d x1 x2, rt_get b (sd_x s) = (Ok lba, x1) /\ ix_search lba x1 = (Ok r, x2) /\ x_same (sd_x s) x2 /\
    x_map x2 !! lba = Some r /\ content !! lba = Some d /\ pba r = b /\
    decrypt (stored s b) (key r) (iv r) (mac r) (pba r) = Ok d.
Proof.
  intros Hc HVr Hcur HbV Hvb.
  pose proof (proj1 (seg_of _ _) HbV) as Hb. assert (0 <= b < NR_SEGMENT * 1024) as Hbr by lia.
  assert (exists lba r, x_map (sd_x s) !! lba = Some r /\ pba r = b) as (lba & r & Hr & Hpr).
  { destruct (di_mapped _ _ _ Hc b Hbr Hvb) as [Hs|?]; [|done]. exfalso. apply Hcur.
    rewrite /in_slots in Hs. change BLOCKS_PER_SEGMENT with 1024 in Hs. destruct (di_cursor _ _ _ Hc) as (_ & Hsec & _).
    pose proof (Z.div_pos (sb_cur_sector s) 8 ltac:(lia) ltac:(lia)). change (sb_filled s) with (sb_cur_sector s / 8) in Hs.
    rewrite -HbV. symmetry. apply seg_of. lia. }
  destruct (di_live _ _ _ Hc _ _ Hr) as (Hkey & _ & Hlba). rewrite Hpr in Hlba.
  destruct (rt_get_ok (sd_x s) b (di_x _ _ _ Hc) Hbr) as (x1 & Hget & Hs1). rewrite Hlba in Hget.
  destruct (ix_search_ok x1 lba (xs_inv _ _ _ _ _ _ (proj1 Hs1)) Hkey) as (x2 & Hsr & Hs2).
  rewrite (xs_map _ _ _ _ _ _ (proj1 Hs1)) Hr in Hsr. pose proof (x_same_trans _ _ _ Hs1 Hs2) as Hs12.
  destruct (content_of _ _ _ _ _ Hc Hr) as (d & Hd & _ & _ & _ & _ & Henc & _ & _).
  exists lba, r, d, x1, x2. split; [done|]. split; [done|]. split; [done|]. rewrite (xs_map _ _ _ _ _ _ (proj1 Hs12)). split; [done|].
  split; [done|]. split; [done|]. rewrite -Hpr. exact (decrypt_encrypt _ _ _ _ _ _ Henc).
Qed.

(** The valid blocks of [V] that are left when those before offset [o] were moved. *)
Definition gc_left V (v0 : Z -> bool) (o : Z) s : Prop :=
  0 <= o <= 1024 /\ (o < 1024 -> v0 (V * 1024 + o) = true) /\
  forall b, b / 1024 = V -> x_valid (sd_x s) b = (V * 1024 + o <=? b) && v0 b.

Lemma gc_left_next V v0 o s s' :
  o < 1024 -> gc_left V v0 o s -> (forall b, b / 1024 = V -> x_valid (sd_x s') b = negb (b =? V * 1024 + o) && x_valid (sd_x s) b) ->
  gc_left V v0 (find_next_bit (seg_bits v0 V) (o + 1)) s' /\ o < find_next_bit (seg_bits v0 V) (o + 1).
Proof.
  intros Hlt (Ho & _ & Hval) Hval'. pose proof (length_seg_bits v0 V) as HlT.
  destruct (find_next_spec true (seg_bits v0 V) (o + 1) ltac:(lia)) as (F1 & F2 & F3). rewrite /find_next_bit. set (o' := Z.of_nat _) in *.
  rewrite HlT in F1, F3. split; [|lia]. split; [lia|]. split.
  { intros Ho'. specialize (F3 ltac:(lia)). rewrite seg_bits_lookup in F3; [|lia]. by injection F3. }
  intros b Hb. rewrite Hval' // Hval //. pose proof (proj1 (seg_of _ _) Hb) as Hr.
  destruct (decide (V * 1024 + o' <= b)); [do 2 ztest; by rewrite (proj2 (Z.eqb_neq b (V * 1024 + o))); [|lia]|].
  ztest. cbn [andb]. destruct (decide (b = V * 1024 + o)) as [->|Hne]; [by rewrite Z.eqb_refl|].
  destruct (decide (b < V * 1024 + o)); [by rewrite (proj2 (Z.leb_gt (V * 1024 + o) b)) ?andb_false_r; [|lia]|].
  specialize (F2 (b - V * 1024) ltac:(lia)). rewrite seg_bits_lookup in F2; [|lia].
  replace (V * 1024 + (b - V * 1024)) with b in F2 by lia. injection F2 as ->. by rewrite !andb_false_r.
Qed.

(** What is left of [V] once its blocks were moved; [extra] new segments were taken. *)
Record gc_moved V s s' (content : gmap Z (list byte)) (k : nat) (extra : bool) : Prop := {
  gm_state : gc_state V s' content;
  gm_step : gc_step V s s';
  gm_room : x_room k (sd_x s');
  gm_empty b : b / 1024 = V -> x_valid (sd_x s') b = false;
  gm_nr : sa_nr_valid_segment s' <= sa_nr_valid_segment s + (if extra then 1 else 0)
}.

Lemma gc_move_ok depth fuel n v v0 o rb re buf s content k :
  let V := vi_segno v in
  let c := seg_count (x_valid (sd_x s)) V in
  vi_block_validity_table v = seg_bits v0 V -> gc_state V s content -> gc_left V v0 o s -> 1024 - o < Z.of_nat n ->
  x_room (Z.to_nat c + k) (sd_x s) -> (1024 <= sb_filled s + c -> sa_nr_valid_segment s < NR_SEGMENT) ->
  region_ok V s rb re buf ->
  exists s', gc_move_blocks garbage_lba garbage_record (push (S depth) fuel) n v o rb re buf s = Some s' /\
    gc_moved V s s' content k (1024 <=? sb_filled s + c).
Proof.
  intros V c HT. revert o rb re buf s c. induction n as [|n IH] => o rb re buf s c Hg Hleft Hn Hroom Hfree Hreg;
    pose proof Hleft as (Ho & Hbit & Hval); [lia|].
  cbn [gc_move_blocks]. change BLOCKS_PER_SEGMENT with 1024. destruct (Z.ltb_spec o 1024) as [Hlt|Hge]; last first.
  { exists s. split; [done|]. split; [done|apply gc_step_refl|eapply x_room_le; [|exact Hroom]; lia| |destruct (_ <=? _); lia].
    intros b Hb. rewrite Hval //. pose proof (proj1 (seg_of _ _) Hb). by ztest. }
  pose proof (length_seg_bits v0 V) as HlT. rewrite -HT in HlT.
  assert (vi_block_validity_table v !! Z.to_nat o = Some true) as HTo by (rewrite HT seg_bits_lookup; [by rewrite Hbit|lia]).
  destruct (region_read V _ s o rb re buf HlT ltac:(lia) HTo Hreg) as (rb1 & re1 & buf1 & Hrr & Hin & Hreg1).
  change BLOCKS_PER_SEGMENT with 1024 in Hrr. fold V. rewrite Hrr.
  assert ((V * 1024 + o) / 1024 = V) as HbV by (apply seg_of; lia).
  assert (x_valid (sd_x s) (V * 1024 + o) = true) as Hvb by (rewrite Hval // Hbit // andb_true_r; apply Z.leb_le; lia).
  pose proof (x_victims_range _ _ (di_x _ _ _ (gs_core _ _ _ Hg)) (gs_victim _ _ _ Hg)) as HVr.
  assert (sb_cur_segment s <> V) as HcV by (intros He; apply (gs_cur _ _ _ Hg); rewrite He; apply (gs_victim _ _ _ Hg)).
  destruct (gc_find_ok V s content _ (gs_core _ _ _ Hg) HVr HcV HbV Hvb) as (lba & r & d & x1 & x2 & -> & -> & Hs2 & Hr & Hd & Hpr & Hdec).
  pose proof (gc_state_same _ _ _ _ Hg Hs2) as Hg2. pose proof (gc_step_same V _ _ Hs2) as Hst2. set (s2 := set_x x2 s) in *.
  change (Z.to_nat DATA_BLOCK_SIZE) with block_bytes. rewrite (Hreg1 o Hin ltac:(lia)) Hdec.
  destruct Hs2 as [[I1 I2 I3 I4 I5 I6] I7].
  pose proof (seg_count_drop (x_valid (sd_x s)) (fun b' => negb (b' =? V * 1024 + o) && x_valid (sd_x s) b') _ Hvb (fun _ => eq_refl)) as Hcd.
  rewrite HbV in Hcd. pose proof (seg_count_bound (fun b' => negb (b' =? V * 1024 + o) && x_valid (sd_x s) b') V) as Hcb. fold c in Hcd.
  destruct (gc_push_ok depth fuel V s2 content lba r d (Z.to_nat (c - 1) + k) Hg2) as (s3 & Hrun & Hg3 & Hst3 & Hroom3 & Hval3 & Hcase); try done.
  { apply I7. replace (S (Z.to_nat (c - 1) + k)) with (Z.to_nat c + k)%nat by lia. done. }
  { by rewrite Hpr. }
  { change (sb_filled s2) with (sb_filled s). change (sa_nr_valid_segment s2) with (sa_nr_valid_segment s). intros He. apply Hfree. lia. }
  change (sb_filled s2) with (sb_filled s) in Hcase. change (sa_nr_valid_segment s2) with (sa_nr_valid_segment s) in Hcase.
  rewrite Hrun. cbn [mbind option_bind]. rewrite Hpr in Hval3.
  destruct (gc_left_next V v0 o s s3 Hlt Hleft) as [Hleft3 Ho'].
  { intros b Hb. rewrite Hval3 //. cbn [s2 set_x sd_x]. by rewrite I4. }
  assert (seg_count (x_valid (sd_x s3)) V = c - 1) as Hc3.
  { rewrite -Hcd /seg_count. f_equal. apply seg_bits_ext => b' Hb'. rewrite Hval3 //. cbn [s2 set_x sd_x]. by rewrite I4. }
  rewrite -HT in Hleft3, Ho'.
  destruct (IH _ rb1 re1 buf1 s3 Hg3 Hleft3) as (s' & Hmv & [Hg' Hst' Hroom' Hval' Hnr']).
  { lia. }
  { by rewrite Hc3. }
  { rewrite Hc3. pose proof (gs_worth _ _ _ Hg). fold c in H. lia. }
  { intros j Hj Hj'. rewrite (ge_stored _ _ _ Hst3); [by apply Hreg1|]. apply seg_of. lia. }
  exists s'. split; [exact Hmv|]. split; [done| |done|done|]; [by eapply gc_step_trans; [|eapply gc_step_trans]|].
  rewrite Hc3 in Hnr'. pose proof (gs_worth _ _ _ Hg) as Hw. fold c in Hw. destruct (Z.leb_spec 1024 (sb_filled s3 + (c - 1))), (Z.leb_spec 1024 (sb_filled s + c)); lia.
Qed.

(** ** One victim *)
Definition gc_victim depth fuel v buf s : option (sworndisk X) :=
  if vi_nr_valid_block v =? 0 then Some s
  else gc_move_blocks garbage_lba garbage_record (push depth fuel) (S (Z.to_nat BLOCKS_PER_SEGMENT)) v
         (find_next_bit (vi_block_validity_table v) 0) 0 0 buf s.

Lemma gc_victim_ok depth fuel v buf s content k :
  let V := vi_segno v in
  let c := seg_count (x_valid (sd_x s)) V in
  vi_block_validity_table v = seg_bits (x_valid (sd_x s)) V -> vi_nr_valid_block v = c -> gc_state V s content ->
  x_room (Z.to_nat c + k) (sd_x s) -> sa_nr_valid_segment s < NR_SEGMENT ->
  exists s', gc_victim (S depth) fuel v buf s = Some s' /\ gc_moved V s s' content k (x_used (sd_x s') V).
Proof.
  intros V c HT Hn Hg Hroom Hnr. rewrite /gc_victim Hn. pose proof (seg_count_bound (x_valid (sd_x s)) V) as Hcb. fold c in Hcb.
  destruct (Z.eqb_spec c 0) as [H0|Hne].
  { exists s. split; [done|]. split; [done|apply gc_step_refl|eapply x_room_le; [|exact Hroom]; lia|by apply seg_count_zero|].
    destruct (x_used _ _); lia. }
  assert (x_used (sd_x s) V = true) as Hu.
  { destruct (x_used (sd_x s) V) eqn:E; [done|]. exfalso. apply Hne, seg_count_zero. intros b Hb.
    pose proof (x_victims_range _ _ (di_x _ _ _ (gs_core _ _ _ Hg)) (gs_victim _ _ _ Hg)). pose proof (proj1 (seg_of _ _) Hb).
    apply (di_free _ _ _ (gs_core _ _ _ Hg)); change BLOCKS_PER_SEGMENT with 1024; [lia|by rewrite Hb]. }
  pose proof (length_seg_bits (x_valid (sd_x s)) V) as HlT. rewrite -HT in HlT.
  destruct (find_next_spec true (vi_block_validity_table v) 0 ltac:(lia)) as (F1 & F2 & F3). rewrite /find_next_bit. set (o := Z.of_nat _) in *.
  rewrite HlT in F1, F3. rewrite HT in F2, F3.
  destruct (gc_move_ok depth fuel (S (Z.to_nat BLOCKS_PER_SEGMENT)) v (x_valid (sd_x s)) o 0 0 buf s content k HT Hg) as (s' & Hrun & Hm).
  - split; [lia|]. split; [intros Ho; specialize (F3 ltac:(lia)); rewrite seg_bits_lookup in F3; [|lia]; by injection F3|].
    intros b Hb. pose proof (proj1 (seg_of _ _) Hb) as Hr. fold V. destruct (Z.leb_spec (V * 1024 + o) b); [done|].
    specialize (F2 (b - V * 1024) ltac:(lia)). rewrite seg_bits_lookup in F2; [|lia].
    replace (V * 1024 + (b - V * 1024)) with b in F2 by lia. injection F2 as Hf. by rewrite Hf.
  - change (Z.of_nat (S (Z.to_nat BLOCKS_PER_SEGMENT))) with 1025. lia.
  - done.
  - done.
  - intros j Hj. lia.
  - exists s'. split; [exact Hrun|]. destruct Hm as [H1 H2 H3 H4 H5]. split; try done. rewrite (ge_used _ _ _ H2 _ Hu). destruct (_ <=? _); lia.
Qed.

(** The victim is given back. *)
Definition gc_release v s : bool * sworndisk X :=
  let '(r, x) := sv_test_and_return (vi_segno v) (sd_x s) in
  let valid := match r with Ok valid => valid | Err _ => false end in
  let nr := if valid then u64 (sa_nr_valid_segment s - 1) else sa_nr_valid_segment s in
  (valid, set_alloc nr (sa_status s) (set_x (ds_remove_victim (vi_segno v) x).2 s)).

Lemma gc_release_ok v s content k :
  let V := vi_segno v in
  gc_state V s content -> x_room k (sd_x s) -> (forall b, b / 1024 = V -> x_valid (sd_x s) b = false) ->
  exists x', gc_release v s = (x_used (sd_x s) V,
      set_alloc (sa_nr_valid_segment s - (if x_used (sd_x s) V then 1 else 0)) (sa_status s) (set_x x' s)) /\
    core (set_alloc (sa_nr_valid_segment s - (if x_used (sd_x s) V then 1 else 0)) (sa_status s) (set_x x' s)) content /\
    x_room k x' /\ x_victims x' = x_victims (sd_x s) ∖ {[V]} /\ (forall b, x_valid x' b = x_valid (sd_x s) b) /\
    (forall i, i <> V -> x_used x' i = x_used (sd_x s) i).
Proof.
  intros V [Hc Hlt Hst Hcur Hvic Hw] Hroom Hempty. pose proof (di_x _ _ _ Hc) as Hx. pose proof (x_victims_range _ _ Hx Hvic) as HVr.
  rewrite /gc_release. fold V. destruct (sv_test_and_return_ok (sd_x s) V Hx HVr) as (x1 & -> & [[I1 I2 I3 I4 I5 I6] I7]).
  pose proof (ds_remove_victim_ok x1 V I1) as [[J1 J2 J3 J4 J5 J6] J7]. set (x2 := (ds_remove_victim V x1).2) in *.
  pose proof (di_nr _ _ _ Hc) as [HN Hnr]. change SECTOES_PER_SEGMENT with 8192 in Hnr. pose proof (di_count _ _ _ Hc) as Hcnt.
  pose proof (nr_used_return NR_SEGMENT (x_used (sd_x s)) V HVr) as Hret.
  pose proof (nr_used_bound NR_SEGMENT (fun i => negb (i =? V) && x_used (sd_x s) i) HN) as Hb1.
  pose proof (nr_used_bound NR_SEGMENT (x_used (sd_x s)) HN) as Hb2.
  exists x2. split.
  { destruct (x_used (sd_x s) V); [rewrite u64_small; [done|lia]|by rewrite Z.sub_0_r]. }
  assert (sb_cur_segment s <> V) as HcV by (intros He; by rewrite He in Hcur).
  assert (forall i, i <> V -> x_used x2 i = x_used (sd_x s) i) as Hu by (intros i Hi; rewrite J3 I3; by ztest).
  assert (forall b, x_valid x2 b = x_valid (sd_x s) b) as Hv by (intros b; by rewrite J4 I4).
  split; [|split; [by apply J7, I7|split; [by rewrite J6 I6|done]]].
  split; cbn [set_alloc set_x sd_x sa_nr_valid_segment]; rewrite ?J2 ?I2; try apply Hc; try done.
  - destruct (di_cursor _ _ _ Hc) as (C1 & C2 & C3 & C4). split; [done|]. split; [done|]. split; [done|].
    cbn [set_alloc set_x sd_x sb_cur_segment]. by rewrite Hu.
  - intros lba r d Hr Hd. pose proof (di_block _ _ _ Hc _ _ _ Hr Hd) as (H1 & H2 & H3 & H4 & H5 & H6 & H7).
    split; [done|]. split; [done|]. split; [|done]. cbn [set_alloc set_x sd_x]. change BLOCKS_PER_SEGMENT with 1024 in *. rewrite Hu //.
    intros He. destruct (di_live _ _ _ Hc _ _ Hr) as (_ & Hlv & _). rewrite Hempty // in Hlv.
  - intros lba r Hr. rewrite Hv J5 I5. by apply (di_live _ _ _ Hc).
  - intros b Hb. rewrite Hv. apply (di_slots _ _ _ Hc b Hb).
  - intros b Hb. rewrite Hv. apply (di_mapped _ _ _ Hc b Hb).
  - intros b Hb. rewrite Hv J3 I3 => Hf. destruct (Z.eqb_spec (b / BLOCKS_PER_SEGMENT) V) as [He|Hne]; [by apply Hempty|by apply (di_free _ _ _ Hc)].
  - rewrite Hcnt -Hret. apply nr_used_ext => i _. by rewrite J3 I3.
Qed.
(** ** The loop over the victims *)

(** Space that cleaning the segments [W] brings. *)
Definition gain (valid : Z -> bool) (W : list Z) : Z := foldr (fun i a => 1024 - seg_count valid i + a) 0 W.
(** There are victims in use, each at most three quarters full, that bring the space of one segment. *)
Definition gc_worth x (clean : Z) (W : list Z) : Prop :=
  NoDup W /\ (forall i, i ∈ W -> i ∈ x_victims x /\ x_used x i = true /\ seg_count (x_valid x) i <= 768) /\
  LEAST_CLEAN_SEGMENT_ONCE * BLOCKS_PER_SEGMENT <= clean + gain (x_valid x) W.
(** How many blocks may still be moved when [clean] blocks were won. *)
Definition gc_need (clean : Z) : nat := if clean <? 1024 then Z.to_nat (3 * (1024 - clean) + 768) else O.

Lemma gain_nonneg valid W : 0 <= gain valid W.
Proof. induction W as [|i W IH]; [done|]. cbn [gain foldr]. fold (gain valid W). pose proof (seg_count_bound valid i). lia. Qed.
Lemma gain_ext valid valid' W : (forall i, i ∈ W -> seg_count valid' i = seg_count valid i) -> gain valid' W = gain valid W.
Proof.
  induction W as [|i W IH]; [done|]. intros H. cbn [gain foldr]. fold (gain valid' W) (gain valid W). rewrite (H i); [|left].
  rewrite IH //. intros j Hj. apply H. by right.
Qed.
Lemma gain_without valid W V : NoDup W ->
  gain valid (filter (fun i => i <> V) W) = gain valid W - (if bool_decide (V ∈ W) then 1024 - seg_count valid V else 0).
Proof.
  induction W as [|i W IH]; [done|]. intros [Hi HW]%NoDup_cons. rewrite filter_cons. cbn [gain foldr]. fold (gain valid W).
  destruct (decide (i = V)) as [->|Hne].
  - rewrite decide_False; [|by intros ?]. rewrite IH // (bool_decide_true (V ∈ V :: W)); [|left]. rewrite bool_decide_false //. lia.
  - rewrite decide_True //. cbn [gain foldr]. fold (gain valid (filter (fun i => i <> V) W)). rewrite IH //.
    rewrite (bool_decide_ext (V ∈ i :: W) (V ∈ W)); [lia|]. rewrite elem_of_cons. naive_solver.
Qed.

Record gc_head s (content : gmap Z (list byte)) (clean : Z) (W : list Z) : Prop := {
  gh_core : core s content;
  gh_lt : sb_cur_sector s < SECTOES_PER_SEGMENT;
  gh_status : sa_status s = SEGMENT_CLEANING;
  gh_cur : sb_cur_segment s ∉ x_victims (sd_x s);
  gh_nr : sa_nr_valid_segment s < NR_SEGMENT;
  gh_clean : 0 <= clean;
  gh_worth : gc_worth (sd_x s) clean W
}.

(** While the target is not reached, the cheapest victim is worth cleaning. *)
Lemma gc_peek_ok s content clean W :
  gc_head s content clean W -> clean < 1024 ->
  ds_victim_empty (sd_x s) = false /\
  exists v, ds_peek_victim (sd_x s) = Some v /\ vi_block_validity_table v = seg_bits (x_valid (sd_x s)) (vi_segno v) /\
    vi_nr_valid_block v = seg_count (x_valid (sd_x s)) (vi_segno v) /\ gc_state (vi_segno v) s content.
Proof.
  intros [Hc Hlt Hst Hcur Hnr H0 (Hnd & HW & Hsum)] Hcl. pose proof (di_x _ _ _ Hc) as Hx.
  change (LEAST_CLEAN_SEGMENT_ONCE * BLOCKS_PER_SEGMENT) with 1024 in Hsum.
  destruct W as [|w W]; [cbn [gain foldr] in Hsum; lia|]. destruct (HW w ltac:(left)) as (Hw & _ & Hw2).
  rewrite (ds_victim_empty_ok _ Hx). split; [apply bool_decide_eq_false; set_solver|].
  pose proof (ds_peek_victim_ok _ Hx) as Hp. destruct (ds_peek_victim (sd_x s)) as [v|]; [|set_solver].
  destruct Hp as (P1 & P2 & P3 & P4). exists v. split; [done|]. split; [done|]. split; [done|]. split; try done.
  specialize (P4 w Hw). lia.
Qed.

(** After a victim was cleaned and given back, the loop is where it was, with one victim less. *)
Lemma gc_round s s1 content clean W V x' :
  gc_head s content clean W -> V ∈ x_victims (sd_x s) -> gc_step V s s1 -> gc_state V s1 content ->
  sa_nr_valid_segment s1 <= sa_nr_valid_segment s + (if x_used (sd_x s1) V then 1 else 0) ->
  let u := x_used (sd_x s1) V in
  let s2 := set_alloc (sa_nr_valid_segment s1 - (if u then 1 else 0)) (sa_status s1) (set_x x' s1) in
  let clean' := if u then clean + (1024 - seg_count (x_valid (sd_x s)) V) else clean in
  core s2 content -> x_victims x' = x_victims (sd_x s1) ∖ {[V]} -> (forall b, x_valid x' b = x_valid (sd_x s1) b) ->
  (forall i, i <> V -> x_used x' i = x_used (sd_x s1) i) ->
  gc_head s2 content clean' (filter (fun i => i <> V) W) /\ (size (x_victims x') < size (x_victims (sd_x s)))%nat /\
  sa_nr_valid_segment s2 <= sa_nr_valid_segment s /\ sd_prefetcher s2 = sd_prefetcher s.
Proof.
  intros [Hc Hlt Hst Hcur Hnr H0 (Hnd & HW & Hsum)] HV [E1 E2 E3 E4 E5 E6] [Hc1 Hlt1 Hst1 Hcur1 HV1 _] Hnr1 u s2 clean' Hc2 Hvs Hvl Hus.
  pose proof (seg_count_bound (x_valid (sd_x s)) V) as Hcb.
  assert (sa_nr_valid_segment s2 <= sa_nr_valid_segment s) as Hle by (cbn [s2 set_alloc sa_nr_valid_segment]; subst u; destruct (x_used _ _); lia).
  split; [|split; [|split; [done|exact E1]]].
  - split; try done.
    + cbn [s2 set_alloc set_x sd_x sb_cur_segment]. rewrite Hvs. set_solver.
    + lia.
    + rewrite /clean'. destruct u; lia.
    + assert (forall i, i ∈ filter (fun i => i <> V) W -> i ∈ x_victims (sd_x s1) /\ i <> V /\ x_used (sd_x s1) i = true /\
        seg_count (x_valid x') i = seg_count (x_valid (sd_x s)) i /\ seg_count (x_valid (sd_x s)) i <= 768) as Hin.
      { intros i [Hne Hi]%list_elem_of_filter. destruct (HW i Hi) as (K1 & K2 & K3). pose proof (E3 i K1 K2) as K4.
        split; [done|]. split; [done|]. split; [by apply E4|]. split; [|done]. rewrite /seg_count. f_equal. apply seg_bits_ext => b Hb.
        rewrite Hvl. apply E5; by rewrite Hb. }
      split; [by apply NoDup_filter|]. cbn [s2 set_alloc set_x sd_x]. split.
      * intros i Hi. destruct (Hin i Hi) as (K1 & K2 & K3 & K4 & K5). rewrite Hvs Hus // K4. set_solver.
      * rewrite (gain_ext (x_valid (sd_x s))); [|intros i Hi; by apply Hin]. rewrite gain_without //.
        change (LEAST_CLEAN_SEGMENT_ONCE * BLOCKS_PER_SEGMENT) with 1024 in *. rewrite /clean'. case_bool_decide as Hd.
        -- destruct (HW V Hd) as (_ & K2 & _). rewrite /u (E4 _ K2). lia.
        -- destruct u; lia.
  - apply subset_size. rewrite Hvs. split; [intros i [Hi _]%elem_of_difference; by apply E2|]. intros Hsub. specialize (Hsub V HV). set_solver.
Qed.

Lemma gc_loop_ok depth fuel n clean W buf s content k :
  gc_head s content clean W -> (size (x_victims (sd_x s)) < n)%nat -> x_room (gc_need clean + k) (sd_x s) ->
  exists s', gc_loop garbage_lba garbage_record (push (S depth) fuel) n clean buf s = Some s' /\
    core s' content /\ sb_cur_sector s' < SECTOES_PER_SEGMENT /\ sd_prefetcher s' = sd_prefetcher s /\
    sa_nr_valid_segment s' <= sa_nr_valid_segment s /\ x_room k (sd_x s').
Proof.
  revert clean W s. induction n as [|n IH] => clean W s Hh Hn Hroom; [lia|]. cbn [gc_loop].
  change (LEAST_CLEAN_SEGMENT_ONCE * BLOCKS_PER_SEGMENT) with 1024. destruct (Z.ltb_spec clean 1024) as [Hcl|Hge]; last first.
  { exists s. destruct Hh. split; [done|]. do 3 (split; [done|]). split; [lia|]. eapply x_room_le; [|exact Hroom]. lia. }
  destruct (gc_peek_ok s content clean W Hh Hcl) as (-> & v & -> & HT & Hc & Hg). cbn [negb andb]. set (V := vi_segno v) in *.
  set (c := seg_count (x_valid (sd_x s)) V) in *. pose proof (gs_worth _ _ _ Hg) as Hw. fold c in Hw.
  pose proof (seg_count_bound (x_valid (sd_x s)) V) as Hcb. fold c in Hcb.
  fold (gc_victim (S depth) fuel v buf s).
  assert (gc_need clean + k = Z.to_nat c + (gc_need clean - Z.to_nat c + k))%nat as Hsplit.
  { rewrite /gc_need. ztest. lia. }
  rewrite Hsplit in Hroom.
  destruct (gc_victim_ok depth fuel v buf s content _ HT Hc Hg Hroom (gh_nr _ _ _ _ Hh)) as (s1 & Hrun & [G1 G2 G3 G4 G5]). rewrite Hrun.
  cbn [mbind option_bind]. destruct (gc_release_ok v s1 content _ G1 G3 G4) as (x' & Hrel & Hc2 & Hr2 & Hvs & Hvl & Hus).
  fold V in Hrel, Hc2, Hvs, Hus, G5. destruct (gc_round s s1 content clean W V x' Hh (gs_victim _ _ _ Hg) G2 G1 G5 Hc2 Hvs Hvl Hus) as (Hh2 & Hsz & Hnr2 & Hpf2).
  rewrite /gc_release in Hrel. fold V in Hrel. destruct (sv_test_and_return V (sd_x s1)) as [r x1]. apply pair_eq in Hrel as [Hval Hst]. rewrite Hst Hval.
  rewrite Hc. change BLOCKS_PER_SEGMENT with 1024. set (u := x_used (sd_x s1) V) in *. set (s2 := set_alloc _ _ (set_x x' s1)) in *.
  fold c in Hh2. set (clean' := if u then clean + (1024 - c) else clean) in *.
  destruct (IH clean' _ s2 Hh2 ltac:(change (sd_x s2) with x'; lia)) as (s' & Hrun' & H1 & H2 & H3 & H4 & H5).
  - eapply x_room_le; [|exact Hr2]. assert (gc_need clean' + Z.to_nat c <= gc_need clean)%nat; [|lia].
    assert (u = false -> c = 0) as Hz.
    { intros Hu. apply seg_count_zero => b Hb. assert (x_used (sd_x s) V = false) as Hu0.
      { destruct (x_used (sd_x s) V) eqn:E; [|done]. by rewrite /u (ge_used _ _ _ G2 _ E) in Hu. }
      pose proof (x_victims_range _ _ (di_x _ _ _ (gs_core _ _ _ Hg)) (gs_victim _ _ _ Hg)) as Hvr. pose proof (proj1 (seg_of _ _) Hb).
      fold V in Hvr. apply (di_free _ _ _ (gs_core _ _ _ Hg)); change BLOCKS_PER_SEGMENT with 1024; [lia|by rewrite Hb]. }
    rewrite /gc_need /clean'. rewrite (proj2 (Z.ltb_lt clean 1024) Hcl). destruct u; [destruct (Z.ltb_spec (clean + (1024 - c)) 1024); lia|].
    rewrite (proj2 (Z.ltb_lt clean 1024) Hcl) Hz //. lia.
  - exists s'. split; [exact Hrun'|]. split; [done|]. split; [done|]. split; [congruence|]. split; [lia|done].
Qed.

(** ** The foreground cleaner *)
Lemma sa_foreground_gc_ok depth fuel W s content k :
  core s content -> sb_cur_sector s < SECTOES_PER_SEGMENT -> sb_cur_segment s ∉ x_victims (sd_x s) ->
  sa_nr_valid_segment s < NR_SEGMENT -> gc_worth (sd_x s) 0 W -> NR_SEGMENT < Z.of_nat fuel -> x_room (gc_need 0 + k) (sd_x s) ->
  exists s', sa_foreground_gc garbage_memory garbage_lba garbage_record (push (S depth) fuel) fuel s = Some s' /\
    core s' content /\ sb_cur_sector s' < SECTOES_PER_SEGMENT /\ sd_prefetcher s' = sd_prefetcher s /\
    sa_nr_valid_segment s' <= sa_nr_valid_segment s /\ x_room k (sd_x s') /\ sa_status s' = SEGMENT_ALLOCATING.
Proof.
  intros Hc Hlt Hcur Hnr Hw Hf Hroom. rewrite /sa_foreground_gc.
  assert (forall s st, core s content -> core (set_alloc (sa_nr_valid_segment s) st s) content) as Hset by (intros ? ? Hc0; split; apply Hc0).
  destruct (gc_loop_ok depth fuel fuel 0 W garbage_memory (set_alloc (sa_nr_valid_segment s) SEGMENT_CLEANING s) content k)
    as (s' & -> & H1 & H2 & H3 & H4 & H5); try done.
  - split; try done. by apply Hset.
  - pose proof (di_x _ _ _ Hc) as Hx. assert (x_victims (sd_x s) ⊆ list_to_set (seqZ 0 NR_SEGMENT)) as Hsub.
    { intros i Hi. apply elem_of_list_to_set, elem_of_seqZ. pose proof (x_victims_range _ _ Hx Hi). lia. }
    apply subseteq_size in Hsub. rewrite size_list_to_set in Hsub; [|apply NoDup_seqZ]. rewrite length_seqZ in Hsub.
    cbn [set_alloc sd_x]. pose proof (di_nr _ _ _ Hc). lia.
  - eexists. split; [reflexivity|]. split; [by apply Hset|]. done.
Qed.
End cleaning.
