(* ===== verification/Threaded.v ===== *)
(** * Threaded logging

    When segments run short and every victim is more than three quarters full,
    a block is not put into the segment buffer but written straight to the
    first free block of the victim with the fewest valid ones.  As long as that victim is
    not the segment the buffer stands for, the contents change in the written
    block and nowhere else; when it is, the buffer hides what was written. *)
From S2P Require Import Prelude Codec BlockManager DiskStructs Crypto BitNode Superblock SegValidator Dst Area Bio BitFile BitFileSpec Segment DataPath Cleaning.

(** A segment that is not full has a first free block. *)
Lemma first_free_block valid seg : seg_count valid seg < BLOCKS_PER_SEGMENT ->
  let p := seg * BLOCKS_PER_SEGMENT + find_next_zero_bit (seg_bits valid seg) 0 in
  p / BLOCKS_PER_SEGMENT = seg /\ valid p = false.
Proof.
  intros Hc p. rewrite /p /find_next_zero_bit. clear p. change BLOCKS_PER_SEGMENT with 1024 in *.
  pose proof (find_next_spec false (seg_bits valid seg) 0 ltac:(rewrite length_seg_bits; lia)) as Hf. cbn zeta in Hf.
  set (p := Z.of_nat _) in *. rewrite length_seg_bits in Hf. destruct Hf as (H1 & H2 & H3).
  destruct (decide (p < 1024)) as [Hlt|Hge].
  - split; [apply seg_of; lia|]. specialize (H3 ltac:(lia)). rewrite seg_bits_lookup in H3; [|lia]. by injection H3.
  - assert (seg_count valid seg = 1024); [|lia]. rewrite /seg_count.
    transitivity (Z.of_nat (length (seg_bits valid seg))); [|by rewrite length_seg_bits]. apply count_true_all, Forall_lookup => i b Hb.
    pose proof (lookup_lt_Some _ _ _ Hb) as Hi. rewrite length_seg_bits in Hi. specialize (H2 (Z.of_nat i) ltac:(lia)). rewrite Nat2Z.id Hb in H2.
    by injection H2 as ->.
Qed.

Section threaded.
Context {X : Type} {ix : LsmIndex X} {dm : DataMeta X} {dv : DataView X} {gcm : Gcm} {gcm_ok : GcmOk} {rng : Rng} {rng_ok : RngOk}.
Context (NR_SEGMENT : Z) {ok : DataPathOk X NR_SEGMENT}.
Context (garbage_memory : area) (garbage_lba : Z) (garbage_record : record).
Implicit Types (s : sworndisk X) (x : X).
Let core := dp_core NR_SEGMENT.

(** The state after the block went to place [p]; the free slot of the segment
    buffer was used on the way. *)
Definition threaded_at s (x : X) (n : nat) (p : Z) (data ct : list byte) : sworndisk X :=
  let off := sb_cur_sector s * SECTOR_SIZE in
  let pipe := area_write off ct (sb_pipe s) in
  set_disk (sworndisk_write_blocks p 1 pipe off (sd_disk s))
    (set_x x (set_bufs (area_write off data (sb_buffer s)) pipe (set_rng n s))).

(** The free slot of the buffer lies behind the blocks it holds. *)
Lemma slot_kept s b (l : list byte) a : cursor_ok NR_SEGMENT s -> in_segbuf s b = true ->
  area_read (slot_of s b) block_bytes (area_write (sb_cur_sector s * SECTOR_SIZE) l a) = area_read (slot_of s b) block_bytes a.
Proof.
  intros (_ & _ & Hmod & _) [Ha Hb]%in_segbuf_spec. change SECTORS_PER_BLOCK with 8 in Hmod.
  pose proof (Z.div_mod (sb_cur_sector s) 8 ltac:(done)). apply area_read_write_ne. left. rewrite /slot_of /block_bytes.
  change (Z.of_nat (Z.to_nat DATA_BLOCK_SIZE)) with 4096. change DATA_BLOCK_SIZE with 4096. change SECTOR_SIZE with 512.
  change BLOCKS_PER_SEGMENT with 1024. lia.
Qed.

(** What is stored elsewhere stays, wherever [p] is. *)
Lemma threaded_stored s x n p data ct b : cursor_ok NR_SEGMENT s -> b <> p \/ in_segbuf s b = true ->
  stored (threaded_at s x n p data ct) b = stored s b.
Proof.
  intros Hcur Hb. rewrite /stored. change (in_segbuf (threaded_at s x n p data ct) b) with (in_segbuf s b).
  destruct (in_segbuf s b) eqn:E; [exact (slot_kept s b ct _ Hcur E)|]. destruct Hb as [Hb|]; [|done].
  apply area_read_copy_out. change (1 * DATA_BLOCK_SIZE) with 4096. change DATA_BLOCK_SIZE with 4096. change (Z.of_nat block_bytes) with 4096. lia.
Qed.
Lemma threaded_stored_new s x n p data ct : in_segbuf s p = false -> length ct = block_bytes ->
  stored (threaded_at s x n p data ct) p = ct.
Proof.
  intros Hp Hl. rewrite /stored. change (in_segbuf (threaded_at s x n p data ct) p) with (in_segbuf s p). rewrite Hp.
  cbn [threaded_at set_disk sd_disk]. rewrite /sworndisk_write_blocks area_read_copy_in; [|lia|change (Z.of_nat block_bytes) with 4096; change DATA_BLOCK_SIZE with 4096; lia].
  rewrite Z.sub_diag Z.add_0_r -Hl. apply area_read_write_eq.
Qed.

Lemma threaded_block s x n p data ct r d :
  cursor_ok NR_SEGMENT s -> (forall i, x_used x i = x_used (sd_x s) i) -> pba r <> p -> block_holds NR_SEGMENT s r d ->
  block_holds NR_SEGMENT (threaded_at s x n p data ct) r d.
Proof.
  intros Hcur Hu Hp (H1 & H2 & H3 & H4 & H5 & H6 & H7). rewrite /block_holds threaded_stored; [|done|by left].
  split; [done|]. split; [done|]. split; [change (x_used x (pba r / BLOCKS_PER_SEGMENT) = true); by rewrite Hu|]. split; [done|]. split; [done|]. split; [done|].
  intros Hi. rewrite -(H7 Hi). exact (slot_kept s _ data _ Hcur Hi).
Qed.

(** The block is in its place. *)
Lemma threaded_core s content x n lba p data ct r vs :
  dp_core NR_SEGMENT s content -> x_key lba -> sealed s lba p data ct r x (fun b => (b =? p) || dropped s lba b) vs ->
  0 <= p < NR_SEGMENT * BLOCKS_PER_SEGMENT -> dropped s lba p = false -> x_used (sd_x s) (p / BLOCKS_PER_SEGMENT) = true ->
  p / BLOCKS_PER_SEGMENT <> sb_cur_segment s -> length data = block_bytes ->
  dp_core NR_SEGMENT (threaded_at s x n p data ct) (<[lba := data]> content).
Proof.
  intros Hc Hkey [[Hx Hm Hu Hv Hlb _] _ Hct Hwf Hp Henc] Hpr Hd Hus Hne Hl. pose proof (di_cursor _ _ _ Hc) as Hcur.
  assert (forall lba' r', x_map (sd_x s) !! lba' = Some r' -> lba' <> lba -> pba r' <> p) as Hother.
  { intros lba' r' Hr' Hn He. pose proof (dropped_other _ _ _ lba _ _ Hc Hr' Hn). congruence. }
  assert (in_segbuf s p = false) as Hout.
  { apply not_true_is_false. intros Hi%in_segbuf_spec. apply Hne. change BLOCKS_PER_SEGMENT with 1024. apply seg_of.
    destruct Hcur as (_ & Hsec & _). change SECTOES_PER_SEGMENT with 8192 in Hsec.
    pose proof (Z.div_le_mono (sb_cur_sector s) 8192 8 ltac:(lia) ltac:(lia)) as Hd8. change (8192 / 8) with 1024 in Hd8. lia. }
  set (s' := threaded_at s x n p data ct). assert (forall b, in_slots s' b <-> in_slots s b) as Hsl by done.
  split; cbn [s' threaded_at set_disk set_x set_bufs set_rng sd_x sa_nr_valid_segment].
  - apply (di_nr _ _ _ Hc).
  - done.
  - destruct Hcur as (C1 & C2 & C3 & C4). split; [exact C1|]. split; [exact C2|]. split; [exact C3|].
    change (x_used x (sb_cur_segment s) = true). by rewrite Hu.
  - by rewrite Hm !dom_insert_L (di_dom _ _ _ Hc).
  - intros lba' r' d. rewrite Hm. destruct (decide (lba' = lba)) as [->|Hn].
    + rewrite !lookup_insert_eq. intros [= <-] [= <-]. rewrite /block_holds Hp.
      split; [done|]. split; [done|]. split; [change (x_used x (p / BLOCKS_PER_SEGMENT) = true); by rewrite Hu|]. split; [done|].
      split; [rewrite Henc; f_equal; symmetry; by apply threaded_stored_new|]. split; [done|].
      change (in_segbuf s p = true -> area_read (slot_of s' p) block_bytes (sb_buffer s') = data). by rewrite Hout.
    + rewrite !lookup_insert_ne //. intros Hr' Hd'. apply threaded_block; [done|done|by eapply Hother|by eapply di_block].
  - intros lba' r'. rewrite Hm Hv Hlb. destruct (decide (lba' = lba)) as [->|Hn].
    + rewrite lookup_insert_eq. intros [= <-]. split; [done|]. by rewrite Hp /with_lba Z.eqb_refl.
    + rewrite lookup_insert_ne //. intros Hr'. destruct (di_live _ _ _ Hc _ _ Hr') as (K1 & _ & K3). split; [done|].
      rewrite (dropped_other _ _ _ _ _ _ Hc Hr' Hn) orb_true_r. split; [done|].
      rewrite /with_lba. by rewrite (proj2 (Z.eqb_neq _ _) (Hother _ _ Hr' Hn)).
  - intros b Hb. by rewrite Hv (dropped_slot _ _ _ _ _ Hc Hb) orb_true_r.
  - intros b Hb. rewrite Hv Hm. intros [He%Z.eqb_eq|Hvb]%orb_true_iff.
    { right. exists lba, r. rewrite lookup_insert_eq. split; [done|congruence]. }
    destruct (di_mapped _ _ _ Hc b Hb) as [Hs|(lba2 & r2 & Hr2 & <-)]; [|by left|].
    { rewrite /dropped in Hvb. destruct (x_map (sd_x s) !! lba); [|done]. by apply andb_true_iff in Hvb as [_ ?]. }
    right. exists lba2, r2. split; [|done]. rewrite lookup_insert_ne //. intros <-. by rewrite /dropped Hr2 Z.eqb_refl in Hvb.
  - intros b Hb. rewrite Hu Hv => Hf. pose proof (di_free _ _ _ Hc b Hb Hf) as Hvb. apply orb_false_iff. split.
    + apply Z.eqb_neq. intros ->. congruence.
    + rewrite /dropped Hvb. destruct (x_map (sd_x s) !! lba); [apply andb_false_r|done].
  - rewrite (di_count _ _ _ Hc). apply nr_used_ext => i _. symmetry. apply Hu.
Qed.

(** ** Where the block goes *)

(** The decision for threaded logging: there are victims, all of them more than
    three quarters full, and few segments are free. *)
Lemma threaded_victims s : x_inv (sd_x s) -> sworndisk_should_threaded_logging NR_SEGMENT s = true ->
  x_victims (sd_x s) <> ∅ /\ (forall i, i ∈ x_victims (sd_x s) -> 768 < seg_count (x_valid (sd_x s)) i) /\
  u64 (GC_THREADHOLD NR_SEGMENT - THREAD_LOGGING_AHEAD) <= sa_nr_valid_segment s.
Proof.
  rewrite /sworndisk_should_threaded_logging. intros Hx. destruct (Z.ltb_spec (sa_nr_valid_segment s) (u64 (GC_THREADHOLD NR_SEGMENT - THREAD_LOGGING_AHEAD))); [done|].
  rewrite (ds_threaded_ok _ Hx). pose proof (ds_peek_victim_ok _ Hx) as Hp. destruct (ds_peek_victim (sd_x s)) as [v|]; [|done].
  destruct Hp as (Hv & _ & _ & Hmin). change (BLOCKS_PER_SEGMENT / 4 * 3) with 768. intros Hlt%Z.ltb_lt.
  split; [set_solver|]. split; [|done]. intros i Hi. specialize (Hmin i Hi). lia.
Qed.

(** The victim the block goes to, and the block's place in it. *)
Record thread_place s (lba : Z) (v : victim) (p : Z) : Prop := {
  tp_victim : vi_segno v ∈ pushed_victims s lba;
  tp_least i : i ∈ pushed_victims s lba -> seg_count (dropped s lba) (vi_segno v) <= seg_count (dropped s lba) i;
  tp_range : 0 <= p < NR_SEGMENT * BLOCKS_PER_SEGMENT;
  tp_segment : p / BLOCKS_PER_SEGMENT = vi_segno v;
  tp_free : dropped s lba p = false;
  tp_used : x_used (sd_x s) (vi_segno v) = true
}.

(** A victim is in use: it has valid blocks, or had the block just given up. *)
Lemma pushed_victim_used s content lba i : dp_core NR_SEGMENT s content -> sworndisk_should_threaded_logging NR_SEGMENT s = true ->
  0 <= i < NR_SEGMENT -> i ∈ pushed_victims s lba -> x_used (sd_x s) i = true.
Proof.
  intros Hc Hth Hr Hi. destruct (threaded_victims s (di_x _ _ _ Hc) Hth) as (_ & Hmin & _).
  assert (i ∈ x_victims (sd_x s) -> x_used (sd_x s) i = true) as Hold.
  { intros Hv. specialize (Hmin i Hv). apply not_false_is_true. intros Hu. assert (seg_count (x_valid (sd_x s)) i = 0); [|lia].
    apply seg_count_zero. intros b Hb. apply (di_free _ _ _ Hc); change BLOCKS_PER_SEGMENT with 1024; [apply seg_of in Hb; lia|by rewrite Hb]. }
  rewrite /pushed_victims in Hi. destruct (x_map (sd_x s) !! lba) as [r|] eqn:Er; [|by apply Hold].
  apply elem_of_union in Hi as [->%elem_of_singleton|Hi]; [|by apply Hold].
  by destruct (content_of _ _ _ _ _ Hc Er) as (d & _ & _ & _ & Hu & _).
Qed.

Lemma push_block_threaded alloc lba data s content :
  dp_core NR_SEGMENT s content -> x_key lba -> x_room 1 (sd_x s) -> length data = block_bytes ->
  sworndisk_should_threaded_logging NR_SEGMENT s = true ->
  exists v p x n ct r vs, ds_peek_victim (returned lba (sd_x s)) = Some v /\ thread_place s lba v p /\
    sealed s lba p data ct r x (fun b => (b =? p) || dropped s lba b) vs /\ vs ⊆ pushed_victims s lba /\
    (seg_count (fun b => (b =? p) || dropped s lba b) (vi_segno v) < BLOCKS_PER_SEGMENT -> vi_segno v ∈ vs) /\
    segbuf_push_block NR_SEGMENT alloc lba data s = Some (threaded_at s x n p data ct).
Proof.
  intros Hc Hkey Hroom Hl Hth. pose proof (returned_ok NR_SEGMENT s content lba Hc Hkey) as Hs2.
  destruct (threaded_victims s (di_x _ _ _ Hc) Hth) as (Hne & _ & _).
  rewrite /segbuf_push_block Hth. assert (forall f : X -> option (sworndisk X),
    (let '(pre, x) := ix_search lba (sd_x s) in f (match pre with Ok pre => (ds_return_block (pba pre) x).2 | Err _ => x end)) = f (returned lba (sd_x s))) as Hret.
  { intros f. rewrite /returned. by destruct (ix_search lba (sd_x s)) as [[|] ?]. }
  rewrite (Hret (fun x => match next_block true (set_x x s) with None => None | Some (_, _) => _ end)). clear Hret.
  set (x2 := returned lba (sd_x s)) in *. pose proof Hs2 as [[M1 M2 M3 M4 M5 M6] M7].
  pose proof (ds_peek_victim_ok x2 M1) as Hp. rewrite /next_block. cbn [negb set_x sd_x].
  destruct (ds_peek_victim x2) as [v|] eqn:Ev; last first.
  { exfalso. rewrite M6 /pushed_victims in Hp. destruct (x_map (sd_x s) !! lba); set_solver. }
  destruct Hp as (P1 & P2 & P3 & P4). pose proof (x_victims_range x2 _ M1 P1) as Hr. pose proof (x_victims_open x2 _ M1 P1) as Hopen.
  rewrite P2. assert (forall i, seg_count (x_valid x2) i = seg_count (dropped s lba) i) as Hcnt.
  { intros i. apply seg_count_ext => b _. apply M4. }
  destruct (first_free_block _ _ Hopen) as [Hseg Hfree]. set (p := vi_segno v * _ + _) in *.
  assert (thread_place s lba v p) as Hpl.
  { split; try done; [by rewrite -M6|..|by rewrite -M4|].
    - intros i Hi. rewrite -!Hcnt -P3. apply P4. by rewrite M6.
    - change BLOCKS_PER_SEGMENT with 1024 in Hseg |- *. apply seg_of in Hseg. lia.
    - apply (pushed_victim_used s content lba); [done..|by rewrite -M6]. }
  destruct (ds_take_block_ok x2 p M1 (tp_range _ _ _ _ Hpl) Hfree) as (vs & Hvs & Hstay & Htake).
  assert (x_next (sd_x s) (ds_take_block p x2).2 (x_used (sd_x s)) (fun b => (b =? p) || dropped s lba b) (x_lba (sd_x s)) vs) as Hx3.
  { destruct Htake as [[T1 T2 T3 T4 T5 T6] T7].
    split; [split; [done|congruence|intros; by rewrite T3 M3|intros; by rewrite T4 M4|intros; by rewrite T5 M5|done]|auto]. }
  destruct (seal_ok NR_SEGMENT s _ _ _ lba p data Hx3 Hkey Hroom (di_nr _ _ _ Hc) (tp_range _ _ _ _ Hpl) Hl) as (ct & m & x3 & Henc & Hput & Hse).
  eexists v, p, _, _, ct, _, vs. split; [done|]. split; [done|]. split; [exact Hse|].
  split; [rewrite Hseg M6 in Hvs; set_solver|]. split.
  { intros Hlt. rewrite -{1}Hseg. apply Hstay. rewrite Hseg. rewrite (seg_count_ext (fun b => (b =? p) || dropped s lba b)) // => b _. by rewrite M4. }
  cbn [record_create]. rewrite /fresh_record in Henc, Hput. cbn [set_rng set_x sd_rng]. rewrite Henc. cbn [set_bufs sd_x]. rewrite Hput. reflexivity.
Qed.

(** ** Another segment than the buffer's is written *)

(** The segment buffer's own segment is no victim, or not the best one. *)
Definition spared (lba : Z) s : Prop :=
  sb_cur_segment s ∈ pushed_victims s lba ->
  exists i, i ∈ pushed_victims s lba /\ seg_count (dropped s lba) i < seg_count (dropped s lba) (sb_cur_segment s).
Definition threadable (lba : Z) s : Prop :=
  sworndisk_should_threaded_logging NR_SEGMENT s = true /\ x_room 1 (sd_x s) /\ spared lba s.

Lemma push_block_threadable alloc lba data s content :
  dp_core NR_SEGMENT s content -> x_key lba -> threadable lba s -> length data = block_bytes ->
  exists s', segbuf_push_block NR_SEGMENT alloc lba data s = Some s' /\ dp_core NR_SEGMENT s' (<[lba := data]> content) /\
    sb_cur_sector s' = sb_cur_sector s /\ sd_prefetcher s' = sd_prefetcher s.
Proof.
  intros Hc Hkey (Hth & Hroom & Hsp) Hl.
  destruct (push_block_threaded alloc lba data s content Hc Hkey Hroom Hl Hth) as (v & p & x & n & ct & r & vs & _ & [P1 P2 P3 P4 P5 P6] & Hse & _ & _ & ->).
  eexists. split; [reflexivity|]. split; [|done].
  apply (threaded_core s content x n lba p data ct r vs); try done; rewrite P4; [done|].
  intros He. rewrite /spared -He in Hsp. destruct (Hsp P1) as (i & Hi & Hlt). specialize (P2 i Hi). lia.
Qed.

(** Reading does not change what the condition is about. *)
Lemma threadable_same lba s x : x_inv (sd_x s) -> threadable lba s -> x_same (sd_x s) x -> threadable lba (set_x x s).
Proof.
  intros Hx (H1 & H2 & H3) [[I1 I2 I3 I4 I5 I6] I7].
  assert (pushed_victims (set_x x s) lba = pushed_victims s lba) as Hpv by (rewrite /pushed_victims; cbn [set_x sd_x]; by rewrite I2 I6).
  assert (forall i, seg_count (dropped (set_x x s) lba) i = seg_count (dropped s lba) i) as Hcnt.
  { intros i. apply seg_count_ext => b _. rewrite /dropped. cbn [set_x sd_x]. by rewrite I2 I4. }
  split; [|split; [by apply I7|]]; last first.
  { rewrite /spared Hpv. setoid_rewrite Hcnt. exact H3. }
  rewrite -H1 /sworndisk_should_threaded_logging. cbn [set_x sd_x sa_nr_valid_segment]. rewrite (ds_threaded_ok _ I1) (ds_threaded_ok _ Hx).
  pose proof (ds_peek_victim_ok _ I1) as Hp1. pose proof (ds_peek_victim_ok _ Hx) as Hp2.
  assert (forall i, seg_count (x_valid x) i = seg_count (x_valid (sd_x s)) i) as Hc.
  { intros i. apply seg_count_ext => b _. apply I4. }
  destruct (ds_peek_victim x) as [v|], (ds_peek_victim (sd_x s)) as [w|]; rewrite ?I6 in Hp1; [|set_solver..|done].
  destruct Hp1 as (A1 & _ & A3 & A4), Hp2 as (B1 & _ & B3 & B4). specialize (A4 _ B1). specialize (B4 _ A1). rewrite Hc in A3. rewrite Hc in A4.
  by replace (vi_nr_valid_block v) with (vi_nr_valid_block w) by lia.
Qed.

(** ** The segment buffer's own segment is the victim *)

(** Its free blocks are among those the buffer holds. *)
Lemma own_segment_buffered s content lba v p : dp_core NR_SEGMENT s content -> thread_place s lba v p -> vi_segno v = sb_cur_segment s ->
  in_segbuf s p = true.
Proof.
  intros Hc [_ _ _ P4 P5 _] Hv. apply in_segbuf_spec. rewrite Hv in P4. change BLOCKS_PER_SEGMENT with 1024 in P4. apply seg_of in P4.
  split; [lia|]. apply Z.nle_gt. intros Hle. rewrite (dropped_slot _ _ _ lba p Hc) in P5; [done|].
  rewrite /in_slots. change BLOCKS_PER_SEGMENT with 1024. change (sb_filled s) with (sb_cur_sector s / 8). lia.
Qed.

(** Reads find the buffer's old block, and writing the buffer out replaces the new one. *)
Lemma threaded_hidden s x n p data ct b (r : record) x' pf : cursor_ok NR_SEGMENT s -> NR_SEGMENT * 8192 <= 2 ^ 32 ->
  0 <= p < NR_SEGMENT * BLOCKS_PER_SEGMENT -> in_segbuf s p = true -> bi_op b = REQ_OP_READ -> bio_wf b -> pba r = p ->
  let s' := set_prefetcher pf (threaded_at s x n p data ct) in
  ix_search (bio_get_block_address b) x = (Ok r, x') ->
  bi_payload (sworndisk_do_read NR_SEGMENT garbage_memory b s').1 =
    slice (bio_off b) (length (bi_payload b)) (area_read (slot_of s p) block_bytes (sb_buffer s)) /\
  area_read (p * DATA_BLOCK_SIZE) block_bytes (sd_disk (segbuf_flush_bios s')) = area_read (slot_of s p) block_bytes (sb_pipe s).
Proof.
  intros Hcur Hnr Hp Hin Hop Hwf Hr s' Hix. split.
  - rewrite /sworndisk_do_read Hix.
    pose proof (query_bio_ok NR_SEGMENT (set_x x' s') b r (area_read (slot_of s p) block_bytes (sb_buffer s)) (cursor_ok_pos _ _ Hcur) Hop Hwf Hnr) as Hq.
    cbn zeta in Hq. rewrite Hq Hr; [|done|].
    + change (in_segbuf (set_x x' s') p) with (in_segbuf s p). rewrite Hin. done.
    + intros _. exact (slot_kept s p data _ Hcur Hin).
  - rewrite -(slot_kept s p ct _ Hcur Hin). apply in_segbuf_spec in Hin as [Ha Hb]. destruct Hcur as (_ & Hsec & _).
    change SECTOES_PER_SEGMENT with 8192 in Hsec. pose proof (Z.div_le_mono (sb_cur_sector s) 8192 8 ltac:(lia) ltac:(lia)) as Hd8. change (8192 / 8) with 1024 in Hd8.
    cbn [segbuf_flush_bios set_disk sd_disk]. rewrite /sworndisk_write_blocks. change (sb_cur_segment s') with (sb_cur_segment s).
    change BLOCKS_PER_SEGMENT with 1024. change DATA_BLOCK_SIZE with 4096. rewrite area_read_copy_in; [|lia|change (Z.of_nat block_bytes) with 4096; lia].
    f_equal. rewrite /slot_of. change BLOCKS_PER_SEGMENT with 1024. change DATA_BLOCK_SIZE with 4096. lia.
Qed.
End threaded.
