(* ===== verification/ThreadedGc.v ===== *)
(** * Cleaning while threaded logging is on

    When the only victim is more than three quarters full, threaded logging is
    on while the cleaner runs: each block the cleaner moves goes to a free block
    of the best victim, which is the segment being cleaned.  The blocks stay in
    the segment, and then the segment is given back. *)
From S2P Require Import Prelude Codec BlockManager DiskStructs Crypto BitNode Superblock SegValidator Dst Area Bio BitFile BitFileSpec Segment DataPath Cleaning Threaded.

Section threaded_gc.
Context {X : Type} {ix : LsmIndex X} {dm : DataMeta X} {dv : DataView X} {gcm : Gcm} {gcm_ok : GcmOk} {rng : Rng} {rng_ok : RngOk}.
Context (NR_SEGMENT : Z) {ok : DataPathOk X NR_SEGMENT}.
Context (garbage_memory : area) (garbage_lba : Z) (garbage_record : record).
Implicit Types (s : sworndisk X) (x : X).
Let core := dp_core NR_SEGMENT.
Let push depth fuel := segbuf_push_block NR_SEGMENT (sa_alloc NR_SEGMENT garbage_memory garbage_lba garbage_record depth fuel).

(** [V] is the only victim, too full for cleaning to be worth it. *)
Record tg_state (V : Z) s (content : gmap Z (list byte)) : Prop := {
  tg_core : core s content;
  tg_cur : sb_cur_segment s <> V;
  tg_victims : x_victims (sd_x s) = {[V]};
  tg_full : 768 < seg_count (x_valid (sd_x s)) V < 1024;
  tg_nr : u64 (GC_THREADHOLD NR_SEGMENT - THREAD_LOGGING_AHEAD) <= sa_nr_valid_segment s
}.

(** The logical blocks of [V] are still in [V]. *)
Definition stays (V : Z) s s' : Prop :=
  forall lba r, x_map (sd_x s) !! lba = Some r -> pba r / 1024 = V -> exists r', x_map (sd_x s') !! lba = Some r' /\ pba r' / 1024 = V.

Lemma stays_trans V s1 s2 s3 : stays V s1 s2 -> stays V s2 s3 -> stays V s1 s3.
Proof. intros H1 H2 lba r Hr HV. destruct (H1 lba r Hr HV) as (r1 & Hr1 & HV1). by eapply H2. Qed.

Lemma tg_range V s content : tg_state V s content -> 0 <= V < NR_SEGMENT.
Proof. intros [Hc _ Hv _ _]. apply (x_victims_range (sd_x s) V (di_x _ _ _ Hc)). rewrite Hv. set_solver. Qed.

Lemma tg_threaded V s content : tg_state V s content -> sworndisk_should_threaded_logging NR_SEGMENT s = true.
Proof.
  intros [Hc _ Hv Hf Hn]. rewrite /sworndisk_should_threaded_logging. rewrite (proj2 (Z.ltb_ge _ _) Hn) (ds_threaded_ok _ (di_x _ _ _ Hc)).
  pose proof (ds_peek_victim_ok _ (di_x _ _ _ Hc)) as Hp. destruct (ds_peek_victim (sd_x s)) as [v|]; [|rewrite Hv in Hp; set_solver].
  destruct Hp as (P1 & _ & P3 & _). rewrite Hv in P1. apply elem_of_singleton in P1. rewrite P3 P1. change (BLOCKS_PER_SEGMENT / 4 * 3) with 768. apply Z.ltb_lt. lia.
Qed.

Lemma tg_same V s x content : tg_state V s content -> x_same (sd_x s) x -> tg_state V (set_x x s) content /\ stays V s (set_x x s).
Proof.
  intros [H1 H2 H3 H4 H5] Hs. pose proof (dp_core_same NR_SEGMENT s x content H1 Hs) as Hc. destruct Hs as [[I1 I2 I3 I4 I5 I6] _]. split.
  - split; try done; cbn [set_x sd_x]; [by rewrite I6|]. by rewrite (seg_count_ext (x_valid (sd_x s))).
  - intros lba r Hr HV. exists r. cbn [set_x sd_x]. by rewrite I2.
Qed.

(** There is a block in [V]. *)
Lemma tg_block V s content : tg_state V s content -> exists lba r, x_map (sd_x s) !! lba = Some r /\ pba r / 1024 = V.
Proof.
  intros Hg. pose proof Hg as [Hc Hcur _ Hf _]. pose proof (tg_range _ _ _ Hg) as HVr.
  destruct (decide (Exists (fun b => x_valid (sd_x s) b = true) (seqZ (V * 1024) 1024))) as [(b & Hb%elem_of_seqZ & Hv)%Exists_exists|Hno].
  - assert (b / 1024 = V) as HbV by (apply seg_of; lia).
    destruct (gc_find_ok NR_SEGMENT V s content b Hc HVr Hcur HbV Hv) as (lba & r & d & x1 & x2 & _ & _ & Hs & Hr & _ & Hp & _).
    exists lba, r. rewrite -(xs_map _ _ _ _ _ _ (proj1 Hs)). split; [done|by rewrite Hp].
  - exfalso. assert (seg_count (x_valid (sd_x s)) V = 0); [|lia]. apply seg_count_zero. intros b Hb%seg_of. apply not_true_is_false. intros Hv. apply Hno.
    apply Exists_exists. exists b. split; [apply elem_of_seqZ; lia|done].
Qed.

(** A block of [V] is moved to a free block [p] of [V]. *)
Lemma tg_push depth fuel V s content lba r d k :
  tg_state V s content -> x_room (S k) (sd_x s) -> x_map (sd_x s) !! lba = Some r -> content !! lba = Some d -> pba r / 1024 = V ->
  exists s' p, push depth fuel lba d s = Some s' /\ tg_state V s' content /\ stays V s s' /\ x_room k (sd_x s') /\
    (p = pba r \/ x_valid (sd_x s) p = false) /\ (forall b, x_valid (sd_x s') b = (b =? p) || (negb (b =? pba r) && x_valid (sd_x s) b)) /\
    (forall b, b <> p -> stored s' b = stored s b).
Proof.
  intros Hg Hroom Hr Hd HV. pose proof Hg as [Hc Hcur Hvs Hf Hn]. destruct (di_live _ _ _ Hc _ _ Hr) as (Hkey & Hval & _).
  destruct (content_of _ _ _ _ _ Hc Hr) as (d' & Hd' & _ & _ & _ & Hl & _). rewrite Hd in Hd'. injection Hd' as <-.
  destruct (push_block_threaded NR_SEGMENT (sa_alloc NR_SEGMENT garbage_memory garbage_lba garbage_record depth fuel) lba d s content Hc Hkey
    (x_room_le _ 1 (S k) ltac:(lia) Hroom) Hl (tg_threaded _ _ _ Hg)) as (v & p & x & n & ct & rc & vs & _ & Hpl & Hse & Hsub & Hstay & Hrun).
  pose proof Hpl as [P1 _ P3 P4 P5 P6]. pose proof Hse as [[Hx Hm Hu Hv _ Hxv] Hxr _ _ Hp _].
  assert (pushed_victims s lba = {[V]}) as Hpv by (rewrite /pushed_victims Hr Hvs; change BLOCKS_PER_SEGMENT with 1024; rewrite HV; set_solver).
  rewrite Hpv in P1, Hsub. apply elem_of_singleton in P1. rewrite P1 in Hstay, P4, P6. change BLOCKS_PER_SEGMENT with 1024 in Hstay, P4.
  assert (forall b, dropped s lba b = negb (b =? pba r) && x_valid (sd_x s) b) as Hdr by (intros b; by rewrite /dropped Hr).
  pose proof (seg_count_drop (x_valid (sd_x s)) (dropped s lba) (pba r) Hval Hdr) as Hc1. rewrite HV in Hc1.
  set (valid' := fun b => (b =? p) || dropped s lba b) in *.
  assert (seg_count valid' V = seg_count (x_valid (sd_x s)) V) as Hc2.
  { pose proof (seg_count_drop valid' (dropped s lba) p) as Hc2. rewrite P4 in Hc2. rewrite Hc2 in Hc1; [lia|by rewrite /valid' Z.eqb_refl|].
    intros b. rewrite /valid'. destruct (Z.eqb_spec b p) as [->|]; [done|by destruct (dropped s lba b)]. }
  eexists _, p. split; [exact Hrun|]. split; [split|split; [|split; [by apply Hxr|split; [|split]]]].
  - pose proof (threaded_core NR_SEGMENT s content x n lba p d ct rc vs Hc Hkey Hse P3 P5 ltac:(change BLOCKS_PER_SEGMENT with 1024; by rewrite P4)
      ltac:(change BLOCKS_PER_SEGMENT with 1024; by rewrite P4) Hl) as Hc'. by rewrite insert_id in Hc'.
  - exact Hcur.
  - cbn [threaded_at set_disk set_x set_bufs set_rng sd_x]. rewrite Hxv. apply set_eq => i. rewrite elem_of_singleton. split; [intros Hi%Hsub; by apply elem_of_singleton in Hi|].
    intros ->. apply Hstay. lia.
  - cbn [threaded_at set_disk set_x set_bufs set_rng sd_x]. rewrite (seg_count_ext valid'); [lia|intros b _; apply Hv].
  - exact Hn.
  - intros lba' r' Hr' HV'. cbn [threaded_at set_disk set_x set_bufs set_rng sd_x]. rewrite Hm. destruct (decide (lba' = lba)) as [->|Hne].
    + rewrite lookup_insert_eq. eexists. split; [reflexivity|]. by rewrite Hp.
    + rewrite lookup_insert_ne //. by exists r'.
  - rewrite Hdr in P5. apply andb_false_iff in P5 as [He|?]; [left|by right]. by apply negb_false_iff, Z.eqb_eq in He.
  - intros b. cbn [threaded_at set_disk set_x set_bufs set_rng sd_x]. by rewrite Hv /valid' Hdr.
  - intros b Hb. apply (threaded_stored NR_SEGMENT); [by apply di_cursor in Hc|by left].
Qed.

(** The blocks of [V] that are still to be moved, at offset [o], and those of
    them that were read already. *)
Definition tg_left V (v0 : Z -> bool) (o : Z) s : Prop :=
  forall b, b / 1024 = V -> V * 1024 + o <= b -> v0 b = true -> x_valid (sd_x s) b = true.
Definition tg_read V (v0 : Z -> bool) (o rb re : Z) (buf : area) s : Prop :=
  forall j, rb <= j < re -> o <= j < 1024 -> v0 (V * 1024 + j) = true -> area_read (j * DATA_BLOCK_SIZE) block_bytes buf = stored s (V * 1024 + j).

Lemma tg_move depth fuel n v v0 o rb re buf s content k :
  let V := vi_segno v in
  vi_block_validity_table v = seg_bits v0 V -> tg_state V s content -> 0 <= o <= 1024 -> (o < 1024 -> v0 (V * 1024 + o) = true) ->
  tg_left V v0 o s -> tg_read V v0 o rb re buf s -> 1024 - o < Z.of_nat n -> x_room (Z.to_nat (1024 - o) + k) (sd_x s) ->
  exists s', gc_move_blocks garbage_lba garbage_record (push depth fuel) n v o rb re buf s = Some s' /\ tg_state V s' content /\ stays V s s' /\ x_room k (sd_x s').
Proof.
  intros V HT. revert o rb re buf s. induction n as [|n IH] => o rb re buf s Hg Ho Hbit Hleft Hread Hn Hroom; [lia|].
  cbn [gc_move_blocks]. change BLOCKS_PER_SEGMENT with 1024. destruct (Z.ltb_spec o 1024) as [Hlt|Hge]; last first.
  { exists s. split; [done|]. split; [done|]. split; [by intros lba r; eauto|]. eapply x_room_le; [|exact Hroom]. lia. }
  specialize (Hbit Hlt). fold V. pose proof (length_seg_bits v0 V) as HlT. rewrite -HT in HlT.
  assert (exists rb1 re1 buf1, (if offset_in_region o rb re then (rb, re, buf)
     else (o, find_next_zero_bit (vi_block_validity_table v) o,
           sworndisk_read_blocks s (V * 1024 + o) (find_next_zero_bit (vi_block_validity_table v) o - o) buf (o * DATA_BLOCK_SIZE))) = (rb1, re1, buf1) /\
    rb1 <= o < re1 /\ tg_read V v0 o rb1 re1 buf1 s) as (rb1 & re1 & buf1 & -> & Hin & Hread1).
  { destruct (offset_in_region o rb re) eqn:E.
    { apply andb_true_iff in E as [?%Z.leb_le ?%Z.ltb_lt]. by exists rb, re, buf. }
    destruct (region_read V (vi_block_validity_table v) s o 0 0 buf HlT) as (rb1 & re1 & buf1 & Hrr & Hin & Hreg); [lia|rewrite HT seg_bits_lookup; [by rewrite Hbit|lia]|intros j Hj; lia|].
    replace (offset_in_region o 0 0) with false in Hrr by (rewrite /offset_in_region; zbool; simpl; done || lia).
    exists rb1, re1, buf1. split; [exact Hrr|]. split; [done|]. intros j Hj Hj' _. apply Hreg; lia. }
  assert ((V * 1024 + o) / 1024 = V) as HbV by (apply seg_of; lia).
  assert (x_valid (sd_x s) (V * 1024 + o) = true) as Hvb by (apply Hleft; [done|lia|done]).
  destruct (gc_find_ok NR_SEGMENT V s content _ (tg_core _ _ _ Hg) (tg_range _ _ _ Hg) (tg_cur _ _ _ Hg) HbV Hvb)
    as (lba & r & d & x1 & x2 & -> & -> & Hs2 & Hr & Hd & Hpr & Hdec).
  destruct (tg_same V s x2 content Hg Hs2) as [Hg2 Hst2]. set (s2 := set_x x2 s) in *.
  change (Z.to_nat DATA_BLOCK_SIZE) with block_bytes. rewrite (Hread1 o Hin ltac:(lia) Hbit) Hdec.
  destruct (tg_push depth fuel V s2 content lba r d (Z.to_nat (1024 - o - 1) + k) Hg2) as (s3 & p & Hrun & Hg3 & Hst3 & Hroom3 & Hp & Hval3 & Hsto); try done.
  { apply (proj2 Hs2). replace (S (Z.to_nat (1024 - o - 1) + k)) with (Z.to_nat (1024 - o) + k)%nat by lia. done. }
  { by rewrite Hpr. }
  rewrite Hrun. cbn [mbind option_bind]. pose proof (xs_valid _ _ _ _ _ _ (proj1 Hs2)) as Hv2.
  destruct (find_next_spec true (vi_block_validity_table v) (o + 1) ltac:(lia)) as (F1 & _ & F3). fold (find_next_bit (vi_block_validity_table v) (o + 1)) in F1, F3.
  set (o' := find_next_bit (vi_block_validity_table v) (o + 1)) in *. rewrite HlT in F1, F3.
  assert (forall b, b / 1024 = V -> V * 1024 + o' <= b -> v0 b = true -> b <> p /\ x_valid (sd_x s3) b = true) as Hnext.
  { intros b Hb Hb' H0. assert (x_valid (sd_x s) b = true) as Hvv by (apply Hleft; [done|lia|done]). split.
    - intros ->. destruct Hp as [Hp|Hp]; [rewrite Hpr in Hp; lia|]. change (sd_x s2) with x2 in Hp. by rewrite Hv2 Hvv in Hp.
    - rewrite Hval3. change (sd_x s2) with x2. rewrite Hv2 Hvv Hpr (proj2 (Z.eqb_neq b (V * 1024 + o))); [apply orb_true_r|lia]. }
  destruct (IH o' rb1 re1 buf1 s3 Hg3) as (s' & Hmv & Hg' & Hst' & Hroom').
  - lia.
  - intros Ho'. specialize (F3 ltac:(lia)). rewrite HT seg_bits_lookup in F3; [|lia]. by injection F3.
  - intros b H1 H2 H3. by apply Hnext.
  - intros j Hj Hj' H0. rewrite Hsto; [|apply Hnext; [apply seg_of; lia|lia|done]]. change (stored s2 (V * 1024 + j)) with (stored s (V * 1024 + j)). apply Hread1; [done|lia|done].
  - lia.
  - eapply x_room_le; [|exact Hroom3]. lia.
  - exists s'. split; [exact Hmv|]. split; [done|]. split; [|done]. eapply stays_trans; [exact Hst2|]. by eapply stays_trans.
Qed.

(** The cleaner goes over the victim once and gives it back. *)
Lemma tg_gc depth fuel V s content :
  tg_state V s content -> x_room 1024 (sd_x s) -> (2 <= fuel)%nat ->
  exists s', sa_foreground_gc garbage_memory garbage_lba garbage_record (push depth fuel) fuel s = Some s' /\
    stays V s s' /\ x_used (sd_x s') V = false.
Proof.
  intros Hg Hroom Hfuel. rewrite /sa_foreground_gc. set (s0 := set_alloc _ SEGMENT_CLEANING s). destruct fuel as [|[|fuel]]; [lia|lia|].
  assert (tg_state V s0 content) as Hg0 by (destruct Hg as [[] ? ? ? ?]; split; [split|..]; done).
  pose proof Hg0 as [Hc Hcur Hvs Hf _]. pose proof (di_x _ _ _ Hc) as Hx. pose proof (tg_range _ _ _ Hg) as HVr.
  assert (x_victims (sd_x s0) <> ∅) as Hne by (rewrite Hvs; set_solver).
  cbn [gc_loop]. rewrite (ds_victim_empty_ok _ Hx) bool_decide_false //. change (0 <? LEAST_CLEAN_SEGMENT_ONCE * BLOCKS_PER_SEGMENT) with true. cbn [andb negb].
  pose proof (ds_peek_victim_ok _ Hx) as Hp. destruct (ds_peek_victim (sd_x s0)) as [v|]; [|done]. destruct Hp as (P1 & P2 & P3 & _).
  rewrite Hvs in P1. apply elem_of_singleton in P1. rewrite P1 in P3. rewrite P3. ztest.
  pose proof (length_seg_bits (x_valid (sd_x s0)) (vi_segno v)) as HlT. rewrite -P2 in HlT.
  destruct (find_next_spec true (vi_block_validity_table v) 0 ltac:(lia)) as (F1 & _ & F3). fold (find_next_bit (vi_block_validity_table v) 0) in F1, F3.
  rewrite HlT in F1, F3. subst V.
  destruct (tg_move depth (S (S fuel)) (S (Z.to_nat BLOCKS_PER_SEGMENT)) v (x_valid (sd_x s0)) (find_next_bit (vi_block_validity_table v) 0) 0 0 garbage_memory s0 content 0 P2 Hg0)
    as (s1 & Hrun & Hg1 & Hst1 & _).
  { lia. }
  { intros Ho. specialize (F3 ltac:(lia)). rewrite P2 seg_bits_lookup in F3; [|rewrite -P2; lia]. rewrite -P2 in F3. by injection F3. }
  { by intros b _ _. }
  { intros j Hj. lia. }
  { change (Z.of_nat (S (Z.to_nat BLOCKS_PER_SEGMENT))) with 1025. lia. }
  { eapply x_room_le; [|exact Hroom]. lia. }
  rewrite Hrun. cbn [mbind option_bind].
  destruct (sv_test_and_return_ok (sd_x s1) (vi_segno v) (di_x _ _ _ (tg_core _ _ _ Hg1)) HVr) as (x2 & -> & [[I1 I2 I3 I4 I5 I6] _]).
  pose proof (ds_remove_victim_ok x2 (vi_segno v) I1) as [[J1 J2 J3 J4 J5 J6] _]. set (x3 := (ds_remove_victim (vi_segno v) x2).2) in *.
  assert (x_victims x3 = ∅) as He by (rewrite J6 I6 (tg_victims _ _ _ Hg1); apply difference_diag_L).
  cbn [set_alloc set_x sd_x]. rewrite (ds_victim_empty_ok x3 J1) (bool_decide_true _ He) andb_false_r.
  eexists. split; [reflexivity|]. cbn [set_alloc set_x sd_x]. split; [|by rewrite J3 I3 Z.eqb_refl].
  intros lba r Hr HV. destruct (Hst1 lba r Hr HV) as (r' & Hr' & HV'). exists r'. cbn [set_alloc set_x sd_x]. by rewrite J2 I2.
Qed.
End threaded_gc.
