(* ===== verification/WritePath.v ===== *)
(** * Write requests

    A write request, whole block or part of one, buffered, written out with its
    segment, written straight into a victim or changed in place in the segment
    buffer, with the cleaner running or not, changes the contents of its block
    and nothing else. *)
From S2P Require Import Prelude Codec BlockManager DiskStructs Crypto BitNode Superblock SegValidator Dst Area Bio BitFile BitFileSpec Segment DataPath Cleaning Threaded.

Section write_path.
Context {X : Type} {ix : LsmIndex X} {dm : DataMeta X} {dv : DataView X} {gcm : Gcm} {gcm_ok : GcmOk} {rng : Rng} {rng_ok : RngOk}.
Context (NR_SEGMENT : Z) {ok : DataPathOk X NR_SEGMENT}.
Context (garbage_plain : list byte -> list byte) (garbage_memory : area) (garbage_lba : Z) (garbage_record : record).
Implicit Types (s : sworndisk X) (x : X).
Let core := dp_core NR_SEGMENT.
Let alloc fuel := sa_alloc NR_SEGMENT garbage_memory garbage_lba garbage_record sa_alloc_depth fuel.

(** ** When a write may be submitted

    Either few segments are in use, so that no cleaning is due, or two segments
    are free and cleaning is worth it, or the block is logged into a victim
    other than the segment buffer's own segment; the index has room for the
    record of the write and for those the cleaner renews. *)
Definition relaxed s : Prop := sa_nr_valid_segment s < NR_SEGMENT - 17 /\ x_room 1 (sd_x s).
Definition cleanable (fuel : nat) s : Prop :=
  sa_nr_valid_segment s + 2 <= NR_SEGMENT /\ NR_SEGMENT < Z.of_nat fuel /\
  (exists W, gc_worth (sd_x s) 0 W) /\ x_room (S (gc_need 0)) (sd_x s).
Definition write_ready (fuel : nat) (lba : Z) s : Prop := 16 < NR_SEGMENT /\ (relaxed s \/ cleanable fuel s \/ threadable NR_SEGMENT lba s).

Lemma write_ready_room fuel lba s : write_ready fuel lba s -> x_room 1 (sd_x s).
Proof. intros (_ & [[_ H]|[(_ & _ & _ & H)|(_ & H & _)]]); [done| |done]. eapply x_room_le; [|exact H]. lia. Qed.

(** Cleaning stays worth it when blocks become invalid and other segments are taken. *)
Lemma seg_count_le valid valid' seg : (forall b, b / 1024 = seg -> valid' b = true -> valid b = true) ->
  seg_count valid' seg <= seg_count valid seg.
Proof.
  intros H. rewrite /seg_count /seg_bits.
  assert (Forall (fun b => valid' b = true -> valid b = true) (seqZ (seg * BLOCKS_PER_SEGMENT) BLOCKS_PER_SEGMENT)) as Hall.
  { apply Forall_forall. intros b Hb%elem_of_seqZ. change BLOCKS_PER_SEGMENT with 1024 in Hb. apply H, seg_of. lia. }
  induction Hall as [|b l Hb _ IH]; [done|]. rewrite !fmap_cons !count_true_cons. destruct (valid' b) eqn:E; [rewrite Hb //|destruct (valid b)]; lia.
Qed.
Lemma gain_le valid valid' W : (forall i, i ∈ W -> seg_count valid' i <= seg_count valid i) -> gain valid W <= gain valid' W.
Proof.
  induction W as [|i W IH]; [done|]. intros H. cbn [gain foldr]. fold (gain valid W) (gain valid' W).
  pose proof (H i ltac:(left)). assert (gain valid W <= gain valid' W); [|lia]. apply IH. intros j Hj. apply H. by right.
Qed.
Lemma gc_worth_mono x x' W : gc_worth x 0 W ->
  (forall i, i ∈ W -> x_used x i = true -> i ∈ x_victims x -> i ∈ x_victims x' /\ x_used x' i = true /\
    forall b, b / 1024 = i -> x_valid x' b = true -> x_valid x b = true) -> gc_worth x' 0 W.
Proof.
  intros (Hnd & HW & Hs) H. assert (forall i, i ∈ W -> seg_count (x_valid x') i <= seg_count (x_valid x) i) as Hle.
  { intros i Hi. destruct (HW i Hi) as (? & ? & _). apply seg_count_le. by apply H. }
  split; [done|]. split.
  - intros i Hi. destruct (HW i Hi) as (? & ? & ?). destruct (H i) as (? & ? & _); try done. specialize (Hle i Hi). split; [done|]. split; [done|]. lia.
  - pose proof (gain_le _ _ _ Hle). lia.
Qed.
Lemma gc_worth_elem x W : gc_worth x 0 W -> exists i, i ∈ x_victims x /\ seg_count (x_valid x) i <= 768.
Proof.
  intros (_ & HW & Hs). destruct W as [|i W].
  - change (LEAST_CLEAN_SEGMENT_ONCE * BLOCKS_PER_SEGMENT) with 1024 in Hs. cbn [gain foldr] in Hs. lia.
  - exists i. destruct (HW i ltac:(left)) as (? & _ & ?). done.
Qed.

Lemma write_ready_same fuel lba s x : x_inv (sd_x s) -> write_ready fuel lba s -> x_same (sd_x s) x -> write_ready fuel lba (set_x x s).
Proof.
  intros Hx (HN & Hr) Hsame. split; [done|]. destruct Hr as [Hr|[Hr|Hr]]; [..|right; right; by apply threadable_same].
  all: pose proof Hsame as [[I1 I2 I3 I4 I5 I6] I7].
  { left. destruct Hr as [? ?]. split; [done|by apply I7]. }
  right; left. destruct Hr as (? & ? & (W & HW) & ?).
  split; [done|]. split; [done|]. split; [|by apply I7]. exists W. eapply gc_worth_mono; [exact HW|].
  intros i _ Hu Hv. cbn [set_x sd_x]. rewrite I6 I3. split; [done|]. split; [done|]. intros b _. by rewrite I4.
Qed.

Lemma threshold s content : core s content -> 16 < NR_SEGMENT ->
  GC_THREADHOLD NR_SEGMENT = NR_SEGMENT - 16 /\ u64 (GC_THREADHOLD NR_SEGMENT - THREAD_LOGGING_AHEAD) = NR_SEGMENT - 17.
Proof.
  intros Hc HN. pose proof (di_nr _ _ _ Hc) as [HN0 Hnr]. change SECTOES_PER_SEGMENT with 8192 in Hnr.
  assert (GC_THREADHOLD NR_SEGMENT = NR_SEGMENT - 16) as Hg by (apply u64_small; lia). split; [done|].
  rewrite Hg u64_small; rewrite /THREAD_LOGGING_AHEAD; lia.
Qed.

Lemma ready_threshold fuel s content : core s content -> 16 < NR_SEGMENT -> relaxed s \/ cleanable fuel s ->
  GC_THREADHOLD NR_SEGMENT = NR_SEGMENT - 16 /\ sworndisk_should_threaded_logging NR_SEGMENT s = false.
Proof.
  intros Hc HN Hr. destruct (threshold s content Hc HN) as [Hg Hg']. split; [done|].
  destruct Hr as [[Hv _]|(_ & _ & (W & HW) & _)].
  - rewrite /sworndisk_should_threaded_logging Hg'. by ztest.
  - destruct (gc_worth_elem _ _ HW) as (i & Hi & Hi'). exact (not_threaded NR_SEGMENT s i (di_x _ _ _ Hc) Hi Hi').
Qed.

(** ** Pushing a block *)

(** The number of the next free block, counting segments in use. *)
Definition sd_position s : Z := sa_nr_valid_segment s * 1024 + sb_filled s.

(** What a write leaves: the contents, a free slot, the prefetcher as it was,
    and, when no cleaning was due, one block and one record less room. *)
Record write_post s s' (content : gmap Z (list byte)) : Prop := {
  wp_core : core s' content;
  wp_lt : sb_cur_sector s' < SECTOES_PER_SEGMENT;
  wp_prefetcher : sd_prefetcher s' = sd_prefetcher s;
  wp_position : sa_nr_valid_segment s < NR_SEGMENT - 17 -> sd_position s' <= sd_position s + 1;
  wp_room n : sa_nr_valid_segment s < NR_SEGMENT - 17 -> x_room (S n) (sd_x s) -> x_room n (sd_x s')
}.

Lemma filled_next s s1 : sb_cur_sector s1 = sb_cur_sector s + 8 -> sb_filled s1 = sb_filled s + 1.
Proof.
  intros H. change (sb_filled s1) with (sb_cur_sector s1 / 8). change (sb_filled s) with (sb_cur_sector s / 8).
  by rewrite H -{1}(Z.mul_1_l 8) Z.div_add.
Qed.

Lemma cleanable_after_push fuel lba s s1 content seg x' :
  cleanable fuel s -> core s1 content -> pushed NR_SEGMENT s s1 lba content -> x_used (sd_x s) seg = false -> took (sd_x s1) x' seg ->
  (exists W, gc_worth x' 0 W) /\ x_room (gc_need 0) x'.
Proof.
  intros (_ & _ & (W & HW) & Hroom) _ [_ _ _ _ _ _ _ U8 U9 U10 _ U12] Hus [[I1 I2 I3 I4 I5 I6] I7].
  split; [|by apply I7, U12]. exists W. eapply gc_worth_mono; [exact HW|]. intros i _ Hu Hv. assert (i <> seg) as Hne by congruence.
  split; [rewrite I6 U10 /pushed_victims; destruct (x_map _ !! lba); set_solver|]. split; [by rewrite I3 U8 Hu orb_true_r|].
  intros b Hb. rewrite I4. change BLOCKS_PER_SEGMENT with 1024. rewrite Hb (proj2 (Z.eqb_neq _ _) Hne) U9 /dropped. cbn [orb].
  destruct (x_map _ !! lba); [by intros [_ ?]%andb_true_iff|done].
Qed.

Lemma push_block_buffered fuel lba data s content :
  core s content -> sb_cur_sector s < SECTOES_PER_SEGMENT -> x_key lba -> 16 < NR_SEGMENT -> relaxed s \/ cleanable fuel s -> length data = block_bytes ->
  exists s', segbuf_push_block NR_SEGMENT (alloc fuel) lba data s = Some s' /\ write_post s s' (<[lba := data]> content).
Proof.
  intros Hc Hlt Hkey HN16 Hrdy Hl. pose proof (di_nr _ _ _ Hc) as [HN Hnr]. destruct (ready_threshold fuel s content Hc HN16 Hrdy) as [Hg Hth].
  assert (x_room 1 (sd_x s)) as Hroom1 by (apply (write_ready_room fuel lba); split; [done|]; destruct Hrdy; auto).
  destruct (push_block_ok NR_SEGMENT (alloc fuel) lba data s content Hc Hlt Hkey Hroom1 Hl Hth) as (s1 & Hpu & ->).
  pose proof Hpu as [U1 U2 U3 U4 U5 U6 U7 U8 U9 U10 _ U12]. pose proof (di_cursor _ _ _ U1) as (_ & Hsec1 & _).
  pose proof (di_cursor _ _ _ Hc) as (_ & Hsec & Hmod & _). change SECTORS_PER_BLOCK with 8 in Hmod.
  change SECTOES_PER_SEGMENT with 8192 in *. pose proof (filled_next s s1 U2) as Hfil.
  destruct (Z.leb_spec 8192 (sb_cur_sector s1)) as [Hge|Hless].
  2:{ exists s1. split; [done|]. split; [done|exact Hless|done|rewrite /sd_position U5 Hfil; lia|intros n _; apply U12]. }
  set (s2 := set_cursor (sb_cur_segment s1) 0 (segbuf_flush_bios s1)).
  destruct (sa_alloc_ok NR_SEGMENT garbage_memory garbage_lba garbage_record 1 fuel s2 (di_x _ _ _ U1) HN Hnr (di_free _ _ _ U1) (di_count _ _ _ U1))
    as (seg & x' & Hseg & Hus & Htook & Halloc).
  { change (sa_nr_valid_segment s1 < NR_SEGMENT). rewrite U5. destruct Hrdy as [[? _]|[? _]]; lia. }
  rewrite /alloc /sa_alloc_depth Halloc. clear Halloc. set (s3 := set_x x' _). change (sd_x s2) with (sd_x s1) in Hus, Htook.
  assert (core s3 (<[lba := data]> content)) as Hc3.
  { apply (flush_core NR_SEGMENT s1 _ seg x' U1); [change SECTOES_PER_SEGMENT with 8192; lia|done|done|done]. }
  assert (sa_nr_valid_segment s3 = sa_nr_valid_segment s + 1) as Hnr3 by (rewrite -U5; done).
  assert (sb_filled s = 1023) as Hfull.
  { change (sb_filled s) with (sb_cur_sector s / 8). pose proof (Z.div_mod (sb_cur_sector s) 8). lia. }
  destruct (sa_will_trigger_gc NR_SEGMENT s3 && negb (bool_decide (sa_status s3 = SEGMENT_CLEANING))) eqn:Hgc; last first.
  { exists s3. split; [done|]. split; [done|done|exact U4|rewrite /sd_position Hnr3 Hfull; change (sb_filled s3) with 0; lia|].
    intros n _ Hr. apply (proj2 Htook), U12, Hr. }
  apply andb_true_iff in Hgc as [Htr _]. rewrite /sa_will_trigger_gc Hg Hnr3 in Htr. apply Z.ltb_lt in Htr.
  destruct Hrdy as [[? _]|Hcl]; [lia|]. rewrite U8 in Hus.
  destruct (cleanable_after_push fuel lba s s1 _ seg x' Hcl U1 Hpu Hus Htook) as ((W & HW) & Hroom').
  destruct Hcl as (Hnr2 & Hfuel & _). rewrite -(Nat.add_0_r (gc_need 0)) in Hroom'.
  destruct (sa_foreground_gc_ok NR_SEGMENT garbage_memory garbage_lba garbage_record 0 fuel W s3 _ 0 Hc3) as (s4 & Hrun & H1 & H2 & H3 & _); try done.
  { cbn [s3 set_x sd_x sb_cur_segment set_alloc set_cursor]. rewrite (xs_victims _ _ _ _ _ _ (proj1 Htook)). set_solver. }
  { lia. }
  rewrite Hrun. exists s4. split; [done|]. split; [done|exact H2|by rewrite H3|lia|intros; lia].
Qed.

Lemma push_block_ready fuel lba data s content :
  core s content -> sb_cur_sector s < SECTOES_PER_SEGMENT -> x_key lba -> write_ready fuel lba s -> length data = block_bytes ->
  exists s', segbuf_push_block NR_SEGMENT (alloc fuel) lba data s = Some s' /\ write_post s s' (<[lba := data]> content).
Proof.
  intros Hc Hlt Hkey (HN & Hr) Hl. destruct Hr as [Hr|[Hr|Hr]]; [by apply push_block_buffered; auto..|].
  destruct (push_block_threadable NR_SEGMENT (alloc fuel) lba data s content Hc Hkey Hr Hl) as (s' & Hrun & Hc' & Hsec & Hpf).
  destruct (threaded_victims NR_SEGMENT s (di_x _ _ _ Hc) (proj1 Hr)) as (_ & _ & Hge). rewrite (proj2 (threshold s content Hc HN)) in Hge.
  exists s'. split; [done|]. split; [done|by rewrite Hsec|done|lia|lia].
Qed.

(** ** Write requests *)

(** The request's bytes go to the free slot; what the buffer holds stays. *)
Lemma filled_slot b s content :
  core s content -> sb_cur_sector s < SECTOES_PER_SEGMENT -> bi_op b = REQ_OP_WRITE -> bio_wf b ->
  let slot := sb_cur_sector s * SECTOR_SIZE in
  let buffer := bio_get_data b (sb_buffer s) (slot + bio_block_sector_offset b * SECTOR_SIZE) (bio_get_data_len b) in
  core (set_bufs buffer (sb_pipe s) s) content /\
  forall p, in_segbuf s p = true -> area_read (slot_of s p) block_bytes buffer = area_read (slot_of s p) block_bytes (sb_buffer s).
Proof.
  intros Hc Hlt Hop (Hn0 & Hsz & Hin) slot buffer. destruct (bio_off_bounds b) as [Ho Hoff].
  rewrite /bi_size in Hsz. change SECTORS_PER_BLOCK with 8 in Hin.
  assert (forall i, i < slot -> buffer i = sb_buffer s i) as Hb.
  { intros i Hi. rewrite /buffer bio_get_data_ok //. apply area_write_out. change SECTOR_SIZE with 512. lia. }
  split; [by apply scratch_core|]. intros p [Hp1 Hp2]%in_segbuf_spec. apply area_read_ext => i Hi. apply Hb.
  destruct (di_cursor _ _ _ Hc) as (_ & _ & Hmod & _). change SECTORS_PER_BLOCK with 8 in Hmod. pose proof (Z.div_mod (sb_cur_sector s) 8 ltac:(done)).
  change (Z.of_nat block_bytes) with 4096 in Hi. rewrite /slot_of in Hi. change DATA_BLOCK_SIZE with 4096 in Hi. change BLOCKS_PER_SEGMENT with 1024 in Hi.
  rewrite /slot. change SECTOR_SIZE with 512. lia.
Qed.

(** Filling the free slot with the request's bytes over [base], and pushing it. *)
Lemma fill_ok fuel b s content :
  core s content -> sb_cur_sector s < SECTOES_PER_SEGMENT -> x_key (bio_get_block_address b) -> write_ready fuel (bio_get_block_address b) s ->
  bi_op b = REQ_OP_WRITE -> bio_wf b ->
  let slot := sb_cur_sector s * SECTOR_SIZE in
  let base := area_read slot block_bytes (sb_buffer s) in
  let buffer := bio_get_data b (sb_buffer s) (slot + bio_block_sector_offset b * SECTOR_SIZE) (bio_get_data_len b) in
  exists s', segbuf_push_block NR_SEGMENT (alloc fuel) (bio_get_block_address b) (area_read slot (Z.to_nat DATA_BLOCK_SIZE) buffer)
      (set_bufs buffer (sb_pipe s) s) = Some s' /\
    write_post s s' (<[bio_get_block_address b := splice (bio_off b) (bi_payload b) base]> content).
Proof.
  intros Hc Hlt Hkey Hrdy Hop (Hn0 & Hsz & Hin) slot base buffer. destruct (bio_off_bounds b) as [Ho Hoff].
  rewrite /bi_size in Hsz. change SECTORS_PER_BLOCK with 8 in Hin.
  assert (forall i, buffer i = area_write (slot + Z.of_nat (bio_off b)) (bi_payload b) (sb_buffer s) i) as Hb.
  { intros i. rewrite /buffer bio_get_data_ok // Hoff. done. }
  change (Z.to_nat DATA_BLOCK_SIZE) with block_bytes.
  assert (area_read slot block_bytes buffer = splice (bio_off b) (bi_payload b) base) as ->.
  { rewrite /base -area_read_splice; [|change block_bytes with 4096%nat; lia]. apply area_read_ext => i _. apply Hb. }
  destruct (filled_slot b s content Hc Hlt Hop ltac:(done)) as [Hc' _]. fold slot buffer in Hc'.
  destruct (push_block_ready fuel (bio_get_block_address b) (splice (bio_off b) (bi_payload b) base) (set_bufs buffer (sb_pipe s) s) content)
    as (s' & Hrun & [P1 P2 P3 P4 P5]); try done.
  { rewrite length_splice /base length_area_read //. change block_bytes with 4096%nat. lia. }
  exists s'. split; [exact Hrun|]. by split.
Qed.

(** The block a write starts from: its old data if it covers only part of the block. *)
Definition write_base (content : gmap Z (list byte)) (b : bio) (base : list byte) : Prop :=
  length base = block_bytes /\
  (bio_sectors b < SECTORS_PER_BLOCK -> forall d, content !! bio_get_block_address b = Some d -> base = d).

(** A block still in the buffer is changed in place. *)
Lemma modify_ok b s content r d :
  let lba := bio_get_block_address b in
  core s content -> sb_cur_sector s < SECTOES_PER_SEGMENT -> x_key lba -> x_room 1 (sd_x s) -> bi_op b = REQ_OP_WRITE -> bio_wf b ->
  x_map (sd_x s) !! lba = Some r -> content !! lba = Some d -> in_segbuf s (pba r) = true ->
  let off := slot_of s (pba r) in
  let buffer := bio_get_data b (sb_buffer s) (off + bio_block_sector_offset b * SECTOR_SIZE) (bio_get_data_len b) in
  exists ct m x', encrypt (area_read off block_bytes buffer) (key r) (iv r) (pba r) = (ct, m) /\
    ix_put lba (record_set_mac m r) (sd_x s) = Some x' /\
    write_post s (set_x x' (set_bufs buffer (area_write off ct (sb_pipe s)) s)) (<[lba := splice (bio_off b) (bi_payload b) d]> content).
Proof.
  intros lba Hc Hlt Hkey Hroom Hop (Hn0 & Hsz & Hin) Er Ed Ein off buffer.
  pose proof (di_block _ _ _ Hc _ _ _ Er Ed) as (W1 & W2 & W3 & W4 & W5 & W6 & W7).
  destruct (bio_off_bounds b) as [Ho Hoff]. rewrite /bi_size in Hsz. change SECTORS_PER_BLOCK with 8 in Hin.
  assert (forall i, buffer i = area_write (off + Z.of_nat (bio_off b)) (bi_payload b) (sb_buffer s) i) as Hb.
  { intros i. rewrite /buffer bio_get_data_ok // Hoff. done. }
  assert (Z.of_nat (bio_off b) + Z.of_nat (length (bi_payload b)) <= 4096) as Hfit by lia.
  assert (area_read off block_bytes buffer = splice (bio_off b) (bi_payload b) d) as Hrd.
  { rewrite -(W7 Ein) -area_read_splice; [|change block_bytes with 4096%nat; lia]. apply area_read_ext => i _. apply Hb. }
  rewrite Hrd. destruct (encrypt (splice (bio_off b) (bi_payload b) d) (key r) (iv r) (pba r)) as [ct m] eqn:Henc.
  assert (length (splice (bio_off b) (bi_payload b) d) = block_bytes) as Hld.
  { rewrite length_splice // W4. change block_bytes with 4096%nat. lia. }
  pose proof (length_encrypt_mac (splice (bio_off b) (bi_payload b) d) (key r) (iv r) (pba r)) as Hml. rewrite Henc in Hml.
  destruct W1 as (P1 & _ & P3 & P4).
  destruct (ix_put_ok (sd_x s) lba (record_set_mac m r) (di_x _ _ _ Hc) Hkey Hroom ltac:(by apply record_wf)) as (x' & Hput & Hx' & Hr').
  exists ct, m, x'. split; [done|]. split; [done|]. split; [|done|done|intros _; change (sd_position s <= sd_position s + 1); lia|intros n _; apply Hr'].
  apply (modify_core NR_SEGMENT s content x' lba r d _ ct m buffer); try done.
  intros i Hi. change DATA_BLOCK_SIZE with 4096 in Hi. rewrite Hb. apply area_write_out. fold off in Hi. lia.
Qed.

Lemma push_bio_ok fuel b s content :
  core s content -> sb_cur_sector s < SECTOES_PER_SEGMENT -> x_key (bio_get_block_address b) -> write_ready fuel (bio_get_block_address b) s ->
  bi_op b = REQ_OP_WRITE -> bio_wf b ->
  exists s' base, segbuf_push_bio NR_SEGMENT garbage_plain (alloc fuel) b s = Some s' /\ write_base content b base /\
    write_post s s' (<[bio_get_block_address b := splice (bio_off b) (bi_payload b) base]> content).
Proof.
  intros Hc Hlt Hkey Hrdy Hop Hwf. rewrite /segbuf_push_bio. set (lba := bio_get_block_address b) in *.
  destruct (Z.leb_spec SECTORS_PER_BLOCK (bio_sectors b)) as [Hfull|Hpart].
  { destruct (fill_ok fuel b s content Hc Hlt Hkey Hrdy Hop Hwf) as (s' & Hrun & Hpost).
    eexists s', _. split; [exact Hrun|]. split; [|exact Hpost]. split; [apply length_area_read|lia]. }
  destruct (ix_search_ok (sd_x s) lba (di_x _ _ _ Hc) Hkey) as (x1 & -> & Hs1).
  pose proof (dp_core_same _ _ _ _ Hc Hs1) as Hc1. pose proof (write_ready_same _ _ _ _ (di_x _ _ _ Hc) Hrdy Hs1) as Hrdy1.
  set (s1 := set_x x1 s) in *. assert (x_map (sd_x s1) = x_map (sd_x s)) as Hm1 by (apply (xs_map _ _ _ _ _ _ (proj1 Hs1))).
  assert (forall s' c, write_post s1 s' c -> write_post s s' c) as Hpre.
  { intros s' c [P1 P2 P3 P4 P5]. split; try done. intros n Hn Hr. apply P5; [done|]. by apply (proj2 Hs1). }
  destruct (x_map (sd_x s) !! lba) as [r|] eqn:Er; last first.
  { destruct (fill_ok fuel b s1 content Hc1 Hlt Hkey Hrdy1 Hop Hwf) as (s' & Hrun & Hpost).
    eexists s', _. split; [exact Hrun|]. split; [|by apply Hpre]. split; [apply length_area_read|].
    intros _ d Hd. apply (content_none _ _ _ _ Hc) in Er. fold lba in Hd. congruence. }
  destruct (content !! lba) as [d|] eqn:Ed; [|apply (content_none _ _ _ _ Hc) in Ed; congruence].
  assert (x_map (sd_x s1) !! lba = Some r) as Er1 by congruence.
  change (sb_cur_sector s1 / SECTORS_PER_BLOCK) with (sb_filled s1).
  assert ((pba r <? sb_cur_segment s1 * BLOCKS_PER_SEGMENT) || (sb_cur_segment s1 * BLOCKS_PER_SEGMENT + sb_filled s1 <=? pba r)
    = negb (in_segbuf s1 (pba r))) as ->.
  { rewrite /in_segbuf. zbool; simpl; done || lia. }
  change (Z.to_nat DATA_BLOCK_SIZE) with block_bytes. destruct (in_segbuf s1 (pba r)) eqn:Ein; cbn [negb].
  - change ((pba r - sb_cur_segment s1 * BLOCKS_PER_SEGMENT) * DATA_BLOCK_SIZE) with (slot_of s1 (pba r)).
    destruct (modify_ok b s1 content r d Hc1 Hlt Hkey (write_ready_room _ _ _ Hrdy1) Hop Hwf Er1 Ed Ein) as (ct & m & x' & He & Hput & Hpost).
    cbn zeta. rewrite He. cbn [set_bufs sd_x]. fold lba in Hput. rewrite Hput. eexists _, d. split; [reflexivity|]. split; [|by apply Hpre].
    pose proof (di_block _ _ _ Hc1 _ _ _ Er1 Ed) as (_ & _ & _ & W4 & _). split; [done|]. intros _ d' Hd'. fold lba in Hd'. congruence.
  - change (sb_cur_sector s * SECTOR_SIZE) with (sb_cur_sector s1 * SECTOR_SIZE). set (slot := sb_cur_sector s1 * SECTOR_SIZE).
    pose proof (di_block _ _ _ Hc1 _ _ _ Er1 Ed) as (_ & _ & _ & W4 & W5 & _).
    pose proof (read_blocks_ok s1 (pba r) 1 (sb_buffer s1) slot 0 ltac:(lia)) as Hrd. rewrite Z.mul_0_l !Z.add_0_r in Hrd.
    rewrite Hrd (decrypt_encrypt _ _ _ _ _ _ W5). set (rb := sworndisk_read_blocks _ _ _ _ _) in *.
    set (s2 := set_bufs (area_write slot d rb) (sb_pipe s1) s1).
    assert (core s2 content) as Hc2.
    { apply scratch_core; [done|done|]. intros i Hi. fold slot in Hi. rewrite area_write_out; [|lia].
      rewrite /rb /sworndisk_read_blocks. change (Z.to_nat 1) with 1%nat. cbn [segbuf_query_encrypted_blocks].
      change DATA_BLOCK_SIZE with 4096. rewrite /segbuf_query_encrypted_block. change DATA_BLOCK_SIZE with 4096.
      destruct (_ || _); rewrite ?area_copy_outside //; lia. }
    destruct (fill_ok fuel b s2 content Hc2 Hlt Hkey Hrdy1 Hop Hwf) as (s' & Hrun & [P1 P2 P3 P4 P5]).
    eexists s', _. split; [exact Hrun|]. split; [|by apply Hpre].
    assert (area_read (sb_cur_sector s2 * SECTOR_SIZE) block_bytes (sb_buffer s2) = d) as ->.
    { change (area_read slot block_bytes (area_write slot d rb) = d). rewrite -W4. apply area_read_write_eq. }
    split; [done|]. intros _ d' Hd'. fold lba in Hd'. congruence.
Qed.

Lemma do_write_ok fuel b s content :
  dp_inv NR_SEGMENT s content -> x_key (bio_get_block_address b) -> write_ready fuel (bio_get_block_address b) s -> bi_op b = REQ_OP_WRITE -> bio_wf b ->
  exists s' base, sworndisk_do_write NR_SEGMENT garbage_plain garbage_memory garbage_lba garbage_record fuel b s = Some s' /\
    write_base content b base /\
    dp_inv NR_SEGMENT s' (<[bio_get_block_address b := splice (bio_off b) (bi_payload b) base]> content) /\
    (sa_nr_valid_segment s < NR_SEGMENT - 17 -> sd_position s' <= sd_position s + 1 /\ forall n, x_room (S n) (sd_x s) -> x_room n (sd_x s')).
Proof.
  intros (Hc & Hpf & Hlt) Hkey Hrdy Hop Hwf.
  destruct (push_bio_ok fuel b s content Hc Hlt Hkey Hrdy Hop Hwf) as (s1 & base & Hrun & Hbase & [Hc1 Hlt1 Hpf1 Hpos Hrm]).
  rewrite /sworndisk_do_write. fold (alloc fuel). rewrite Hrun. eexists _, base. split; [reflexivity|]. split; [done|].
  split; [|intros Hn; split; [by apply Hpos|by intros n; apply Hrm]].
  split; [split; try apply Hc1|]. split; [|exact Hlt1].
  destruct Hpf as (Hn & _). rewrite /prefetch_ok. cbn [set_prefetcher sd_prefetcher bio_prefetcher_clear pf_nr_fetch pf_begin pf_end].
  rewrite Hpf1. split; [done|]. split; [lia|]. split; [rewrite /MAX_NR_FETCH; lia|]. intros. lia.
Qed.
End write_path.
