(* ===== verification/DataPathSpec.v ===== *)
(** * What the data path promises

    Reads return what was written last, through the segment buffer, the device
    and the prefetcher; cleaning keeps every block; a run of requests refines an
    array of blocks.  A disk with its tables in memory shows that the laws the
    data path is verified against can be met. *)
From S2P Require Import Prelude Codec BlockManager DiskStructs Crypto BitNode Superblock SegValidator Dst Area Bio BitFile BitFileSpec Segment DataPath Cleaning Threaded ThreadedGc WritePath.

Section data_path_spec.
Context {X : Type} {ix : LsmIndex X} {dm : DataMeta X} {dv : DataView X} {gcm : Gcm} {gcm_ok : GcmOk} {rng : Rng} {rng_ok : RngOk}.
Context (NR_SEGMENT : Z) {ok : DataPathOk X NR_SEGMENT}.
Context (garbage_plain : list byte -> list byte) (garbage_memory : area) (garbage_lba : Z) (garbage_record : record).
Implicit Types (s : sworndisk X) (x : X).

(** ** Runs of requests *)

(** What a read of the contents gives. *)
Definition read_payload (content : gmap Z (list byte)) (b : bio) : list byte :=
  match content !! bio_get_block_address b with
  | Some data => slice (bio_off b) (length (bi_payload b)) data
  | None => bi_payload b
  end.

(** The requests on an array of blocks, with what the reads return.  The rest
    of a block that is written for the first time in part is not determined. *)
Inductive block_run : list bio -> gmap Z (list byte) -> list (list byte) -> gmap Z (list byte) -> Prop :=
| Run_nil content : block_run [] content [] content
| Run_read b bs content outs content' :
    bi_op b = REQ_OP_READ -> block_run bs content outs content' ->
    block_run (b :: bs) content (read_payload content b :: outs) content'
| Run_write b bs content base outs content' :
    bi_op b = REQ_OP_WRITE -> write_base content b base ->
    block_run bs (<[bio_get_block_address b := splice (bio_off b) (bi_payload b) base]> content) outs content' ->
    block_run (b :: bs) content outs content'.

(** The same requests on the disk. *)
Fixpoint disk_run (fuel : nat) (bs : list bio) s : option (list (list byte) * sworndisk X) :=
  match bs with
  | [] => Some ([], s)
  | b :: bs =>
      match bi_op b with
      | REQ_OP_READ =>
          let '(b', s) := sworndisk_do_read NR_SEGMENT garbage_memory b s in
          (fun r => (bi_payload b' :: r.1, r.2)) <$> disk_run fuel bs s
      | REQ_OP_WRITE =>
          sworndisk_do_write NR_SEGMENT garbage_plain garbage_memory garbage_lba garbage_record fuel b s ≫= disk_run fuel bs
      | REQ_OP_OTHER => None
      end
  end.

Definition is_write (b : bio) : bool := match bi_op b with REQ_OP_WRITE => true | _ => false end.
Definition nr_writes (bs : list bio) : Z := count_true (is_write <$> bs).
Definition req_ok (b : bio) : Prop := bi_op b <> REQ_OP_OTHER /\ bio_wf b /\ x_key (bio_get_block_address b).

(** What a run without cleaning leaves: the contents, and as much less room. *)
Record run_post s s' (content' : gmap Z (list byte)) (writes : Z) : Prop := {
  rp_inv : dp_inv NR_SEGMENT s' content';
  rp_position : sd_position s' <= sd_position s + writes;
  rp_room n : x_room (n + Z.to_nat writes) (sd_x s) -> x_room n (sd_x s')
}.

Lemma run_post_refl s content : dp_inv NR_SEGMENT s content -> run_post s s content 0.
Proof. intros Hi. split; [done|lia|]. intros n. by rewrite Nat.add_0_r. Qed.
Lemma run_post_trans s s1 s2 c1 c2 n1 n2 : 0 <= n1 -> 0 <= n2 -> run_post s s1 c1 n1 -> run_post s1 s2 c2 n2 -> run_post s s2 c2 (n1 + n2).
Proof.
  intros H1 H2 [I1 P1 R1] [I2 P2 R2]. split; [done|lia|]. intros n Hn. apply R2, R1. by replace (n + Z.to_nat n2 + Z.to_nat n1)%nat with (n + Z.to_nat (n1 + n2))%nat by lia.
Qed.

(** One request. *)
Lemma run_read s content b : dp_inv NR_SEGMENT s content -> bi_op b = REQ_OP_READ -> req_ok b ->
  let '(b', s') := sworndisk_do_read NR_SEGMENT garbage_memory b s in
  bi_payload b' = read_payload content b /\ run_post s s' content 0.
Proof.
  intros Hi Hop (_ & Hwf & Hkey). pose proof (do_read_ok NR_SEGMENT garbage_memory s content b Hi Hop Hwf Hkey) as Hr.
  destruct (sworndisk_do_read NR_SEGMENT garbage_memory b s) as [b' s1]. destruct Hr as (Hi1 & (Hsame & Hn & Hc) & Hp).
  split; [done|]. split; [done|rewrite /sd_position Hn /sb_filled Hc; lia|]. intros n. rewrite Nat.add_0_r. apply (proj2 Hsame).
Qed.
Lemma run_write fuel s content b : dp_inv NR_SEGMENT s content -> 16 < NR_SEGMENT -> bi_op b = REQ_OP_WRITE -> req_ok b ->
  sd_position s + 1 <= (NR_SEGMENT - 17) * 1024 -> x_room 1 (sd_x s) ->
  exists s' base, sworndisk_do_write NR_SEGMENT garbage_plain garbage_memory garbage_lba garbage_record fuel b s = Some s' /\ write_base content b base /\
    run_post s s' (<[bio_get_block_address b := splice (bio_off b) (bi_payload b) base]> content) 1.
Proof.
  intros Hi HN Hop (_ & Hwf & Hkey) Hpos Hroom. assert (sa_nr_valid_segment s < NR_SEGMENT - 17) as Hrel.
  { destruct Hi as (Hc & _). destruct (di_cursor _ _ _ Hc) as (_ & Hsec & _). rewrite /sd_position in Hpos.
    pose proof (Z.div_pos (sb_cur_sector s) 8 ltac:(lia) ltac:(lia)). change (sb_filled s) with (sb_cur_sector s / 8) in Hpos. lia. }
  destruct (do_write_ok NR_SEGMENT garbage_plain garbage_memory garbage_lba garbage_record fuel b s content Hi Hkey) as (s1 & base & Hrun & Hb & Hi1 & Hpost); try done.
  { split; [done|]. by left. }
  destruct (Hpost Hrel) as [Hpos1 Hroom1]. exists s1, base. split; [done|]. split; [done|]. split; [done|done|].
  intros n Hn. apply Hroom1. by rewrite Nat.add_1_r in Hn.
Qed.

Lemma nr_writes_cons b bs : nr_writes (b :: bs) = (if is_write b then 1 else 0) + nr_writes bs.
Proof. by rewrite /nr_writes fmap_cons count_true_cons. Qed.
Lemma nr_writes_pos bs : 0 <= nr_writes bs.
Proof. apply count_true_bound. Qed.

Lemma disk_run_ok fuel bs s content :
  dp_inv NR_SEGMENT s content -> 16 < NR_SEGMENT -> Forall req_ok bs -> sd_position s + nr_writes bs <= (NR_SEGMENT - 17) * 1024 ->
  x_room (Z.to_nat (nr_writes bs)) (sd_x s) ->
  exists outs s' content', disk_run fuel bs s = Some (outs, s') /\ block_run bs content outs content' /\ run_post s s' content' (nr_writes bs).
Proof.
  revert s content. induction bs as [|b bs IH] => s content Hi HN.
  { intros _ _ _. eexists [], s, content. split; [done|]. split; [constructor|by apply run_post_refl]. }
  intros [Hreq Hbs]%Forall_cons. pose proof (nr_writes_pos bs) as Hnb. rewrite nr_writes_cons /is_write. cbn [disk_run]. intros Hpos Hroom.
  destruct (bi_op b) eqn:Eop; [| |by destruct Hreq].
  - pose proof (run_read s content b Hi Eop Hreq) as Hr. destruct (sworndisk_do_read NR_SEGMENT garbage_memory b s) as [b' s1]. destruct Hr as (Hp & Hr).
    destruct (IH s1 content (rp_inv _ _ _ _ Hr) HN Hbs) as (outs & s' & content' & -> & Hrun & Hr').
    + pose proof (rp_position _ _ _ _ Hr). lia.
    + apply (rp_room _ _ _ _ Hr). by rewrite Nat.add_0_r.
    + eexists _, s', content'. split; [reflexivity|]. split; [cbn [fst]; rewrite Hp; by constructor|]. by eapply run_post_trans.
  - destruct (run_write fuel s content b Hi HN Eop Hreq) as (s1 & base & -> & Hb & Hr); [lia|eapply x_room_le; [|exact Hroom]; lia|]. cbn [mbind option_bind].
    destruct (IH s1 _ (rp_inv _ _ _ _ Hr) HN Hbs) as (outs & s' & content' & Hrun' & Hrun & Hr').
    + pose proof (rp_position _ _ _ _ Hr). lia.
    + apply (rp_room _ _ _ _ Hr). by replace (Z.to_nat (nr_writes bs) + Z.to_nat 1)%nat with (Z.to_nat (1 + nr_writes bs)) by lia.
    + eexists outs, s', content'. split; [done|]. split; [by econstructor|]. by eapply run_post_trans.
Qed.

(** C7: any run of read and write requests, as long as no segment has to be
    cleaned and the index takes the records, is a run on an array of blocks
    with the same answers. *)
Theorem sworndisk_refines_blocks fuel bs s content :
  dp_inv NR_SEGMENT s content -> 16 < NR_SEGMENT -> Forall req_ok bs -> sd_position s + nr_writes bs <= (NR_SEGMENT - 17) * 1024 ->
  x_room (Z.to_nat (nr_writes bs)) (sd_x s) ->
  exists outs s' content', disk_run fuel bs s = Some (outs, s') /\ block_run bs content outs content' /\ dp_inv NR_SEGMENT s' content'.
Proof.
  intros H1 H2 H3 H4 H5. destruct (disk_run_ok fuel bs s content H1 H2 H3 H4 H5) as (outs & s' & content' & Hrun & Hb & Hp).
  exists outs, s', content'. split; [done|]. split; [done|apply Hp].
Qed.

(** C5: the foreground cleaner terminates and keeps every block: whenever the
    victims that are at most three quarters full bring the space of a segment
    and a segment is free, each logical block still has a record under which
    its stored ciphertext decrypts to its data, no block appears or vanishes,
    and not more segments are in use than before. *)
Theorem sa_foreground_gc_keeps fuel W s content :
  dp_core NR_SEGMENT s content -> sb_cur_sector s < SECTOES_PER_SEGMENT -> sb_cur_segment s ∉ x_victims (sd_x s) ->
  sa_nr_valid_segment s < NR_SEGMENT -> gc_worth (sd_x s) 0 W -> NR_SEGMENT < Z.of_nat fuel -> x_room (gc_need 0) (sd_x s) ->
  exists s', sa_foreground_gc garbage_memory garbage_lba garbage_record
      (segbuf_push_block NR_SEGMENT (sa_alloc NR_SEGMENT garbage_memory garbage_lba garbage_record 1 fuel)) fuel s = Some s' /\
    dp_core NR_SEGMENT s' content /\ dom (x_map (sd_x s')) = dom (x_map (sd_x s)) /\
    (forall lba data, content !! lba = Some data ->
       exists r, x_map (sd_x s') !! lba = Some r /\ decrypt (stored s' (pba r)) (key r) (iv r) (mac r) (pba r) = Ok data) /\
    sa_nr_valid_segment s' <= sa_nr_valid_segment s.
Proof.
  intros Hc Hlt Hcur Hnr HW Hf Hroom. rewrite -(Nat.add_0_r (gc_need 0)) in Hroom.
  destruct (sa_foreground_gc_ok NR_SEGMENT garbage_memory garbage_lba garbage_record 0 fuel W s content 0 Hc Hlt Hcur Hnr HW Hf Hroom)
    as (s' & Hrun & Hc' & _ & _ & Hn & _).
  exists s'. split; [exact Hrun|]. split; [done|]. split; [by rewrite -(di_dom _ _ _ Hc) -(di_dom _ _ _ Hc')|]. split; [|done].
  intros lba data Hd. destruct (content_record _ _ _ _ _ Hc' Hd) as (r & Hr & _ & _ & _ & _ & Henc & _). exists r. split; [done|].
  exact (decrypt_encrypt _ _ _ _ _ _ Henc).
Qed.

(** A read request inside one block gets
    the bytes of the block's current data, wherever it is stored, and leaves
    the payload alone when the block was never written; no contents change. *)
Theorem sworndisk_read_returns_content s content b :
  dp_inv NR_SEGMENT s content -> bi_op b = REQ_OP_READ -> bio_wf b -> x_key (bio_get_block_address b) ->
  let '(b', s') := sworndisk_do_read NR_SEGMENT garbage_memory b s in
  dp_inv NR_SEGMENT s' content /\
  bi_payload b' = match content !! bio_get_block_address b with
                  | Some data => slice (bio_off b) (length (bi_payload b)) data
                  | None => bi_payload b
                  end.
Proof.
  intros H1 H2 H3 H4. pose proof (do_read_ok NR_SEGMENT garbage_memory s content b H1 H2 H3 H4) as Hr.
  destruct (sworndisk_do_read NR_SEGMENT garbage_memory b s) as [b' s']. by destruct Hr as (? & _ & ?).
Qed.

(** C6: a write request, whole block or part of one, is seen by the next read
    of that block, and reads of other blocks see what they saw before. This
    holds on a disk of more than 16 segments that keeps its invariant, in each
    of the situations of [write_ready]: fewer than N - 17 segments are in use
    and the index takes one more record (no cleaning); or two segments are
    free, there are victims in use, each at most three quarters full, whose
    invalid blocks make up a whole segment, and the index takes the record of
    the write and the 3840 the cleaner may renew; or threaded logging is on,
    the index takes one more record, and the segment buffer's own segment is no
    victim or one with more valid blocks than another. Outside of them blocks
    can be lost ([gc_frees_live_segment], [threaded_write_lost],
    [segbuf_reuses_segment_when_full]). *)
Theorem sworndisk_write_then_read fuel s content w r :
  dp_inv NR_SEGMENT s content -> write_ready NR_SEGMENT fuel (bio_get_block_address w) s ->
  bi_op w = REQ_OP_WRITE -> bio_wf w -> x_key (bio_get_block_address w) ->
  bi_op r = REQ_OP_READ -> bio_wf r -> x_key (bio_get_block_address r) ->
  exists s1 base, sworndisk_do_write NR_SEGMENT garbage_plain garbage_memory garbage_lba garbage_record fuel w s = Some s1 /\
    write_base content w base /\
    bi_payload (sworndisk_do_read NR_SEGMENT garbage_memory r s1).1 =
      if decide (bio_get_block_address r = bio_get_block_address w)
      then slice (bio_off r) (length (bi_payload r)) (splice (bio_off w) (bi_payload w) base)
      else match content !! bio_get_block_address r with
           | Some data => slice (bio_off r) (length (bi_payload r)) data
           | None => bi_payload r
           end.
Proof.
  intros Hi Hrdy Hw1 Hw2 Hw3 Hr1 Hr2 Hr3.
  destruct (do_write_ok NR_SEGMENT garbage_plain garbage_memory garbage_lba garbage_record fuel w s content Hi Hw3 Hrdy Hw1 Hw2)
    as (s1 & base & Hrun & Hbase & Hi1 & _).
  exists s1, base. split; [done|]. split; [done|].
  pose proof (do_read_ok NR_SEGMENT garbage_memory s1 _ r Hi1 Hr1 Hr2 Hr3) as Hrd.
  destruct (sworndisk_do_read NR_SEGMENT garbage_memory r s1) as [r' s2]. destruct Hrd as (_ & _ & Hrd). cbn [fst]. rewrite Hrd lookup_insert.
  case_decide as Hd1; case_decide as Hd2; done || congruence.
Qed.

(** C25: the prefetcher returns the stored block,
    whether it has it cached or reads ahead; what it caches stays equal to
    what is stored and within its buffer of [MAX_NR_FETCH] blocks. *)
Theorem bio_prefetcher_coherent s blkaddr :
  prefetch_ok s -> 0 <= blkaddr < NR_SEGMENT * BLOCKS_PER_SEGMENT -> NR_SEGMENT * SECTOES_PER_SEGMENT <= 2 ^ 32 ->
  let '(ct, s') := bio_prefetcher_get NR_SEGMENT blkaddr s in ct = stored s blkaddr /\ prefetch_ok s'.
Proof.
  intros H1 H2 H3. pose proof (prefetcher_get_ok NR_SEGMENT s blkaddr H1 H2 H3) as Hg.
  destruct (bio_prefetcher_get NR_SEGMENT blkaddr s) as [ct s']. by destruct Hg as (? & ? & _).
Qed.

(** C39: when the segment buffer fills up and no
    segment is free, the failure of the allocator is ignored: the buffer
    starts over in the segment it has just written, whose blocks are live. *)
Theorem segbuf_reuses_segment_when_full fuel s content lba data :
  dp_core NR_SEGMENT s content -> sb_cur_sector s = SECTOES_PER_SEGMENT - SECTORS_PER_BLOCK -> x_key lba -> x_room 1 (sd_x s) ->
  length data = block_bytes -> sworndisk_should_threaded_logging NR_SEGMENT s = false ->
  (forall i, 0 <= i < NR_SEGMENT -> x_used (sd_x s) i = true) ->
  exists s' r, segbuf_push_block NR_SEGMENT (sa_alloc NR_SEGMENT garbage_memory garbage_lba garbage_record sa_alloc_depth fuel) lba data s = Some s' /\
    x_map (sd_x s') !! lba = Some r /\ pba r / BLOCKS_PER_SEGMENT = sb_cur_segment s /\
    next_pba s' = sb_cur_segment s * BLOCKS_PER_SEGMENT.
Proof.
  intros Hc Hsec Hkey Hroom Hl Hth Hall. change (SECTOES_PER_SEGMENT - SECTORS_PER_BLOCK) with 8184 in Hsec.
  destruct (push_block_ok NR_SEGMENT (sa_alloc NR_SEGMENT garbage_memory garbage_lba garbage_record sa_alloc_depth fuel) lba data s content Hc
    ltac:(change SECTOES_PER_SEGMENT with 8192; lia) Hkey Hroom Hl Hth) as (s1 & [Hc1 Hs1 Hsg _ _ _ _ Hu1 _ _ (r & Hr & Hp) _] & ->).
  rewrite Hs1 Hsec. change (SECTOES_PER_SEGMENT <=? 8184 + 8) with true. cbn iota. rewrite /sa_alloc_depth. cbn [sa_alloc].
  change (sd_x (set_cursor (sb_cur_segment s1) 0 (segbuf_flush_bios s1))) with (sd_x s1).
  pose proof (sv_next_ok (sd_x s1) (di_x _ _ _ Hc1)) as Hnx. destruct (sv_next (sd_x s1)) as [[seg|e] x2].
  { destruct Hnx as (Hseg & Hf & _). rewrite Hu1 Hall // in Hf. }
  destruct Hnx as [[[_ Hm2 _ _ _ _] _] _]. destruct (next_pba_eq NR_SEGMENT s (di_cursor _ _ _ Hc)) as [Hnp _]. rewrite Hsec in Hnp. change (8184 / 8) with 1023 in Hnp.
  eexists _, r. split; [reflexivity|]. split; [cbn [set_x sd_x snd]; by rewrite Hm2 Hr lookup_insert_eq|]. change BLOCKS_PER_SEGMENT with 1024.
  split; [apply seg_of; lia|]. rewrite /next_pba. cbn [snd set_x set_cursor sb_cur_segment sb_cur_sector]. rewrite Hsg.
  change SECTOES_PER_SEGMENT with (1024 * 8). change SECTORS_PER_BLOCK with 8. rewrite Z.add_0_r Z.mul_assoc Z.div_mul //.
Qed.

(** C38: with threaded logging the block goes to the best victim, which may be
    the segment the buffer stands for.  Its free blocks are ones the buffer
    already holds, so a write of a whole block is lost: the next read of it
    returns the bytes the buffer held at that place before, and writing the
    segment out replaces the block by them. *)
Theorem threaded_write_lost fuel s content w r v :
  dp_inv NR_SEGMENT s content -> x_room 1 (sd_x s) -> sworndisk_should_threaded_logging NR_SEGMENT s = true ->
  bi_op w = REQ_OP_WRITE -> bio_wf w -> bio_sectors w = SECTORS_PER_BLOCK -> x_key (bio_get_block_address w) ->
  bi_op r = REQ_OP_READ -> bio_wf r -> bio_get_block_address r = bio_get_block_address w ->
  ds_peek_victim (returned (bio_get_block_address w) (sd_x s)) = Some v -> vi_segno v = sb_cur_segment s ->
  exists s1 p, sworndisk_do_write NR_SEGMENT garbage_plain garbage_memory garbage_lba garbage_record fuel w s = Some s1 /\
    in_segbuf s p = true /\
    bi_payload (sworndisk_do_read NR_SEGMENT garbage_memory r s1).1 =
      slice (bio_off r) (length (bi_payload r)) (area_read (slot_of s p) block_bytes (sb_buffer s)) /\
    area_read (p * DATA_BLOCK_SIZE) block_bytes (sd_disk (segbuf_flush_bios s1)) = area_read (slot_of s p) block_bytes (sb_pipe s).
Proof.
  intros (Hc & _ & Hlt) Hroom Hth Hw1 Hw2 Hw3 Hkey Hr1 Hr2 Haddr Hv Hown.
  destruct (filled_slot NR_SEGMENT w s content Hc Hlt Hw1 Hw2) as (Hc' & Hfill). cbn zeta in Hc', Hfill.
  rewrite /sworndisk_do_write /segbuf_push_bio (proj2 (Z.leb_le SECTORS_PER_BLOCK _)); [|lia].
  set (buffer := bio_get_data w _ _ _) in *. set (s0 := set_bufs buffer (sb_pipe s) s) in *.
  set (data := area_read (sb_cur_sector s * SECTOR_SIZE) (Z.to_nat DATA_BLOCK_SIZE) buffer).
  destruct (push_block_threaded NR_SEGMENT (sa_alloc NR_SEGMENT garbage_memory garbage_lba garbage_record sa_alloc_depth fuel)
    (bio_get_block_address w) data s0 content Hc' Hkey Hroom)
    as (v' & p & x & n & ct & rc & vs & Hv' & Hpl & Hse & _ & _ & Hrun); [apply length_area_read|exact Hth|].
  change (sd_x s0) with (sd_x s) in Hv'. rewrite Hv in Hv'. injection Hv' as <-.
  pose proof (own_segment_buffered NR_SEGMENT s0 content _ v p Hc' Hpl Hown) as Hin. destruct Hse as [[Hx Hm _ _ _ _] _ _ _ Hp _].
  destruct (ix_search_ok x (bio_get_block_address r) Hx ltac:(by rewrite Haddr)) as (x' & Hix & _). rewrite Hm Haddr lookup_insert_eq -Haddr in Hix.
  pose proof (di_nr _ _ _ Hc) as [_ Hnr]. eexists _, p. split; [exact (f_equal (fmap _) Hrun)|]. split; [exact Hin|].
  pose proof (threaded_hidden NR_SEGMENT garbage_memory s0 x n p data ct r rc x' (bio_prefetcher_clear (sd_prefetcher s)) (di_cursor _ _ _ Hc') Hnr
    (tp_range _ _ _ _ _ Hpl) Hin Hr1 Hr2 Hp Hix) as [Hrd Hfl].
  split; [|exact Hfl]. etransitivity; [exact Hrd|]. f_equal. by apply Hfill.
Qed.

(** C37: cleaning while threaded logging is on gives a segment back with its
    blocks in it.  When the only victim [V] is more than three quarters full,
    each block the cleaner takes out of [V] is logged into a free place of the
    best victim, which is [V]: afterwards every logical block of [V] is still in
    [V], and [V] counts as free. *)
Theorem gc_frees_live_segment fuel V s content :
  dp_core NR_SEGMENT s content -> x_victims (sd_x s) = {[V]} -> sb_cur_segment s <> V ->
  768 < seg_count (x_valid (sd_x s)) V < 1024 -> u64 (GC_THREADHOLD NR_SEGMENT - THREAD_LOGGING_AHEAD) <= sa_nr_valid_segment s ->
  x_room 1024 (sd_x s) -> (2 <= fuel)%nat ->
  exists s', sa_foreground_gc garbage_memory garbage_lba garbage_record
      (segbuf_push_block NR_SEGMENT (sa_alloc NR_SEGMENT garbage_memory garbage_lba garbage_record 1 fuel)) fuel s = Some s' /\
    x_used (sd_x s') V = false /\ (exists lba r, x_map (sd_x s') !! lba = Some r /\ pba r / 1024 = V) /\
    forall lba r, x_map (sd_x s) !! lba = Some r -> pba r / 1024 = V -> exists r', x_map (sd_x s') !! lba = Some r' /\ pba r' / 1024 = V.
Proof.
  intros Hc Hv Hcur Hf Hn Hroom Hfuel. assert (tg_state NR_SEGMENT V s content) as Hg by done.
  destruct (tg_gc NR_SEGMENT garbage_memory garbage_lba garbage_record 1 fuel V s content Hg Hroom Hfuel) as (s' & Hrun & Hst & Hu).
  exists s'. split; [exact Hrun|]. split; [done|]. split; [|exact Hst].
  destruct (tg_block NR_SEGMENT V s content Hg) as (lba & r & Hr & HV). destruct (Hst lba r Hr HV) as (r' & ?). by exists lba, r'.
Qed.
End data_path_spec.

(** ** A disk of 32 segments with the index and the tables in memory *)
Module MapDisk.
Record st : Type := { md_map : gmap Z record; md_used : list bool; md_valid : gset Z; md_lba : gmap Z Z; md_victims : gset Z }.
Definition set_map m (x : st) : st :=
  {| md_map := m; md_used := md_used x; md_valid := md_valid x; md_lba := md_lba x; md_victims := md_victims x |}.
Definition set_used u (x : st) : st :=
  {| md_map := md_map x; md_used := u; md_valid := md_valid x; md_lba := md_lba x; md_victims := md_victims x |}.
Definition set_valid v vs (x : st) : st :=
  {| md_map := md_map x; md_used := md_used x; md_valid := v; md_lba := md_lba x; md_victims := vs |}.
Definition set_lba l (x : st) : st :=
  {| md_map := md_map x; md_used := md_used x; md_valid := md_valid x; md_lba := l; md_victims := md_victims x |}.
Definition first_free (l : list bool) : option nat := fst <$> list_find (fun b => b = false) l.
Definition valid_of (x : st) (b : Z) : bool := bool_decide (b ∈ md_valid x).
Definition used_of (x : st) (i : Z) : bool := (0 <=? i) && default false (md_used x !! Z.to_nat i).
Definition victim_of (x : st) (i : Z) : victim := victim_create i (seg_count (valid_of x) i) (seg_bits (valid_of x) i).
Definition cheapest (x : st) : option victim := rb_first (foldr rb_add [] (victim_of x <$> elements (md_victims x))).
Definition seg_blocks (seg : Z) : gset Z := list_to_set (seqZ (seg * BLOCKS_PER_SEGMENT) BLOCKS_PER_SEGMENT).

(** The segment of a block that is taken stays a victim until it is full. *)
Definition take_block (b : Z) (x : st) : st :=
  let seg := b / BLOCKS_PER_SEGMENT in
  let x := set_valid ({[b]} ∪ md_valid x) (md_victims x) x in
  set_valid (md_valid x) (if seg_count (valid_of x) seg <? BLOCKS_PER_SEGMENT then {[seg]} ∪ md_victims x else md_victims x ∖ {[seg]}) x.

#[export] Instance index : LsmIndex st := {|
  ix_search lba x := (match md_map x !! lba with Some r => Ok r | None => Err ENODATA end, x);
  ix_put lba r x := Some (set_map (<[lba := r]> (md_map x)) x)
|}.
#[export] Instance meta : DataMeta st := {|
  sv_next x := (match first_free (md_used x) with Some i => Ok (Z.of_nat i) | None => Err ENODATA end, x);
  sv_take seg x := (Ok tt, set_used (<[Z.to_nat seg := true]> (md_used x)) x);
  sv_test_and_return seg x := (Ok (used_of x seg), set_used (<[Z.to_nat seg := false]> (md_used x)) x);
  sv_count x := (Ok (count_true (md_used x)), x);
  ds_take_segment seg x := (Ok tt, set_valid (seg_blocks seg ∪ md_valid x) (md_victims x ∖ {[seg]}) x);
  ds_take_block b x := (Ok tt, take_block b x);
  ds_return_block b x := (Ok tt, set_valid (md_valid x ∖ {[b]}) ({[b / BLOCKS_PER_SEGMENT]} ∪ md_victims x) x);
  ds_victim_empty x := bool_decide (md_victims x = ∅);
  ds_peek_victim := cheapest;
  ds_remove_victim seg x := (Ok None, set_valid (md_valid x) (md_victims x ∖ {[seg]}) x);
  ds_threaded x := match cheapest x with Some v => BLOCKS_PER_SEGMENT / 4 * 3 <? vi_nr_valid_block v | None => false end;
  rt_set b lba x := (Ok tt, set_lba (<[b := lba]> (md_lba x)) x);
  rt_get b x := (Ok (default 0 (md_lba x !! b)), x)
|}.
#[export] Instance view : DataView st := {|
  x_inv x := length (md_used x) = 32%nat /\ forall i, i ∈ md_victims x -> 0 <= i < 32 /\ seg_count (valid_of x) i < BLOCKS_PER_SEGMENT;
  x_map := md_map;
  x_used := used_of;
  x_valid := valid_of;
  x_lba x b := default 0 (md_lba x !! b);
  x_victims := md_victims;
  x_key _ := True;
  x_room _ _ := True
|}.

Lemma cheapest_ok x :
  match cheapest x with
  | Some v => vi_segno v ∈ md_victims x /\ v = victim_of x (vi_segno v) /\
      forall i, i ∈ md_victims x -> vi_nr_valid_block v <= seg_count (valid_of x) i
  | None => md_victims x = ∅
  end.
Proof.
  rewrite /cheapest. set (l := victim_of x <$> elements (md_victims x)).
  assert (forall v, v ∈ foldr rb_add [] l <-> v ∈ l) as Hin.
  { intros v. induction l as [|y l IH]; [done|]. cbn [foldr]. by rewrite elem_of_rb_add elem_of_cons IH. }
  assert (StronglySorted victim_le (foldr rb_add [] l)) as Hs.
  { induction l as [|y l IH]; [constructor|]. cbn [foldr]. apply rb_add_sorted, IH.
    intros v. clear. induction l as [|z l IH]; [done|]. cbn [foldr]. by rewrite elem_of_rb_add elem_of_cons IH. }
  assert (forall i, i ∈ md_victims x -> victim_of x i ∈ foldr rb_add [] l) as Hl.
  { intros i Hi. apply Hin, list_elem_of_fmap. exists i. split; [done|]. by apply elem_of_elements. }
  destruct (foldr rb_add [] l) as [|v vs]; cbn [rb_first head].
  - apply set_eq => i. split; [|done]. intros Hi%Hl. by apply elem_of_nil in Hi.
  - assert (v ∈ l) as (i & -> & Hi%elem_of_elements)%list_elem_of_fmap by (apply Hin; left). split; [done|]. split; [done|].
    intros j Hj. apply StronglySorted_inv in Hs as [_ Hall]. specialize (Hl j Hj). apply elem_of_cons in Hl as [He|Hin'].
    + by rewrite -He.
    + exact (proj1 (Forall_forall _ _) Hall _ Hin').
Qed.

Lemma set_used_lookup u seg b x : length (md_used x) = 32%nat -> 0 <= seg < 32 -> u = <[Z.to_nat seg := b]> (md_used x) ->
  forall i, used_of (set_used u x) i = if i =? seg then b else used_of x i.
Proof.
  intros Hl Hs -> i. rewrite /used_of /set_used. cbn [md_used]. destruct (Z.leb_spec 0 i) as [Hi|Hi]; cbn [andb]; [|by rewrite (proj2 (Z.eqb_neq _ _)); [|lia]].
  destruct (Z.eqb_spec i seg) as [->|Hne]; [by rewrite list_lookup_insert_eq; [|lia]|]. rewrite list_lookup_insert_ne //. lia.
Qed.

Lemma elem_seg_blocks seg b : b ∈ seg_blocks seg <-> b / BLOCKS_PER_SEGMENT = seg.
Proof. rewrite /seg_blocks elem_of_list_to_set elem_of_seqZ. change BLOCKS_PER_SEGMENT with 1024. rewrite seg_of. lia. Qed.

(** The validity of one block [b] changes. *)
Lemma touched_victims b x x' : (forall i, i ∈ md_victims x -> 0 <= i < 32 /\ seg_count (valid_of x) i < BLOCKS_PER_SEGMENT) ->
  0 <= b < 32 * BLOCKS_PER_SEGMENT -> (forall b', b' <> b -> b' ∈ md_valid x' <-> b' ∈ md_valid x) ->
  (forall i, i ∈ md_victims x' -> i = b / 1024 \/ i ∈ md_victims x) -> (b / 1024 ∈ md_victims x' -> seg_count (valid_of x') (b / 1024) < 1024) ->
  forall i, i ∈ md_victims x' -> 0 <= i < 32 /\ seg_count (valid_of x') i < BLOCKS_PER_SEGMENT.
Proof.
  intros Hv Hb Hva Hvs Hown i Hi. change BLOCKS_PER_SEGMENT with 1024 in *. destruct (decide (i = b / 1024)) as [->|Hne].
  - split; [|by apply Hown]. split; [apply Z.div_pos; lia|apply Z.div_lt_upper_bound; lia].
  - destruct (Hvs i Hi) as [?|Hi']; [done|]. destruct (Hv i Hi') as [Hr Hc]. split; [done|].
    rewrite (seg_count_ext (valid_of x)) // => b' Hb'. apply bool_decide_ext, Hva. intros ->. by apply Hne.
Qed.

#[export] Instance ok : DataPathOk st 32.
Proof.
  split.
  - done.
  - intros x i [_ Hv] Hi. by apply Hv.
  - intros x lba Hx _. eexists. split; [reflexivity|done].
  - intros x lba r Hx _ _ _. eexists. split; [reflexivity|done].
  - intros x [Hl Hv]. cbn. rewrite /first_free. destruct (list_find _ (md_used x)) as [[i b]|] eqn:E; cbn.
    + apply list_find_Some in E as (Hi & -> & _). pose proof (lookup_lt_Some _ _ _ Hi) as Hlt. rewrite Hl in Hlt.
      split; [lia|]. split; [|done]. rewrite /used_of Nat2Z.id Hi. apply andb_false_r.
    + apply list_find_None in E. split; [done|]. intros i Hi. destruct (lookup_lt_is_Some_2 (md_used x) (Z.to_nat i)) as [b Hb]; [lia|].
      rewrite /used_of Hb (proj2 (Z.leb_le 0 i)); [|lia]. eapply Forall_lookup_1 in E; [|exact Hb]. by destruct b.
  - intros x seg [Hl Hv] Hs. eexists. split; [reflexivity|]. split; [|done]. split; try done; cbn.
    + split; [by rewrite length_insert|done].
    + intros i. by rewrite (set_used_lookup _ seg true x).
  - intros x seg [Hl Hv] Hs. eexists. split; [reflexivity|]. split; [|done]. split; try done; cbn.
    + split; [by rewrite length_insert|done].
    + intros i. rewrite (set_used_lookup _ seg false x); [|done..]. by destruct (i =? seg).
  - intros x [Hl Hv]. eexists. split; [|by apply x_same_refl]. cbn. do 2 f_equal. rewrite /nr_used. f_equal.
    apply list_eq => i. destruct (decide (i < 32)%nat).
    + rewrite list_lookup_fmap lookup_seqZ_lt; [|lia]. cbn. destruct (lookup_lt_is_Some_2 (md_used x) i) as [b Hb]; [lia|].
      rewrite /used_of Nat2Z.id Hb. by rewrite (proj2 (Z.leb_le 0 _)); [|lia].
    + rewrite (lookup_ge_None_2 (md_used x)); [|lia]. rewrite lookup_ge_None_2 //. rewrite length_fmap length_seqZ. lia.
  - intros x seg [Hl Hv] Hs _. eexists. split; [reflexivity|]. split; [|done]. split; try done; cbn.
    + split; [done|]. intros i [Hi Hne%not_elem_of_singleton]%elem_of_difference. destruct (Hv i Hi) as [Hr Hc]. split; [done|].
      rewrite (seg_count_ext (valid_of x)) // => b Hb. rewrite /valid_of. apply bool_decide_ext. cbn [md_valid]. rewrite elem_of_union elem_seg_blocks.
      change BLOCKS_PER_SEGMENT with 1024. split; [intros [?|?]; [congruence|done]|by right].
    + intros b. rewrite /valid_of. cbn [md_valid]. apply eq_iff_eq_true. rewrite orb_true_iff Z.eqb_eq !bool_decide_eq_true -elem_seg_blocks. apply elem_of_union.
  - intros x b [Hl Hv] Hb _. split; [|done]. split; try done; cbn.
    + split; [done|]. refine (touched_victims b x (set_valid (md_valid x ∖ {[b]}) ({[b / BLOCKS_PER_SEGMENT]} ∪ md_victims x) x) Hv Hb _ _ _).
      { intros b' Hne. cbn. rewrite elem_of_difference elem_of_singleton. naive_solver. }
      { intros i [->%elem_of_singleton|?]%elem_of_union; [by left|by right]. }
      intros Hin. apply seg_count_open, bool_decide_eq_false. cbn. set_solver.
    + intros b'. rewrite /valid_of. cbn [md_valid]. apply eq_iff_eq_true. rewrite andb_true_iff negb_true_iff Z.eqb_neq !bool_decide_eq_true. set_solver.
  - intros x Hx. cbn. pose proof (cheapest_ok x) as Hc. destruct (cheapest x) as [v|]; [|done]. destruct Hc as (H1 & H2 & H3).
    split; [done|]. split; [by rewrite H2|]. split; [by rewrite H2|done].
  - done.
  - done.
  - intros x seg [Hl Hv]. split; [|done]. split; try done; cbn. split; [done|]. intros i [Hi _]%elem_of_difference. by apply Hv.
  - intros x b lba Hx _ _. split; [|done]. split; try done. cbn. intros b'. rewrite lookup_insert.
    destruct (Z.eqb_spec b' b) as [->|Hne]; [by rewrite decide_True|]. by rewrite decide_False.
  - intros x b Hx _. eexists. split; [reflexivity|done].
  - intros x i [_ Hv] Hi. by apply Hv.
  - intros x b [Hl Hv] Hb _. exists (md_victims (take_block b x)). split.
    { rewrite /take_block. cbn. destruct (_ <? _); set_solver. }
    assert (forall b', valid_of (take_block b x) b' = (b' =? b) || valid_of x b') as Hva.
    { intros b'. rewrite /valid_of. cbn [take_block set_valid md_valid]. apply eq_iff_eq_true. rewrite orb_true_iff Z.eqb_eq !bool_decide_eq_true. set_solver. }
    split.
    { intros Hc. cbn [take_block set_valid md_victims]. rewrite (proj2 (Z.ltb_lt _ _)); [set_solver|]. rewrite -(seg_count_ext _ _ _ (fun b' _ => Hva b')) in Hc. exact Hc. }
    split; [|done]. split; try done.
    + split; [done|]. refine (touched_victims b x (take_block b x) Hv Hb _ _ _).
      { intros b' Hne. rewrite /take_block. cbn. rewrite elem_of_union elem_of_singleton. naive_solver. }
      all:
      rewrite /take_block; cbn [set_valid md_victims md_valid]; change BLOCKS_PER_SEGMENT with 1024;
      destruct (Z.ltb_spec (seg_count (valid_of (set_valid ({[b]} ∪ md_valid x) (md_victims x) x)) (b / 1024)) 1024) as [Hlt|Hge]; first [done|set_solver].
Qed.

(** A disk whose index is [m] and whose segment buffer is in segment 0 with [n]
    blocks filled; [valid] are the valid blocks of the other segments. *)
Definition disk_with (m : gmap Z record) (lba : gmap Z Z) (used : list bool) (valid victims : gset Z) (n : Z) (disk : area) : sworndisk st :=
  {| sd_x := {| md_map := m; md_used := used; md_valid := list_to_set (seqZ n (1024 - n)) ∪ valid; md_lba := lba; md_victims := victims |};
     sd_rng := 0; sd_disk := disk; sb_buffer := area_zero; sb_pipe := area_zero; sb_cur_segment := 0; sb_cur_sector := 8 * n;
     sa_nr_valid_segment := count_true used; sa_status := SEGMENT_ALLOCATING; sd_prefetcher := bio_prefetcher_init area_zero |}.

Lemma disk_with_valid m lba used valid victims n disk b :
  0 <= n <= 1024 -> x_valid (sd_x (disk_with m lba used valid victims n disk)) b = true <-> n <= b < 1024 \/ b ∈ valid.
Proof. intros Hn. cbn. rewrite /valid_of bool_decide_eq_true. cbn [md_valid]. rewrite elem_of_union elem_of_list_to_set elem_of_seqZ. apply or_iff_compat_r. lia. Qed.

Lemma nr_used_count m used valid lba vs : length used = 32%nat ->
  nr_used 32 (used_of {| md_map := m; md_used := used; md_valid := valid; md_lba := lba; md_victims := vs |}) = count_true used.
Proof.
  intros Hl. destruct (sv_count_ok (NR_SEGMENT := 32) {| md_map := m; md_used := used; md_valid := valid; md_lba := lba; md_victims := ∅ |}) as (x & He & _).
  { split; [done|set_solver]. }
  apply (f_equal fst) in He. cbn in He. by injection He as ->.
Qed.

Lemma blank_core {gcm : Gcm} used n :
  length used = 32%nat -> head used = Some true -> 0 <= n <= 1024 -> dp_core 32 (disk_with ∅ ∅ used ∅ ∅ n area_zero) ∅.
Proof.
  intros Hl Hh Hn. set (s := disk_with _ _ _ _ _ _ _).
  assert (forall b, in_slots s b <-> n <= b < 1024) as Hsl.
  { intros b. rewrite /in_slots. change (sb_cur_segment s) with 0. change (sb_filled s) with (8 * n / 8). by rewrite (Z.mul_comm 8 n) Z.div_mul. }
  assert (forall b, x_valid (sd_x s) b = true <-> in_slots s b) as Hv.
  { intros b. rewrite Hsl (disk_with_valid _ _ _ _ _ _ _ _ Hn). set_solver. }
  assert (used_of (sd_x s) 0 = true) as H0 by (rewrite /used_of; cbn; by destruct used; [|injection Hh as ->]).
  split; try done.
  - split; [done|]. split; [change SECTOES_PER_SEGMENT with 8192; cbn [s disk_with sb_cur_sector]; lia|]. split; [|done].
    change (8 * n mod 8 = 0). by rewrite Z.mul_comm Z.mod_mul.
  - intros b Hb. by apply Hv.
  - intros b _ Hvb. left. by apply Hv.
  - intros b Hb Hu. destruct (x_valid (sd_x s) b) eqn:E; [|done]. apply Hv, Hsl in E. exfalso.
    change BLOCKS_PER_SEGMENT with 1024 in Hu. rewrite Z.div_small in Hu; [|lia]. change (x_used (sd_x s) 0) with (used_of (sd_x s) 0) in Hu. congruence.
  - symmetry. by apply nr_used_count.
Qed.
End MapDisk.

Import ToyGcm ToyRng MapDisk.

Definition sample_disk : sworndisk MapDisk.st := disk_with ∅ ∅ (true :: replicate 31 false) ∅ ∅ 0 area_zero.
Definition sample_write : bio := {| bi_op := REQ_OP_WRITE; bi_sector := 16; bi_payload := replicate 4096 Byte.x41 |}.
Definition sample_read : bio := {| bi_op := REQ_OP_READ; bi_sector := 17; bi_payload := replicate 512 Byte.x00 |}.

Lemma sample_disk_inv : dp_inv 32 sample_disk ∅.
Proof.
  split; [apply blank_core; done|]. split; [|done].
  split; [vm_compute; split; congruence|]. split; [done|]. split; [vm_compute; congruence|]. intros b Hb. cbn in Hb. lia.
Qed.

Lemma sample_ready fuel lba : write_ready 32 fuel lba sample_disk.
Proof. split; [done|]. left. split; [vm_compute; reflexivity|done]. Qed.

Lemma sample_write_wf : bio_wf sample_write.
Proof. split; [reflexivity|]. split; [reflexivity|vm_compute; congruence]. Qed.
Lemma sample_read_wf : bio_wf sample_read.
Proof. split; [reflexivity|]. split; [reflexivity|vm_compute; congruence]. Qed.

Lemma sworndisk_read_returns_content_witness :
  bi_payload (sworndisk_do_read 32 area_zero sample_read sample_disk).1 = replicate 512 Byte.x00.
Proof.
  pose proof (sworndisk_read_returns_content 32 area_zero sample_disk ∅ sample_read sample_disk_inv eq_refl sample_read_wf I) as Hr.
  destruct (sworndisk_do_read 32 area_zero sample_read sample_disk) as [b s]. destruct Hr as [_ Hr]. exact Hr.
Defined.

Lemma sworndisk_refines_blocks_witness :
  exists outs s' content', disk_run 32 (fun l => l) area_zero 0 zero_record 0 [sample_read; sample_write; sample_read] sample_disk = Some (outs, s') /\
    block_run [sample_read; sample_write; sample_read] ∅ outs content'.
Proof.
  destruct (sworndisk_refines_blocks 32 (fun l => l) area_zero 0 zero_record 0 [sample_read; sample_write; sample_read] sample_disk ∅)
    as (outs & s' & content' & H1 & H2 & _).
  - exact sample_disk_inv.
  - reflexivity.
  - constructor; [split; [discriminate|split; [exact sample_read_wf|exact I]]|].
    constructor; [split; [discriminate|split; [exact sample_write_wf|exact I]]|].
    constructor; [split; [discriminate|split; [exact sample_read_wf|exact I]]|]. constructor.
  - vm_compute. discriminate.
  - exact I.
  - exists outs, s', content'. split; [exact H1|exact H2].
Defined.

Lemma bio_prefetcher_coherent_witness :
  let '(ct, s') := bio_prefetcher_get 32 5 sample_disk in ct = stored sample_disk 5 /\ prefetch_ok s'.
Proof.
  apply (bio_prefetcher_coherent 32 sample_disk 5); [apply sample_disk_inv|vm_compute; split; congruence|vm_compute; congruence].
Defined.

Lemma segbuf_reuses_segment_when_full_witness :
  exists s', segbuf_push_block 32 (sa_alloc 32 area_zero 0 zero_record sa_alloc_depth 0) 3 (replicate 4096 Byte.x41)
      (disk_with ∅ ∅ (replicate 32 true) ∅ ∅ 1023 area_zero) = Some s' /\ next_pba s' = 0.
Proof.
  destruct (segbuf_reuses_segment_when_full 32 area_zero 0 zero_record 0 (disk_with ∅ ∅ (replicate 32 true) ∅ ∅ 1023 area_zero) ∅ 3 (replicate 4096 Byte.x41))
    as (s' & r & Hrun & _ & _ & Hn).
  - apply blank_core; [reflexivity|reflexivity|lia].
  - reflexivity.
  - exact I.
  - exact I.
  - reflexivity.
  - reflexivity.
  - intros i Hi. cbn. rewrite /used_of. cbn [md_used]. rewrite lookup_replicate_2; [|lia]. rewrite (proj2 (Z.leb_le 0 i)); [reflexivity|lia].
  - exists s'. split; [exact Hrun|exact Hn].
Defined.

(** A disk with two segments of one valid block each, worth cleaning. *)
Section gc_sample.
Context {gcm : Gcm} {gcm_ok : GcmOk} {rng : Rng} {rng_ok : RngOk}.

Definition gc_block : list byte := replicate block_bytes Byte.x41.
Definition gc_sealed (b : Z) : list byte * list byte := encrypt gc_block (rng_bytes 0 AES_GCM_KEY_SIZE) (rng_bytes 1 AES_GCM_IV_SIZE) b.
Definition gc_record (b : Z) : record :=
  {| pba := b; mac := (gc_sealed b).2; key := rng_bytes 0 AES_GCM_KEY_SIZE; iv := rng_bytes 1 AES_GCM_IV_SIZE |}.
Definition gc_area : area :=
  area_write (1024 * DATA_BLOCK_SIZE) (gc_sealed 1024).1 (area_write (3072 * DATA_BLOCK_SIZE) (gc_sealed 3072).1 area_zero).
Definition gc_disk : sworndisk MapDisk.st :=
  disk_with (<[7 := gc_record 1024]> {[8 := gc_record 3072]}) (<[1024 := 7]> {[3072 := 8]}) ([true; true; false; true] ++ replicate 28 false)
    {[1024; 3072]} {[1; 3]} 0 gc_area.
Definition gc_content : gmap Z (list byte) := <[7 := gc_block]> {[8 := gc_block]}.

Lemma gc_lookup lba r : x_map (sd_x gc_disk) !! lba = Some r <-> lba = 7 /\ r = gc_record 1024 \/ lba = 8 /\ r = gc_record 3072.
Proof. cbn. rewrite lookup_insert_Some lookup_singleton_Some. naive_solver. Qed.

Lemma gc_valid b : x_valid (sd_x gc_disk) b = true <-> 0 <= b < 1024 \/ b = 1024 \/ b = 3072.
Proof.
  etransitivity; [apply disk_with_valid; lia|]. apply or_iff_compat_l. rewrite elem_of_union !elem_of_singleton. done.
Qed.

Lemma length_gc_sealed b : length (gc_sealed b).1 = block_bytes.
Proof. by rewrite /gc_sealed length_encrypt. Qed.

Lemma gc_stored b : b = 1024 \/ b = 3072 -> stored gc_disk b = (gc_sealed b).1.
Proof.
  intros Hb. rewrite /stored. assert (in_segbuf gc_disk b = false) as ->.
  { pose proof (in_segbuf_spec gc_disk b) as Hi. destruct (in_segbuf gc_disk b); [|done]. destruct (proj1 Hi eq_refl) as [_ Hlt].
    change (sb_cur_segment gc_disk * 1024 + sb_cur_sector gc_disk / 8) with 0 in Hlt. lia. }
  change (sd_disk gc_disk) with gc_area. rewrite /gc_area. change DATA_BLOCK_SIZE with 4096.
  destruct Hb as [->| ->]; [rewrite -{1}(length_gc_sealed 1024); apply area_read_write_eq|].
  rewrite area_read_write_ne; [|right; rewrite length_gc_sealed; change (Z.of_nat block_bytes) with 4096; lia].
  rewrite -{1}(length_gc_sealed 3072). apply area_read_write_eq.
Qed.

Lemma gc_holds b : b = 1024 \/ b = 3072 -> block_holds 32 gc_disk (gc_record b) gc_block.
Proof.
  intros Hb. split.
  { apply record_wf; [cbn; lia|apply length_encrypt_mac|apply rng_bytes_length|apply rng_bytes_length]. }
  cbn [gc_record pba]. split; [change BLOCKS_PER_SEGMENT with 1024; lia|]. split; [destruct Hb as [->| ->]; reflexivity|].
  split; [apply length_replicate|]. split; [rewrite (gc_stored b Hb); apply surjective_pairing|].
  split; [destruct Hb as [->| ->]; discriminate|]. intros Hi%in_segbuf_spec.
  change (sb_cur_segment gc_disk * 1024 + sb_cur_sector gc_disk / 8) with 0 in Hi. change (sb_cur_segment gc_disk) with 0 in Hi. lia.
Qed.

Lemma gc_seg_count i b : i = 1 /\ b = 1024 \/ i = 3 /\ b = 3072 -> seg_count (x_valid (sd_x gc_disk)) i = 1.
Proof.
  intros Hi. rewrite /seg_count (seg_bits_ext (fun b' => b' =? b)); [destruct Hi as [[-> ->]|[-> ->]]; vm_compute; reflexivity|].
  intros b' Hb'%seg_of. apply eq_iff_eq_true. etransitivity; [apply gc_valid|]. rewrite Z.eqb_eq. lia.
Qed.

Lemma gc_disk_core : dp_core 32 gc_disk gc_content.
Proof.
  assert (forall b, in_slots gc_disk b <-> 0 <= b < 1024) as Hsl by done.
  split.
  - done.
  - split; [reflexivity|]. intros i [He|He]%elem_of_union; apply elem_of_singleton in He as ->; (split; [lia|]).
    + rewrite (gc_seg_count 1 1024); [done|by left].
    + rewrite (gc_seg_count 3 3072); [done|by right].
  - split; [done|]. split; [done|]. split; reflexivity.
  - change (dom gc_content = dom (<[7 := gc_record 1024]> {[8 := gc_record 3072]} : gmap Z record)). by rewrite /gc_content !dom_insert_L.
  - intros lba r d [[-> ->]|[-> ->]]%gc_lookup; rewrite /gc_content.
    + rewrite lookup_insert_eq. intros [= <-]. apply gc_holds. by left.
    + rewrite lookup_insert_ne // lookup_singleton_eq. intros [= <-]. apply gc_holds. by right.
  - intros lba r [[-> ->]|[-> ->]]%gc_lookup; (split; [done|]; split; [|done]); apply gc_valid; cbn; lia.
  - intros b Hb%Hsl. apply gc_valid. by left.
  - intros b _ [Hb|Hb]%gc_valid; [left; by apply Hsl|right]. destruct Hb as [->| ->].
    + exists 7, (gc_record 1024). split; [apply gc_lookup; by left|done].
    + exists 8, (gc_record 3072). split; [apply gc_lookup; by right|done].
  - intros b _ Hu. apply not_true_is_false => E. change BLOCKS_PER_SEGMENT with 1024 in Hu.
    apply gc_valid in E as [Hb|[->| ->]]; [rewrite Z.div_small in Hu; [|lia]|..]; discriminate Hu.
  - symmetry. by apply nr_used_count.
Qed.

Lemma gc_victims : x_victims (sd_x gc_disk) = {[1; 3]}.
Proof. reflexivity. Qed.

Lemma gc_disk_worth : gc_worth (sd_x gc_disk) 0 [1; 3].
Proof.
  pose proof (gc_seg_count 1 1024 ltac:(lia)) as H1. pose proof (gc_seg_count 3 3072 ltac:(lia)) as H3.
  split; [apply NoDup_cons; split; [intros He%list_elem_of_singleton; discriminate He|apply NoDup_singleton]|]. split.
  - intros i [->|[->|[]%elem_of_nil]%elem_of_cons]%elem_of_cons.
    + rewrite gc_victims. split; [clear; set_solver|]. split; [reflexivity|lia].
    + rewrite gc_victims. split; [clear; set_solver|]. split; [reflexivity|lia].
  - cbn [gain foldr]. rewrite H1 H3. change (LEAST_CLEAN_SEGMENT_ONCE * BLOCKS_PER_SEGMENT) with 1024. lia.
Qed.
End gc_sample.

Lemma sa_foreground_gc_keeps_witness :
  exists s', sa_foreground_gc area_zero 0 zero_record
      (segbuf_push_block 32 (sa_alloc 32 area_zero 0 zero_record 1 33)) 33 gc_disk = Some s' /\ dp_core 32 s' gc_content.
Proof.
  destruct (sa_foreground_gc_keeps 32 area_zero 0 zero_record 33 [1; 3] gc_disk gc_content) as (s' & Hrun & Hc & _).
  - exact gc_disk_core.
  - reflexivity.
  - rewrite gc_victims. apply not_elem_of_union; split; apply not_elem_of_singleton; discriminate.
  - reflexivity.
  - exact gc_disk_worth.
  - reflexivity.
  - exact I.
  - exists s'. split; [exact Hrun|exact Hc].
Defined.

(** A disk short of segments: the buffer is in segment 0, whose first block is
    no longer valid, and all blocks of segment 1 but the first hold data. *)
Section thread_sample.
Context {gcm : Gcm} {gcm_ok : GcmOk} {rng : Rng} {rng_ok : RngOk}.

Definition range_map {A} (f : Z -> A) : gmap Z A := list_to_map ((fun b => (b, f b)) <$> seqZ 1025 1023).
Lemma range_map_lookup {A} (f : Z -> A) b y : range_map f !! b = Some y <-> 1025 <= b < 2048 /\ y = f b.
Proof.
  rewrite /range_map -elem_of_list_to_map; last first.
  { rewrite -list_fmap_compose. apply NoDup_fmap_2; [by intros ??|apply NoDup_seqZ]. }
  rewrite list_elem_of_fmap. setoid_rewrite elem_of_seqZ. split; [intros (b' & [= -> ->] & Hb); split; [lia|done]|].
  intros [Hb ->]. exists b. split; [done|lia].
Qed.

Definition sealed_area : area := fun i => default Byte.x00 ((gc_sealed (i / 4096)).1 !! Z.to_nat (i mod 4096)).
Definition thread_disk (victims : gset Z) : sworndisk MapDisk.st :=
  disk_with (range_map gc_record) (range_map id) (replicate 32 true) (list_to_set (seqZ 1025 1023)) victims 1 sealed_area.
Definition thread_content : gmap Z (list byte) := range_map (fun _ => gc_block).

Lemma sealed_area_read b : area_read (b * DATA_BLOCK_SIZE) block_bytes sealed_area = (gc_sealed b).1.
Proof.
  apply list_eq_same_length with block_bytes; [apply length_gc_sealed|apply length_area_read|].
  intros i y z Hi. rewrite area_read_lookup //. change block_bytes with 4096%nat in Hi. change DATA_BLOCK_SIZE with 4096. intros [= <-] Hz.
  rewrite /sealed_area Z.add_comm Z.div_add // Z.mod_add // Z.div_small; [|lia]. rewrite Z.mod_small; [|lia]. by rewrite Nat2Z.id Z.add_0_l Hz.
Qed.

Lemma thread_valid vs b : x_valid (sd_x (thread_disk vs)) b = true <-> 1 <= b < 1024 \/ 1025 <= b < 2048.
Proof. etransitivity; [apply disk_with_valid; lia|]. apply or_iff_compat_l. rewrite elem_of_list_to_set elem_of_seqZ. lia. Qed.

Lemma thread_count vs i : i = 0 \/ i = 1 -> seg_count (x_valid (sd_x (thread_disk vs))) i = 1023.
Proof.
  intros Hi. rewrite (seg_count_ext (fun b => negb (b =? 1024 * i))); [destruct Hi as [->| ->]; vm_compute; reflexivity|].
  intros b Hb%seg_of. apply eq_iff_eq_true. etransitivity; [apply thread_valid|]. rewrite negb_true_iff Z.eqb_neq. lia.
Qed.

Lemma thread_not_buffered vs b : 1025 <= b -> in_segbuf (thread_disk vs) b = false.
Proof.
  intros Hb. apply not_true_is_false. intros [_ Hi]%in_segbuf_spec.
  change (sb_cur_segment (thread_disk vs) * 1024 + sb_cur_sector (thread_disk vs) / 8) with 1 in Hi. lia.
Qed.

Lemma thread_holds vs b : 1025 <= b < 2048 -> block_holds 32 (thread_disk vs) (gc_record b) gc_block.
Proof.
  intros Hb. assert (b / 1024 = 1) as Hseg by (apply seg_of; lia). split.
  { apply record_wf; [cbn; lia|apply length_encrypt_mac|apply rng_bytes_length|apply rng_bytes_length]. }
  cbn [gc_record pba]. change BLOCKS_PER_SEGMENT with 1024. rewrite Hseg /stored thread_not_buffered; [|lia]. split; [lia|]. split; [reflexivity|].
  split; [apply length_replicate|]. split; [|done]. change (sd_disk (thread_disk vs)) with sealed_area. rewrite sealed_area_read. apply surjective_pairing.
Qed.

Lemma thread_map vs : x_map (sd_x (thread_disk vs)) = range_map gc_record.
Proof. reflexivity. Qed.

Lemma thread_disk_core vs : (forall i, i ∈ vs -> i = 0 \/ i = 1) -> dp_core 32 (thread_disk vs) thread_content.
Proof.
  intros Hvs. assert (forall b, in_slots (thread_disk vs) b <-> 1 <= b < 1024) as Hsl by done.
  split.
  - split; [reflexivity|vm_compute; discriminate].
  - split; [reflexivity|]. intros i Hi. pose proof (Hvs i Hi) as Hi'. split; [lia|]. change BLOCKS_PER_SEGMENT with 1024. pose proof (thread_count vs i Hi') as Hn. change (x_valid _) with (valid_of (sd_x (thread_disk vs))) in Hn. lia.
  - split; [split; [discriminate|reflexivity]|]. split; [split; discriminate|]. split; reflexivity.
  - rewrite (thread_map vs). apply set_eq => b. rewrite !elem_of_dom /is_Some /thread_content. setoid_rewrite range_map_lookup. naive_solver.
  - intros lba r d. rewrite (thread_map vs) /thread_content !range_map_lookup. intros [Hb ->] [_ ->]. by apply thread_holds.
  - intros lba r. rewrite (thread_map vs) range_map_lookup. intros [Hb ->]. split; [exact I|]. split; [apply thread_valid; cbn; lia|].
    change (default 0 (range_map id !! lba) = lba). by rewrite (proj2 (range_map_lookup id lba lba)).
  - intros b Hb%Hsl. apply thread_valid. by left.
  - intros b _ [Hb|Hb]%thread_valid; [left; by apply Hsl|right]. exists b, (gc_record b). split; [by apply range_map_lookup|done].
  - intros b Hb Hu. exfalso. cbn in Hu. rewrite /used_of in Hu. cbn [md_used] in Hu. change BLOCKS_PER_SEGMENT with 1024 in *.
    pose proof (Z.div_pos b 1024 ltac:(lia) ltac:(lia)) as H0. pose proof (Z.div_lt_upper_bound b 1024 32 ltac:(lia) ltac:(lia)) as H1.
    rewrite lookup_replicate_2 in Hu; [|lia]. by rewrite (proj2 (Z.leb_le _ _) H0) in Hu.
  - symmetry. by apply nr_used_count.
Qed.

Lemma thread_disk_inv i : i = 0 \/ i = 1 -> dp_inv 32 (thread_disk {[i]}) thread_content.
Proof.
  intros Hi. split; [apply thread_disk_core; by intros j ->%elem_of_singleton|]. split; [|reflexivity].
  split; [vm_compute; split; congruence|]. split; [discriminate|]. split; [vm_compute; congruence|]. intros b Hb. cbn in Hb. lia.
Qed.

Lemma thread_peek i : i = 0 \/ i = 1 ->
  exists v, ds_peek_victim (sd_x (thread_disk {[i]})) = Some v /\ vi_segno v = i /\ vi_nr_valid_block v = 1023.
Proof.
  intros Hi. pose proof (ds_peek_victim_ok _ (di_x _ _ _ (proj1 (thread_disk_inv i Hi)))) as Hp.
  change (x_victims (sd_x (thread_disk {[i]}))) with ({[i]} : gset Z) in Hp. destruct (ds_peek_victim _) as [v|]; [|set_solver].
  destruct Hp as (Hv%elem_of_singleton & _ & Hn & _). exists v. split; [reflexivity|]. split; [exact Hv|]. rewrite Hn Hv. exact (thread_count _ i Hi).
Qed.

Lemma thread_on i : i = 0 \/ i = 1 -> sworndisk_should_threaded_logging 32 (thread_disk {[i]}) = true.
Proof.
  intros Hi. rewrite /sworndisk_should_threaded_logging. replace (_ <? _) with false by reflexivity.
  rewrite (ds_threaded_ok _ (di_x _ _ _ (proj1 (thread_disk_inv i Hi)))). destruct (thread_peek i Hi) as (v & -> & _ & ->). reflexivity.
Qed.

Lemma thread_unmapped i : pushed_victims (thread_disk {[i]}) 2 = {[i]}.
Proof.
  rewrite /pushed_victims thread_map. destruct (range_map gc_record !! 2) as [r|] eqn:E; [|reflexivity]. apply range_map_lookup in E. lia.
Qed.

(** The victim is segment 1: the write goes there. *)
Lemma thread_ready fuel : write_ready 32 fuel 2 (thread_disk {[1]}).
Proof.
  split; [reflexivity|]. right; right. split; [apply thread_on; by right|]. split; [exact I|].
  rewrite /spared thread_unmapped. intros He%elem_of_singleton. discriminate He.
Qed.

(** The victim is segment 0, the buffer's own. *)
Lemma thread_own : exists v, ds_peek_victim (returned 2 (sd_x (thread_disk {[0]}))) = Some v /\ vi_segno v = 0.
Proof.
  assert (returned 2 (sd_x (thread_disk {[0]})) = sd_x (thread_disk {[0]})) as ->.
  { rewrite /returned. cbn [ix_search MapDisk.index]. change (MapDisk.md_map (sd_x (thread_disk {[0]}))) with (range_map gc_record).
    destruct (range_map gc_record !! 2) as [r|] eqn:E; [|reflexivity]. apply range_map_lookup in E. lia. }
  destruct (thread_peek 0 ltac:(by left)) as (v & Hv & Hs & _). by exists v.
Qed.
End thread_sample.

Lemma area_read_blank off n : area_read off n area_zero = replicate n Byte.x00.
Proof.
  apply list_eq_same_length with n; [apply length_replicate|apply length_area_read|].
  intros i y z Hi. rewrite area_read_lookup // lookup_replicate_2 //. by intros [= <-] [= <-].
Qed.

(** The read is of the block that was written. *)
Ltac hit_block := match goal with |- (if ?d then _ else _) = _ => destruct d as [_|Hne]; [|exfalso; apply Hne; vm_compute; reflexivity] end.

Lemma sworndisk_write_then_read_witness :
  (exists s1, sworndisk_do_write 32 (fun l => l) area_zero 0 zero_record 0 sample_write sample_disk = Some s1 /\
    bi_payload (sworndisk_do_read 32 area_zero sample_read s1).1 = replicate 512 Byte.x41) /\
  (exists s1, sworndisk_do_write 32 (fun l => l) area_zero 0 zero_record 0 sample_write (thread_disk {[1]}) = Some s1 /\
    bi_payload (sworndisk_do_read 32 area_zero sample_read s1).1 = replicate 512 Byte.x41).
Proof.
  assert (forall base, write_base ∅ sample_write base \/ write_base thread_content sample_write base ->
    slice (bio_off sample_read) (length (bi_payload sample_read)) (splice (bio_off sample_write) (bi_payload sample_write) base) = replicate 512 Byte.x41) as Hval.
  { intros base Hb. assert (length base = block_bytes) as Hl by (destruct Hb as [[? _]|[? _]]; assumption). change (bio_off sample_write) with 0%nat.
    rewrite /splice. cbn [take app]. rewrite drop_ge; [|rewrite Hl; vm_compute; lia]. rewrite app_nil_r. vm_compute. reflexivity. }
  split.
  - destruct (sworndisk_write_then_read 32 (fun l => l) area_zero 0 zero_record 0 sample_disk ∅ sample_write sample_read
      sample_disk_inv (sample_ready 0 _) eq_refl sample_write_wf I eq_refl sample_read_wf I) as (s1 & base & Hrun & Hb & Hrd).
    exists s1. split; [exact Hrun|]. rewrite Hrd. hit_block. apply Hval. by left.
  - destruct (sworndisk_write_then_read 32 (fun l => l) area_zero 0 zero_record 0 (thread_disk {[1]}) thread_content sample_write sample_read
      (thread_disk_inv 1 (or_intror eq_refl)) (thread_ready 0) eq_refl sample_write_wf I eq_refl sample_read_wf I) as (s1 & base & Hrun & Hb & Hrd).
    exists s1. split; [exact Hrun|]. rewrite Hrd. hit_block. apply Hval. by right.
Defined.

Lemma gc_frees_live_segment_witness :
  exists s', sa_foreground_gc area_zero 0 zero_record
      (segbuf_push_block 32 (sa_alloc 32 area_zero 0 zero_record 1 2)) 2 (thread_disk {[1]}) = Some s' /\
    x_used (sd_x s') 1 = false /\ exists lba r, x_map (sd_x s') !! lba = Some r /\ pba r / 1024 = 1.
Proof.
  destruct (gc_frees_live_segment 32 area_zero 0 zero_record 2 1 (thread_disk {[1]}) thread_content) as (s' & Hrun & Hu & Hl & _).
  - exact (proj1 (thread_disk_inv 1 (or_intror eq_refl))).
  - reflexivity.
  - discriminate.
  - rewrite (thread_count {[1]} 1 (or_intror eq_refl)). split; reflexivity.
  - change (sa_nr_valid_segment (thread_disk {[1]})) with (count_true (replicate 32 true)). vm_compute. discriminate.
  - exact I.
  - apply le_n.
  - exists s'. split; [exact Hrun|]. split; [exact Hu|exact Hl].
Defined.

Lemma threaded_write_lost_witness :
  exists s1, sworndisk_do_write 32 (fun l => l) area_zero 0 zero_record 0 sample_write (thread_disk {[0]}) = Some s1 /\
    bi_payload (sworndisk_do_read 32 area_zero sample_read s1).1 = replicate 512 Byte.x00.
Proof.
  destruct thread_own as (v & Hv & Hseg).
  destruct (threaded_write_lost 32 (fun l => l) area_zero 0 zero_record 0 (thread_disk {[0]}) thread_content sample_write sample_read v
    (thread_disk_inv 0 (or_introl eq_refl)) I (thread_on 0 (or_introl eq_refl)) eq_refl sample_write_wf eq_refl I eq_refl sample_read_wf eq_refl Hv Hseg)
    as (s1 & p & Hrun & _ & Hrd & _).
  exists s1. split; [exact Hrun|]. rewrite Hrd. change (sb_buffer (thread_disk {[0]})) with area_zero.
  rewrite area_read_blank. vm_compute. reflexivity.
Defined.
