(* ===== verification/DeviceSpec.v ===== *)
(** * Requests through the target (source/dm-sworndisk.c)

    What holds of every execution of the request queue: requests stay inside
    one block, none is lost, the queue drains; and the limit on concurrent
    readers that the semaphore does not enforce.  The constructor's cleanup. *)
From S2P Require Import Prelude Codec BlockManager DiskStructs Crypto BitNode Superblock SegValidator Dst Area Bio BitFile BitFileSpec Segment Device DataPath DataPathSpec.

Section queue_spec.
Context {X : Type} {ix : LsmIndex X} {dm : DataMeta X} {gcm : Gcm} {rng : Rng}.
Context (NR_SEGMENT : Z) (garbage_plain : list byte -> list byte) (garbage_memory : area)
        (garbage_lba : Z) (garbage_record : record) (fuel : nat).
Let step := dev_step NR_SEGMENT garbage_plain garbage_memory garbage_lba garbage_record fuel.
Let work := work_step NR_SEGMENT garbage_plain garbage_memory garbage_lba garbage_record fuel.
Implicit Types (q : queue X) (disk : sworndisk X).

Lemma queue_init_inv disk : queue_inv (queue_init disk).
Proof. by split. Qed.

(** All requests the target was given, finished or not. *)
Definition nr_requests q : nat := length (all_bios q) + length (dq_done q) + length (dq_dropped q).
(** What is still to be done: a request is queued, taken, and finished. *)
Definition todo q : nat := 3 * length (dq_deferred q) + 2 * length (dq_taken q) + length (dq_reading q).

Lemma work_todo q q' : work q q' -> nr_requests q' = nr_requests q /\ ((todo q' < todo q)%nat \/ q' = q).
Proof.
  intros Hs. rewrite /nr_requests /todo /all_bios. destruct Hs as [d l|? ? ? ? ? ? ? ? []|? ? ? ? ? ? ? []| |]; simpl; rewrite ?length_app /= ?length_app /=; try lia.
  destruct l as [|b l]; simpl; [by split; [|right]|]. split; [lia|]. left. lia.
Qed.
Lemma step_requests q q' : step q q' -> (nr_requests q <= nr_requests q')%nat.
Proof.
  intros [b r Hm|Hw]; [|by rewrite (proj1 (work_todo _ _ Hw))]. rewrite /nr_requests /all_bios.
  rewrite /dm_sworndisk_target_map in Hm. destruct (bi_op (map_split b)); injection Hm as <- <-; cbn [dq_deferred dq_taken dq_reading dq_done dq_dropped]; rewrite ?length_app /=; lia.
Qed.

Lemma reachable_inv disk q : rtc step (queue_init disk) q -> queue_inv q.
Proof.
  intros Hr. assert (forall q1 q2, rtc step q1 q2 -> queue_inv q1 -> queue_inv q2) as Hall.
  { induction 1 as [|q1 q2 q3 Hs _ IH]; [done|]. intros Hi. by eapply IH, step_inv. }
  by eapply Hall, queue_init_inv.
Qed.

Lemma finish_head d l t b r c k b' d' m :
  sworndisk_do_read NR_SEGMENT garbage_memory b d = (b', d') ->
  work (Build_queue d l t (b :: r) c k m) (Build_queue d' l t r (c + 1) ((b, b') :: k) m).
Proof.
  apply (Step_finish NR_SEGMENT garbage_plain garbage_memory garbage_lba garbage_record fuel d d' l t [] b r b' c k m).
Qed.

(** In every reachable state of the target all requests in flight are
    reads or writes that stay inside one block, only reads are handed to the
    reader threads, and along any execution no request disappears. *)
Lemma target_requests_safe disk q q' :
  rtc step (queue_init disk) q -> rtc step q q' ->
  Forall bio_in_block (all_bios q) /\ Forall (fun b => bi_op b <> REQ_OP_OTHER) (all_bios q) /\
  Forall (fun b => bi_op b = REQ_OP_READ) (dq_reading q) /\ (nr_requests q <= nr_requests q')%nat.
Proof.
  intros Hr Hr'. destruct (reachable_inv disk q Hr) as [H1 H2 H3 _ _]. split; [done|]. split; [done|]. split; [done|].
  induction Hr' as [|q1 q2 q3 Hs Hr2 IH]; [done|]. pose proof (step_requests _ _ Hs) as Hle.
  etransitivity; [exact Hle|]. destruct (reachable_inv disk q2) as [? ? ? _ _]; [by eapply rtc_r|].
  apply IH; [by eapply rtc_r|done|done|done].
Qed.

(** The workers go on: while a request is in flight, a step of theirs is
    possible that leaves less to do and drops nothing - reading never blocks,
    since a reader that times out on the semaphore is started anyway - unless
    the request at the head is a write that faults. *)
Lemma work_progress q :
  queue_inv q -> all_bios q <> [] ->
  (exists q', work q q' /\ (todo q' < todo q)%nat /\ dq_dropped q' = dq_dropped q) \/
  (exists b taken, dq_taken q = b :: taken /\ bi_op b = REQ_OP_WRITE /\
     sworndisk_do_write NR_SEGMENT garbage_plain garbage_memory garbage_lba garbage_record fuel b (dq_disk q) = None).
Proof.
  intros [_ Hop _ Hc _] Hne. destruct q as [d deferred taken reading count done_ dropped]. rewrite /all_bios in Hne, Hop. simpl in *.
  destruct taken as [|b taken].
  - destruct reading as [|b reading].
    + left. eexists. split; [apply Step_take|]. rewrite /todo /=. destruct deferred; [done|]. simpl. split; [lia|done].
    + left. destruct (sworndisk_do_read NR_SEGMENT garbage_memory b d) as [b' d'] eqn:Hd.
      eexists. split; [by apply finish_head|]. rewrite /todo /=. split; [lia|done].
  - rewrite !Forall_app Forall_cons in Hop. destruct Hop as (_ & [Hb _] & _). destruct (bi_op b) eqn:Eb; [| |done].
    + left. destruct (decide (0 < count)).
      * eexists. split; [by apply (Step_read _ _ _ _ _ _ _ _ _ _ _ _ _ _ true)|]. rewrite /todo /=. split; [lia|done].
      * assert (count = 0) as -> by lia. eexists. split; [by apply (Step_read_timeout _ _ _ _ _ _ _ _ _ _ _ _ _ true)|]. rewrite /todo /=. split; [lia|done].
    + destruct (sworndisk_do_write NR_SEGMENT garbage_plain garbage_memory garbage_lba garbage_record fuel b d) as [d'|] eqn:Hw.
      * left. eexists. split; [by eapply Step_write|]. rewrite /todo /=. split; [lia|done].
      * right. by exists b, taken.
Qed.

(** C40: the limit of [MAX_READER] concurrent readers is not enforced: five
    reads queued at once can all be in flight together, because a timed-out
    [down_timeout] starts the reader as well, and when they finish the
    semaphore counts one more reader than it was created with. *)
Theorem reader_limit_exceeded disk b :
  bi_op b = REQ_OP_READ -> bio_sectors b + bio_block_sector_offset b <= SECTORS_PER_BLOCK ->
  exists q, rtc step (queue_init disk) q /\ Z.of_nat (length (dq_reading q)) = MAX_READER + 1 /\
  exists q', rtc step q q' /\ dq_reading q' = [] /\ dq_count q' = MAX_READER + 1.
Proof.
  intros Hop Hb.
  assert (map_split b = b) as Hsp by (rewrite /map_split; by ztest).
  assert (forall d l r c k m, step (Build_queue d l [] r c k m) (Build_queue d (l ++ [b]) [] r c k m)) as Hmap.
  { intros d l r c k m. apply (Step_map _ _ _ _ _ _ _ _ b DM_MAPIO_SUBMITTED).
    rewrite /dm_sworndisk_target_map Hsp Hop. reflexivity. }
  exists (Build_queue disk [] [] [b; b; b; b; b] 0 [] []). split; [|split; [done|]].
  - do 5 (eapply rtc_l; [apply Hmap|]). eapply rtc_l; [apply Step_work, Step_take|]. cbn [app].
    do 4 (eapply rtc_l; [apply Step_work, (Step_read _ _ _ _ _ _ _ _ _ _ _ _ _ _ true); [exact Hop|vm_compute; reflexivity]|]; cbn [go unscheduled]).
    change (MAX_READER - 1 - 1 - 1 - 1) with 0. eapply rtc_l; [by apply Step_work, (Step_read_timeout _ _ _ _ _ _ _ _ _ _ _ _ _ true)|]. apply rtc_refl.
  - assert (forall d r c k, exists d' k', step (Build_queue d [] [] (b :: r) c k []) (Build_queue d' [] [] r (c + 1) k' [])) as Hfin.
    { intros d r c k. destruct (sworndisk_do_read NR_SEGMENT garbage_memory b d) as [b' d'] eqn:Hd.
      exists d', ((b, b') :: k). by apply Step_work, finish_head. }
    destruct (Hfin disk [b; b; b; b] 0 []) as (d1 & k1 & S1). destruct (Hfin d1 [b; b; b] 1 k1) as (d2 & k2 & S2).
    destruct (Hfin d2 [b; b] 2 k2) as (d3 & k3 & S3). destruct (Hfin d3 [b] 3 k3) as (d4 & k4 & S4).
    destruct (Hfin d4 [] 4 k4) as (d5 & k5 & S5). exists (Build_queue d5 [] [] [] 5 k5 []).
    split; [|done]. do 5 (eapply rtc_l; [eassumption|]). apply rtc_refl.
Qed.

(** A read for which there is no memory for a closure is forgotten: it is
    neither executed nor ended, and the permit it was given is not returned.
    The queue is then at rest - whatever the workers do leaves it as it is -
    with a request unanswered and one reader less than it was created with. *)
Theorem read_forgotten_without_memory disk b :
  bi_op b = REQ_OP_READ -> bio_sectors b + bio_block_sector_offset b <= SECTORS_PER_BLOCK ->
  exists q, rtc step (queue_init disk) q /\ nr_requests q = 1%nat /\ all_bios q = [] /\ dq_done q = [] /\ dq_count q = MAX_READER - 1 /\
    forall q', rtc work q q' -> q' = q.
Proof.
  intros Hop Hb. assert (map_split b = b) as Hsp by (rewrite /map_split; by ztest).
  exists (Build_queue disk [] [] [] (MAX_READER - 1) [] [b]). split.
  - eapply rtc_l; [apply (Step_map _ _ _ _ _ _ _ _ b DM_MAPIO_SUBMITTED); rewrite /dm_sworndisk_target_map Hsp Hop; reflexivity|].
    eapply rtc_l; [apply Step_work, Step_take|]. cbn [queue_init dq_deferred app].
    eapply rtc_l; [apply Step_work, (Step_read _ _ _ _ _ _ _ _ _ _ _ _ _ _ false); [exact Hop|vm_compute; reflexivity]|]. apply rtc_refl.
  - do 4 (split; [done|]). set (q := Build_queue _ _ _ _ _ _ _). intros q' Hr.
    assert (forall q1 q2, rtc work q1 q2 -> q1 = q -> q2 = q) as Hall; [|by eapply Hall].
    induction 1 as [|q1 q2 q3 Hs _ IH]; [done|]. intros ->. apply IH. rewrite /q in Hs.
    inversion Hs as [| | | |? ? ? ? pre]; subst; [done|]. by destruct pre.
Qed.
End queue_spec.

(** When a step of the constructor fails after the devices were opened,
    exactly the components created so far are destroyed, the newest first, and
    the target reports [-EAGAIN]; an argument count other than three makes the
    cleanup path dereference a null device instead. *)
Theorem ctr_cleanup env :
  (ce_argc env <> 3 -> dm_sworndisk_target_ctr env = Ctr_fault) /\
  (forall ret l, dm_sworndisk_target_ctr env = Ctr_err ret l ->
     ce_start env <> None -> ce_data_dev env = true -> ce_metadata_dev env = true ->
     ret = Some (- EAGAIN) /\
     (SegBuffer ∉ l) /\ (SegAllocator ∈ l <-> ce_io_client env && ce_meta env && ce_cipher env && ce_lsm_tree env && ce_seg_allocator env = true) /\
     (LsmTree ∈ l <-> ce_io_client env && ce_meta env && ce_cipher env && ce_lsm_tree env = true) /\
     (Cipher ∈ l <-> ce_io_client env && ce_meta env && ce_cipher env = true) /\
     (Meta ∈ l <-> ce_io_client env && ce_meta env = true) /\ (IoClient ∈ l <-> ce_io_client env = true)).
Proof.
  split.
  - intros Hc. rewrite /dm_sworndisk_target_ctr. by rewrite (proj2 (Z.eqb_neq _ _) Hc).
  - intros ret l. rewrite /dm_sworndisk_target_ctr. destruct (ce_argc env =? 3); [|done]. destruct (ce_alloc env); [|done].
    destruct (ce_start env); [|done]. intros Hr _ Hd Hm. rewrite Hd Hm in Hr. cbn [negb] in Hr.
    destruct (ce_io_client env), (ce_meta env), (ce_cipher env), (ce_lsm_tree env), (ce_seg_allocator env), (ce_seg_buffer env);
      cbn [negb] in Hr; try done; vm_compute in Hr; injection Hr as <- <-; split; try done; set_solver.
Qed.

(** ** Witnesses *)
Import ToyGcm ToyRng MapDisk.

Lemma reader_limit_exceeded_witness :
  exists q : queue MapDisk.st, length (dq_reading q) = 5%nat /\
    rtc (dev_step 32 (fun l => l) area_zero 0 zero_record 0) (queue_init sample_disk) q.
Proof.
  destruct (reader_limit_exceeded 32 (fun l => l) area_zero 0 zero_record 0 sample_disk sample_read) as (q & Hr & Hl & _).
  - reflexivity.
  - vm_compute. congruence.
  - exists q. split; [|exact Hr]. apply Nat2Z.inj. exact Hl.
Defined.

Lemma read_forgotten_without_memory_witness :
  exists q : queue MapDisk.st, rtc (dev_step 32 (fun l => l) area_zero 0 zero_record 0) (queue_init sample_disk) q /\
    all_bios q = [] /\ dq_done q = [] /\ dq_count q = 3.
Proof.
  destruct (read_forgotten_without_memory 32 (fun l => l) area_zero 0 zero_record 0 sample_disk sample_read) as (q & Hr & _ & H1 & H2 & H3 & _).
  - reflexivity.
  - vm_compute. congruence.
  - exists q. split; [exact Hr|]. split; [exact H1|]. split; [exact H2|exact H3].
Defined.
