(* ===== verification/LsmFacts.v ===== *)
(** * The LSM tree as a map

    The tree's invariant, its contents (memtable, then the newest version in
    level 0, then the deeper levels), and what search, put and the flush of a
    full memtable do to them.  Everything is proved against the interfaces of
    the memtable and the catalogue. *)
From S2P Require Import Prelude Codec BlockManager DiskStructs Crypto BitNode Superblock SegValidator Area Bloom Hashtable Catalogue Memtable BitFile BitTree BitFileSpec Level Compaction FileFacts CompactionFacts LsmTree.

Section lsm_facts.
Context {M : Type} {mt : Memtable M record} {mt_ok : MemtableOk M record}.
Context {C : Type} {cat : LsmCatalogue C} {cat_ok : LsmCatalogueOk C}.
Context {gcm : Gcm} {gcm_ok : GcmOk} {rng : Rng} {rng_ok : RngOk} {heap : MinHeap} {bs : Bsearch} {bs_ok : BsearchOk}.
Context (garbage_buffer : area) (garbage_leaf : list byte -> bit_leaf).
Implicit Types (t : lsm_tree (M := M) (C := C)) (c : C) (f : bit_file).

Definition tree_files t : list bit_file := concat (lv_files <$> lt_levels t).

(** [ess] lists, level by level and file by file, the entries of the files. *)
Record lsm_inv t (ess : list (list (list ent))) : Prop := {
  li_mt : mt_inv (lt_memtable t);
  li_mt_keys : forall k r, mt_map (lt_memtable t) !! k = Some r -> mt_key_ok k /\ cwf record_codec r;
  li_cat : cat_inv (lt_catalogue t);
  li_geom : cat_geom_ok (lt_catalogue t);
  li_version : 0 <= cat_version (lt_catalogue t);
  li_files : Forall2 (fun l es => Forall2 (file_in (lt_catalogue t) (io_file (lt_io t))) (lv_files l) es) (lt_levels t) ess;
  li_level0 : exists l0 ls, lt_levels t = l0 :: ls /\ lv_level l0 = 0 /\ StronglySorted file_le (lv_files l0) /\
    NoDup (bf_version <$> lv_files l0) /\ Forall (fun l => lv_level l <> 0 /\ lv_disjoint (lv_files l)) ls;
  li_ids : NoDup (bf_id <$> tree_files t);
  li_versions : NoDup (bf_version <$> tree_files t);
  (** the files of level 0 are the newest *)
  li_newer l0 ls f g : lt_levels t = l0 :: ls -> f ∈ lv_files l0 -> g ∈ concat (lv_files <$> ls) -> bf_version g < bf_version f
}.

(** ** The contents *)
Definition deep_lookup (k : Z) (ess : list (list (list ent))) : option record :=
  foldr (fun es r => match level_lookup k es with Some x => Some x | None => r end) None ess.
Definition disk_lookup (k : Z) (ls : list bit_level) (ess : list (list (list ent))) : option record :=
  match ls, ess with
  | l0 :: _, es0 :: ess =>
      match newest k (sources (lv_files l0) es0) with Some (_, r) => Some r | None => deep_lookup k ess end
  | _, _ => None
  end.
Definition lsm_lookup (k : Z) t (ess : list (list (list ent))) : option record :=
  match mt_map (lt_memtable t) !! k with Some r => Some r | None => disk_lookup k (lt_levels t) ess end.
(** The tree [t] holds the map [m]. *)
Definition lsm_rep t (m : gmap Z record) : Prop :=
  exists ess, lsm_inv t ess /\ mt_size (lt_memtable t) < DEFAULT_MEMTABLE_CAPACITY /\
    forall k, mt_key_ok k -> m !! k = lsm_lookup k t ess.

(** ** Search *)
Definition level_same (l l' : bit_level) : Prop := exists fs', l' = lv_set_files fs' l /\ Forall2 bf_same (lv_files l) fs'.

Lemma level_same_refl l : level_same l l.
Proof. exists (lv_files l). split; [by destruct l|]. apply Forall_Forall2_diag, Forall_true => ?. reflexivity. Qed.

Definition levels_hold (file : area) : list bit_level -> list (list (list ent)) -> Prop :=
  Forall2 (fun l es => level_holds file (lv_files l) es).

Lemma levels_files_hold c file ls ess :
  Forall2 (fun l es => Forall2 (file_in c file) (lv_files l) es) ls ess -> levels_hold file ls ess.
Proof. intros Hf. eapply Forall2_impl; [exact Hf|]. intros l e. apply files_holds. Qed.

Lemma deep_search_ok c file k ls ess :
  Forall2 (fun l es => Forall2 (file_in c file) (lv_files l) es) ls ess ->
  Forall (fun l => lv_level l <> 0 /\ lv_disjoint (lv_files l)) ls ->
  let '(r, ls') := search_levels file k ls in
  r = to_result (deep_lookup k ess) /\ Forall2 level_same ls ls' /\ levels_hold file ls' ess.
Proof.
  intros Hf. induction Hf as [|l es ls ess Hl Hf IH]; [intros _; split; [done|split; constructor]|].
  intros [[Hlv Hd] Hls]%Forall_cons. cbn [search_levels deep_lookup foldr].
  pose proof (leveln_search_ok file k l es Hlv (files_holds _ _ _ _ Hl) Hd) as Hs.
  destruct (bit_level_search file k l) as [r l']. destruct Hs as (-> & Hh & Hsame).
  destruct (level_lookup k es) as [x|] eqn:E; cbn [to_result].
  - split; [done|]. split; [|by constructor; [|by eapply levels_files_hold]].
    constructor; [done|]. apply Forall_Forall2_diag, Forall_true => ?. apply level_same_refl.
  - specialize (IH Hls). destruct (search_levels file k ls) as [r ls']. destruct IH as (-> & IH & IHh).
    split; [done|]. split; by constructor.
Qed.

Lemma search_levels_ok t ess k :
  lsm_inv t ess ->
  let '(r, ls') := search_levels (io_file (lt_io t)) k (lt_levels t) in
  r = to_result (disk_lookup k (lt_levels t) ess) /\ Forall2 level_same (lt_levels t) ls' /\
  levels_hold (io_file (lt_io t)) ls' ess.
Proof.
  intros Hi. pose proof (li_files _ _ Hi) as Hf. destruct (li_level0 _ _ Hi) as (l0 & ls & Heq & H0 & _ & _ & Hls). rewrite Heq in Hf |- *.
  destruct ess as [|es0 ess]; [by inversion Hf|]. apply Forall2_cons in Hf as [Hf0 Hf]. cbn [search_levels disk_lookup].
  assert (Forall (fun f => 0 <= bf_version f) (lv_files l0)) as Hv.
  { apply Forall_forall => f. intros (i & Hi')%list_elem_of_lookup. destruct (Forall2_lookup_l _ _ _ _ _ Hf0 Hi') as (es & _ & Hin).
    pose proof (fi_version _ _ _ _ Hin). lia. }
  pose proof (level0_search_ok _ k l0 es0 H0 (files_holds _ _ _ _ Hf0) Hv) as Hs.
  destruct (bit_level_search _ k l0) as [r l']. destruct Hs as (-> & Hh & Hsame).
  destruct (newest k (sources (lv_files l0) es0)) as [[v x]|]; cbn.
  - split; [done|]. split; [|by constructor; [|by eapply levels_files_hold]].
    constructor; [done|]. apply Forall_Forall2_diag, Forall_true => ?. apply level_same_refl.
  - pose proof (deep_search_ok _ _ k ls ess Hf Hls) as Hd. destruct (search_levels _ k ls) as [r ls'].
    destruct Hd as (-> & Hd & Hdh). split; [done|]. split; by constructor.
Qed.

(** *** Only caches change *)
Lemma level_in_same c file l l' es :
  Forall2 (file_in c file) (lv_files l) es -> level_same l l' -> level_holds file (lv_files l') es ->
  Forall2 (file_in c file) (lv_files l') es.
Proof.
  intros Hin (fs' & -> & Hsame) Hh. cbn [lv_files lv_set_files] in *.
  revert fs' Hsame Hh. induction Hin as [|f e fs es Hf Hin IH] => fs' Hsame Hh.
  - inversion Hsame. constructor.
  - destruct fs' as [|f' fs']; [by inversion Hsame|]. apply Forall2_cons in Hsame as [Hs Hsame].
    apply Forall2_cons in Hh as [Hh0 Hh]. constructor; [by eapply file_in_same|by apply IH].
Qed.

Lemma same_fields fs fs' : Forall2 bf_same fs fs' ->
  bf_id <$> fs' = bf_id <$> fs /\ bf_version <$> fs' = bf_version <$> fs /\
  (StronglySorted file_le fs -> StronglySorted file_le fs') /\ (lv_disjoint fs -> lv_disjoint fs').
Proof.
  intros Hs.
  assert (forall i x', fs' !! i = Some x' -> exists x, fs !! i = Some x /\ bf_same x x') as Hl.
  { intros i x' Hi. destruct (Forall2_lookup_r _ _ _ _ _ Hs Hi) as (x & Hx & Hb). by exists x. }
  split; [|split; [|split]].
  - induction Hs as [|f f' fs fs' (leaf & ->) Hs IH]; [done|]. rewrite !fmap_cons IH //. intros i x' Hi. by apply (Hl (S i)).
  - induction Hs as [|f f' fs fs' (leaf & ->) Hs IH]; [done|]. rewrite !fmap_cons IH //. intros i x' Hi. by apply (Hl (S i)).
  - intros Hsd. apply sorted_of_lookup => i j x y Hi Hj Hlt.
    destruct (Hl _ _ Hi) as (x0 & Hx & lx & ->). destruct (Hl _ _ Hj) as (y0 & Hy & ly & ->).
    exact (sorted_lookup _ _ _ _ _ _ Hsd Hx Hy Hlt).
  - intros [Hsd Hr]. split.
    + apply sorted_of_lookup => i j x y Hi Hj Hlt.
      destruct (Hl _ _ Hi) as (x0 & Hx & lx & ->). destruct (Hl _ _ Hj) as (y0 & Hy & ly & ->).
      exact (sorted_lookup _ _ _ _ _ _ Hsd Hx Hy Hlt).
    + apply Forall_forall => x. intros (i & Hi)%list_elem_of_lookup. destruct (Hl _ _ Hi) as (x0 & Hx & lx & ->).
      exact (proj1 (Forall_forall _ _) Hr x0 (list_elem_of_lookup_2 _ _ _ Hx)).
Qed.

Lemma sources_same fs fs' es : Forall2 bf_same fs fs' -> sources fs' es = sources fs es.
Proof.
  intros Hs. revert es. induction Hs as [|f f' fs fs' (leaf & ->) Hs IH] => es; [done|].
  destruct es as [|e es]; [done|]. rewrite /sources /=. f_equal. apply IH.
Qed.

Lemma tree_ids_same ls ls' : Forall2 level_same ls ls' ->
  bf_id <$> concat (lv_files <$> ls') = bf_id <$> concat (lv_files <$> ls).
Proof.
  induction 1 as [|l l' ls ls' (fs & -> & Hs) Hls IH]; [done|]. rewrite !fmap_cons /= !fmap_app IH. f_equal.
  by destruct (same_fields _ _ Hs).
Qed.

Lemma tree_versions_same ls ls' : Forall2 level_same ls ls' ->
  bf_version <$> concat (lv_files <$> ls') = bf_version <$> concat (lv_files <$> ls).
Proof.
  induction 1 as [|l l' ls ls' (fs & -> & Hs) Hls IH]; [done|]. rewrite !fmap_cons /= !fmap_app IH. f_equal.
  by destruct (same_fields _ _ Hs) as (_ & ? & _).
Qed.

(** A file with the version of [f], by equal lists of versions. *)
Lemma version_elem (fs gs : list bit_file) f : f ∈ fs -> bf_version <$> gs = bf_version <$> fs -> exists g, g ∈ gs /\ bf_version g = bf_version f.
Proof.
  intros Hf He. assert (bf_version f ∈ bf_version <$> gs) as (g & Hg & Hin)%list_elem_of_fmap; [|by exists g].
  rewrite He. apply list_elem_of_fmap. by exists f.
Qed.

Definition lt_set_levels (ls : list bit_level) t : lsm_tree :=
  {| lt_io := lt_io t; lt_catalogue := lt_catalogue t; lt_memtable := lt_memtable t; lt_levels := ls |}.

Lemma lsm_inv_caches t ess ls :
  lsm_inv t ess -> Forall2 level_same (lt_levels t) ls -> levels_hold (io_file (lt_io t)) ls ess ->
  lsm_inv (lt_set_levels ls t) ess /\ forall k, lsm_lookup k (lt_set_levels ls t) ess = lsm_lookup k t ess.
Proof.
  intros [H1 H2 H4 H5 H6 H7 H8 H9 H10 H11] Hsame Hh. destruct H8 as (l0 & ls0 & Heq & L1 & L2 & L3 & L4).
  pose proof Hsame as Hsame'. rewrite Heq in Hsame'. apply Forall2_cons_inv_l in Hsame' as (l0' & ls' & Hs0 & Hs & Heq').
  destruct Hs0 as (fs0 & -> & Hf0). destruct (same_fields _ _ Hf0) as (_ & F2 & F3 & _).
  split; [split; try done; cbn [lt_set_levels lt_levels lt_catalogue lt_io]|].
  - clear -H7 Hsame Hh. revert ls Hsame Hh. induction H7 as [|l es ls0 ess Hl H7 IH] => ls Hsame Hh.
    + inversion Hsame. constructor.
    + destruct ls as [|l' ls]; [by inversion Hsame|]. apply Forall2_cons in Hsame as [S0 Hsame]. apply Forall2_cons in Hh as [h0 Hh].
      constructor; [by eapply level_in_same|by apply IH].
  - exists (lv_set_files fs0 l0), ls'. split; [done|]. split; [done|]. split; [by apply F3|].
    split; [cbn [lv_set_files lv_files]; by rewrite F2|].
    clear -Hs L4. induction Hs as [|l l' ls0 ls' (fs & -> & Hf) Hs IH]; [constructor|]. apply Forall_cons in L4 as [[? ?] L4].
    constructor; [|by apply IH]. split; [done|]. by apply (same_fields _ _ Hf).
  - rewrite /tree_files. cbn [lt_levels lt_set_levels]. rewrite (tree_ids_same _ _ Hsame). exact H9.
  - rewrite /tree_files. cbn [lt_levels lt_set_levels]. rewrite (tree_versions_same _ _ Hsame). exact H10.
  - intros l0'' ls'' f g Hl. rewrite Heq' in Hl. injection Hl as <- <-. intros Hf Hg.
    destruct (version_elem _ (lv_files l0) f Hf ltac:(by rewrite F2)) as (f0 & Hf0' & <-).
    destruct (version_elem _ (concat (lv_files <$> ls0)) g Hg (eq_sym (tree_versions_same _ _ Hs))) as (g0 & Hg0 & <-).
    by apply (H11 l0 ls0).
  - intros k. rewrite /lsm_lookup. cbn [lt_set_levels lt_levels lt_memtable]. rewrite Heq Heq'.
    destruct ess as [|es0 ess]; [done|]. cbn [disk_lookup lv_set_files lv_files]. by rewrite (sources_same _ _ _ Hf0).
Qed.

Lemma lsm_search_ok k t ess :
  lsm_inv t ess -> mt_key_ok k ->
  let '(r, t') := lsm_tree_search k t in
  r = to_result (lsm_lookup k t ess) /\ lsm_inv t' ess /\ forall k', lsm_lookup k' t' ess = lsm_lookup k' t ess.
Proof.
  intros Hi Hk. rewrite /lsm_tree_search (mt_get_ok _ _ (li_mt _ _ Hi) Hk) /lsm_lookup.
  destruct (mt_map (lt_memtable t) !! k) as [r|]; [done|].
  pose proof (search_levels_ok t ess k Hi) as Hs. destruct (search_levels _ k _) as [r ls]. destruct Hs as (-> & Hsame & Hh).
  split; [done|]. exact (lsm_inv_caches t ess ls Hi Hsame Hh).
Qed.

(** ** Put, while the memtable has room *)
Lemma lookup_put_memtable t ess m' k v :
  mt_map m' = <[k := v]> (mt_map (lt_memtable t)) ->
  forall k', lsm_lookup k' (lt_set_memtable m' t) ess = if decide (k' = k) then Some v else lsm_lookup k' t ess.
Proof.
  intros Hm k'. rewrite /lsm_lookup. cbn [lt_set_memtable lt_memtable lt_levels]. rewrite Hm lookup_insert.
  destruct (decide (k' = k)) as [->|]; case_decide; done || congruence.
Qed.

(** ** The flush of a full memtable *)
Lemma newest_cons_max k v es ss :
  (forall s, s ∈ ss -> s.1 < v) ->
  newest k ((v, es) :: ss) = match ents_map es !! k with Some r => Some (v, r) | None => newest k ss end.
Proof.
  intros Hmax. rewrite /newest. cbn [foldl]. rewrite {2}/newest_step. cbn [fst snd].
  destruct (ents_map es !! k) as [r|] eqn:E; [|done].
  induction ss as [|s ss IH]; [done|]. cbn [foldl]. rewrite {2}/newest_step.
  assert (s.1 < v) as Hs by (apply Hmax; left). destruct (ents_map s.2 !! k); [ztest|]; apply IH; intros s' Hs'; apply Hmax; by right.
Qed.

Definition mt_ents (m : M) : list ent := me_pair <$> mt_get_all_entry m.

Lemma add_memtable_all es st : add_memtable es st = bit_builder_add_all (me_pair <$> es) st.
Proof. revert st. induction es as [|e es IH] => st; [done|]. apply IH. Qed.

Lemma mt_ents_ok m :
  mt_inv m -> (forall k r, mt_map m !! k = Some r -> mt_key_ok k /\ cwf record_codec r) ->
  ents_sorted (mt_ents m) /\ Forall ent_wf (mt_ents m) /\ ents_map (mt_ents m) = mt_map m /\
  Z.of_nat (length (mt_ents m)) = mt_size m.
Proof.
  intros Hm Hk. destruct (mt_entries_ok m Hm) as [Hs Hmap].
  assert (ents_sorted (mt_ents m)) as Hes.
  { rewrite /mt_ents /ents_sorted. clear -Hs. induction Hs as [|e l Hs IH Hall]; [constructor|]. rewrite fmap_cons.
    constructor; [done|]. apply Forall_fmap. eapply Forall_impl; [exact Hall|]. done. }
  split; [done|]. split; [|split; [exact Hmap|]].
  - apply Forall_forall => -[k r] Hin. pose proof (ents_map_elem _ k r Hes Hin) as Hl. rewrite /ents_map /mt_ents Hmap in Hl.
    destruct (Hk k r Hl) as [Hko Hw]. split; [|done]. rewrite /mt_key_ok in Hko. simpl. lia.
  - rewrite mt_size_ok // -Hmap. rewrite map_size_list_to_map; [done|]. by apply ents_sorted_nodup.
Qed.

(** A file of the tree is in its slot. *)
Lemma levels_file file c ls ess g :
  Forall2 (fun l => Forall2 (file_in c file) (lv_files l)) ls ess -> g ∈ concat (lv_files <$> ls) -> exists e, file_in c file g e.
Proof.
  intros Hf (gs & Hin & (l & -> & (a & Ha)%list_elem_of_lookup)%list_elem_of_fmap)%elem_of_flat.
  destruct (Forall2_lookup_l _ _ _ _ _ Hf Ha) as (es & _ & Hl). apply list_elem_of_lookup in Hin as [j Hj].
  destruct (Forall2_lookup_l _ _ _ _ _ Hl Hj) as (e & _ & Hge). by exists e.
Qed.

(** A file newer than those of a level answers first, wherever it is inserted. *)
Lemma newest_insert (io : bit_io) (c : C) fs es0 f es i k :
  Forall2 (file_in c (io_file io)) fs es0 -> NoDup (bf_version <$> fs) -> cat_version c <= bf_version f ->
  newest k (sources (take i fs ++ f :: drop i fs) (take i es0 ++ es :: drop i es0)) =
    match ents_map es !! k with Some r => Some (bf_version f, r) | None => newest k (sources fs es0) end.
Proof.
  intros Hf0 Hnd Hv. pose proof (Forall2_length _ _ _ Hf0) as Hlen.
  assert (forall s, s ∈ sources fs es0 -> s.1 < bf_version f) as Hlt.
  { intros s Hin. apply sources_elem in Hin as (j & g & e & Hj & He & ->).
    destruct (Forall2_lookup_lr _ _ _ _ _ _ Hf0 Hj He) as [_ _ Hvg _ _ _ _ _ _]. cbn. lia. }
  assert (sources (take i fs ++ f :: drop i fs) (take i es0 ++ es :: drop i es0) ≡ₚ (bf_version f, es) :: sources fs es0) as Hperm.
  { rewrite sources_middle; [|rewrite !length_take Hlen //]. by rewrite !take_drop. }
  rewrite -newest_cons_max //. apply newest_perm; [|done]. rewrite Hperm fmap_cons. constructor; [|by rewrite (sources_versions _ _ _ _ Hf0)].
  intros (s & Hs & Hin)%list_elem_of_fmap. specialize (Hlt s Hin). cbn in Hs. lia.
Qed.

Lemma add_level0 t ess l0 ls c' io' es f m' :
  lsm_inv t ess -> lt_levels t = l0 :: ls -> lv_size l0 < lv_max_size l0 ->
  built (lt_catalogue t) c' (lt_io t) io' 0 es f -> mt_inv m' -> mt_map m' = ∅ ->
  exists ess', lsm_inv {| lt_io := io'; lt_catalogue := c'; lt_memtable := m';
                          lt_levels := <[0%nat := (bit_level_add_file f l0).2]> (lt_levels t) |} ess' /\
    forall k, disk_lookup k (<[0%nat := (bit_level_add_file f l0).2]> (lt_levels t)) ess' =
      match ents_map es !! k with Some r => Some r | None => disk_lookup k (lt_levels t) ess end.
Proof.
  intros [H1 H2 H4 H5 H6 H7 H8 H9 H10 H11] Heq Hroom Hb Hm' Hmap. destruct H8 as (l0' & ls0 & Heq' & L1 & L2 & L3 & L4).
  rewrite Heq in Heq'. injection Heq' as <- <-. set (c := lt_catalogue t) in *.
  rewrite Heq in H7 |- *. destruct ess as [|es0 ess]; [by inversion H7|]. apply Forall2_cons in H7 as [Hf0 Hf].
  pose proof (bt_file _ _ _ _ _ _ _ Hb) as Hfile.
  pose proof (bit_level_add_file_split l0 f Hroom L2) as Hsplit. destruct (bit_level_add_file_ok l0 f L2 Hroom) as (fs' & Hadd & Hs' & Hp').
  rewrite Hadd in Hsplit. injection Hsplit as Hfs'. rewrite Hadd. cbn [snd list_insert insert].
  set (i := Z.to_nat (bit_level_search_file l0 f)) in *. set (fs := lv_files l0) in *.
  pose proof (Forall2_length _ _ _ Hf0) as Hlen.
  assert (forall g e, file_in c (io_file (lt_io t)) g e -> file_in c' (io_file io') g e) as Hkeep.
  { intros g e. by apply (built_keeps c c' (lt_io t) io' 0 es f). }
  assert (forall g, g ∈ concat (lv_files <$> l0 :: ls) -> cat_used c (bf_id g) = true /\ bf_version g < cat_version c) as Hold.
  { intros g Hg. destruct (levels_file (io_file (lt_io t)) c (l0 :: ls) (es0 :: ess) g) as [e Hge]; [by constructor|done|].
    split; [apply (fi_used _ _ _ _ Hge)|apply (fi_version _ _ _ _ Hge)]. }
  assert (Forall2 (file_in c' (io_file io')) fs es0) as Hf0'.
  { eapply Forall2_impl; [exact Hf0|]. apply Hkeep. }
  exists ((take i es0 ++ es :: drop i es0) :: ess). split; [split; cbn [lt_memtable lt_catalogue lt_io lt_levels]|].
  - done.
  - intros k r. rewrite Hmap. done.
  - apply (bt_inv _ _ _ _ _ _ _ Hb).
  - destruct (cat_geom_eq _ _ (bt_geom _ _ _ _ _ _ _ Hb)) as (G1 & G2 & G3). destruct H5. split; by rewrite ?G1 ?G2 ?G3.
  - pose proof (bt_next _ _ _ _ _ _ _ Hb). fold c in H6. lia.
  - constructor.
    + cbn [lv_set_files lv_files]. rewrite Hfs'. apply Forall2_app; [by apply Forall2_take|]. constructor; [done|by apply Forall2_drop].
    + eapply Forall2_impl; [exact Hf|]. intros l e Hl. eapply Forall2_impl; [exact Hl|]. apply Hkeep.
  - exists (lv_set_files fs' l0), ls. split; [done|]. split; [done|]. split; [done|]. split; [|done].
    cbn [lv_set_files lv_files]. rewrite Hp' fmap_cons. constructor; [|done].
    intros (g & Hg & Hin)%list_elem_of_fmap. apply list_elem_of_lookup in Hin as [j Hj].
    destruct (Forall2_lookup_l _ _ _ _ _ Hf0 Hj) as (e & _ & Hge). pose proof (fi_version _ _ _ _ Hge).
    pose proof (bt_version _ _ _ _ _ _ _ Hb). lia.
  - rewrite /tree_files. cbn [lt_levels]. rewrite fmap_cons. cbn [lv_set_files lv_files concat]. rewrite Hp'. cbn [app]. rewrite fmap_cons.
    rewrite /tree_files Heq fmap_cons in H9. apply NoDup_cons. split; [|done]. intros (g & Hg & Hin)%list_elem_of_fmap.
    destruct (Hold g Hin) as [Hu _]. rewrite -Hg (bt_fresh _ _ _ _ _ _ _ Hb) in Hu. done.
  - rewrite /tree_files. cbn [lt_levels]. rewrite fmap_cons. cbn [lv_set_files lv_files concat]. rewrite Hp'. cbn [app]. rewrite fmap_cons.
    rewrite /tree_files Heq fmap_cons in H10. apply NoDup_cons. split; [|done]. intros (g & Hg & Hin)%list_elem_of_fmap.
    destruct (Hold g Hin) as [_ Hv]. pose proof (bt_version _ _ _ _ _ _ _ Hb). lia.
  - intros l0'' ls'' a g [= <- <-]. cbn [lv_set_files lv_files]. rewrite Hp'. intros [->|Ha]%elem_of_cons Hg; [|by apply (H11 l0 ls)].
    destruct (Hold g) as [_ Hv]; [cbn [concat]; apply elem_of_app; by right|]. pose proof (bt_version _ _ _ _ _ _ _ Hb). lia.
  - intros k. cbn [disk_lookup lv_set_files lv_files]. rewrite Hfs' (newest_insert (lt_io t) c fs es0); [by destruct (ents_map es !! k)|done|done|].
    by rewrite (bt_version _ _ _ _ _ _ _ Hb).
Qed.

(** The memtable becomes a file: the contents stay. *)
Lemma minor_flush_ok fd0 t ess l0 ls :
  lsm_inv t ess -> lt_levels t = l0 :: ls -> lv_size l0 < lv_max_size l0 ->
  chunk_ok (mt_ents (lt_memtable t)) -> cat_version (lt_catalogue t) < 2 ^ 64 - 1 ->
  (exists fd, 0 <= fd < cat_max_fd (lt_catalogue t) /\ cat_used (lt_catalogue t) fd = false) ->
  exists t' f ess', minor_flush garbage_buffer fd0 t = Some t' /\ lsm_inv t' ess' /\ mt_size (lt_memtable t') = 0 /\
    (forall k, lsm_lookup k t' ess' = lsm_lookup k t ess) /\
    built (lt_catalogue t) (lt_catalogue t') (lt_io t) (lt_io t') 0 (mt_ents (lt_memtable t)) f /\
    lt_levels t' = (bit_level_add_file f l0).2 :: ls.
Proof.
  intros Hi Heq Hroom (Hc8 & Hcm & Hcc & Hcs) Hver Hfree. destruct (mt_ents_ok _ (li_mt _ _ Hi) (li_mt_keys _ _ Hi)) as (Hs & Hwf & Hmap & _).
  rewrite /minor_flush Heq. cbn [lookup list_lookup].
  pose proof (build_file_ok garbage_buffer (lt_catalogue t) (lt_io t) 0 (mt_ents (lt_memtable t)) fd0 (li_cat _ _ Hi) (li_geom _ _ Hi)
    ltac:(pose proof (li_version _ _ Hi); lia) Hfree ltac:(lia) Hs Hwf Hc8 Hcm Hcc Hcs) as Hb.
  destruct (open_builder _ _ _ _ _) as [[fd st] c1]. rewrite /close_builder add_memtable_all. rewrite /mt_ents in Hb.
  destruct (bit_builder_complete _) as [f io']. set (c2 := (cat_set_file_stats _ _ c1).2) in *.
  destruct (mt_clear_ok _ (li_mt _ _ Hi)) as [Hcl Hclm].
  destruct (add_level0 t ess l0 ls c2 io' (mt_ents (lt_memtable t)) f _ Hi Heq Hroom Hb Hcl Hclm) as (ess' & Hi' & Hlk).
  rewrite Heq in Hi', Hlk. eexists _, f, ess'. split; [reflexivity|]. split; [exact Hi'|]. cbn [lt_memtable].
  split; [|split; [|split; [exact Hb|reflexivity]]].
  - rewrite mt_size_ok // Hclm map_size_empty. done.
  - intros k. rewrite /lsm_lookup. cbn [lt_memtable lt_levels]. rewrite Hclm lookup_empty Hlk Hmap Heq. done.
Qed.

(** A full memtable makes a file of full leaves. *)
Lemma mt_full_chunk m :
  mt_inv m -> (forall k r, mt_map m !! k = Some r -> mt_key_ok k /\ cwf record_codec r) ->
  mt_size m = DEFAULT_MEMTABLE_CAPACITY -> chunk_ok (mt_ents m).
Proof. intros Hm Hk Hsz. destruct (mt_ents_ok m Hm Hk) as (_ & _ & _ & Hl). apply chunk_ok_full. by rewrite Hl Hsz. Qed.

(** ** Put *)

(** There is room for one more record: the memtable does not fill up, or
    level 0 and the catalogue can take the file it becomes. *)
Definition lsm_room t : Prop :=
  mt_size (lt_memtable t) + 1 < DEFAULT_MEMTABLE_CAPACITY \/
  (exists l0 ls, lt_levels t = l0 :: ls /\ lv_size l0 < lv_capacity l0 /\ lv_size l0 < lv_max_size l0) /\
  cat_version (lt_catalogue t) < 2 ^ 64 - 1 /\
  exists fd, 0 <= fd < cat_max_fd (lt_catalogue t) /\ cat_used (lt_catalogue t) fd = false.

Lemma memtable_put_inv t ess k v :
  lsm_inv t ess -> mt_key_ok k -> cwf record_codec v -> mt_size (lt_memtable t) < DEFAULT_MEMTABLE_CAPACITY ->
  let t1 := lt_set_memtable (mt_put k v (lt_memtable t)).2 t in
  lsm_inv t1 ess /\ mt_size (lt_memtable t) <= mt_size (lt_memtable t1) <= mt_size (lt_memtable t) + 1 /\
  forall k', lsm_lookup k' t1 ess = if decide (k' = k) then Some v else lsm_lookup k' t ess.
Proof.
  intros Hi Hk Hv Hsz. rewrite /DEFAULT_MEMTABLE_CAPACITY /DEFAULT_LSM_FILE_CAPACITY in Hsz.
  pose proof (mt_size_ok _ (li_mt _ _ Hi)) as Hs0.
  pose proof (mt_put_ok _ k v (li_mt _ _ Hi) Hk ltac:(lia)) as Hp. destruct (mt_put k v (lt_memtable t)) as [old m'].
  destruct Hp as (Hm' & _ & Hmap). cbn [snd]. split; [|split; [|by apply lookup_put_memtable]].
  - destruct Hi as [H1 H2 H4 H5 H6 H7 H8 H9 H10 H11]. split; try done. cbn [lt_set_memtable lt_memtable]. intros k' r. rewrite Hmap lookup_insert.
    case_decide as Hd; [intros [= <-]; by subst|apply H2].
  - cbn [lt_set_memtable lt_memtable]. rewrite (mt_size_ok _ Hm') Hmap Hs0.
    destruct (mt_map (lt_memtable t) !! k) as [o|] eqn:E; [rewrite map_size_insert_Some; [lia|by eexists]|rewrite map_size_insert_None; [lia|done]].
Qed.

Lemma put_ok fuel fd0 k v t ess :
  lsm_inv t ess -> mt_size (lt_memtable t) < DEFAULT_MEMTABLE_CAPACITY -> mt_key_ok k -> cwf record_codec v -> lsm_room t ->
  exists t' ess', lsm_tree_put garbage_buffer garbage_leaf fuel fd0 k v t = Some t' /\ lsm_inv t' ess' /\
    (forall k', lsm_lookup k' t' ess' = if decide (k' = k) then Some v else lsm_lookup k' t ess) /\
    (lt_catalogue t' = lt_catalogue t /\ lt_levels t' = lt_levels t /\
       mt_size (lt_memtable t') <= mt_size (lt_memtable t) + 1 /\ mt_size (lt_memtable t') < DEFAULT_MEMTABLE_CAPACITY \/
     exists f l0 ls es, lt_levels t = l0 :: ls /\ lv_size l0 < lv_capacity l0 /\
       lt_levels t' = (bit_level_add_file f l0).2 :: ls /\
       mt_size (lt_memtable t') = 0 /\ DEFAULT_MEMTABLE_CAPACITY <= mt_size (lt_memtable t) + 1 /\
       built (lt_catalogue t) (lt_catalogue t') (lt_io t) (lt_io t') 0 es f).
Proof.
  intros Hi Hsz Hk Hv Hroom. destruct (memtable_put_inv t ess k v Hi Hk Hv Hsz) as (Hi1 & Hs1 & Hlk1).
  rewrite /lsm_tree_put. set (t1 := lt_set_memtable _ t) in *.
  destruct (Z.leb_spec DEFAULT_MEMTABLE_CAPACITY (mt_size (lt_memtable t1))) as [Hfull|Hless]; last first.
  { exists t1, ess. split; [done|]. split; [done|]. split; [done|]. left. split; [done|]. split; [done|]. split; [lia|done]. }
  destruct Hroom as [?|((l0 & ls & Heq & Hc0 & Hm0) & Hver & Hfree)]; [lia|].
  rewrite /lsm_tree_minor_compaction. change (lt_levels t1) with (lt_levels t). rewrite Heq. cbn [lookup list_lookup].
  rewrite /bit_level_is_full. ztest. cbn [mbind option_bind].
  destruct (minor_flush_ok fd0 t1 ess l0 ls Hi1 Heq Hm0 (mt_full_chunk _ (li_mt _ _ Hi1) (li_mt_keys _ _ Hi1) ltac:(lia)) Hver Hfree) as (t2 & f & ess' & Hrun & Hi2 & Hsz2 & Hlk2 & Hb & Hlv).
  exists t2, ess'. split; [exact Hrun|]. split; [done|]. split; [intros k'; by rewrite Hlk2|].
  right. eexists f, l0, ls, _. split; [done|]. split; [done|]. split; [done|]. split; [done|]. split; [lia|exact Hb].
Qed.

(** ** The tree as the catalogue has it *)

(** The levels [lsm_tree_init] starts from. *)
Definition new_levels c : list bit_level :=
  bit_level_create 0 DEFAULT_LSM_LEVEL0_NR_FILE ::
    create_levels (Z.to_nat (cat_nr_disk_level c - 1)) (cat_max_level_nr_file c) (cat_common_ratio c).

(** The catalogue describes the tree: the shape of the levels, the level of
    every file, and no slot is in use without a file. *)
Record lsm_reg t : Prop := {
  lg_shape : lv_set_files [] <$> lt_levels t = new_levels (lt_catalogue t);
  lg_level i l f : lt_levels t !! i = Some l -> f ∈ lv_files l -> bf_level f = Z.of_nat i;
  lg_size : Forall (fun l => lv_size l <= lv_max_size l) (lt_levels t);
  lg_used fd : 0 <= fd < cat_max_fd (lt_catalogue t) -> cat_used (lt_catalogue t) fd = true -> fd ∈ bf_id <$> tree_files t
}.

Lemma new_levels_geom c c' : cat_geom c' = cat_geom c -> new_levels c' = new_levels c.
Proof. rewrite /cat_geom /new_levels. by intros [= _ _ -> -> -> _]. Qed.

Lemma create_levels_length n capacity ratio : length (create_levels n capacity ratio) = n.
Proof. revert capacity. induction n as [|n IH] => capacity; [done|]. cbn [create_levels]. rewrite length_app IH. cbn. lia. Qed.

Lemma create_levels_number n capacity ratio i l : create_levels n capacity ratio !! i = Some l -> lv_level l = Z.of_nat (S i).
Proof.
  revert capacity. induction n as [|n IH] => capacity; [done|]. cbn [create_levels]. intros Hl. apply lookup_app_Some in Hl as [Hl|[Hi Hl]]; [by eapply IH|].
  rewrite create_levels_length in Hi Hl. apply list_lookup_singleton_Some in Hl as [H0 <-]. cbn. lia.
Qed.

Lemma lg_number t i l : lsm_reg t -> lt_levels t !! i = Some l -> lv_level l = Z.of_nat i.
Proof.
  intros Hg Hl. assert (new_levels (lt_catalogue t) !! i = Some (lv_set_files [] l)) as Hn by (by rewrite -(lg_shape _ Hg) list_lookup_fmap Hl).
  destruct i as [|i]; [by injection Hn as <-|]. by apply create_levels_number in Hn.
Qed.

(** Cached leaves do not matter. *)
Lemma lsm_reg_caches t ls : lsm_reg t -> Forall2 level_same (lt_levels t) ls -> lsm_reg (lt_set_levels ls t).
Proof.
  intros [G1 G2 G3 G4] Hs. split; cbn [lt_set_levels lt_levels lt_catalogue].
  - rewrite -G1. clear -Hs. induction Hs as [|l l' ls1 ls2 (fs & -> & _) _ IH]; [done|]. by rewrite !fmap_cons IH.
  - intros i l' f' Hl' Hf'. destruct (Forall2_lookup_r _ _ _ _ _ Hs Hl') as (l & Hl & fs & -> & Hfs). cbn [lv_set_files lv_files] in Hf'.
    apply list_elem_of_lookup in Hf' as [j Hj]. destruct (Forall2_lookup_r _ _ _ _ _ Hfs Hj) as (f & Hf & Hsame).
    rewrite -(G2 i l f Hl ltac:(by eapply list_elem_of_lookup_2)). by destruct Hsame as [leaf ->].
  - clear -Hs G3. induction Hs as [|l l' ls1 ls2 (fs & -> & Hfs) _ IH]; [constructor|]. apply Forall_cons in G3 as [Hl G3]. constructor; [|by apply IH].
    rewrite /lv_size in Hl |- *. cbn [lv_set_files lv_files lv_max_size]. by rewrite -(Forall2_length _ _ _ Hfs).
  - intros fd Hfd Hu. rewrite /tree_files. cbn [lt_set_levels lt_levels]. rewrite (tree_ids_same _ _ Hs). by apply G4.
Qed.

(** A tree without files is registered. *)
Lemma create_levels_room n capacity ratio : 0 <= capacity -> 0 < ratio -> Forall (fun l => 0 <= lv_max_size l) (create_levels n capacity ratio).
Proof.
  intros Hc Hr. revert capacity Hc. induction n as [|n IH] => capacity Hc; [constructor|]. cbn [create_levels]. apply Forall_app.
  split; [apply IH, Z.div_pos; lia|]. constructor; [|constructor]. cbn. rewrite /DEFAULT_LSM_LEVEL0_NR_FILE. lia.
Qed.
Lemma lsm_reg_new t : lt_levels t = new_levels (lt_catalogue t) -> 0 <= cat_max_level_nr_file (lt_catalogue t) -> 0 < cat_common_ratio (lt_catalogue t) ->
  (forall fd, 0 <= fd < cat_max_fd (lt_catalogue t) -> cat_used (lt_catalogue t) fd = false) -> lsm_reg t.
Proof.
  intros Heq Hm Hr Hu.
  assert (Forall (fun l => lv_files l = [] /\ 0 <= lv_max_size l) (new_levels (lt_catalogue t))) as Hall.
  { constructor; [done|]. pose proof (create_levels_room (Z.to_nat (cat_nr_disk_level (lt_catalogue t) - 1)) _ _ Hm Hr) as Hrm.
    assert (Forall (fun l => lv_files l = []) (create_levels (Z.to_nat (cat_nr_disk_level (lt_catalogue t) - 1)) (cat_max_level_nr_file (lt_catalogue t)) (cat_common_ratio (lt_catalogue t)))) as Hnf.
    { clear. generalize (Z.to_nat (cat_nr_disk_level (lt_catalogue t) - 1)) as n, (cat_max_level_nr_file (lt_catalogue t)) as capacity.
      induction n as [|n IH] => capacity; [constructor|]. cbn [create_levels]. apply Forall_app. split; [apply IH|]. by constructor. }
    apply Forall_and. done. }
  split.
  - rewrite Heq. clear -Hall. induction Hall as [|l ls [Hl _] _ IH]; [done|]. rewrite fmap_cons IH. f_equal. destruct l. cbn in *. by subst.
  - intros i l f. rewrite Heq. intros Hl Hf. eapply Forall_lookup_1 in Hall; [|exact Hl]. destruct Hall as [Hl' _]. rewrite Hl' in Hf. by apply elem_of_nil in Hf.
  - rewrite Heq. eapply Forall_impl; [exact Hall|]. intros l [Hl ?]. by rewrite /lv_size Hl.
  - intros fd Hfd. by rewrite Hu.
Qed.

(** A new file of level 0 is registered. *)
Lemma lsm_reg_add t t' f l0 ls es :
  lsm_reg t -> lt_levels t = l0 :: ls -> StronglySorted file_le (lv_files l0) -> lv_size l0 < lv_max_size l0 ->
  lt_levels t' = (bit_level_add_file f l0).2 :: ls -> built (lt_catalogue t) (lt_catalogue t') (lt_io t) (lt_io t') 0 es f -> lsm_reg t'.
Proof.
  intros [G1 G2 G3 G4] Heq Hs Hroom Hlv Hb. destruct (bit_level_add_file_ok l0 f Hs Hroom) as (gs & Hadd & _ & Hp). rewrite Hadd in Hlv. cbn [snd] in Hlv.
  rewrite Heq in G1, G3. apply Forall_cons in G3 as [G0 G3]. split.
  - rewrite Hlv (new_levels_geom _ _ (bt_geom _ _ _ _ _ _ _ Hb)) -G1. by rewrite !fmap_cons.
  - intros i l g. rewrite Hlv. destruct i as [|i]; [|intros Hl; apply (G2 (S i)); by rewrite Heq].
    intros [= <-]. cbn [lv_set_files lv_files]. rewrite Hp. intros [->|Hg]%elem_of_cons; [apply (bt_level _ _ _ _ _ _ _ Hb)|].
    apply (G2 0%nat l0); [by rewrite Heq|done].
  - rewrite Hlv. constructor; [|done]. rewrite /lv_size. cbn [lv_set_files lv_files lv_max_size]. rewrite Hp. cbn [length]. rewrite /lv_size in Hroom. lia.
  - intros fd Hfd Hu. destruct (cat_geom_eq _ _ (bt_geom _ _ _ _ _ _ _ Hb)) as (_ & _ & G). rewrite G in Hfd.
    rewrite (bt_used _ _ _ _ _ _ _ Hb fd Hfd) in Hu. rewrite /tree_files Hlv fmap_cons. cbn [concat lv_set_files lv_files]. rewrite Hp. cbn [app]. rewrite fmap_cons.
    apply orb_true_iff in Hu as [->%Z.eqb_eq|Hu]; [left|right]. specialize (G4 fd Hfd Hu). by rewrite /tree_files Heq fmap_cons in G4.
Qed.
End lsm_facts.
