(* ===== verification/LsmCompaction.v ===== *)
(** * Compactions of the tree

    When level 0 is full, the next memtable that fills up first compacts it
    into level 1.  The tree's contents do not change, and its invariant holds
    again, so that it can take further memtables. *)
From S2P Require Import Prelude Codec BlockManager DiskStructs Crypto BitNode Superblock SegValidator Area Bloom Hashtable Catalogue Memtable BitFile BitTree BitFileSpec Level Compaction MergeFacts FileFacts CompactionFacts CompactionSpec CompactionLevel CompactionRun LsmTree LsmFacts.

Section lsm_compaction.
Context {M : Type} {mt : Memtable M record} {mt_ok : MemtableOk M record}.
Context {C : Type} {cat : LsmCatalogue C} {cat_ok : LsmCatalogueOk C}.
Context {gcm : Gcm} {gcm_ok : GcmOk} {rng : Rng} {rng_ok : RngOk} {heap : MinHeap} {heap_ok : MinHeapOk} {bs : Bsearch} {bs_ok : BsearchOk}.
Context (garbage_buffer : area) (garbage_leaf : list byte -> bit_leaf).
Implicit Types (t : lsm_tree (M := M) (C := C)) (c : C) (f : bit_file).

Lemma tree_files_two t l0 l1 ls :
  lt_levels t = l0 :: l1 :: ls -> tree_files t = (lv_files l0 ++ lv_files l1) ++ concat (lv_files <$> ls).
Proof. intros Heq. by rewrite /tree_files Heq !fmap_cons /= app_assoc. Qed.

(** The first two levels are a job. *)
Lemma tree_job_ok t ess l0 l1 ls es0 es1 :
  lsm_inv t (es0 :: es1 :: ess) -> lt_levels t = l0 :: l1 :: ls -> job_ok (lt_job l0 l1 t) es0 es1.
Proof.
  intros Hi Heq. pose proof Hi as [_ _ H3 H4 H5 H6 (l0' & ls' & Heq' & L1 & L2 & L3 & L4) H8 H9 H10].
  rewrite Heq in Heq', H6. injection Heq' as <- <-. apply Forall2_cons in H6 as [F0 F]. apply Forall2_cons in F as [F1 F].
  apply Forall_cons in L4 as [[_ L4] _]. rewrite (tree_files_two t l0 l1 ls Heq) in H8, H9.
  split; try done; rewrite /jb_files; cbn [lt_job jb_level1 jb_level2].
  - rewrite fmap_app in H8. by apply NoDup_app in H8 as (? & _).
  - rewrite fmap_app in H9. by apply NoDup_app in H9 as (? & _).
  - intros f g Hf Hg. apply (H10 l0 (l1 :: ls)); [done|done|]. rewrite fmap_cons. cbn [concat]. apply elem_of_app. by left.
Qed.

(** The other levels do not notice. *)
Lemma other_levels t ess l0 l1 ls es0 es1 j' :
  lsm_inv t (es0 :: es1 :: ess) -> lt_levels t = l0 :: l1 :: ls -> job_frame (lt_job l0 l1 t) j' ->
  Forall2 (fun l es => Forall2 (file_in (jb_cat j') (io_file (jb_io j'))) (lv_files l) es) ls ess.
Proof.
  intros Hi Heq Hfr. pose proof (li_files _ _ Hi) as H6. rewrite Heq in H6. apply Forall2_cons in H6 as [_ F]. apply Forall2_cons in F as [_ F].
  pose proof (li_ids _ _ Hi) as Hnd. rewrite (tree_files_two t l0 l1 ls Heq) fmap_app in Hnd. apply NoDup_app in Hnd as (_ & Hx & _).
  assert (forall f es, f ∈ concat (lv_files <$> ls) -> file_in (lt_catalogue t) (io_file (lt_io t)) f es ->
    file_in (jb_cat j') (io_file (jb_io j')) f es) as Hkeep.
  { intros f es Hf Hfe. apply (jf_other _ _ Hfr f es Hfe). intros Hin. apply (Hx _ Hin), list_elem_of_fmap. by exists f. }
  clear -F Hkeep. induction F as [|l es ls ess Hl F IH]; constructor.
  - assert (forall f e, f ∈ lv_files l -> file_in (lt_catalogue t) (io_file (lt_io t)) f e -> file_in (jb_cat j') (io_file (jb_io j')) f e) as Hk.
    { intros f e Hf. apply Hkeep. rewrite fmap_cons. cbn [concat]. apply elem_of_app. by left. }
    clear -Hl Hk. induction Hl as [|f e fs es Hf Hl IH]; constructor; [apply Hk; [left|done]|]. apply IH. intros g e' Hg. apply Hk. by right.
  - apply IH. intros f e Hf. apply Hkeep. rewrite fmap_cons. cbn [concat]. apply elem_of_app. by right.
Qed.

(** Files of the result and files of the other levels are different ones. *)
Lemma other_distinct t ess l0 l1 ls es0 es1 j' f g :
  lsm_inv t (es0 :: es1 :: ess) -> lt_levels t = l0 :: l1 :: ls -> job_frame (lt_job l0 l1 t) j' ->
  f ∈ jb_files j' -> g ∈ concat (lv_files <$> ls) -> bf_id f <> bf_id g /\ bf_version f <> bf_version g.
Proof.
  intros Hi Heq Hfr Hf Hg. pose proof (li_files _ _ Hi) as H6. rewrite Heq in H6. apply Forall2_cons in H6 as [_ F]. apply Forall2_cons in F as [_ F].
  assert (exists es, file_in (lt_catalogue t) (io_file (lt_io t)) g es) as [es Hge].
  { apply elem_of_flat in Hg as (gs & Hg & (l & -> & (a & Ha)%list_elem_of_lookup)%list_elem_of_fmap).
    destruct (Forall2_lookup_l _ _ _ _ _ F Ha) as (e & _ & Hle). by eapply files_in_elem. }
  pose proof (tree_files_two t l0 l1 ls Heq) as Htf. split.
  - destruct (jf_ids _ _ Hfr f Hf) as [Hin|Hu]; [|cbn in Hu; pose proof (fi_used _ _ _ _ Hge); congruence].
    pose proof (li_ids _ _ Hi) as Hnd. rewrite Htf fmap_app in Hnd. apply NoDup_app in Hnd as (_ & Hx & _). intros He. apply (Hx _ Hin).
    rewrite He. apply list_elem_of_fmap. by exists g.
  - destruct (jf_versions _ _ Hfr f Hf) as [Hin|Hv]; [|cbn in Hv; pose proof (fi_version _ _ _ _ Hge); lia].
    pose proof (li_versions _ _ Hi) as Hnd. rewrite Htf fmap_app in Hnd. apply NoDup_app in Hnd as (_ & Hx & _). intros He.
    apply (Hx (bf_version f)); [apply list_elem_of_fmap; by exists f|]. rewrite He. apply list_elem_of_fmap. by exists g.
Qed.

(** What the tree is after the job. *)
Lemma lsm_after_job n t ess l0 l1 ls es0 es1 j' :
  lsm_inv t (es0 :: es1 :: ess) -> lt_levels t = l0 :: l1 :: ls -> job_done n (lt_job l0 l1 t) es0 es1 j' ->
  exists es1', lsm_inv (lt_after_job 0 j' t) ([] :: es1' :: ess) /\
    forall k, lsm_lookup k (lt_after_job 0 j' t) ([] :: es1' :: ess) = lsm_lookup k t (es0 :: es1 :: ess).
Proof.
  intros Hi Heq [Hfr _ _ _ Hl1 (gs & Hl2) (es1' & Hok & Hlk)]. exists es1'. pose proof Hok as [K1 K2 K3 K4 K5 K6 K7 K8 _ K10].
  assert (lt_levels (lt_after_job 0 j' t) = lv_set_files [] l0 :: lv_set_files gs l1 :: ls) as Hlv by (cbn; by rewrite Heq Hl1 Hl2).
  assert (jb_files j' = gs) as Hgs by (by rewrite /jb_files Hl1 Hl2). rewrite Hgs in K7, K8. rewrite Hl2 in K6, K10.
  pose proof (other_distinct t ess l0 l1 ls es0 es1 j' ) as Hne. rewrite Hgs in Hne.
  pose proof (tree_files_two _ _ _ _ Hlv) as Htf. cbn [lv_set_files lv_files app] in Htf.
  pose proof (tree_files_two _ _ _ _ Heq) as Htf0.
  destruct (li_level0 _ _ Hi) as (l0' & ls' & Heq' & L1 & L2 & L3 & L4). rewrite Heq in Heq'. injection Heq' as <- <-. apply Forall_cons in L4 as [[L4 _] L5].
  split; [split|].
  - apply (li_mt _ _ Hi).
  - apply (li_mt_keys _ _ Hi).
  - done.
  - done.
  - done.
  - rewrite Hlv. constructor; [constructor|]. constructor; [done|]. by eapply other_levels.
  - rewrite Hlv. eexists _, _. split; [reflexivity|]. split; [done|]. split; [constructor|]. split; [constructor|]. by constructor.
  - rewrite Htf fmap_app. apply NoDup_app. split; [done|]. split.
    + intros x (f & -> & Hf)%list_elem_of_fmap (g & He & Hg)%list_elem_of_fmap. destruct (Hne f g) as [Hx _]; done.
    + pose proof (li_ids _ _ Hi) as Hnd. rewrite Htf0 fmap_app in Hnd. by apply NoDup_app in Hnd as (_ & _ & ?).
  - rewrite Htf fmap_app. apply NoDup_app. split; [done|]. split.
    + intros x (f & -> & Hf)%list_elem_of_fmap (g & He & Hg)%list_elem_of_fmap. destruct (Hne f g) as [_ Hx]; done.
    + pose proof (li_versions _ _ Hi) as Hnd. rewrite Htf0 fmap_app in Hnd. by apply NoDup_app in Hnd as (_ & _ & ?).
  - intros l0' ls' f g. rewrite Hlv. intros [= <- <-]. by intros ?%elem_of_nil.
  - intros k. rewrite /lsm_lookup. cbn [lt_memtable lt_after_job]. destruct (mt_map _ !! k) as [r|]; [done|].
    change (<[1%nat := _]> _) with (lt_levels (lt_after_job 0 j' t)). rewrite Hlv Heq. cbn [disk_lookup lv_set_files lv_files sources zip_with].
    rewrite /newest. cbn [foldl]. rewrite -/(newest k _). cbn [deep_lookup foldr]. rewrite Hlk /pair_lookup. cbn [lt_job jb_level1].
    by destruct (newest k (sources (lv_files l0) es0)) as [[v r]|].
Qed.

(** The catalogue still describes the tree. *)
Lemma lsm_reg_job n t ess l0 l1 ls es0 es1 j' :
  lsm_inv t (es0 :: es1 :: ess) -> lsm_reg t -> lt_levels t = l0 :: l1 :: ls -> job_done n (lt_job l0 l1 t) es0 es1 j' ->
  lsm_reg (lt_after_job 0 j' t).
Proof.
  intros Hi Hg Heq [Hfr _ _ Hsz Hl1 (gs & Hl2) _]. pose proof Hg as [G1 G2 G3 G4].
  assert (lt_levels (lt_after_job 0 j' t) = lv_set_files [] l0 :: lv_set_files gs l1 :: ls) as Hlv by (cbn; by rewrite Heq Hl1 Hl2).
  assert (lv_level l1 = 1) as Hlev by (apply (lg_number t 1 l1 Hg); by rewrite Heq).
  rewrite Heq in G1, G3. apply Forall_cons in G3 as [G0 G3]. apply Forall_cons in G3 as [_ G3].
  pose proof (jf_level _ _ Hfr) as Hjl. rewrite Hl2 in Hsz, Hjl. split.
  - rewrite Hlv. cbn [lt_after_job lt_catalogue]. rewrite (new_levels_geom _ _ (jf_geom _ _ Hfr)) -G1. by rewrite !fmap_cons.
  - intros i l f. rewrite Hlv. destruct i as [|[|i]].
    + intros [= <-]. by intros ?%elem_of_nil.
    + intros [= <-]. cbn [lv_set_files lv_files]. intros Hf. destruct (Hjl f Hf) as [Hin|Hin]; [|by rewrite Hin].
      apply (G2 1%nat l1); [by rewrite Heq|done].
    + intros Hl. apply (G2 (S (S i))). by rewrite Heq.
  - rewrite Hlv. constructor; [rewrite /lv_size in G0 |- *; cbn; lia|]. by constructor.
  - cbn [lt_after_job lt_catalogue]. intros fd Hfd Hu. destruct (cat_geom_eq _ _ (jf_geom _ _ Hfr)) as (_ & _ & G). rewrite G in Hfd.
    rewrite (jf_used _ _ Hfr fd Hfd) in Hu. rewrite (tree_files_two _ _ _ _ Hlv) fmap_app elem_of_app.
    apply orb_true_iff in Hu as [Hu%bool_decide_eq_true|[Hn Hu]%andb_true_iff].
    + left. rewrite /jb_files Hl1 Hl2 in Hu. exact Hu.
    + right. apply negb_true_iff, bool_decide_eq_false in Hn. specialize (G4 fd Hfd Hu). rewrite (tree_files_two _ _ _ _ Heq) fmap_app elem_of_app in G4.
      destruct G4 as [Hin|?]; [|done]. by apply Hn in Hin.
Qed.

(** ** Writing the memtable out *)

(** Level 0 can be compacted: there is a level below with room. *)
Definition compaction_room (fuel : nat) t (ess : list (list (list ent))) : Prop :=
  exists l0 l1 ls es0 es1 ess', lt_levels t = l0 :: l1 :: ls /\ ess = es0 :: es1 :: ess' /\
    lv_files l0 <> [] /\ bit_level_is_full l0 = true /\ bit_level_is_full l1 = false /\ 0 < lv_max_size l0 /\
    job_room fuel (lt_job l0 l1 t) es0 es1 /\
    cat_version (lt_catalogue t) +
      Z.of_nat (length (lv_files l0) + length (concat (job_input (lt_job l0 l1 t) es0 es1))) < 2 ^ 64 - 1.
(** Level 0 has room. *)
Definition level0_room t : Prop :=
  exists l0 ls, lt_levels t = l0 :: ls /\ bit_level_is_full l0 = false /\ lv_size l0 < lv_max_size l0 /\
    cat_version (lt_catalogue t) < 2 ^ 64 - 1 /\ exists fd, 0 <= fd < cat_max_fd (lt_catalogue t) /\ cat_used (lt_catalogue t) fd = false.
Definition flush_room (fuel : nat) t ess : Prop :=
  chunk_ok (mt_ents (lt_memtable t)) /\ (level0_room t \/ compaction_room fuel t ess).

(** What a flush leaves. *)
Record flushed t ess t' ess' : Prop := {
  fl_inv : lsm_inv t' ess';
  fl_memtable : mt_map (lt_memtable t') = ∅;
  fl_lookup k : lsm_lookup k t' ess' = lsm_lookup k t ess;
  fl_reg : lsm_reg t -> lsm_reg t'
}.

Lemma mt_size_zero t ess : lsm_inv t ess -> mt_size (lt_memtable t) = 0 -> mt_map (lt_memtable t) = ∅.
Proof. intros Hi Hz. rewrite mt_size_ok in Hz; [|apply (li_mt _ _ Hi)]. apply map_size_empty_inv. lia. Qed.

Lemma minor_flush_flushed fd0 t ess l0 ls :
  lsm_inv t ess -> lt_levels t = l0 :: ls -> lv_size l0 < lv_max_size l0 -> chunk_ok (mt_ents (lt_memtable t)) ->
  cat_version (lt_catalogue t) < 2 ^ 64 - 1 -> (exists fd, 0 <= fd < cat_max_fd (lt_catalogue t) /\ cat_used (lt_catalogue t) fd = false) ->
  exists t' ess', minor_flush garbage_buffer fd0 t = Some t' /\ flushed t ess t' ess'.
Proof.
  intros Hi Heq Hroom Hch Hv Hfree.
  destruct (minor_flush_ok garbage_buffer fd0 t ess l0 ls Hi Heq Hroom Hch Hv Hfree) as (t' & f & ess' & Hrun & Hi' & Hsz & Hlk & Hb & Hlv).
  exists t', ess'. split; [done|]. split; [done|by eapply mt_size_zero|done|]. intros Hg. eapply lsm_reg_add; try done.
  destruct (li_level0 _ _ Hi) as (l0' & ls' & Heq' & _ & Hs & _). rewrite Heq in Heq'. by injection Heq' as <- <-.
Qed.

Lemma minor_compaction_ok fuel fd0 t ess :
  lsm_inv t ess -> flush_room fuel t ess ->
  exists t' ess', lsm_tree_minor_compaction garbage_buffer garbage_leaf fuel fd0 t = Some t' /\ flushed t ess t' ess'.
Proof.
  intros Hi [Hch [(l0 & ls & Heq & Hnf & Hroom & Hv & Hfree)|
    (l0 & l1 & ls & es0 & es1 & ess0 & Heq & -> & Hne & Hfull & Hnf & Hmax & Hroom & Hver)]].
  { destruct (minor_flush_flushed fd0 t ess l0 ls Hi Heq Hroom Hch Hv Hfree) as (t' & ess' & Hrun & Hf). exists t', ess'.
    split; [|done]. rewrite /lsm_tree_minor_compaction Heq. cbn [lookup list_lookup]. by rewrite Hnf. }
  set (j := lt_job l0 l1 t) in *.
  destruct (compaction_run_done garbage_buffer garbage_leaf fuel fd0 j es0 es1 (tree_job_ok _ _ _ _ _ _ _ Hi Heq) Hne Hroom) as (j' & Hrun & Hd).
  destruct (lsm_after_job _ _ _ _ _ _ _ _ _ Hi Heq Hd) as (es1' & Hi' & Hlk). pose proof Hd as [_ Hv' Hfree _ Hl1 (gs & Hl2) _].
  assert (lt_levels (lt_after_job 0 j' t) = lv_set_files [] l0 :: lv_set_files gs l1 :: ls) as Hlv by (cbn; by rewrite Heq Hl1 Hl2).
  destruct (minor_flush_flushed fd0 _ _ (lv_set_files [] l0) (lv_set_files gs l1 :: ls) Hi' Hlv) as (t' & ess' & Hfl & [F1 F2 F3 F4]); try done.
  { cbn [lt_after_job lt_catalogue]. change (jb_cat j) with (lt_catalogue t) in Hv'. change (jb_level1 j) with l0 in Hv'. lia. }
  exists t', ess'. split; [|split; [done|done|intros k; by rewrite F3|]].
  - rewrite /lsm_tree_minor_compaction Heq. cbn [lookup list_lookup]. rewrite Hfull. cbn [length lsm_tree_major_compaction].
    rewrite Heq. cbn [lookup list_lookup]. rewrite Hnf Heq. cbn [lookup list_lookup]. fold j. rewrite Hrun. exact Hfl.
  - intros Hg. apply F4. by eapply lsm_reg_job.
Qed.
End lsm_compaction.
