(* ===== verification/LsmReopen.v ===== *)
(** * Opening the tree again

    [lsm_tree_init] reads the stats of all files from the catalogue, makes a
    [bit_file] of each (with the filter read back from the index file) and
    sorts it into its level.  The tree that results has the contents of the
    levels of the tree that was closed. *)
From S2P Require Import Prelude Codec BlockManager DiskStructs Crypto BitNode Superblock SegValidator Area Bloom Hashtable Catalogue Memtable BitFile BitTree BitFileSpec Level Compaction MergeFacts FileFacts CompactionFacts CompactionSpec CompactionLevel LsmTree LsmFacts.

(** ** Lists *)
Lemma Forall2_perm {A B D} (P : A -> B -> Prop) (g : A -> B -> D) l l' k :
  l ≡ₚ l' -> Forall2 P l k -> exists k', Forall2 P l' k' /\ zip_with g l' k' ≡ₚ zip_with g l k.
Proof.
  intros Hp. revert k. induction Hp as [|x l l' Hp IH|x y l|l l1 l' Hp1 IH1 Hp2 IH2] => k Hk.
  - exists k. by inversion Hk.
  - apply Forall2_cons_inv_l in Hk as (b & k1 & Hb & Hk & ->). destruct (IH k1 Hk) as (k' & Hk' & Hz). exists (b :: k').
    split; [by constructor|]. cbn. by rewrite Hz.
  - apply Forall2_cons_inv_l in Hk as (b & k1 & Hb & Hk & ->). apply Forall2_cons_inv_l in Hk as (b' & k2 & Hb' & Hk & ->).
    exists (b' :: b :: k2). split; [by repeat constructor|]. cbn. apply Permutation_swap.
  - destruct (IH1 k Hk) as (k1 & Hk1 & Hz1). destruct (IH2 k1 Hk1) as (k2 & Hk2 & Hz2). exists k2. split; [done|]. by rewrite Hz2.
Qed.

Lemma omap_fmap_eq {A B D} (g : A -> option B) (h : A -> option D) (p : B -> D) (l : list A) :
  (forall x, x ∈ l -> h x = p <$> g x) -> omap h l = p <$> omap g l.
Proof.
  induction l as [|x l IH] => He; [done|]. cbn [omap list_omap]. rewrite He; [|left].
  rewrite IH; [|intros y Hy; apply He; by right]. by destruct (g x).
Qed.

(** The files of a list in the order of their slots. *)
Definition file_by_id (fs : list bit_file) (fd : Z) : option bit_file := snd <$> list_find (fun f => bf_id f = fd) fs.
Definition files_by_id (n : Z) (fs : list bit_file) : list bit_file := omap (file_by_id fs) (seqZ 0 n).

Lemma file_by_id_some fs fd f : file_by_id fs fd = Some f -> f ∈ fs /\ bf_id f = fd.
Proof.
  intros ([i g] & (Hi & Hg & _)%list_find_Some & ->)%fmap_Some. split; [by eapply list_elem_of_lookup_2|done].
Qed.

Lemma file_by_id_none fs fd : file_by_id fs fd = None -> fd ∉ bf_id <$> fs.
Proof.
  intros Hn%fmap_None. apply list_find_None in Hn. intros (f & -> & Hf)%list_elem_of_fmap. eapply Forall_forall in Hn; [|exact Hf]. done.
Qed.

Lemma files_by_id_perm n fs :
  NoDup (bf_id <$> fs) -> (forall f, f ∈ fs -> 0 <= bf_id f < n) -> files_by_id n fs ≡ₚ fs.
Proof.
  intros Hnd Hr. apply NoDup_Permutation.
  - apply (NoDup_fmap_1 bf_id). eapply sublist_NoDup; [apply (NoDup_seqZ 0 n)|]. rewrite /files_by_id.
    induction (seqZ 0 n) as [|fd l IH]; [done|]. cbn [omap list_omap]. destruct (file_by_id fs fd) as [f|] eqn:E; [|by constructor].
    apply file_by_id_some in E as [_ <-]. rewrite fmap_cons. by constructor.
  - by apply (NoDup_fmap_1 bf_id).
  - intros f. rewrite /files_by_id list_elem_of_omap. split.
    + intros (fd & _ & [? _]%file_by_id_some). done.
    + intros Hf. exists (bf_id f). split; [apply elem_of_seqZ; specialize (Hr f Hf); lia|].
      destruct (file_by_id fs (bf_id f)) as [g|] eqn:E.
      * apply file_by_id_some in E as [Hg He]. f_equal. apply list_elem_of_lookup in Hf as [i Hi], Hg as [j Hj].
        assert (i = j) as ->; [|congruence]. eapply NoDup_lookup; [exact Hnd|by rewrite list_lookup_fmap Hi|].
        by rewrite list_lookup_fmap Hj /= He.
      * apply file_by_id_none in E. exfalso. apply E, list_elem_of_fmap. by exists f.
Qed.

(** The files of one level, among all files. *)
Lemma level_filter (ls : list bit_level) k i l :
  (forall j m f, ls !! j = Some m -> f ∈ lv_files m -> bf_level f = Z.of_nat (k + j)) -> ls !! i = Some l ->
  filter (fun f => bf_level f = Z.of_nat (k + i)) (concat (lv_files <$> ls)) = lv_files l.
Proof.
  revert k i. induction ls as [|m ls IH] => k i Hlev Hi; [done|]. rewrite fmap_cons. cbn [concat]. rewrite filter_app.
  assert (forall j m' f, ls !! j = Some m' -> f ∈ lv_files m' -> bf_level f = Z.of_nat (S k + j)) as Hlev'.
  { intros j m' f Hj Hf. rewrite (Hlev (S j) m' f Hj Hf). f_equal. lia. }
  pose proof (fun f => Hlev 0%nat m f eq_refl) as Hm. destruct i as [|i].
  - injection Hi as <-. rewrite filter_all; [|by apply Forall_forall]. rewrite filter_none; [by rewrite app_nil_r|].
    intros f (gs & Hf & (m' & -> & (j & Hj)%list_elem_of_lookup)%list_elem_of_fmap)%elem_of_flat. rewrite (Hlev' j m' f Hj Hf). lia.
  - rewrite filter_none; [|intros f Hf; rewrite (Hm f Hf); lia]. cbn [app]. rewrite -(IH (S k) i Hlev' Hi).
    apply list_filter_iff => f. by rewrite Nat.add_succ_r.
Qed.

Section lsm_reopen.
Context {M : Type} {mt : Memtable M record} {mt_ok : MemtableOk M record}.
Context {C : Type} {cat : LsmCatalogue C} {cat_ok : LsmCatalogueOk C}.
Context {gcm : Gcm} {gcm_ok : GcmOk}.
Implicit Types (t : lsm_tree (M := M) (C := C)) (c : C) (f : bit_file).

(** ** Loading one file *)

(** A file as it is right after loading: nothing cached. *)
Definition reset_file f : bit_file := bf_set_cached zero_leaf f.

Definition load_stat (file : area) (s : file_stat) : bit_file :=
  bit_file_create file (fs_root s) (fs_id s) (fs_level s) (fs_version s) (fs_first_key s) (fs_last_key s)
    (fs_root_key s) (fs_root_iv s) (fs_filter_begin s).

(** Stat and index file give the file back. *)
Lemma load_file_in c file f es : file_in c file f es -> load_stat file (bit_file_get_stats f) = reset_file f.
Proof.
  intros Hf. destruct (fi_filter _ _ _ _ Hf) as [He _]. rewrite /load_stat /reset_file /bf_set_cached /bit_file_create. cbn. by rewrite -He.
Qed.

Lemma reset_same f : bf_same f (reset_file f).
Proof. by exists zero_leaf. Qed.

Lemma reset_holds file f es : file_holds file f es -> file_holds file (reset_file f) es.
Proof. intros [(lo & hi & [H1 H2 H3 H4]) Hr]. split; [|done]. exists lo, hi. split; try done. Qed.

(** ** Loading all files *)
Lemma load_step file ls f l gs :
  0 <= bf_level f -> ls !! Z.to_nat (bf_level f) = Some l -> load_stat file (bit_file_get_stats f) = f ->
  (bit_level_add_file f l).2 = lv_set_files gs l ->
  load_file file (Some ls) (bit_file_get_stats f) = Some (<[Z.to_nat (bf_level f) := lv_set_files gs l]> ls).
Proof.
  intros Hl Hi Hload Hadd. rewrite /load_file. cbn [mbind option_bind]. rewrite /load_stat in Hload. rewrite Hload.
  cbn [bit_file_get_stats fs_level]. by rewrite Hi Hadd.
Qed.

(** Each level gets its files, in order. *)
Lemma load_all file fl ls :
  (forall f, f ∈ fl -> 0 <= bf_level f /\ is_Some (ls !! Z.to_nat (bf_level f)) /\ load_stat file (bit_file_get_stats f) = f) ->
  (forall i l, ls !! i = Some l -> StronglySorted file_le (lv_files l) /\
     lv_size l + Z.of_nat (length (filter (fun f => bf_level f = Z.of_nat i) fl)) <= lv_max_size l) ->
  exists ls', foldl (load_file file) (Some ls) (bit_file_get_stats <$> fl) = Some ls' /\ length ls' = length ls /\
    forall i l, ls !! i = Some l -> exists gs, ls' !! i = Some (lv_set_files gs l) /\ StronglySorted file_le gs /\
      gs ≡ₚ lv_files l ++ filter (fun f => bf_level f = Z.of_nat i) fl.
Proof.
  revert ls. induction fl as [|f fl IH] => ls Hf Hl.
  { exists ls. split; [done|]. split; [done|]. intros i l Hi. exists (lv_files l). split; [rewrite Hi; by destruct l|].
    split; [apply (Hl i l Hi)|by rewrite app_nil_r]. }
  destruct (Hf f ltac:(left)) as (H0 & [l Hi] & Hload). destruct (Hl _ _ Hi) as [Hs Hroom].
  rewrite filter_cons_True in Hroom; [|lia]. cbn [length] in Hroom.
  destruct (bit_level_add_file_ok l f Hs ltac:(lia)) as (gs & Hadd & Hgs & Hp).
  rewrite fmap_cons. cbn [foldl]. rewrite (load_step file ls f l gs H0 Hi Hload ltac:(by rewrite Hadd)).
  pose proof (lookup_lt_Some _ _ _ Hi) as Hlt.
  destruct (IH (<[Z.to_nat (bf_level f) := lv_set_files gs l]> ls)) as (ls' & Hrun & Hlen & Hls').
  - intros g Hg. destruct (Hf g ltac:(by right)) as (G1 & G2 & G3). split; [done|]. split; [|done].
    apply lookup_lt_is_Some. rewrite length_insert. by apply lookup_lt_is_Some.
  - intros i m Hm. destruct (decide (i = Z.to_nat (bf_level f))) as [->|Hne].
    + rewrite list_lookup_insert_eq // in Hm. injection Hm as <-. split; [done|]. rewrite /lv_size. cbn [lv_set_files lv_files lv_max_size].
      rewrite Hp. cbn [length]. rewrite /lv_size in Hroom. lia.
    + rewrite list_lookup_insert_ne // in Hm. destruct (Hl i m Hm) as [M1 M2]. split; [done|].
      rewrite filter_cons_False // in M2. lia.
  - exists ls'. split; [done|]. split; [by rewrite Hlen length_insert|]. intros i m Hm.
    destruct (decide (i = Z.to_nat (bf_level f))) as [->|Hne].
    + rewrite Hi in Hm. injection Hm as <-. destruct (Hls' (Z.to_nat (bf_level f)) (lv_set_files gs l)) as (hs & E1 & E2 & E3).
      { by rewrite list_lookup_insert_eq. }
      exists hs. split; [done|]. split; [done|]. rewrite E3. cbn [lv_set_files lv_files]. rewrite Hp filter_cons_True; [|lia].
      by rewrite -Permutation_middle.
    + destruct (Hls' i m) as (hs & E1 & E2 & E3); [by rewrite list_lookup_insert_ne|]. exists hs. split; [done|]. split; [done|].
      rewrite filter_cons_False; [done|lia].
Qed.

(** ** Level 0 in another order *)
Lemma lsm_inv_perm0 t ess l0 ls gs :
  lsm_inv t ess -> lt_levels t = l0 :: ls -> StronglySorted file_le gs -> gs ≡ₚ lv_files l0 ->
  exists ess', lsm_inv (lt_set_levels (lv_set_files gs l0 :: ls) t) ess' /\
    forall k, disk_lookup k (lv_set_files gs l0 :: ls) ess' = disk_lookup k (lt_levels t) ess.
Proof.
  intros Hi Heq Hs Hp. pose proof Hi as [H1 H2 H4 H5 H6 H7 (l0' & ls' & Heq' & L1 & L2 & L3 & L4) H9 H10 H11].
  rewrite Heq in Heq', H7. injection Heq' as <- <-. destruct ess as [|es0 ess]; [by inversion H7|]. apply Forall2_cons in H7 as [F0 F].
  destruct (Forall2_perm _ file_source (lv_files l0) gs es0 ltac:(done) F0) as (es0' & F0' & Hz). exists (es0' :: ess).
  assert (tree_files (lt_set_levels (lv_set_files gs l0 :: ls) t) ≡ₚ tree_files t) as Htf.
  { rewrite /tree_files. cbn [lt_set_levels lt_levels]. rewrite Heq !fmap_cons. cbn [concat lv_set_files lv_files]. by rewrite Hp. }
  split; [split; try done|].
  - by constructor.
  - exists (lv_set_files gs l0), ls. split; [done|]. split; [done|]. split; [done|]. split; [cbn; by rewrite Hp|done].
  - by rewrite Htf.
  - by rewrite Htf.
  - intros l0'' ls'' f g [= <- <-]. cbn [lv_set_files lv_files]. rewrite Hp. by apply (H11 l0 ls).
  - intros k. rewrite Heq. cbn [disk_lookup lv_set_files lv_files].
    assert (newest k (sources gs es0') = newest k (sources (lv_files l0) es0)) as ->; [|done].
    apply newest_perm; [|exact Hz]. rewrite (sources_versions _ _ _ _ F0'). by rewrite Hp.
Qed.
(** ** The tree that is opened *)

Definition reset_level (l : bit_level) : bit_level := lv_set_files (reset_file <$> lv_files l) l.

Lemma reset_level_same l : level_same l (reset_level l).
Proof.
  exists (reset_file <$> lv_files l). split; [done|]. apply Forall2_fmap_r, Forall_Forall2_diag, Forall_true => f. apply reset_same.
Qed.

Lemma reset_levels_hold file ls ess : levels_hold file ls ess -> levels_hold file (reset_level <$> ls) ess.
Proof.
  intros Hh. apply Forall2_fmap_l. eapply Forall2_impl; [exact Hh|]. intros l es Hl. apply Forall2_fmap_l.
  eapply Forall2_impl; [exact Hl|]. intros f e. apply reset_holds.
Qed.

Lemma tree_file_in t ess f : lsm_inv t ess -> f ∈ tree_files t -> exists i l es, lt_levels t !! i = Some l /\ f ∈ lv_files l /\
  file_in (lt_catalogue t) (io_file (lt_io t)) f es.
Proof.
  intros Hi (fs & Hf & (l & -> & (i & Hl)%list_elem_of_lookup)%list_elem_of_fmap)%elem_of_flat.
  destruct (Forall2_lookup_l _ _ _ _ _ (li_files _ _ Hi) Hl) as (es & _ & Hle).
  destruct (files_in_elem _ _ _ _ f Hle Hf) as (e & Hfe). by exists i, l, e.
Qed.

(** The files in the order the catalogue lists them. *)
Definition listed_files t : list bit_file := files_by_id (cat_max_fd (lt_catalogue t)) (reset_file <$> tree_files t).

Lemma reset_ids (fs : list bit_file) : bf_id <$> (reset_file <$> fs) = bf_id <$> fs.
Proof. by rewrite -list_fmap_compose. Qed.

Lemma listed_perm t ess : lsm_inv t ess -> listed_files t ≡ₚ reset_file <$> tree_files t.
Proof.
  intros Hi. apply files_by_id_perm; [rewrite reset_ids; apply (li_ids _ _ Hi)|].
  intros f (g & -> & Hg)%list_elem_of_fmap. destruct (tree_file_in t ess g Hi Hg) as (_ & _ & es & _ & _ & Hge). apply (fi_id _ _ _ _ Hge).
Qed.

Lemma listed_stats t ess :
  lsm_inv t ess -> lsm_reg t ->
  cat_get_all_file_stats (lt_catalogue t) = (Ok (bit_file_get_stats <$> listed_files t, 0), lt_catalogue t).
Proof.
  intros Hi Hg. rewrite (cat_all_stats_ok _ (li_cat _ _ Hi)). do 3 f_equal. apply omap_fmap_eq => fd Hfd. apply elem_of_seqZ in Hfd.
  destruct (file_by_id _ fd) as [g|] eqn:E.
  - apply file_by_id_some in E as [(f & -> & Hf)%list_elem_of_fmap <-]. destruct (tree_file_in t ess f Hi Hf) as (_ & _ & es & _ & _ & Hfe).
    change (bf_id (reset_file f)) with (bf_id f). rewrite (fi_used _ _ _ _ Hfe) (fi_stat _ _ _ _ Hfe). done.
  - apply file_by_id_none in E. rewrite reset_ids in E. destruct (cat_used _ fd) eqn:Eu; [|done]. exfalso. apply E, (lg_used _ Hg); [lia|done].
Qed.

Lemma reset_filter (fs : list bit_file) k : filter (fun f => bf_level f = k) (reset_file <$> fs) = reset_file <$> filter (fun f => bf_level f = k) fs.
Proof. induction fs as [|f fs IH]; [done|]. rewrite fmap_cons !filter_cons IH. cbn. by case_decide. Qed.

(** What belongs to one level. *)
Lemma listed_level t ess i l :
  lsm_inv t ess -> lsm_reg t -> lt_levels t !! i = Some l ->
  filter (fun f => bf_level f = Z.of_nat i) (listed_files t) ≡ₚ reset_file <$> lv_files l.
Proof.
  intros Hi Hg Hl. rewrite (listed_perm t ess Hi). rewrite reset_filter.
  rewrite -(level_filter (lt_levels t) 0 i l); [done| |done]. intros j m f Hj Hf. rewrite (lg_level _ Hg j m f Hj Hf). done.
Qed.

(** Loading gives every level its files back. *)
Lemma load_levels t ess :
  lsm_inv t ess -> lsm_reg t ->
  exists ls', foldl (load_file (io_file (lt_io t))) (Some (new_levels (lt_catalogue t))) (bit_file_get_stats <$> listed_files t) = Some ls' /\
    length ls' = length (lt_levels t) /\
    forall i l, lt_levels t !! i = Some l -> exists gs, ls' !! i = Some (lv_set_files gs l) /\ StronglySorted file_le gs /\ gs ≡ₚ reset_file <$> lv_files l.
Proof.
  intros Hi Hg. pose proof (lg_shape _ Hg) as Hsh.
  destruct (load_all (io_file (lt_io t)) (listed_files t) (new_levels (lt_catalogue t))) as (ls' & Hrun & Hlen & Hls').
  - intros f. rewrite (listed_perm t ess Hi). intros (g & -> & Hg')%list_elem_of_fmap.
    destruct (tree_file_in t ess g Hi Hg') as (i & l & es & Hl & Hin & Hge). pose proof (lg_level _ Hg i l g Hl Hin) as Hlev.
    change (bf_level (reset_file g)) with (bf_level g). rewrite Hlev Nat2Z.id. split; [lia|]. split.
    + rewrite -Hsh list_lookup_fmap Hl. by eexists.
    + exact (load_file_in _ _ _ _ Hge).
  - intros i l'. rewrite -Hsh list_lookup_fmap. intros (l & Hl & ->)%fmap_Some. split; [constructor|].
    rewrite (listed_level t ess i l Hi Hg Hl) length_fmap. cbn [lv_set_files lv_max_size]. pose proof (lg_size _ Hg) as Hsz.
    eapply Forall_lookup_1 in Hsz; [|exact Hl]. rewrite /lv_size in Hsz |- *. cbn. lia.
  - exists ls'. split; [done|]. split; [by rewrite Hlen -Hsh length_fmap|]. intros i l Hl.
    destruct (Hls' i (lv_set_files [] l)) as (gs & H1 & H2 & H3); [by rewrite -Hsh list_lookup_fmap Hl|].
    exists gs. split; [done|]. split; [done|]. rewrite H3 (listed_level t ess i l Hi Hg Hl). done.
Qed.

Lemma reset_disjoint fs : lv_disjoint fs -> lv_disjoint (reset_file <$> fs).
Proof.
  intros Hd. assert (Forall2 bf_same fs (reset_file <$> fs)) as Hs.
  { apply Forall2_fmap_r, Forall_Forall2_diag, Forall_true => f. apply reset_same. }
  by apply (same_fields _ _ Hs).
Qed.

(** The levels but the first are exactly the old ones. *)
Lemma load_levels_eq t ess l0 ls :
  lsm_inv t ess -> lsm_reg t -> lt_levels t = l0 :: ls ->
  exists gs, foldl (load_file (io_file (lt_io t))) (Some (new_levels (lt_catalogue t))) (bit_file_get_stats <$> listed_files t) =
      Some (lv_set_files gs l0 :: (reset_level <$> ls)) /\
    StronglySorted file_le gs /\ gs ≡ₚ reset_file <$> lv_files l0.
Proof.
  intros Hi Hg Heq. destruct (load_levels t ess Hi Hg) as (ls' & Hrun & Hlen & Hls'). rewrite Heq in Hlen, Hls'.
  destruct (Hls' 0%nat l0 eq_refl) as (gs & H0 & Hs & Hp). exists gs. split; [|done]. rewrite Hrun. f_equal.
  destruct ls' as [|l0' ls']; [done|]. injection H0 as ->. f_equal. cbn [length] in Hlen. injection Hlen as Hlen.
  destruct (li_level0 _ _ Hi) as (l0' & ls0 & Heq' & _ & _ & _ & L4). rewrite Heq in Heq'. injection Heq' as <- <-.
  apply list_eq_same_length with (length ls); [by rewrite length_fmap|done|]. intros i x y Hlt Hx Hy.
  rewrite list_lookup_fmap in Hy. apply fmap_Some in Hy as (l & Hl & ->).
  destruct (Hls' (S i) l Hl) as (hs & H1 & H2 & H3). cbn in H1. rewrite Hx in H1. injection H1 as ->. rewrite /reset_level. f_equal.
  apply disjoint_unique; [|done|done]. apply reset_disjoint. eapply Forall_lookup_1 in L4; [|exact Hl]. apply L4.
Qed.

(** Opening the catalogue and the index file of a tree gives a tree with the
    same files. *)
Lemma reopen_ok t ess empty io :
  lsm_inv t ess -> lsm_reg t -> mt_inv empty -> mt_map empty = ∅ -> io_file io = io_file (lt_io t) ->
  exists t' ess', lsm_tree_init empty io (lt_catalogue t) = Some t' /\ lsm_inv t' ess' /\ lt_memtable t' = empty /\
    lt_catalogue t' = lt_catalogue t /\ forall k, lsm_lookup k t' ess' = disk_lookup k (lt_levels t) ess.
Proof.
  intros Hi Hg Hm Hmap Hio. destruct (li_level0 _ _ Hi) as (l0 & ls & Heq & _).
  destruct (load_levels_eq t ess l0 ls Hi Hg Heq) as (gs & Hrun & Hs & Hp).
  set (t0 := {| lt_io := io; lt_catalogue := lt_catalogue t; lt_memtable := empty; lt_levels := lt_levels t |}).
  assert (lsm_inv t0 ess) as Hi0.
  { destruct Hi as [H1 H2 H4 H5 H6 H7 H8 H9 H10 H11]. split; try done; cbn [t0 lt_memtable lt_io]; [intros k r; by rewrite Hmap|by rewrite Hio]. }
  destruct (lsm_inv_caches t0 ess (reset_level <$> lt_levels t) Hi0) as [Hi1 Hlk1].
  { apply Forall2_fmap_r, Forall_Forall2_diag, Forall_true => l. apply reset_level_same. }
  { apply reset_levels_hold. eapply levels_files_hold, (li_files _ _ Hi0). }
  destruct (lsm_inv_perm0 _ ess _ _ gs Hi1 (f_equal (fmap (M := list) reset_level) Heq) Hs Hp) as (ess' & Hi2 & Hlk2).
  eexists _, ess'. split; [|split; [exact Hi2|split; [done|split; [done|]]]].
  - rewrite /lsm_tree_init (listed_stats t ess Hi Hg) Hio -/(new_levels (lt_catalogue t)) Hrun. done.
  - intros k. rewrite /lsm_lookup. cbn [lt_set_levels lt_memtable lt_levels t0]. rewrite Hmap lookup_empty.
    change (lv_set_files gs (reset_level l0)) with (lv_set_files gs l0) in Hlk2. rewrite Hlk2.
    specialize (Hlk1 k). rewrite /lsm_lookup in Hlk1. cbn [lt_set_levels lt_memtable lt_levels t0] in Hlk1. by rewrite Hmap lookup_empty in Hlk1.
Qed.
End lsm_reopen.
