(* ===== verification/LsmSpec.v ===== *)
(** * The LSM tree refines a map

    Puts and searches on a tree over an empty catalogue behave as on a finite
    map, across memtable flushes, until level 0 is due for compaction. *)
From S2P Require Import Prelude Codec BlockManager DiskStructs Crypto BitNode Superblock SegValidator Area Bloom Hashtable Catalogue Memtable RbMemtable BitFile BitTree BitFileSpec Level Compaction Instances LsmTree FileFacts LsmFacts.

Inductive lsm_op : Type :=
| OpPut (key : Z) (val : record)
| OpSearch (key : Z).

Definition op_ok (o : lsm_op) : Prop :=
  match o with OpPut k v => mt_key_ok k /\ cwf record_codec v | OpSearch k => mt_key_ok k end.
Definition is_put (o : lsm_op) : bool := match o with OpPut _ _ => true | OpSearch _ => false end.
Definition nr_puts (os : list lsm_op) : Z := count_true (is_put <$> os).

(** What the answers to the searches should be. *)
Fixpoint map_run (os : list lsm_op) (m : gmap Z record) : list (result record) :=
  match os with
  | [] => []
  | OpPut k v :: os => map_run os (<[k := v]> m)
  | OpSearch k :: os => to_result (m !! k) :: map_run os m
  end.

Lemma omap_none {A B} (f : A -> option B) (l : list A) : (forall x, x ∈ l -> f x = None) -> omap f l = [].
Proof.
  induction l as [|x l IH] => Hf; [done|]. cbn [omap list_omap]. rewrite Hf; [|left]. apply IH => y Hy. apply Hf. by right.
Qed.

Section lsm_spec.
Context {M : Type} {mt : Memtable M record} {mt_ok : MemtableOk M record}.
Context {C : Type} {cat : LsmCatalogue C} {cat_ok : LsmCatalogueOk C}.
Context {gcm : Gcm} {gcm_ok : GcmOk} {rng : Rng} {rng_ok : RngOk} {heap : MinHeap} {bs : Bsearch} {bs_ok : BsearchOk}.
Context (garbage_buffer : area) (garbage_leaf : list byte -> bit_leaf).
Implicit Types (t : lsm_tree (M := M) (C := C)) (c : C).

Fixpoint lsm_run (fuel : nat) (fd0 : Z) (os : list lsm_op) t : option (list (result record)) :=
  match os with
  | [] => Some []
  | OpPut k v :: os => lsm_tree_put garbage_buffer garbage_leaf fuel fd0 k v t ≫= lsm_run fuel fd0 os
  | OpSearch k :: os => let '(r, t) := lsm_tree_search k t in (fun rs => r :: rs) <$> lsm_run fuel fd0 os t
  end.

(** ** Opening a tree without files *)
Lemma create_levels_ok n capacity ratio :
  Forall (fun l => lv_level l <> 0 /\ lv_files l = []) (create_levels n capacity ratio).
Proof.
  revert capacity. induction n as [|n IH] => capacity; [constructor|]. cbn [create_levels].
  apply Forall_app. split; [apply IH|]. constructor; [|constructor]. split; [simpl; lia|done].
Qed.

Lemma no_files ls : Forall (fun l => lv_files l = []) ls -> concat (lv_files <$> ls) = [].
Proof. induction 1 as [|l ls Hl _ IH]; [done|]. by rewrite fmap_cons /= Hl. Qed.

Definition cat_empty c : Prop := forall fd, 0 <= fd < cat_max_fd c -> cat_used c fd = false.

(** Where a tree stands after [n] puts: level 0 has at most as many files as
    full memtables were put, and there is no file anywhere else. *)
Record run_inv (n : Z) t (m : gmap Z record) : Prop := {
  ri_rep : lsm_rep t m;
  ri_levels : exists l0 ls, lt_levels t = l0 :: ls /\ lv_capacity l0 = 4 /\ lv_max_size l0 = 12 /\
    Forall (fun l => lv_files l = []) ls /\
    lv_size l0 * DEFAULT_MEMTABLE_CAPACITY + mt_size (lt_memtable t) <= n /\
    cat_version (lt_catalogue t) - lv_size l0 <= 2 ^ 64 - 6;
  ri_used : forall fd, 0 <= fd < cat_max_fd (lt_catalogue t) -> cat_used (lt_catalogue t) fd = true ->
    fd ∈ bf_id <$> tree_files t;
  ri_max : 5 <= cat_max_fd (lt_catalogue t)
}.

Lemma init_ok empty io c :
  mt_inv empty -> mt_map empty = ∅ -> cat_inv c -> cat_geom_ok c -> cat_empty c -> 5 <= cat_max_fd c ->
  0 <= cat_version c <= 2 ^ 64 - 6 ->
  exists t, lsm_tree_init empty io c = Some t /\ run_inv 0 t ∅.
Proof.
  intros Hm Hmap Hc Hg He Hmax Hv. rewrite /lsm_tree_init (cat_all_stats_ok c Hc).
  assert (omap (fun fd => if cat_used c fd then cat_stat c fd else None) (seqZ 0 (cat_max_fd c)) = []) as ->.
  { apply omap_none. intros fd Hfd%elem_of_seqZ. rewrite He; [done|lia]. }
  cbn [foldl fmap option_fmap option_map]. eexists. split; [reflexivity|]. set (ls := create_levels _ _ _).
  pose proof (create_levels_ok (Z.to_nat (cat_nr_disk_level c - 1)) (cat_max_level_nr_file c) (cat_common_ratio c)) as Hls. fold ls in Hls.
  assert (Forall (fun l => lv_files l = []) ls) as Hnf by (eapply Forall_impl; [exact Hls|]; by intros l [_ ?]).
  assert (mt_size empty = 0) as Hsz by (rewrite mt_size_ok // Hmap map_size_empty //).
  split; [exists (replicate (S (length ls)) []); split; [|split]|..].
  - split; cbn [lt_memtable lt_catalogue lt_io lt_levels]; try done; try lia.
    + intros k r. by rewrite Hmap.
    + rewrite replicate_S. constructor; [by constructor|]. clear -Hnf. induction Hnf as [|l ls Hl _ IH]; [constructor|].
      rewrite replicate_S. constructor; [by rewrite Hl|done].
    + exists (bit_level_create 0 DEFAULT_LSM_LEVEL0_NR_FILE), ls. split; [done|]. split; [done|]. split; [constructor|]. split; [constructor|].
      eapply Forall_impl; [exact Hls|]. intros l [? Hl]. split; [done|]. rewrite Hl. split; constructor.
    + rewrite /tree_files fmap_cons. cbn [lt_levels concat]. rewrite (no_files _ Hnf). constructor.
    + rewrite /tree_files fmap_cons. cbn [lt_levels concat]. rewrite (no_files _ Hnf). constructor.
    + intros l0 ls' f g [= <- <-]. by intros ?%elem_of_nil.
  - cbn [lt_memtable]. rewrite Hsz. done.
  - intros k _. rewrite /lsm_lookup. cbn [lt_memtable lt_levels]. rewrite Hmap lookup_empty replicate_S. cbn [disk_lookup bit_level_create lv_files].
    clear. cbn. induction (length ls) as [|n IH]; [done|]. by rewrite replicate_S.
  - eexists _, ls. split; [reflexivity|]. split; [done|]. split; [done|]. split; [done|]. cbn [lt_memtable lt_catalogue].
    rewrite Hsz. split; [done|]. change (lv_size _) with 0. lia.
  - intros fd Hfd Hu. cbn [lt_catalogue] in *. rewrite He in Hu; done.
  - done.
Qed.

(** The tree that is opened, over a catalogue without files. *)
Lemma init_fields empty io c t : lsm_tree_init empty io c = Some t -> cat_inv c -> cat_empty c ->
  lt_catalogue t = c /\ lt_levels t = new_levels c.
Proof.
  intros Ht Hc He. rewrite /lsm_tree_init (cat_all_stats_ok c Hc) in Ht.
  rewrite omap_none in Ht; [by injection Ht as <-|]. intros fd Hfd%elem_of_seqZ. rewrite He; [done|lia].
Qed.

(** ** Steps *)
Lemma run_search n t m k : run_inv n t m -> mt_key_ok k ->
  let '(r, t') := lsm_tree_search k t in r = to_result (m !! k) /\ run_inv n t' m /\ (lsm_reg t -> lsm_reg t').
Proof.
  intros [(ess & Hi & Hsz & Hm) (l0 & ls & Heq & Hrest) Hu Hmax] Hk.
  pose proof (lsm_search_ok k t ess Hi Hk) as Hs. rewrite /lsm_tree_search in Hs |- *.
  pose proof (search_levels_ok t ess k Hi) as Hsl.
  destruct (mt_get (lt_memtable t) k) as [r|e].
  { destruct Hs as (-> & _). split; [by rewrite Hm|]. split; [|done]. split; [by exists ess| |done|done]. by exists l0, ls. }
  destruct (search_levels _ k (lt_levels t)) as [r ls']. destruct Hs as (-> & Hi' & Hlk), Hsl as (_ & Hsame & _).
  split; [by rewrite Hm|]. split; [|intros Hg; by apply lsm_reg_caches]. split.
  - exists ess. split; [done|]. split; [done|]. intros k' Hk'. rewrite Hlk. by apply Hm.
  - pose proof Hsame as Hs'. rewrite Heq in Hs'. apply Forall2_cons_inv_l in Hs' as (l0' & ls0 & (fs & -> & Hf) & Hs & ->).
    exists (lv_set_files fs l0), ls0. split; [done|]. destruct Hrest as (R1 & R2 & R3 & R4 & R5).
    assert (lv_size (lv_set_files fs l0) = lv_size l0) as Hls by (rewrite /lv_size /= (Forall2_length _ _ _ Hf) //).
    cbn [lt_memtable lt_catalogue]. rewrite Hls. split; [done|]. split; [done|]. split; [|done].
    clear -R3 Hs. induction Hs as [|l l' ls ls' (fs & -> & Hf) Hs IH]; [constructor|]. apply Forall_cons in R3 as [Hl R3].
    constructor; [|by apply IH]. cbn [lv_set_files lv_files]. rewrite Hl in Hf. by inversion Hf.
  - intros fd Hfd Huf. rewrite /tree_files. cbn [lt_levels]. rewrite (tree_ids_same _ _ Hsame). by apply Hu.
  - done.
Qed.

(** A free slot, by counting. *)
Lemma free_slot t : NoDup (bf_id <$> tree_files t) ->
  (forall fd, 0 <= fd < cat_max_fd (lt_catalogue t) -> cat_used (lt_catalogue t) fd = true -> fd ∈ bf_id <$> tree_files t) ->
  Z.of_nat (length (tree_files t)) < cat_max_fd (lt_catalogue t) ->
  exists fd, 0 <= fd < cat_max_fd (lt_catalogue t) /\ cat_used (lt_catalogue t) fd = false.
Proof.
  intros _ Hu Hlen. destruct (decide (Exists (fun fd => cat_used (lt_catalogue t) fd = false) (seqZ 0 (cat_max_fd (lt_catalogue t))))) as [Hex|Hno].
  - apply Exists_exists in Hex as (fd & Hfd%elem_of_seqZ & Hf). exists fd. split; [lia|done].
  - exfalso. assert (seqZ 0 (cat_max_fd (lt_catalogue t)) ⊆+ bf_id <$> tree_files t) as Hsub.
    { apply NoDup_submseteq; [apply NoDup_seqZ|]. intros fd Hfd. pose proof Hfd as Hr%elem_of_seqZ. apply Hu; [lia|].
      destruct (cat_used (lt_catalogue t) fd) eqn:E; [done|]. exfalso. apply Hno, Exists_exists. by exists fd. }
    apply submseteq_length in Hsub. rewrite length_fmap length_seqZ in Hsub. lia.
Qed.

Lemma run_put n t m fuel fd0 k v : run_inv n t m -> mt_key_ok k -> cwf record_codec v -> n + 1 < 5 * DEFAULT_MEMTABLE_CAPACITY ->
  exists t', lsm_tree_put garbage_buffer garbage_leaf fuel fd0 k v t = Some t' /\ run_inv (n + 1) t' (<[k := v]> m) /\ (lsm_reg t -> lsm_reg t').
Proof.
  intros [(ess & Hi & Hsz & Hm) (l0 & ls & Heq & R1 & R2 & R3 & R4 & R5) Hu Hmax] Hk Hv Hn.
  change DEFAULT_MEMTABLE_CAPACITY with 1048576 in *.
  assert (tree_files t = lv_files l0) as Htf by (by rewrite /tree_files Heq fmap_cons /= (no_files _ R3) app_nil_r).
  pose proof (mt_size_ok _ (li_mt _ _ Hi)) as Hs0.
  assert (lsm_room t) as Hroom.
  { rewrite /lsm_room. change DEFAULT_MEMTABLE_CAPACITY with 1048576.
    destruct (decide (mt_size (lt_memtable t) + 1 < 1048576)); [by left|right].
    split; [exists l0, ls; split; [done|lia]|]. split; [lia|]. apply free_slot; [apply (li_ids _ _ Hi)|done|].
    rewrite Htf. rewrite /lv_size in R4. lia. }
  destruct (put_ok garbage_buffer garbage_leaf fuel fd0 k v t ess Hi Hsz Hk Hv Hroom) as (t' & ess' & Hrun & Hi' & Hlk & Hcase).
  exists t'. split; [done|]. change DEFAULT_MEMTABLE_CAPACITY with 1048576 in Hcase.
  assert (mt_size (lt_memtable t') < 1048576) as Hsz'.
  { destruct Hcase as [(_ & _ & _ & ?)|(? & ? & ? & ? & _ & _ & _ & -> & _)]; [done|lia]. }
  assert (lsm_rep t' (<[k := v]> m)) as Hrep.
  { exists ess'. split; [done|]. split; [done|]. intros k' Hk'. rewrite Hlk lookup_insert.
    destruct (decide (k' = k)) as [->|]; case_decide; try done; try congruence. by apply Hm. }
  destruct Hcase as [(Hc & Hl & Hle & _)|(f & l0' & ls' & es & Heq' & Hcap & Hl & Hz & Hge & Hb)].
  - split; [|intros [G1 G2 G3 G4]; split; rewrite ?/tree_files ?Hl ?Hc //]. split; [done| | |by rewrite Hc].
    + rewrite Hl Hc Heq. exists l0, ls. do 4 (split; [done|]). change DEFAULT_MEMTABLE_CAPACITY with 1048576. lia.
    + intros fd. rewrite Hc /tree_files Hl. apply Hu.
  - rewrite Heq in Heq'. injection Heq' as <- <-. destruct (li_level0 _ _ Hi) as (l0'' & ls'' & Heq'' & _ & Hsort & _).
    rewrite Heq in Heq''. injection Heq'' as <- <-.
    destruct (bit_level_add_file_ok l0 f Hsort ltac:(lia)) as (fs' & Hadd & _ & Hp). rewrite Hadd in Hl. cbn [snd] in Hl.
    assert (lv_size (lv_set_files fs' l0) = lv_size l0 + 1) as Hls.
    { rewrite /lv_size. cbn [lv_set_files lv_files]. rewrite Hp. cbn [length]. lia. }
    destruct (cat_geom_eq _ _ (bt_geom _ _ _ _ _ _ _ Hb)) as (_ & _ & Hmx).
    split; [|intros Hg; eapply (lsm_reg_add t t' f l0 ls es); try done; [lia|by rewrite Hadd]].
    split; [done| | |by rewrite Hmx].
    + exists (lv_set_files fs' l0), ls. split; [done|]. split; [done|]. split; [done|]. split; [done|].
      rewrite Hls Hz (bt_next _ _ _ _ _ _ _ Hb). change DEFAULT_MEMTABLE_CAPACITY with 1048576. lia.
    + intros fd Hfd Huf. rewrite Hmx in Hfd. rewrite (bt_used _ _ _ _ _ _ _ Hb) // in Huf.
      rewrite /tree_files Hl fmap_cons. cbn [concat lv_set_files lv_files]. rewrite (no_files _ R3) app_nil_r Hp fmap_cons.
      apply orb_true_iff in Huf as [He%Z.eqb_eq|Huf]; [subst fd; left|]. right. rewrite -Htf. by apply Hu.
Qed.

Lemma run_ok fuel fd0 os n t m :
  run_inv n t m -> Forall op_ok os -> n + nr_puts os < 5 * DEFAULT_MEMTABLE_CAPACITY ->
  lsm_run fuel fd0 os t = Some (map_run os m).
Proof.
  revert n t m. induction os as [|o os IH] => n t m Hr; [done|]. intros [Ho Hos]%Forall_cons Hn.
  rewrite /nr_puts fmap_cons count_true_cons -/(nr_puts os) in Hn. pose proof (count_true_bound (is_put <$> os)) as Hc.
  rewrite -/(nr_puts os) in Hc. destruct o as [k v|k]; cbn [lsm_run map_run is_put] in *.
  - destruct Ho as [Hk Hv]. destruct (run_put n t m fuel fd0 k v Hr Hk Hv ltac:(lia)) as (t' & -> & Hr' & _).
    cbn [mbind option_bind]. apply (IH (n + 1) t'); [done|done|lia].
  - pose proof (run_search n t m k Hr Ho) as Hs. destruct (lsm_tree_search k t) as [r t']. destruct Hs as (-> & Hr' & _).
    rewrite (IH n t' m); [done|done|done|lia].
Qed.

(** C4: a tree opened over a catalogue without files, with at least five slots
    and a version counter of at most 2^64 - 6, answers any sequence of searches
    and of fewer than 5 * 2^20 puts as a finite map does, through the flushes
    of the memtable to level 0; the keys are those the memtable takes
    ([mt_key_ok]: below 2^31 for the driver's, see
    [rbtree_memtable_big_key_lost]) and the records fit their fields. *)
Theorem lsm_tree_refines_map empty io c fuel fd0 os :
  mt_inv empty -> mt_map empty = ∅ -> cat_inv c -> cat_geom_ok c -> cat_empty c -> 5 <= cat_max_fd c ->
  0 <= cat_version c <= 2 ^ 64 - 6 -> Forall op_ok os -> nr_puts os < 5 * DEFAULT_MEMTABLE_CAPACITY ->
  lsm_tree_init empty io c ≫= lsm_run fuel fd0 os = Some (map_run os ∅).
Proof.
  intros Hm Hmap Hc Hg He Hmax Hv Hos Hn. destruct (init_ok empty io c Hm Hmap Hc Hg He Hmax Hv) as (t & -> & Hr).
  cbn [mbind option_bind]. by apply (run_ok fuel fd0 os 0 t ∅).
Qed.
End lsm_spec.

Import ToyGcm ToyRng PlainRb LinearSearch ListHeap ListCatalogue.

(** A catalogue with eight free slots. *)
Definition sample_catalogue : ListCatalogue.cat :=
  {| ListCatalogue.lc_slots := replicate 8 (false, None); ListCatalogue.lc_version := 0; ListCatalogue.lcg_start := 0;
     ListCatalogue.lcg_size := calculate_bit_size DEFAULT_LSM_FILE_CAPACITY DEFAULT_BIT_DEGREE;
     ListCatalogue.lcg_levels := 2; ListCatalogue.lcg_ratio := 8; ListCatalogue.lcg_max := 8 |}.

Definition sample_ops : list lsm_op :=
  [OpPut 7 (zero_record); OpSearch 7; OpSearch 8; OpPut 9 zero_record; OpSearch 9].

Lemma lsm_tree_refines_map_witness :
  lsm_tree_init (M := rbtree_memtable record) rbtree_memtable_init io_zero sample_catalogue ≫=
    lsm_run area_zero (fun _ => zero_leaf) 0 0 sample_ops =
  Some [Ok zero_record; Err ENODATA; Ok zero_record].
Proof.
  rewrite (lsm_tree_refines_map (M := rbtree_memtable record) area_zero (fun _ => zero_leaf)
    rbtree_memtable_init io_zero sample_catalogue 0 0 sample_ops).
  - vm_compute. reflexivity.
  - apply rbtree_memtable_init_ok.
  - apply rbtree_memtable_init_ok.
  - exact I.
  - split; [reflexivity|vm_compute; congruence|vm_compute; congruence].
  - intros fd Hfd. change (cat_max_fd sample_catalogue) with 8 in Hfd.
    change (cat_used sample_catalogue fd) with (default false (fst <$> replicate 8 (false, @None file_stat) !! Z.to_nat fd)).
    rewrite lookup_replicate_2; [reflexivity|lia].
  - vm_compute. congruence.
  - split; vm_compute; congruence.
  - repeat (constructor; [vm_compute; repeat split; congruence|]). constructor.
  - vm_compute. reflexivity.
Defined.
