(* ===== verification/DiskIndex.v ===== *)
(** * The tree over the metadata device

    The catalogue the LSM tree uses is the one of [struct metadata], on the
    same block manager as the other tables.  Seen through [struct metadata] it
    keeps the promises of [struct lsm_catalogue] and leaves the other tables as
    they are. *)
From S2P Require Import Prelude Codec BlockManager DiskStructs Crypto BitNode Superblock SegValidator Dst Area Bloom Hashtable Catalogue Metadata DiskMeta Memtable BitFile BitTree Level Compaction CatalogueIface FileFacts LsmTree LsmFacts LsmSpec.

(** ** What the catalogue leaves alone *)
Definition bc_geom (c : bit_catalogue) :=
  (sv_nr_segment (bc_bit_validity_table c), (lc_start c, lc_file_size c, lc_nr_disk_level c, lc_common_ratio c, lc_max_level_nr_file c)).
Record bc_frame (c c' : bc_state) : Prop := {
  bf_geom : bc_geom c'.1 = bc_geom c.1;
  bf_bitv : db_array (seg_validity_table (bc_bit_validity_table c'.1)) = db_array (seg_validity_table (bc_bit_validity_table c.1));
  bf_stats : bc_file_stats c'.1 = bc_file_stats c.1;
  bf_blocks b : ~ da_owns (db_array (seg_validity_table (bc_bit_validity_table c.1))) b -> ~ da_owns (bc_file_stats c.1) b ->
    bm_block c'.2 b = bm_block c.2 b
}.

Lemma bc_frame_sv c v bm : sv_frame (bc_bit_validity_table c.1, c.2) (v, bm) -> bc_frame c (bc_set_validity v c.1, bm).
Proof.
  intros (Ht & Hn & Hf). cbn [fst snd] in *. split; cbn [bc_set_validity fst snd bc_bit_validity_table bc_file_stats]; [|by rewrite Ht|done|].
  - rewrite /bc_geom. cbn [bc_set_validity bc_bit_validity_table]. by rewrite Hn.
  - intros b Hb _. by apply Hf.
Qed.

Lemma bitc_alloc_frame c : bc_inv c -> match bitc_alloc_file c with (Ok _, c') => bc_frame c c' | (Err _, _) => True end.
Proof.
  intros (_ & Hsv & _). rewrite bitc_alloc_file_sv /bc_sv /se_zoom. pose proof (seg_validator_alloc_spec _ _ Hsv) as Hsp.
  destruct (seg_validator_alloc _) as [[fd|e] [v bm]]; [|done]. destruct Hsp as (_ & _ & _ & _ & Hf). by apply bc_frame_sv.
Qed.
Lemma bitc_release_frame c fd : bc_inv c -> 0 <= fd < bc_max_fd c -> bc_frame c (bitc_release_file fd c).2.
Proof.
  intros (_ & Hsv & _) Hfd. destruct (seg_validator_test_and_return_spec _ _ fd Hsv Hfd) as (old & [v bm] & Hrun & _ & _ & Hf & _).
  rewrite /bitc_release_file /se_bind /bc_sv /se_zoom Hrun. by apply bc_frame_sv.
Qed.
Lemma bitc_set_stats_frame c fd s : bc_inv c -> 0 <= fd < bc_max_fd c -> cwf file_stat_codec s -> bc_frame c (bitc_set_file_stats fd s c).2.
Proof.
  intros ((Hwf & Hsz & Hn) & _ & Hda) Hfd Hs. rewrite /bitc_set_file_stats /bc_bm.
  destruct (disk_array_set_ok (bc_file_stats c.1) c.2 fd (cenc file_stat_codec s) Hda) as (bm & -> & _ & Hf & _).
  - rewrite Hn. exact Hfd.
  - by rewrite cenc_length // Hsz /FILE_STAT_SIZE Nat2Z.id.
  - split; [done|done|done|]. intros b _ Hb. by apply Hf.
Qed.

Section disk_index.
Context (N : Z).
Implicit Types (st : md_state).

(** The other tables show what they show in [st]. *)
Record md_keeps st st' : Prop := {
  mk_inv : md_inv N st';
  mk_used i : md_used st' i = md_used st i;
  mk_valid b : md_valid N st' b = md_valid N st b;
  mk_lba b : md_lba N st' b = md_lba N st b;
  mk_victims : md_victims st' = md_victims st;
  mk_root : md_rooted st st'
}.

Lemma md_keeps_refl st : md_inv N st -> md_keeps st st.
Proof. done. Qed.
Lemma md_keeps_trans st1 st2 st3 : md_keeps st1 st2 -> md_keeps st2 st3 -> md_keeps st1 st3.
Proof.
  intros [H1 H2 H3 H4 H5 H6] [I1 I2 I3 I4 I5 I6]. split; [done|..|by eapply md_rooted_trans]; intros; by rewrite ?I2 ?I3 ?I4 ?I5.
Qed.

Lemma md_bc_frame st c : md_inv N st -> bc_inv c -> bc_frame (md_bc st) c -> md_keeps st (md_with_bc c.1 st.1, c.2).
Proof.
  intros [I1 I2 I3 I4 I5 I6 I7 I8 I9] Hc [F0 F1 F2 F3]. destruct c as [c bm]. cbn [fst snd md_bc] in *.
  assert (bm_ok bm) as Hok by (by destruct Hc as (_ & _ & (_ & ? & _))). pose proof I9 as [A1 A2 A3 A4 A5 A6 A7 A8 A9 A10].
  assert (forall a, apart a (bitv_array st.1) -> apart a (stats_array st.1) -> forall b, da_owns a b -> bm_block bm b = bm_block st.2 b) as Hown.
  { intros a H1 H2 b Hb. apply F3; [by apply H1|by apply H2]. }
  assert (forall a, apart a (bitv_array st.1) -> apart a (stats_array st.1) -> da_inv a st.2 ->
    da_inv a bm /\ forall i, 0 <= i < da_nr_entry a -> da_entry a bm i = da_entry a st.2 i) as Harr.
  { intros a H1 H2 (Hw & _ & Hm). split; [split; [done|]; split; [done|]; intros b Hb; rewrite (Hown a) //; by apply Hm|].
    intros i Hi. rewrite /da_entry (Hown a) //. by apply da_owns_entry. }
  pose proof I1 as ([Hwf Hda] & _). destruct (Harr _ A3 A4 Hda) as [S1 S2]. destruct (sv_inv_same _ _ bm I1 S1 S2) as [S3 S4].
  pose proof I3 as (Hdw & Hdd & _). cbn [fst snd] in Hdw, Hdd. destruct (Harr _ A6 A7 Hdd) as [D1 D2].
  assert (forall s, 0 <= s < dst_nr_segment (md_dst st.1) -> dst_entry_at (md_dst st.1, bm) s = dst_entry_at (md_dst st.1, st.2) s) as D3.
  { intros s Hs. rewrite /dst_entry_at. cbn [fst snd]. rewrite D2 //. destruct Hdw as [_ ->]. exact Hs. }
  pose proof (dst_inv_same _ _ bm I3 D1 D3) as D4. destruct (Harr _ A8 A9 I5) as [R1 R2].
  split.
  - split; try done. apply (md_apart_same st.1); [|done]. rewrite /md_arrays /bitv_array /stats_array. cbn [md_with_bc md_bit_catalogue]. by rewrite F1 F2.
  - intros i. rewrite /md_used. cbn [md_with_bc fst snd md_seg_validator]. by rewrite S4.
  - apply md_valid_ext; [done|]. intros s Hs. apply D3. by rewrite I4.
  - apply md_lba_ext. intros b Hb. apply R2. by rewrite I6.
  - done.
  - split.
    + rewrite /md_geom /md_arrays /bitv_array /stats_array. cbn [md_with_bc fst md_bit_catalogue]. rewrite F1 F2. injection F0 as -> -> -> -> -> ->. done.
    + intros b (_ & _ & _ & Hb4 & Hb5). cbn [snd]. by apply F3.
Qed.

(** ** The catalogue through [struct metadata]

    The invariant says that the other tables still show what they show in [K]. *)
Definition md_catalogue (K : md_state) : LsmCatalogue md_state := {|
  cat_alloc_file := md_on_bitc bitc_alloc_file;
  cat_release_file fd := md_on_bitc (bitc_release_file fd);
  cat_set_file_stats fd s := md_on_bitc (bitc_set_file_stats fd s);
  cat_get_all_file_stats := md_on_bitc bitc_get_all_file_stats;
  cat_get_next_version := md_on_bitc bitc_get_next_version;
  cat_start st := cat_start (md_bc st);
  cat_file_size st := cat_file_size (md_bc st);
  cat_nr_disk_level st := cat_nr_disk_level (md_bc st);
  cat_common_ratio st := cat_common_ratio (md_bc st);
  cat_max_level_nr_file st := cat_max_level_nr_file (md_bc st);
  cat_inv st := md_keeps K st;
  cat_max_fd st := cat_max_fd (md_bc st);
  cat_used st := cat_used (md_bc st);
  cat_stat st := cat_stat (md_bc st);
  cat_version st := cat_version (md_bc st)
|}.

Lemma md_bc_inv st : md_inv N st -> cat_inv (md_bc st).
Proof. intros Hi. split; [apply (mi_bc _ _ Hi)|apply (mi_apart _ _ Hi)]. Qed.

(** A catalogue call, seen from [struct metadata]. *)
Lemma md_on_bitc_keeps K st c : md_keeps K st -> cat_inv c -> bc_frame (md_bc st) c -> md_keeps K (md_with_bc c.1 st.1, c.2).
Proof. intros Hk [Hc _] Hf. eapply md_keeps_trans; [exact Hk|]. apply md_bc_frame; [apply (mk_inv _ _ Hk)|done|done]. Qed.

Lemma md_catalogue_ok (K : md_state) : @LsmCatalogueOk md_state (md_catalogue K).
Proof.
  split.
  - intros st Hk. pose proof (md_bc_inv st (mk_inv _ _ Hk)) as Hc. pose proof (cat_alloc_ok (md_bc st) Hc) as Hal.
    pose proof (bitc_alloc_frame (md_bc st) (proj1 Hc)) as Hf.
    cbn [md_catalogue cat_alloc_file]. rewrite /md_on_bitc /se_zoom. change (cat_alloc_file (md_bc st)) with (bitc_alloc_file (md_bc st)) in Hal.
    fold (md_bc st). destruct (bitc_alloc_file (md_bc st)) as [[fd|e] c']; [|exact Hal].
    destruct Hal as (H1 & H2 & H3 & H4 & H5 & H6 & H7 & H8). destruct c' as [c' bm'].
    split; [exact H1|]. split; [exact H2|]. split; [by apply (md_on_bitc_keeps K st (c', bm'))|]. split; [exact H4|].
    split; [exact H5|]. split; [exact H6|]. split; [exact H7|exact H8].
  - intros st fd Hk Hfd. pose proof (md_bc_inv st (mk_inv _ _ Hk)) as Hc.
    destruct (cat_release_ok (md_bc st) fd Hc Hfd) as (c' & Hrun & H3 & H4 & H5 & H6 & H7 & H8).
    pose proof (bitc_release_frame (md_bc st) fd (proj1 Hc) Hfd) as Hf. change (bitc_release_file fd (md_bc st)) with (cat_release_file fd (md_bc st)) in Hf.
    rewrite Hrun in Hf. destruct c' as [c' bm']. exists (md_with_bc c' st.1, bm').
    split; [cbn [md_catalogue cat_release_file]; rewrite /md_on_bitc /se_zoom; fold (md_bc st); by rewrite [bitc_release_file _ _]Hrun|].
    split; [by apply (md_on_bitc_keeps K st (c', bm'))|]. split; [exact H4|]. split; [exact H5|]. split; [exact H6|]. split; [exact H7|exact H8].
  - intros st fd s Hk Hfd Hs. pose proof (md_bc_inv st (mk_inv _ _ Hk)) as Hc.
    destruct (cat_set_stats_ok (md_bc st) fd s Hc Hfd Hs) as (c' & Hrun & H3 & H4 & H5 & H6 & H7).
    pose proof (bitc_set_stats_frame (md_bc st) fd s (proj1 Hc) Hfd Hs) as Hf. change (bitc_set_file_stats fd s (md_bc st)) with (cat_set_file_stats fd s (md_bc st)) in Hf.
    rewrite Hrun in Hf. destruct c' as [c' bm']. exists (md_with_bc c' st.1, bm').
    split; [cbn [md_catalogue cat_set_file_stats]; rewrite /md_on_bitc /se_zoom; fold (md_bc st); by rewrite [bitc_set_file_stats _ _ _]Hrun|].
    split; [by apply (md_on_bitc_keeps K st (c', bm'))|]. split; [exact H4|]. split; [exact H5|]. split; [exact H6|exact H7].
  - intros st Hk Hv. pose proof (md_bc_inv st (mk_inv _ _ Hk)) as Hc.
    destruct (cat_next_version_ok (md_bc st) Hc Hv) as (c' & Hrun & H3 & H4 & H5 & H6).
    assert (bc_frame (md_bc st) c') as Hf by (injection Hrun as <-; done). destruct c' as [c' bm']. exists (md_with_bc c' st.1, bm').
    split; [cbn [md_catalogue cat_get_next_version]; rewrite /md_on_bitc /se_zoom; fold (md_bc st); by rewrite [bitc_get_next_version _]Hrun|].
    split; [by apply (md_on_bitc_keeps K st (c', bm'))|]. split; [exact H4|]. split; [exact H5|exact H6].
  - intros st Hk. pose proof (md_bc_inv st (mk_inv _ _ Hk)) as Hc. pose proof (cat_all_stats_ok (md_bc st) Hc) as Hall.
    cbn [md_catalogue cat_get_all_file_stats]. rewrite /md_on_bitc /se_zoom. fold (md_bc st). rewrite [bitc_get_all_file_stats _]Hall.
    by destruct st as [[] ?].
Qed.
End disk_index.
