(* ===== verification/DiskState.v ===== *)
(** * The data path over the tree and the tables

    The index of the data path is the LSM tree, its tables are those of
    [struct metadata], and the tree's catalogue is one of them: the state is
    the tree with the metadata device as its catalogue.  It meets the laws the
    data path is verified against. *)
From S2P Require Import Prelude Codec BlockManager DiskStructs Crypto BitNode Superblock SegValidator Dst Area Bio Bloom Hashtable Catalogue Metadata DiskMeta Memtable BitFile BitTree BitFileSpec Level Compaction CatalogueIface FileFacts LsmTree LsmFacts LsmSpec DiskIndex Segment DataPath Cleaning.

Section disk_state.
Context {M : Type} {mt : Memtable M record} {mt_ok : MemtableOk M record}.
Context {gcm : Gcm} {gcm_ok : GcmOk} {rng : Rng} {rng_ok : RngOk} {heap : MinHeap} {bs : Bsearch} {bs_ok : BsearchOk}.
Context (garbage_buffer : area) (garbage_leaf : list byte -> bit_leaf) (fuel : nat) (fd0 : Z).
(** The number of segments and of logical blocks. *)
Context (N nr_lba : Z) (nr_lba_ok : nr_lba <= 2 ^ 64) (nr_lba_keys : forall k, 0 <= k < nr_lba -> mt_key_ok k).
(** The metadata as they were opened: the tables stay where they are. *)
Context (root : md_state).

Definition disk : Type := lsm_tree (M := M) (C := md_state).
Implicit Types (t : disk) (st : md_state).

Definition lt_set_catalogue st t : disk :=
  {| lt_io := lt_io t; lt_catalogue := st; lt_memtable := lt_memtable t; lt_levels := lt_levels t |}.
Definition on_md {A} (m : SE md_state A) : SE disk A := se_zoom lt_catalogue lt_set_catalogue m.

(** The functions of [struct lsm_tree] and [struct metadata] the data path calls. *)
#[local] Instance disk_index : LsmIndex disk := {|
  ix_search lba t := lsm_tree_search lba t;
  ix_put lba r t := lsm_tree_put (cat := md_catalogue N (lt_catalogue t)) garbage_buffer garbage_leaf fuel fd0 lba r t
|}.
#[local] Instance disk_meta : DataMeta disk := {|
  sv_next := on_md (md_sv seg_validator_next);
  sv_take seg := on_md (md_sv (seg_validator_take seg));
  sv_test_and_return seg := on_md (md_sv (seg_validator_test_and_return seg));
  sv_count := on_md (md_sv seg_validator_valid_segment_count);
  ds_take_segment seg := on_md (md_on_dst (dst_take_segment seg));
  ds_take_block b := on_md (md_on_dst (dst_take_block b));
  ds_return_block b := on_md (md_on_dst (dst_return_block b));
  ds_victim_empty t := dst_victim_empty (md_dst (lt_catalogue t).1);
  ds_peek_victim t := dst_peek_victim (md_dst (lt_catalogue t).1);
  ds_remove_victim seg := on_md (md_on_dst (dst_remove_victim seg));
  ds_threaded t := should_threaded_logging (md_dst (lt_catalogue t).1);
  rt_set b lba := on_md (md_on_rit (fun r => reverse_index_table_set r b lba));
  rt_get b := on_md (md_on_rit (fun r => reverse_index_table_get r b))
|}.

(** ** What is seen of the state *)

(** The map the tree answers searches from. *)
Definition search_map t (l : list Z) : gmap Z record :=
  foldr (fun k m => match (lsm_tree_search k t).1 with Ok r => <[k := r]> m | Err _ => m end) ∅ l.
Definition disk_map t : gmap Z record := search_map t (seqZ 0 nr_lba).

Definition tree_run (K : md_state) (n : Z) (t : disk) (m : gmap Z record) : Prop :=
  run_inv (cat := md_catalogue N K) n t m /\ lsm_reg (cat := md_catalogue N K) t /\ md_rooted root (lt_catalogue t) /\
  forall k, is_Some (m !! k) -> 0 <= k < nr_lba.

#[local] Instance disk_view : DataView disk := {|
  x_inv t := exists n m, tree_run (lt_catalogue t) n t m;
  x_map := disk_map;
  x_used t := md_used (lt_catalogue t);
  x_valid t := md_valid N (lt_catalogue t);
  x_lba t := md_lba N (lt_catalogue t);
  x_victims t := md_victims (lt_catalogue t);
  x_key k := 0 <= k < nr_lba;
  x_room k t := exists n m, tree_run (lt_catalogue t) n t m /\ n + Z.of_nat k < 5 * DEFAULT_MEMTABLE_CAPACITY
|}.

Lemma search_map_lookup t l k :
  search_map t l !! k = if bool_decide (k ∈ l) then match (lsm_tree_search k t).1 with Ok r => Some r | Err _ => None end else None.
Proof.
  induction l as [|x l IH]; [done|]. cbn [search_map foldr]. fold (search_map t l).
  destruct (decide (k = x)) as [->|Hne].
  - rewrite (bool_decide_true (x ∈ x :: l)); [|left]. destruct (lsm_tree_search x t).1; [by rewrite lookup_insert_eq|]. rewrite IH. by destruct (bool_decide _).
  - rewrite (bool_decide_ext (k ∈ x :: l) (k ∈ l)); [|rewrite elem_of_cons; naive_solver].
    destruct (lsm_tree_search x t).1; [rewrite lookup_insert_ne //|]; by rewrite IH.
Qed.

Lemma search_map_ext t t' l : (forall k, k ∈ l -> (lsm_tree_search k t').1 = (lsm_tree_search k t).1) -> search_map t' l = search_map t l.
Proof. intros H. apply map_eq => k. rewrite !search_map_lookup. case_bool_decide; [by rewrite H|done]. Qed.

Lemma disk_map_run K n t m k : tree_run K n t m -> disk_map t !! k = if bool_decide (0 <= k < nr_lba) then m !! k else None.
Proof.
  intros Hr. rewrite /disk_map search_map_lookup (bool_decide_ext _ (0 <= k < nr_lba)); [|rewrite elem_of_seqZ; lia].
  case_bool_decide as Hk; [|done]. pose proof (run_search (cat := md_catalogue N K) n t m k (proj1 Hr) (nr_lba_keys k Hk)) as Hs.
  destruct (lsm_tree_search k t) as [r t']. destruct Hs as (-> & _). cbn [fst]. by destruct (m !! k).
Qed.

(** ** The tree with another catalogue state *)
Lemma bc_same_used c c' fd : bc_same c c' -> cat_used c' fd = cat_used c fd.
Proof. intros Hs. cbn [cat_used bit_catalogue_iface]. by rewrite (bs_bits _ _ Hs). Qed.

Lemma file_in_move K K' st st' file f es :
  bc_same (md_bc st) (md_bc st') -> file_in (cat := md_catalogue N K) st file f es -> file_in (cat := md_catalogue N K') st' file f es.
Proof.
  intros Hb [F1 F2 F3 F4 F5 F6 F7 F8 F9 F10]. pose proof Hb as [B1 B2 B3 _ B5]. injection B1 as G1 G2 _ _ _.
  assert (@slot_lo md_state (md_catalogue N K') st' = @slot_lo md_state (md_catalogue N K) st) as Hs.
  { rewrite /slot_lo. cbn. by rewrite G1 G2. }
  cbn in G2. split; try done.
  - cbn. by rewrite B2.
  - cbn [cat_used md_catalogue]. rewrite (bc_same_used _ _ _ Hb). exact F2.
  - cbn. by rewrite B3.
  - rewrite Hs. cbn. rewrite G2. exact F4.
  - rewrite Hs. cbn. rewrite G2. exact F6.
  - cbn [cat_stat md_catalogue bit_catalogue_iface]. rewrite B5 //.
  - rewrite Hs. cbn. rewrite G2. exact F10.
Qed.

Lemma lsm_inv_move K K' t ess st' :
  lsm_inv (cat := md_catalogue N K) t ess -> md_keeps N K' st' -> bc_same (md_bc (lt_catalogue t)) (md_bc st') ->
  lsm_inv (cat := md_catalogue N K') (lt_set_catalogue st' t) ess.
Proof.
  intros [H1 H2 H3 H4 H5 H6 H7 H8 H9 H10] Hk Hb. pose proof Hb as [B1 B2 B3 B4 B5]. injection B1 as G1 G2 G3 G4 G5.
  split; try done.
  - destruct H4 as [C1 C2 C3]. cbn in C1, C2, C3. split; cbn; by rewrite ?G1 ?G2 ?B2.
  - cbn in H5 |- *. by rewrite B3.
  - cbn [lt_set_catalogue lt_levels lt_io lt_catalogue]. eapply Forall2_impl; [exact H6|]. intros l e Hl. eapply Forall2_impl; [exact Hl|].
    intros f es. by apply file_in_move.
Qed.

Lemma lsm_reg_move K K' t st' :
  lsm_reg (cat := md_catalogue N K) t -> bc_same (md_bc (lt_catalogue t)) (md_bc st') -> lsm_reg (cat := md_catalogue N K') (lt_set_catalogue st' t).
Proof.
  intros [G1 G2 G3 G4] Hb. pose proof Hb as [B1 B2 _ _ _]. injection B1 as E1 E2 E3 E4 E5. split; try done.
  - cbn [lt_set_catalogue lt_levels lt_catalogue]. rewrite G1 /new_levels. cbn [cat_nr_disk_level cat_max_level_nr_file cat_common_ratio md_catalogue bit_catalogue_iface].
    by rewrite E3 E4 E5.
  - intros fd Hfd Hu. apply G4; [cbn [cat_max_fd md_catalogue bit_catalogue_iface lt_set_catalogue lt_catalogue] in Hfd |- *; by rewrite B2 in Hfd|].
    cbn [cat_used md_catalogue lt_set_catalogue lt_catalogue] in Hu |- *. by rewrite (bc_same_used _ _ fd Hb) in Hu.
Qed.

Lemma tree_run_move K K' n t m st' :
  tree_run K n t m -> md_keeps N K' st' -> bc_same (md_bc (lt_catalogue t)) (md_bc st') -> md_rooted (lt_catalogue t) st' ->
  tree_run K' n (lt_set_catalogue st' t) m.
Proof.
  intros ([(ess & Hi & Hsz & Hm) Hl Hu Hx] & Hg & Hr & Hkey) Hk Hb Hr'. pose proof Hb as [B1 B2 B3 B4 B5].
  split; [|split; [by apply (lsm_reg_move K)|split; [by eapply md_rooted_trans|done]]]. split.
  - exists ess. split; [by apply (lsm_inv_move K)|done].
  - destruct Hl as (l0 & ls & L1 & L2 & L3 & L4 & L5 & L6). exists l0, ls. do 5 (split; [done|]). cbn in L6 |- *. by rewrite B3.
  - intros fd. cbn [cat_used cat_max_fd md_catalogue lt_set_catalogue lt_catalogue]. rewrite (bc_same_used _ _ _ Hb). cbn [cat_max_fd bit_catalogue_iface]. rewrite B2. exact (Hu fd).
  - cbn in Hx |- *. by rewrite B2.
Qed.

Lemma tree_run_rebase K n t m : tree_run K n t m -> tree_run (lt_catalogue t) n t m.
Proof.
  intros Hr. pose proof Hr as ([(ess & Hi & _) _ _ _] & _). pose proof (li_cat _ _ Hi) as Hk. cbn in Hk.
  pose proof (tree_run_move K (lt_catalogue t) n t m (lt_catalogue t) Hr (md_keeps_refl _ _ (mk_inv _ _ _ Hk)) (bc_same_refl _) (md_rooted_refl _)) as Hr'.
  by destruct t.
Qed.

Lemma tree_run_md K n t m : tree_run K n t m -> md_keeps N K (lt_catalogue t).
Proof. intros ([(ess & Hi & _) _ _ _] & _). exact (li_cat _ _ Hi). Qed.
Lemma disk_md t : x_inv t -> md_inv N (lt_catalogue t).
Proof. intros (n & m & Hr). exact (mk_inv _ _ _ (tree_run_md _ _ _ _ Hr)). Qed.

(** ** The laws *)
Lemma search_catalogue k t : lt_catalogue (lsm_tree_search k t).2 = lt_catalogue t.
Proof. rewrite /lsm_tree_search. destruct (mt_get _ k); [done|]. by destruct (search_levels _ k _). Qed.

Lemma disk_search_ok t lba : x_inv t -> x_key lba ->
  exists t', ix_search lba t = (match x_map t !! lba with Some r => Ok r | None => Err ENODATA end, t') /\ x_same t t'.
Proof.
  intros (n & m & Hr) Hk. pose proof (search_catalogue lba t) as Hc.
  assert (forall n m, tree_run (lt_catalogue t) n t m -> tree_run (lt_catalogue t) n (lsm_tree_search lba t).2 m) as Hkeep.
  { intros n' m' (Hr' & Hg' & Hro & Hkey). pose proof (run_search (cat := md_catalogue N (lt_catalogue t)) n' t m' lba Hr' (nr_lba_keys lba Hk)) as Hs.
    split; [|split; [|by rewrite Hc]]; destruct (lsm_tree_search lba t) as [r t']; destruct Hs as (_ & H1 & H2); [done|by apply H2]. }
  pose proof (run_search (cat := md_catalogue N (lt_catalogue t)) n t m lba (proj1 Hr) (nr_lba_keys lba Hk)) as Hs. cbn [ix_search disk_index].
  change (x_map t) with (disk_map t). rewrite (disk_map_run _ _ _ _ lba Hr) bool_decide_true //.
  pose proof (Hkeep _ _ Hr) as Hr'. destruct (lsm_tree_search lba t) as [r t']. destruct Hs as (-> & _). cbn [snd] in *.
  exists t'. split; [by destruct (m !! lba)|]. split; [split; cbn; rewrite ?Hc //|].
  - by exists n, m.
  - apply map_eq => k. by rewrite (disk_map_run _ _ _ _ k Hr') (disk_map_run _ _ _ _ k Hr).
  - intros k (n' & m' & Hr1 & Hlt). exists n', m'. split; [|done]. rewrite Hc. by apply Hkeep.
Qed.

Lemma disk_put_ok t lba r : x_inv t -> x_key lba -> x_room 1 t -> cwf record_codec r ->
  exists t', ix_put lba r t = Some t' /\ x_is t' (<[lba := r]> (x_map t)) (x_used t) (x_valid t) (x_lba t) (x_victims t) /\
    forall n, x_room (S n) t -> x_room n t'.
Proof.
  intros _ Hk (n & m & Hr & Hlt) Hwf.
  assert (forall n m, tree_run (lt_catalogue t) n t m -> n + 1 < 5 * DEFAULT_MEMTABLE_CAPACITY ->
    exists t', ix_put lba r t = Some t' /\ tree_run (lt_catalogue t) (n + 1) t' (<[lba := r]> m)) as Hput.
  { intros n1 m1 (Hr1 & Hg1 & Hro & Hkey1) Hlt1.
    destruct (run_put (cat_ok := md_catalogue_ok N (lt_catalogue t)) garbage_buffer garbage_leaf n1 t m1 fuel fd0 lba r Hr1 (nr_lba_keys lba Hk) Hwf)
      as (t' & Hrun & Hr' & Hg'); [lia|]. exists t'. split; [exact Hrun|]. split; [done|]. split; [by apply Hg'|]. split.
    - eapply md_rooted_trans; [exact Hro|]. destruct Hr' as [(ess & Hi & _) _ _ _]. exact (mk_root _ _ _ (li_cat _ _ Hi)).
    - intros k. rewrite lookup_insert. case_decide as Hd; [by subst k|]. apply Hkey1. }
  destruct (Hput n m Hr ltac:(lia)) as (t' & Hrun & Hr').
  destruct (tree_run_md _ _ _ _ Hr') as [K1 K2 K3 K4 K5 K6]. exists t'. split; [exact Hrun|]. split; [split; try done|].
  - exists (n + 1), (<[lba := r]> m). by apply (tree_run_rebase (lt_catalogue t)).
  - apply map_eq => k. change (x_map ?a) with (disk_map a). rewrite (disk_map_run _ _ _ _ k Hr').
    destruct (decide (k = lba)) as [->|Hne]; [rewrite !lookup_insert_eq bool_decide_true //|].
    by rewrite !lookup_insert_ne // (disk_map_run _ _ _ _ k Hr).
  - intros j (n1 & m1 & Hr1 & Hlt1). destruct (Hput n1 m1 Hr1 ltac:(lia)) as (t2 & Hrun2 & Hr2).
    assert (t2 = t') as -> by congruence. exists (n1 + 1), (<[lba := r]> m1). split; [by apply (tree_run_rebase (lt_catalogue t))|lia].
Qed.

(** Before the first flush the records are all in the memtable. *)
Lemma tree_run_memtable K n t m : tree_run K n t m -> n < DEFAULT_MEMTABLE_CAPACITY -> mt_map (lt_memtable t) = disk_map t.
Proof.
  intros Hr Hn. pose proof Hr as ([(ess & Hi & Hsz & Hm) (l0 & ls & Heq & _ & _ & Hnf & Hle & _) _ _] & _ & _ & Hkey).
  assert (forall k, disk_lookup k (lt_levels t) ess = None) as Hnone.
  { assert (lv_files l0 = []) as H0.
    { rewrite /lv_size in Hle. destruct (lv_files l0); [done|]. cbn [length] in Hle. pose proof (mt_size_ok _ (li_mt _ _ Hi)). change DEFAULT_MEMTABLE_CAPACITY with 1048576 in *. lia. }
    intros k. pose proof (li_files _ _ Hi) as Hf. rewrite Heq in Hf |- *. apply Forall2_cons_inv_l in Hf as (es0 & ess' & H1 & H2 & ->). rewrite H0 in H1. apply Forall2_nil_inv_l in H1 as ->.
    cbn [disk_lookup]. rewrite H0. change (newest k (sources [] [])) with (@None (Z * record)). cbn iota.
    clear -Hnf H2. induction H2 as [|l e ls ess' Hl H2 IH]; [done|]. apply Forall_cons in Hnf as [Hl0 Hnf]. rewrite Hl0 in Hl. apply Forall2_nil_inv_l in Hl as ->.
    cbn [deep_lookup foldr]. change (level_lookup k []) with (@None record). cbn iota. by apply IH. }
  apply map_eq => k. rewrite (disk_map_run K n t m k Hr). case_bool_decide as Hk.
  - rewrite (Hm k (nr_lba_keys k Hk)) /lsm_lookup Hnone. by destruct (mt_map (lt_memtable t) !! k).
  - destruct (mt_map (lt_memtable t) !! k) as [r|] eqn:E; [|done]. exfalso. apply Hk, Hkey. destruct (li_mt_keys _ _ Hi k r E) as [Hko _].
    rewrite (Hm k Hko) /lsm_lookup E. by eexists.
Qed.

(** The entry of a segment holds its validity bits and counts them; a victim is
    a copy of its segment's entry. *)
Lemma entry_bits st seg : md_inv N st -> 0 <= seg < N ->
  exists e, dst_entry_at (md_dst st.1, st.2) seg = Some e /\ de_block_validity_table e = seg_bits (md_valid N st) seg /\
    de_nr_valid_block e = seg_count (md_valid N st) seg.
Proof.
  intros Hi Hr. destruct (mi_dst _ _ Hi) as (_ & _ & Hent & _). rewrite /dst_entries_ok (mi_dst_nr _ _ Hi) in Hent.
  destruct (Hent _ Hr) as (e & He & [Hl Hc]). exists e. split; [done|]. change (Z.to_nat BLOCKS_PER_SEGMENT) with 1024%nat in Hl.
  assert (de_block_validity_table e = seg_bits (md_valid N st) seg) as Hb; [|split; [done|by rewrite Hc /seg_count -Hb]].
  apply list_eq => i. destruct (decide (i < 1024)%nat) as [Hlt|Hge]; [|rewrite !lookup_ge_None_2 // ?length_seg_bits; lia].
  replace i with (Z.to_nat (Z.of_nat i)) by lia. rewrite seg_bits_lookup; [|lia]. rewrite Nat2Z.id.
  assert (__block_to_segment (seg * 1024 + Z.of_nat i) = seg) as Hs by (apply seg_of; lia).
  rewrite (md_valid_at N st e); [|change BLOCKS_PER_SEGMENT with 1024; lia|by rewrite Hs].
  rewrite /entry_bit /__block_offset_whthin_segment. change BLOCKS_PER_SEGMENT with 1024. rewrite Z.add_comm Z.mod_add // Z.mod_small; [|lia].
  rewrite Nat2Z.id. by destruct (lookup_lt_is_Some_2 (de_block_validity_table e) i ltac:(lia)) as [x ->].
Qed.
Lemma victim_bits st v : md_inv N st -> v ∈ dst_victims (md_dst st.1) ->
  vi_block_validity_table v = seg_bits (md_valid N st) (vi_segno v) /\ vi_nr_valid_block v = seg_count (md_valid N st) (vi_segno v).
Proof.
  intros Hi Hin. destruct (mi_dst _ _ Hi) as (_ & _ & _ & (_ & _ & _ & Hv)). cbn [fst] in Hv. rewrite (mi_dst_nr _ _ Hi) in Hv.
  destruct (Hv v Hin) as (Hr & _ & He). destruct (entry_bits st (vi_segno v) Hi Hr) as (e & He' & Hb). rewrite He in He'. by injection He' as <-.
Qed.

(** A search does not look at the catalogue. *)
Lemma search_move k t st' : (lsm_tree_search k (lt_set_catalogue st' t)).1 = (lsm_tree_search k t).1.
Proof.
  rewrite /lsm_tree_search. cbn [lt_set_catalogue lt_memtable lt_io lt_levels]. destruct (mt_get _ k); [done|]. by destruct (search_levels _ k _).
Qed.
Lemma disk_map_move t st' : disk_map (lt_set_catalogue st' t) = disk_map t.
Proof. apply search_map_ext. intros k _. apply search_move. Qed.

(** ** The laws of the tables

    They hold for every invariant [inv] that is kept when the tables change and
    the catalogue stays as it is. *)
Section tables.
Context (inv : disk -> Prop) (keys : Z -> Prop) (room : nat -> disk -> Prop).
#[local] Instance view_of : DataView disk := {|
  x_inv := inv; x_map := disk_map;
  x_used t := md_used (lt_catalogue t); x_valid t := md_valid N (lt_catalogue t);
  x_lba t := md_lba N (lt_catalogue t); x_victims t := md_victims (lt_catalogue t);
  x_key := keys; x_room := room
|}.
Definition table_move t st' : Prop :=
  md_inv N st' /\ bc_same (md_bc (lt_catalogue t)) (md_bc st') /\ md_rooted (lt_catalogue t) st'.
Hypothesis Hmd : forall t, inv t -> md_inv N (lt_catalogue t).
Hypothesis Hstep : forall t st', inv t -> table_move t st' -> inv (lt_set_catalogue st' t).
Hypothesis Hroom : forall n t st', room n t -> table_move t st' -> room n (lt_set_catalogue st' t).
Hypothesis Hle : forall t n k, (n <= k)%nat -> room k t -> room n t.
Hypothesis Hkey : forall k, keys k -> 0 <= k < 2 ^ 64.
Hypothesis Hsearch : forall t lba, x_inv t -> x_key lba ->
  exists t', ix_search lba t = (match x_map t !! lba with Some r => Ok r | None => Err ENODATA end, t') /\ x_same t t'.
Hypothesis Hput : forall t lba r, x_inv t -> x_key lba -> x_room 1 t -> cwf record_codec r ->
  exists t', ix_put lba r t = Some t' /\ x_is t' (<[lba := r]> (x_map t)) (x_used t) (x_valid t) (x_lba t) (x_victims t) /\
    forall n, x_room (S n) t -> x_room n t'.

(** A step of the tables. *)
Lemma tables_step t st' used valid lba vs :
  x_inv t -> md_step N (lt_catalogue t) st' used valid lba vs -> x_next t (lt_set_catalogue st' t) used valid lba vs.
Proof.
  intros Hx [S1 S2 S3 S4 S5 S6 S7]. assert (table_move t st') as Hmv by done.
  split; [split; try done; [by apply Hstep|apply disk_map_move]|intros k Hk; by apply Hroom].
Qed.

Lemma tables_peek_ok t : x_inv t ->
  match ds_peek_victim t with
  | Some v => vi_segno v ∈ x_victims t /\ vi_block_validity_table v = seg_bits (x_valid t) (vi_segno v) /\
      vi_nr_valid_block v = seg_count (x_valid t) (vi_segno v) /\
      (forall i, i ∈ x_victims t -> vi_nr_valid_block v <= seg_count (x_valid t) i)
  | None => x_victims t = ∅
  end.
Proof.
  intros Hx. pose proof (Hmd t Hx) as Hi. cbn [ds_peek_victim disk_meta x_victims x_valid view_of].
  set (st := lt_catalogue t) in *. pose proof (fun v x => dst_peek_victim_first _ v x (mi_dst _ _ Hi)) as Hfirst. cbn [fst] in Hfirst.
  destruct (dst_peek_victim (md_dst st.1)) as [v|] eqn:Ep.
  - assert (v ∈ dst_victims (md_dst st.1)) as Hin.
    { rewrite /dst_peek_victim /rb_first in Ep. destruct (dst_victims (md_dst st.1)); [done|]. injection Ep as ->. left. }
    destruct (victim_bits st v Hi Hin) as [Hb Hn]. split; [apply elem_md_victims; by exists v|]. split; [done|]. split; [done|].
    intros i (w & Hw & <-)%elem_md_victims. destruct (victim_bits st w Hi Hw) as [_ <-]. by apply Hfirst.
  - rewrite /dst_peek_victim /rb_first in Ep. rewrite /md_victims. by destruct (dst_victims (md_dst st.1)).
Qed.

Lemma tables_path_ok : DataPathOk disk N.
Proof.
  split.
  - exact Hle.
  - intros t i Hx (v & Hv & <-)%elem_md_victims. pose proof (Hmd t Hx) as Hi.
    destruct (mi_dst _ _ Hi) as (_ & _ & _ & (_ & _ & _ & Hall)). cbn [fst] in Hall. rewrite (mi_dst_nr _ _ Hi) in Hall. by apply Hall.
  - exact Hsearch.
  - exact Hput.
  - intros t Hx. pose proof (md_sv_next_ok N _ (Hmd t Hx)) as Hn. cbn [sv_next disk_meta]. rewrite /on_md /se_zoom.
    destruct (md_sv seg_validator_next (lt_catalogue t)) as [[seg|e] st'].
    + destruct Hn as (H1 & H2 & H3). split; [done|]. split; [done|]. by apply tables_step.
    + destruct Hn as (H1 & H2). split; [by apply tables_step|done].
  - intros t seg Hx Hs. destruct (md_sv_take_ok N _ seg (Hmd t Hx) Hs) as (st' & Hrun & Hst). eexists.
    split; [cbn [sv_take disk_meta]; by rewrite /on_md /se_zoom Hrun|by apply tables_step].
  - intros t seg Hx Hs. destruct (md_sv_return_ok N _ seg (Hmd t Hx) Hs) as (st' & Hrun & Hst). eexists.
    split; [cbn [sv_test_and_return disk_meta]; by rewrite /on_md /se_zoom Hrun|by apply tables_step].
  - intros t Hx. pose proof (Hmd t Hx) as Hi. eexists.
    split; [cbn [sv_count disk_meta]; by rewrite /on_md /se_zoom (md_sv_count_ok N _ Hi)|]. apply (tables_step t); [done|by apply md_same_refl].
  - intros t seg Hx Hs Hf. destruct (md_take_segment_ok N _ seg (Hmd t Hx) Hs Hf) as (st' & Hrun & Hst). eexists.
    split; [cbn [ds_take_segment disk_meta]; by rewrite /on_md /se_zoom Hrun|by apply tables_step].
  - intros t b Hx Hb Hv. pose proof (md_return_block_ok N _ b (Hmd t Hx) Hb Hv) as Hst. cbn [ds_return_block disk_meta].
    rewrite /on_md /se_zoom. destruct (md_on_dst (dst_return_block b) (lt_catalogue t)) as [r st']. by apply tables_step.
  - apply tables_peek_ok.
  - intros t Hx. cbn. rewrite /dst_victim_empty /md_victims. destruct (dst_victims (md_dst (lt_catalogue t).1)) as [|v l]; [by rewrite bool_decide_true|].
    rewrite bool_decide_false // fmap_cons list_to_set_cons. set_solver.
  - intros t Hx. cbn [ds_threaded ds_peek_victim disk_meta]. rewrite /should_threaded_logging /dst_peek_victim /dst_victim_empty.
    by destruct (dst_victims (md_dst (lt_catalogue t).1)).
  - intros t seg Hx. pose proof (md_remove_victim_ok N _ seg (Hmd t Hx)) as Hst. cbn [ds_remove_victim disk_meta].
    rewrite /on_md /se_zoom. destruct (md_on_dst (dst_remove_victim seg) (lt_catalogue t)) as [r st']. by apply tables_step.
  - intros t b lba Hx Hb Hk. pose proof (md_rit_set_ok N _ b lba (Hmd t Hx) Hb (Hkey lba Hk)) as Hst. cbn [rt_set disk_meta].
    rewrite /on_md /se_zoom. destruct (md_on_rit (fun r => reverse_index_table_set r b lba) (lt_catalogue t)) as [r st']. by apply tables_step.
  - intros t b Hx Hb. pose proof (Hmd t Hx) as Hi. eexists.
    split; [cbn [rt_get disk_meta]; by rewrite /on_md /se_zoom (md_rit_get_ok N _ b Hi Hb)|]. apply (tables_step t); [done|by apply md_same_refl].
  - intros t i Hx (v & Hv & <-)%elem_md_victims. pose proof (Hmd t Hx) as Hi.
    destruct (mi_dst _ _ Hi) as (_ & _ & _ & (_ & _ & _ & Hall)). cbn [fst] in Hall. destruct (Hall v Hv) as (_ & Hlt & _).
    destruct (victim_bits _ v Hi Hv) as [_ Hn]. cbn [x_valid view_of]. by rewrite -Hn.
  - intros t b Hx Hb Hv. destruct (md_take_block_ok N _ b (Hmd t Hx) Hb Hv) as (Hvs & Hopen & Hst). eexists. split; [exact Hvs|]. split.
    { intros Hc. change (seg_count (fun b' => (b' =? b) || md_valid N (lt_catalogue t) b') (__block_to_segment b) < BLOCKS_PER_SEGMENT) in Hc.
      assert (0 <= __block_to_segment b < N) as Hr.
      { rewrite /__block_to_segment. change BLOCKS_PER_SEGMENT with 1024 in *. split; [apply Z.div_pos; lia|apply Z.div_lt_upper_bound; lia]. }
      destruct (entry_bits _ _ (ms_inv _ _ _ _ _ _ _ Hst) Hr) as (e & He & _ & Hn). apply (Hopen e He). rewrite Hn.
      by rewrite (seg_count_ext _ _ _ (fun b' _ => ms_valid _ _ _ _ _ _ _ Hst b')). }
    cbn [ds_take_block disk_meta]. rewrite /on_md /se_zoom. destruct (md_on_dst (dst_take_block b) (lt_catalogue t)) as [r st']. by apply tables_step.
Qed.
End tables.

#[local] Instance disk_path_ok : DataPathOk disk N.
Proof.
  assert (forall n m t st', tree_run (lt_catalogue t) n t m -> table_move t st' -> tree_run st' n (lt_set_catalogue st' t) m) as Hmove.
  { intros n m t st' Hr (H1 & H2 & H3). by apply (tree_run_move (lt_catalogue t)); [|apply md_keeps_refl| |]. }
  apply (tables_path_ok (fun t => exists n m, tree_run (lt_catalogue t) n t m) (fun k => 0 <= k < nr_lba)
    (fun k t => exists n m, tree_run (lt_catalogue t) n t m /\ n + Z.of_nat k < 5 * DEFAULT_MEMTABLE_CAPACITY)).
  - exact disk_md.
  - intros t st' (n & m & Hr) Hmv. exists n, m. by apply Hmove.
  - intros k t st' (n & m & Hr & Hlt) Hmv. exists n, m. split; [by apply Hmove|done].
  - intros t n k Hle (n' & m & Hr & Hlt). exists n', m. split; [done|]. lia.
  - lia.
  - exact disk_search_ok.
  - exact disk_put_ok.
Qed.
End disk_state.
