(* ===== verification/TreeSpec.v ===== *)
(** * What the tree promises across compactions and restarts

    The statements about the tree as a whole that go beyond puts and searches:
    the iterator of a file lists all its entries, a compaction of level 0 and
    a flush of the memtable change no answer, and a tree that is closed and
    opened again answers as before. *)
From S2P Require Import Prelude Codec BlockManager DiskStructs Crypto BitNode Superblock SegValidator Area Bloom Hashtable Catalogue Memtable RbMemtable BitFile BitTree BitFileSpec IterFacts Level Compaction MergeFacts FileFacts CompactionFacts CompactionSpec CompactionLevel CompactionRun Instances LsmTree LsmFacts LsmCompaction LsmReopen LsmSpec.

(** [while (iter->has_next(iter)) iter->next(iter, &entry)] *)
Fixpoint iter_drain {gcm : Gcm} (garbage : list byte -> bit_leaf) (fuel : nat) (file : area) (it : bit_iterator)
    : option (list (entry record)) :=
  match fuel with
  | O => None
  | S fuel =>
      if it_has_next it then
        match bit_iterator_next garbage file it with
        | (Ok e, it) => (fun es => e :: es) <$> iter_drain garbage fuel file it
        | (Err _, _) => None
        end
      else Some []
  end.

Section tree_spec.
Context {M : Type} {mt : Memtable M record} {mt_ok : MemtableOk M record}.
Context {C : Type} {cat : LsmCatalogue C} {cat_ok : LsmCatalogueOk C}.
Context {gcm : Gcm} {gcm_ok : GcmOk} {rng : Rng} {rng_ok : RngOk} {heap : MinHeap} {heap_ok : MinHeapOk} {bs : Bsearch} {bs_ok : BsearchOk}.
Context (garbage_buffer : area) (garbage_leaf : list byte -> bit_leaf).
Implicit Types (t : lsm_tree (M := M) (C := C)) (c : C) (j : job (C := C)).

Lemma iter_drain_ok file lo hi it es :
  iter_ok file lo hi it es -> iter_drain garbage_leaf (S (length es)) file it = Some ((fun e : ent => __entry e.1 e.2) <$> es).
Proof.
  revert it. induction es as [|e es IH] => it Hit.
  - cbn [length iter_drain]. by rewrite (iter_has_next _ _ _ _ _ Hit).
  - cbn [length]. remember (S (length es)) as n eqn:En. cbn [iter_drain]. rewrite (iter_has_next _ _ _ _ _ Hit). cbn [negb bool_decide].
    destruct (iter_next_ok garbage_leaf file lo hi it e es Hit) as (it' & -> & _ & Hit'). subst n. by rewrite (IH it' Hit').
Qed.

(** C14: the iterator of a file that was just built from at least one full leaf
    of sorted entries (8 to 2^20 of them), with the builder's buffer not due
    for a flush on completion, hands out every entry the file was built from,
    in key order and once each, the last partial leaf included, and then
    reports that there is nothing more. *)
Theorem bit_iterator_lists_file begin id level version garbage io es :
  0 <= begin <= 2 ^ 61 -> Forall ent_wf es -> ents_sorted es -> (8 <= length es)%nat ->
  Z.of_nat (length es) <= DEFAULT_LSM_FILE_CAPACITY -> sim_full (Z.to_nat (Z.of_nat (length es) / 8)) = false ->
  let '(f, io') := bit_file_build begin id level version garbage io es in
  exists it, bit_iterator_create (io_file io') f = Ok it /\
    iter_drain garbage_leaf (S (length es)) (io_file io') it = Some ((fun e : ent => __entry e.1 e.2) <$> es).
Proof.
  intros Hb Hwf Hs Hl Hc Hsim. pose proof (bit_file_build_chain begin id level version garbage io es Hb Hwf Hs Hl Hc Hsim) as Hch.
  destruct (bit_file_build _ _ _ _ _ _ _) as [f io']. destruct Hch as (hi & _ & Hch).
  destruct (bit_iterator_create_ok _ _ _ _ _ Hch) as (it & Hcr & _ & Hit). exists it. split; [done|]. by eapply iter_drain_ok.
Qed.

(** ** Compaction *)
Lemma pair_search j ess1 ess2 k :
  job_ok j ess1 ess2 -> lv_level (jb_level2 j) <> 0 ->
  (search_levels (io_file (jb_io j)) k [jb_level1 j; jb_level2 j]).1 = to_result (pair_lookup k (lv_files (jb_level1 j)) ess1 ess2).
Proof.
  intros Hj Hl. cbn [search_levels]. pose proof (jo_files1 _ _ _ Hj) as Hf1.
  assert (Forall (fun f => 0 <= bf_version f) (lv_files (jb_level1 j))) as Hv.
  { apply Forall_forall => f Hf. destruct (files_in_elem _ _ _ _ f Hf1 Hf) as (es & Hfe). apply (fi_version _ _ _ _ Hfe). }
  pose proof (level0_search_ok _ k _ _ (jo_level _ _ _ Hj) (files_holds _ _ _ _ Hf1) Hv) as H1.
  destruct (bit_level_search _ k (jb_level1 j)) as [r1 l1]. destruct H1 as [-> _]. rewrite /pair_lookup.
  destruct (newest k _) as [[v r]|]; [done|]. cbn [to_result fmap option_fmap option_map].
  pose proof (leveln_search_ok _ k _ _ Hl (files_holds _ _ _ _ (jo_files2 _ _ _ Hj)) (jo_disjoint _ _ _ Hj)) as H2.
  destruct (bit_level_search _ k (jb_level2 j)) as [r2 l2]. destruct H2 as [-> _]. by destruct (level_lookup k ess2).
Qed.

(** C8: running a compaction job on a level 0 with files, whether it merges or
    only moves files, ends with level 0 empty and the next level free of
    overlaps; a search of the next level then finds for every key what a search
    of both found before; the slots in use are those of the files of the next
    level and those that belonged to neither; and files of other levels are
    untouched. The files of both levels are well formed and in their slots,
    with distinct ids and versions, those of level 0 newer, those of the next
    level disjoint ([job_ok]); and there is room ([job_room]): enough free
    slots, versions and places in the next level for the output, and, when the
    job merges, a last output file that consists of whole leaves (a multiple of
    8 entries) and does not make the builder's buffer due for a flush on
    completion. *)
Theorem compaction_level0_keeps fuel fd0 j ess1 ess2 :
  job_ok j ess1 ess2 -> lv_files (jb_level1 j) <> [] -> lv_level (jb_level2 j) <> 0 -> job_room fuel j ess1 ess2 ->
  exists j', compaction_job_run garbage_buffer garbage_leaf fuel fd0 j = Some j' /\
    lv_files (jb_level1 j') = [] /\ lv_disjoint (lv_files (jb_level2 j')) /\
    (forall k, (bit_level_search (io_file (jb_io j')) k (jb_level2 j')).1 =
               (search_levels (io_file (jb_io j)) k [jb_level1 j; jb_level2 j]).1) /\
    (forall fd, 0 <= fd < cat_max_fd (jb_cat j) ->
       cat_used (jb_cat j') fd = bool_decide (fd ∈ bf_id <$> lv_files (jb_level2 j')) ||
         (negb (bool_decide (fd ∈ bf_id <$> jb_files j)) && cat_used (jb_cat j) fd)) /\
    (forall f es, file_in (jb_cat j) (io_file (jb_io j)) f es -> bf_id f ∉ bf_id <$> jb_files j ->
       file_in (jb_cat j') (io_file (jb_io j')) f es).
Proof.
  intros Hj Hne Hl Hroom. destruct (compaction_run_done garbage_buffer garbage_leaf fuel fd0 j ess1 ess2 Hj Hne Hroom) as (j' & Hrun & Hd).
  destruct Hd as [Hfr _ _ _ Hl1 (gs & Hl2) (ess2' & Hj' & Hlk)]. exists j'. split; [done|]. split; [by rewrite Hl1|].
  split; [apply (jo_disjoint _ _ _ Hj')|]. split; [|split; [|apply (jf_other _ _ Hfr)]].
  - intros k. rewrite (pair_search j ess1 ess2 k Hj Hl) -Hlk.
    pose proof (leveln_search_ok _ k (jb_level2 j') ess2' ltac:(by rewrite Hl2) (files_holds _ _ _ _ (jo_files2 _ _ _ Hj')) (jo_disjoint _ _ _ Hj')) as Hs.
    destruct (bit_level_search _ k (jb_level2 j')) as [r l]. by destruct Hs as [-> _].
  - intros fd Hfd. rewrite (jf_used _ _ Hfr fd Hfd) /jb_files Hl1. done.
Qed.

(** ** Flushing and reopening *)
Lemma search_eq t ess t' ess' k :
  lsm_inv t ess -> lsm_inv t' ess' -> (forall k, lsm_lookup k t' ess' = lsm_lookup k t ess) -> mt_key_ok k ->
  (lsm_tree_search k t').1 = (lsm_tree_search k t).1.
Proof.
  intros Hi Hi' Hlk Hk. pose proof (lsm_search_ok k t ess Hi Hk) as H1. pose proof (lsm_search_ok k t' ess' Hi' Hk) as H2.
  destruct (lsm_tree_search k t) as [r u], (lsm_tree_search k t') as [r' u']. destruct H1 as [-> _], H2 as [-> _]. by rewrite Hlk.
Qed.

(** C9: writing the memtable out keeps the answer of the tree for every key the
    memtable takes: with room in level 0 it becomes a file there, and with
    level 0 full its files are compacted into level 1 first. Afterwards the
    memtable is empty and the tree satisfies its invariant again. Required is
    room ([flush_room]): the memtable's entries fill whole leaves (a multiple
    of 8, at least 8, at most 2^20) and do not make the builder's buffer due
    for a flush on completion; and level 0 has a place, with a free slot and a
    version left, or level 0 is full, level 1 is not, and the compaction has
    room in the sense of [job_room], its last output file in whole leaves
    included. *)
Theorem lsm_flush_keeps_contents fuel fd0 t ess :
  lsm_inv t ess -> flush_room fuel t ess ->
  exists t' ess', lsm_tree_minor_compaction garbage_buffer garbage_leaf fuel fd0 t = Some t' /\ lsm_inv t' ess' /\
    mt_size (lt_memtable t') = 0 /\ forall k, mt_key_ok k -> (lsm_tree_search k t').1 = (lsm_tree_search k t).1.
Proof.
  intros Hi Hr. destruct (minor_compaction_ok garbage_buffer garbage_leaf fuel fd0 t ess Hi Hr) as (t' & ess' & Hrun & [F1 F2 F3 _]).
  exists t', ess'. split; [done|]. split; [done|]. split; [by rewrite (mt_size_ok _ (li_mt _ _ F1)) F2 map_size_empty|].
  intros k Hk. by eapply search_eq.
Qed.

(** C10: a tree that is closed and opened again from its catalogue and index
    file gives the same answer for every key the memtable takes, provided that
    its files are the ones the catalogue lists ([lsm_reg]) and that its
    memtable was empty or could be written out without loss ([flush_room]:
    entries in whole leaves, no flush due on completion, room in level 0 or for
    compacting it). *)
Theorem lsm_close_reopen fuel fd0 t ess empty :
  lsm_inv t ess -> lsm_reg t -> mt_size (lt_memtable t) = 0 \/ flush_room fuel t ess -> mt_inv empty -> mt_map empty = ∅ ->
  exists t1 t2, lsm_tree_destroy garbage_buffer garbage_leaf fuel fd0 t = Some t1 /\
    lsm_tree_init empty (lt_io t1) (lt_catalogue t1) = Some t2 /\
    forall k, mt_key_ok k -> (lsm_tree_search k t2).1 = (lsm_tree_search k t).1.
Proof.
  intros Hi Hg Hr Hm Hmap.
  assert (exists t1 ess1, lsm_tree_destroy garbage_buffer garbage_leaf fuel fd0 t = Some t1 /\ flushed t ess t1 ess1) as (t1 & ess1 & Hd & [F1 F2 F3 F4]).
  { rewrite /lsm_tree_destroy. destruct (Z.eqb_spec (mt_size (lt_memtable t)) 0) as [Hz|Hz].
    - exists t, ess. split; [done|]. split; [done|by eapply mt_size_zero|done|done].
    - destruct Hr as [Hr|Hr]; [done|]. by apply minor_compaction_ok. }
  destruct (reopen_ok t1 ess1 empty (lt_io t1) F1 (F4 Hg) Hm Hmap eq_refl) as (t2 & ess2 & Hrun & Hi2 & _ & _ & Hlk).
  exists t1, t2. split; [done|]. split; [done|]. intros k Hk. eapply search_eq; [exact Hi|exact Hi2| |done].
  intros k'. rewrite Hlk -F3 /lsm_lookup F2 lookup_empty. done.
Qed.
End tree_spec.

(** ** A concrete tree *)
Import ToyGcm ToyRng PlainRb LinearSearch ListHeap ListCatalogue.

(** Two generations of the keys 0 to 15, each in a file of level 0. *)
Definition newer_record : record := {| pba := 5; mac := mac zero_record; key := key zero_record; iv := iv zero_record |}.
Definition newer_ents : list ent := (fun i => (Z.of_nat i, newer_record)) <$> seq 0 16.

Definition sample_flush (c : ListCatalogue.cat) (io : bit_io) (es : list ent) : bit_file * bit_io * ListCatalogue.cat :=
  let '(fd, st, c1) := open_builder area_zero 0 0 c io in
  let '(f, io') := bit_builder_complete (bit_builder_add_all es st) in
  (f, io', (cat_set_file_stats (bf_id f) (bit_file_get_stats f) c1).2).

Lemma sample_catalogue_geom : cat_geom_ok sample_catalogue.
Proof. split; [reflexivity|vm_compute; congruence|vm_compute; congruence]. Qed.
Lemma sample_catalogue_free : nr_free sample_catalogue = 8.
Proof. vm_compute. reflexivity. Qed.
Lemma newer_sorted : ents_sorted newer_ents.
Proof. cbn. repeat constructor. Qed.
Lemma newer_wf : Forall ent_wf newer_ents.
Proof. apply Forall_fmap, Forall_forall => i. intros Hi%elem_of_seq. split; [cbn; lia|]. vm_compute. repeat split; congruence. Qed.

Lemma sample_flush_built c io es :
  cat_geom_ok c -> 0 <= cat_version c < 2 ^ 64 - 1 -> 0 < nr_free c -> ents_sorted es -> Forall ent_wf es -> length es = 16%nat ->
  built c (sample_flush c io es).2 io (sample_flush c io es).1.2 0 es (sample_flush c io es).1.1.
Proof.
  intros Hg Hv Hf Hs Hwf Hl.
  pose proof (build_file_ok area_zero c io 0 es 0 I Hg Hv (nr_free_exists c Hf) ltac:(lia) Hs Hwf ltac:(lia) ltac:(by rewrite Hl)
    ltac:(rewrite Hl; vm_compute; congruence) ltac:(rewrite Hl; vm_compute; reflexivity)) as Hb.
  rewrite /sample_flush. destruct (open_builder _ _ _ _ _) as [[fd st] c1]. by destruct (bit_builder_complete _) as [f io'].
Qed.

(** A memtable with the keys 0 to 7. *)
Definition sample_memtable : rbtree_memtable record :=
  foldl (fun m k => (mt_put k newer_record m).2) rbtree_memtable_init (seqZ 0 8).

Lemma sample_memtable_ok : mt_inv sample_memtable /\
  forall k r, mt_map sample_memtable !! k = Some r -> mt_key_ok k /\ cwf record_codec r.
Proof.
  assert (forall ks (m : rbtree_memtable record), Forall mt_key_ok ks -> Z.of_nat (size (mt_map m)) + Z.of_nat (length ks) < 2 ^ 63 -> mt_inv m ->
    (forall k r, mt_map m !! k = Some r -> mt_key_ok k /\ cwf record_codec r) ->
    let m' := foldl (fun m k => (mt_put k newer_record m).2) m ks in
    mt_inv m' /\ forall k r, mt_map m' !! k = Some r -> mt_key_ok k /\ cwf record_codec r) as Hfill.
  { induction ks as [|k ks IH] => m; [by intros|]. intros [Hk Hks]%Forall_cons Hsz Hm Hmap. cbn [length] in Hsz. cbn [foldl].
    pose proof (mt_size_ok m Hm) as Hms. pose proof (mt_put_ok m k newer_record Hm Hk ltac:(lia)) as Hp. destruct (mt_put k newer_record m) as [old m'].
    destruct Hp as (Hm' & _ & Hmap'). cbn [snd]. apply IH; [done| |done|].
    - rewrite Hmap'. destruct (mt_map m !! k) as [o|] eqn:E; [rewrite map_size_insert_Some; [lia|by eexists]|rewrite map_size_insert_None; [lia|done]].
    - intros k' r. rewrite Hmap' lookup_insert. case_decide as Hd; [|apply Hmap]. intros [= <-]. subst k'. split; [done|]. vm_compute. repeat split; congruence. }
  destruct (rbtree_memtable_init_ok (V := record)) as [Hi He]. apply (Hfill (seqZ 0 8) rbtree_memtable_init).
  - apply Forall_forall => k /elem_of_seqZ Hk. rewrite /mt_key_ok. lia.
  - change (mt_map rbtree_memtable_init) with (rm_map (V := record) rbtree_memtable_init). rewrite He. reflexivity.
  - exact Hi.
  - intros k r. change (mt_map rbtree_memtable_init) with (rm_map (V := record) rbtree_memtable_init). by rewrite He.
Qed.

Lemma sample_memtable_chunk : chunk_ok (mt_ents sample_memtable).
Proof. split; [vm_compute; lia|]. split; [vm_compute; reflexivity|]. split; [vm_compute; congruence|vm_compute; reflexivity]. Qed.

Section sample.
Context (c1 c2 : ListCatalogue.cat) (io1 io2 : bit_io) (f1 f2 : bit_file).
Hypothesis B1 : built sample_catalogue c1 io_zero io1 0 (sample_ents 16) f1.
Hypothesis B2 : built c1 c2 io1 io2 0 newer_ents f2.

Lemma sample_free : nr_free c2 = 6.
Proof.
  destruct (cat_geom_eq _ _ (bt_geom _ _ _ _ _ _ _ B1)) as (_ & _ & G1). destruct (cat_geom_eq _ _ (bt_geom _ _ _ _ _ _ _ B2)) as (_ & _ & G2).
  pose proof (fi_id _ _ _ _ (bt_file _ _ _ _ _ _ _ B1)) as I1. pose proof (fi_id _ _ _ _ (bt_file _ _ _ _ _ _ _ B2)) as I2. rewrite G1 in I1. rewrite G2 in I2.
  rewrite (nr_free_take c1 _ _ G2 I2 (bt_fresh _ _ _ _ _ _ _ B2) (bt_used _ _ _ _ _ _ _ B2)).
  rewrite (nr_free_take _ _ _ G1 I1 (bt_fresh _ _ _ _ _ _ _ B1) (bt_used _ _ _ _ _ _ _ B1)). by rewrite sample_catalogue_free.
Qed.

Lemma sample_facts :
  cat_version c2 = 2 /\ cat_geom c2 = cat_geom sample_catalogue /\ bf_id f1 <> bf_id f2 /\ bf_version f1 = 0 /\ bf_version f2 = 1 /\
  bf_first_key f1 = 0 /\ bf_last_key f1 = 15 /\ bf_first_key f2 = 0 /\ bf_last_key f2 = 15.
Proof.
  pose proof (bt_next _ _ _ _ _ _ _ B1) as N1. change (cat_version c1 = 1) in N1. split; [rewrite (bt_next _ _ _ _ _ _ _ B2) N1; done|].
  split; [by rewrite (bt_geom _ _ _ _ _ _ _ B2) (bt_geom _ _ _ _ _ _ _ B1)|]. split.
  - intros He. pose proof (fi_used _ _ _ _ (bt_file _ _ _ _ _ _ _ B1)) as Hu. rewrite He (bt_fresh _ _ _ _ _ _ _ B2) in Hu. done.
  - rewrite (bt_version _ _ _ _ _ _ _ B1) (bt_version _ _ _ _ _ _ _ B2) N1.
    rewrite (bt_first _ _ _ _ _ _ _ B1) (bt_last _ _ _ _ _ _ _ B1) (bt_first _ _ _ _ _ _ _ B2) (bt_last _ _ _ _ _ _ _ B2). by vm_compute.
Qed.

Lemma sample_geom : cat_geom_ok c2.
Proof. destruct sample_facts as (_ & Hg & _). eapply geom_ok_eq; [exact Hg|apply sample_catalogue_geom]. Qed.

Lemma sample_files : Forall2 (file_in c2 (io_file io2)) [f1; f2] [sample_ents 16; newer_ents].
Proof.
  constructor; [|constructor; [apply (bt_file _ _ _ _ _ _ _ B2)|constructor]].
  pose proof (bt_file _ _ _ _ _ _ _ B1) as Hf. destruct sample_facts as (_ & _ & Hne & _).
  eapply built_keeps; [exact B2| |exact Hf]. eapply geom_ok_eq; [apply (bt_geom _ _ _ _ _ _ _ B1)|apply sample_catalogue_geom].
Qed.

Lemma sample_distinct : NoDup (bf_id <$> [f1; f2]) /\ NoDup (bf_version <$> [f1; f2]).
Proof.
  destruct sample_facts as (_ & _ & Hne & Hv1 & Hv2 & _).
  assert (forall x y : Z, x <> y -> NoDup [x; y]) as H2.
  { intros x y Hxy. apply NoDup_cons. split; [by intros ?%list_elem_of_singleton|apply NoDup_singleton]. }
  split; apply H2; [done|]. rewrite Hv1 Hv2. done.
Qed.

(** Level 0 with the two files, over an empty level 1. *)
Definition sample_level0 (capacity : Z) : bit_level := lv_set_files [f1; f2] (bit_level_create 0 capacity).
Definition sample_job : job := {| jb_cat := c2; jb_io := io2; jb_level1 := sample_level0 2; jb_level2 := bit_level_create 1 8 |}.

Lemma sample_job_ok : job_ok sample_job [sample_ents 16; newer_ents] [].
Proof.
  destruct sample_distinct as [H1 H2]. pose proof sample_geom as Hg. destruct sample_facts as (Hv & _). split; try done.
  - cbn [sample_job jb_cat]. rewrite Hv. done.
  - exact sample_files.
  - by intros f g _ ?%elem_of_nil.
  - split; constructor.
Qed.

Lemma sample_job_room : job_room 32 sample_job [sample_ents 16; newer_ents] [].
Proof.
  destruct sample_facts as (Hv & Hg & _). pose proof sample_free as Hfr. pose proof sample_geom as Hgo.
  assert (job_input sample_job [sample_ents 16; newer_ents] [] = [sample_ents 16; newer_ents]) as Hin by reflexivity.
  assert (length (concat [sample_ents 16; newer_ents]) = 32%nat) as Hlen by reflexivity.
  split; rewrite ?Hin.
  - rewrite Hlen. lia.
  - rewrite Hlen. split; try done; cbn [sample_job jb_cat]; rewrite ?Hv ?Hfr; done.
  - intros _. split; vm_compute; reflexivity.
  - cbn [sample_job jb_cat]. rewrite Hv. done.
  - vm_compute. congruence.
Qed.

(** A tree with these two levels and eight records in its memtable. *)
Definition sample_tree (capacity : Z) : lsm_tree (M := rbtree_memtable record) :=
  {| lt_io := io2; lt_catalogue := c2; lt_memtable := sample_memtable; lt_levels := [sample_level0 capacity; bit_level_create 1 8] |}.
Definition sample_contents : list (list (list ent)) := [[sample_ents 16; newer_ents]; []].

Lemma sample_tree_files capacity : tree_files (sample_tree capacity) = [f1; f2].
Proof. done. Qed.

Lemma sample_tree_inv capacity : lsm_inv (sample_tree capacity) sample_contents.
Proof.
  destruct sample_distinct as [H1 H2]. pose proof sample_geom as Hg. destruct sample_facts as (Hv & _ & _ & _ & _ & K1 & K2 & K3 & K4).
  split; try done; cbn [sample_tree lt_memtable lt_catalogue].
  - apply sample_memtable_ok.
  - apply sample_memtable_ok.
  - rewrite Hv. done.
  - constructor; [exact sample_files|]. constructor; [constructor|constructor].
  - eexists _, _. split; [reflexivity|]. split; [done|]. split; [|split; [done|]].
    + repeat constructor. apply bit_file_cmp_spec. lia.
    + repeat constructor. done.
  - intros l0 ls f g [= <- <-] _. by intros ?%elem_of_nil.
Qed.

Lemma sample_compaction_room : compaction_room 32 (sample_tree 2) sample_contents.
Proof.
  destruct sample_facts as (Hv & _). eexists _, _, [], [sample_ents 16; newer_ents], [], []. split; [reflexivity|]. split; [reflexivity|]. split; [done|].
  split; [reflexivity|]. split; [reflexivity|]. split; [reflexivity|]. split; [exact sample_job_room|].
  cbn [sample_tree lt_catalogue]. rewrite Hv. reflexivity.
Qed.

Lemma sample_level0_room : level0_room (sample_tree 4).
Proof.
  destruct sample_facts as (Hv & _). eexists _, _. split; [reflexivity|]. split; [reflexivity|]. split; [reflexivity|].
  cbn [sample_tree lt_catalogue]. rewrite Hv. split; [reflexivity|]. apply nr_free_exists. by rewrite sample_free.
Qed.

Lemma sample_tree_reg : lsm_reg (sample_tree 4).
Proof.
  destruct sample_facts as (_ & Hg & _). split; cbn [sample_tree lt_catalogue lt_levels].
  - rewrite (new_levels_geom _ _ Hg). reflexivity.
  - intros [|[|i]] l f [= <-]; [|by intros ?%elem_of_nil]. intros [->|[->|Hf%elem_of_nil]%elem_of_cons]%elem_of_cons; [| |done].
    + apply (bt_level _ _ _ _ _ _ _ B1).
    + apply (bt_level _ _ _ _ _ _ _ B2).
  - repeat constructor; vm_compute; congruence.
  - destruct (cat_geom_eq _ _ Hg) as (_ & _ & G). destruct (cat_geom_eq _ _ (bt_geom _ _ _ _ _ _ _ B1)) as (_ & _ & G1).
    intros fd Hfd Hu. rewrite G in Hfd. rewrite (bt_used _ _ _ _ _ _ _ B2) in Hu; [|by rewrite G1].
    rewrite (bt_used _ _ _ _ _ _ _ B1) // in Hu. rewrite sample_tree_files !fmap_cons. rewrite !elem_of_cons.
    apply orb_true_iff in Hu as [->%Z.eqb_eq|[->%Z.eqb_eq|Hu]%orb_true_iff]; [right; by left|by left|].
    exfalso. change (cat_max_fd sample_catalogue) with 8 in Hfd.
    change (default false (fst <$> replicate 8 (false, @None file_stat) !! Z.to_nat fd) = true) in Hu.
    rewrite lookup_replicate_2 in Hu; [done|lia].
Qed.
End sample.

(** The two files, built one after the other. *)
Definition sample_one := sample_flush sample_catalogue io_zero (sample_ents 16).
Definition sample_two := sample_flush sample_one.2 sample_one.1.2 newer_ents.

Lemma sample_built1 : built sample_catalogue sample_one.2 io_zero sample_one.1.2 0 (sample_ents 16) sample_one.1.1.
Proof.
  apply sample_flush_built; [apply sample_catalogue_geom|vm_compute; split; congruence|by rewrite sample_catalogue_free|apply sample_sorted|
    apply sample_wf; lia|apply length_sample].
Qed.

Lemma sample_built2 : built sample_one.2 sample_two.2 sample_one.1.2 sample_two.1.2 0 newer_ents sample_two.1.1.
Proof.
  pose proof sample_built1 as B1. destruct (cat_geom_eq _ _ (bt_geom _ _ _ _ _ _ _ B1)) as (_ & _ & G).
  pose proof (fi_id _ _ _ _ (bt_file _ _ _ _ _ _ _ B1)) as Hid. rewrite G in Hid.
  apply sample_flush_built; [| | |apply newer_sorted|apply newer_wf|done].
  - eapply geom_ok_eq; [apply (bt_geom _ _ _ _ _ _ _ B1)|apply sample_catalogue_geom].
  - rewrite (bt_next _ _ _ _ _ _ _ B1). vm_compute. split; congruence.
  - rewrite (nr_free_take _ _ _ G Hid (bt_fresh _ _ _ _ _ _ _ B1) (bt_used _ _ _ _ _ _ _ B1)). by rewrite sample_catalogue_free.
Qed.

Lemma bit_iterator_lists_file_witness :
  let '(f, io') := bit_file_build 4096 3 0 7 area_zero io_zero (sample_ents 20) in
  exists it, bit_iterator_create (io_file io') f = Ok it /\
    iter_drain (fun _ => zero_leaf) 21 (io_file io') it = Some ((fun e : ent => __entry e.1 e.2) <$> sample_ents 20).
Proof.
  exact (bit_iterator_lists_file (fun _ => zero_leaf) 4096 3 0 7 area_zero io_zero (sample_ents 20) ltac:(lia) (sample_wf 20 ltac:(lia)) (sample_sorted 20)
    ltac:(rewrite length_sample; lia) ltac:(rewrite length_sample; vm_compute; congruence) ltac:(rewrite length_sample; vm_compute; reflexivity)).
Defined.

Lemma compaction_level0_keeps_witness :
  exists j', compaction_job_run area_zero (fun _ => zero_leaf) 32 0
      (sample_job sample_two.2 sample_two.1.2 sample_one.1.1 sample_two.1.1) = Some j' /\ lv_files (jb_level1 j') = [].
Proof.
  destruct (compaction_level0_keeps area_zero (fun _ => zero_leaf) 32 0 (sample_job sample_two.2 sample_two.1.2 sample_one.1.1 sample_two.1.1)
    [sample_ents 16; newer_ents] [] (sample_job_ok _ _ _ _ _ _ sample_built1 sample_built2) ltac:(discriminate) ltac:(discriminate)
    (sample_job_room _ _ _ _ _ _ sample_built1 sample_built2)) as (j' & Hrun & Hl & _).
  exact (ex_intro _ j' (conj Hrun Hl)).
Defined.

Lemma lsm_flush_keeps_contents_witness :
  exists t', lsm_tree_minor_compaction area_zero (fun _ => zero_leaf) 32 0
      (sample_tree sample_two.2 sample_two.1.2 sample_one.1.1 sample_two.1.1 2) = Some t' /\ mt_size (lt_memtable t') = 0.
Proof.
  destruct (lsm_flush_keeps_contents area_zero (fun _ => zero_leaf) 32 0 (sample_tree sample_two.2 sample_two.1.2 sample_one.1.1 sample_two.1.1 2)
    sample_contents (sample_tree_inv _ _ _ _ _ _ sample_built1 sample_built2 2)
    (conj sample_memtable_chunk (or_intror (sample_compaction_room _ _ _ _ _ _ sample_built1 sample_built2)))) as (t' & ess' & Hrun & _ & Hz & _).
  exact (ex_intro _ t' (conj Hrun Hz)).
Defined.

Lemma lsm_close_reopen_witness :
  exists t1 t2, lsm_tree_destroy area_zero (fun _ => zero_leaf) 32 0
      (sample_tree sample_two.2 sample_two.1.2 sample_one.1.1 sample_two.1.1 4) = Some t1 /\
    lsm_tree_init (M := rbtree_memtable record) rbtree_memtable_init (lt_io t1) (lt_catalogue t1) = Some t2.
Proof.
  destruct (lsm_close_reopen area_zero (fun _ => zero_leaf) 32 0 (sample_tree sample_two.2 sample_two.1.2 sample_one.1.1 sample_two.1.1 4)
    sample_contents rbtree_memtable_init (sample_tree_inv _ _ _ _ _ _ sample_built1 sample_built2 4) (sample_tree_reg _ _ _ _ _ _ sample_built1 sample_built2)
    (or_intror (conj sample_memtable_chunk (or_introl (sample_level0_room _ _ _ _ _ _ sample_built1 sample_built2))))
    (proj1 rbtree_memtable_init_ok) (proj2 rbtree_memtable_init_ok)) as (t1 & t2 & Hd & Hi & _).
  exact (ex_intro _ t1 (ex_intro _ t2 (conj Hd Hi))).
Defined.
