(* ===== verification/DiskSpec.v ===== *)
(** * The whole disk, from an unformatted device on

    Opening formats the metadata device, opens the tree over its catalogue and
    gives the segment buffer its first segment.  Every run of requests on the
    disk this leaves, through the tree and the tables on the device, is a run on
    an array of blocks. *)
From S2P Require Import Prelude Codec BlockManager DiskStructs Crypto BitNode Superblock SegValidator Dst Area Bio Bloom Hashtable Catalogue Metadata DiskMeta Memtable RbMemtable BitFile BitTree BitFileSpec Level Compaction TableSpec CatalogueIface Instances FileFacts LsmTree LsmFacts LsmSpec DiskIndex Segment DataPath Cleaning WritePath DataPathSpec DiskState.

(** ** The tables of a fresh device *)

(** The table of [n] bits owns as many blocks as its region has: the array
    counts one block more when the groups fill their last block. *)
Definition bits_fit (n : Z) : Prop := __disk_bitset_nr_group n mod 512 <> 0.

Lemma bits_fit_span start n : 0 < n -> bits_fit n -> disk_array_nr_block (db_array (disk_bitset_create start n)) = __seg_validity_table_blocks n.
Proof.
  intros Hn Hf. rewrite seg_validity_blocks_groups //. rewrite /disk_array_nr_block /__disk_array_blocks /=. change (SWORNDISK_METADATA_BLOCK_SIZE / 8) with 512.
  rewrite /bits_fit in Hf. set (g := __disk_bitset_nr_group n) in *. pose proof (Z.div_mod g 512 ltac:(lia)). pose proof (Z.mod_pos_bound g 512 ltac:(lia)).
  assert ((g - 1) / 512 = g / 512) as ->; [|done]. symmetry. apply (Z.div_unique_pos _ _ _ (g mod 512 - 1)); lia.
Qed.

Lemma apart_before a b : da_start a + disk_array_nr_block a <= da_start b -> apart a b.
Proof. intros H x. rewrite /da_owns. lia. Qed.

Section fresh.
Context (sb : superblock) (Hlay : md_layout sb).
Let N := nr_segment sb.
Let max_fd := sv_nr_segment (bc_bit_validity_table (bit_catalogue_blank sb)).
Context (Hfit : bits_fit N) (Hfit_fd : bits_fit max_fd).

Lemma describes_apart md : md_describes sb md -> md_apart md.
Proof.
  intros (_ & Hsv & Hrit & ([_ Hd] & Hds & Hdn) & (v & Hbc)). pose proof (table_blocks_pos sb Hlay) as (P1 & P2 & P3 & P4 & P5).
  pose proof Hlay as [L1 L2 L3 L4 L5 L6 L7]. fold N max_fd in L1, L3, L5, L6, L7.
  pose proof (bits_fit_span (seg_validity_table_start sb) N L1 Hfit) as S1.
  pose proof (bits_fit_span (block_index_table_catalogue_start sb) max_fd L3 Hfit_fd) as S2.
  assert (svt_array md = db_array (disk_bitset_create (seg_validity_table_start sb) N)) as E1 by (by rewrite /svt_array Hsv).
  assert (dst_array (md_dst md) = disk_array_create (data_seg_table_start sb) N DST_ENTRY_SIZE) as E2 by (by rewrite Hd Hds Hdn).
  assert (rit_array (md_rit md) = disk_array_create (reverse_index_table_start sb) (N * blocks_per_seg sb) 8) as E3 by (by rewrite Hrit).
  assert (bitv_array md = db_array (disk_bitset_create (block_index_table_catalogue_start sb) max_fd)) as E4 by (by rewrite /bitv_array Hbc).
  assert (stats_array md = disk_array_create (block_index_table_catalogue_start sb + __seg_validity_table_blocks max_fd) max_fd FILE_STAT_SIZE) as E5
    by (by rewrite /stats_array Hbc).
  set (a1 := db_array (disk_bitset_create (seg_validity_table_start sb) N)) in *. assert (da_start a1 = seg_validity_table_start sb) as A1 by done.
  set (a2 := disk_array_create (data_seg_table_start sb) N DST_ENTRY_SIZE) in *. assert (da_start a2 = data_seg_table_start sb) as A2 by done.
  assert (disk_array_nr_block a2 = __data_seg_table_blocks N) as B2 by done.
  set (a3 := disk_array_create (reverse_index_table_start sb) (N * blocks_per_seg sb) 8) in *. assert (da_start a3 = reverse_index_table_start sb) as A3 by done.
  assert (disk_array_nr_block a3 = __reverse_index_table_blocks N (blocks_per_seg sb)) as B3 by done.
  set (a4 := db_array (disk_bitset_create (block_index_table_catalogue_start sb) max_fd)) in *. assert (da_start a4 = block_index_table_catalogue_start sb) as A4 by done.
  set (a5 := disk_array_create (block_index_table_catalogue_start sb + _) max_fd FILE_STAT_SIZE) in *.
  assert (da_start a5 = block_index_table_catalogue_start sb + __seg_validity_table_blocks max_fd) as A5 by done.
  fold N max_fd in P1, P2, P4, P5.
  clearbody a1 a2 a3 a4 a5. split; rewrite ?E1 ?E2 ?E3 ?E4 ?E5; apply apart_before; lia.
Qed.

Lemma fresh_inv st : blocks_per_seg sb = BLOCKS_PER_SEGMENT -> md_describes sb st.1 -> md_fresh sb st -> md_inv N st.
Proof.
  intros Hbps Hdesc ([F1 _] & [F2 _] & [F3 _] & [F4 _]). pose proof (describes_apart _ Hdesc) as Hap.
  destruct Hdesc as (_ & Hsv & Hrit & (_ & _ & Hdn) & _). split; try done; rewrite ?Hsv ?Hrit //. cbn. by rewrite Hbps.
Qed.

(** Nothing is in use. *)
Lemma fresh_views st : md_describes sb st.1 -> md_fresh sb st ->
  (forall i, md_used st i = false) /\ (forall b, md_valid N st b = false) /\ (forall fd, 0 <= fd < max_fd -> cat_used (md_bc st) fd = false).
Proof.
  intros Hdesc ([F1 F1'] & _ & [F3 F3'] & [F4 F4']). split; [|split].
  - intros i. rewrite /md_used F1'. destruct (replicate _ _ !! _) as [b|] eqn:E; [|by rewrite andb_false_r].
    apply lookup_replicate in E as [-> _]. by rewrite andb_false_r.
  - intros b. rewrite /md_valid. destruct (_ && _) eqn:E; [|done]. apply andb_true_iff in E as [?%Z.leb_le ?%Z.ltb_lt].
    rewrite F3'; last first.
    { rewrite /__block_to_segment. change BLOCKS_PER_SEGMENT with 1024 in *. fold N. split; [apply Z.div_pos; lia|apply Z.div_lt_upper_bound; lia]. }
    rewrite /entry_bit /empty_entry. cbn [de_block_validity_table]. destruct (replicate _ _ !! _) eqn:E; [|done]. by apply lookup_replicate in E as [-> _].
  - intros fd Hfd. cbn [cat_used bit_catalogue_iface]. specialize (F4' fd). rewrite /bc_live in F4'. fold (md_bc st) in F4, F4'.
    destruct F4 as (Hwf & _ & (Hw & _ & Hm)). destruct (bc_bits (md_bc st) !! Z.to_nat fd) as [[]|]; [|done|done].
    exfalso. rewrite /bc_stat in F4'. apply fmap_None in F4'. rewrite /da_entry in F4'.
    destruct Hdesc as (_ & _ & _ & _ & (v & Hbc)). destruct Hwf as (_ & _ & Hn).
    assert (bc_file_stats (md_bc st).1 = bc_file_stats (bit_catalogue_blank sb)) as Hst by (by rewrite /md_bc /= Hbc).
    destruct (Hm (disk_array_entry_block (bc_file_stats (md_bc st).1) fd)) as (d & Hd & _).
    { apply da_owns_entry; [done|]. rewrite Hst. exact Hfd. }
    by rewrite Hd in F4'.
Qed.
End fresh.

(** ** The first segment *)
Section first_segment.
Context {X : Type} {ix : LsmIndex X} {dm : DataMeta X} {dv : DataView X} {gcm : Gcm} {gcm_ok : GcmOk} {rng : Rng} {rng_ok : RngOk}.
Context (NR_SEGMENT : Z) {ok : DataPathOk X NR_SEGMENT}.
Context (garbage_memory : area) (garbage_lba : Z) (garbage_record : record).
Context (HN : 16 < NR_SEGMENT) (Hnr : NR_SEGMENT * SECTOES_PER_SEGMENT <= 2 ^ 32).
Implicit Types (s : sworndisk X) (x : X).

Record x_blank x : Prop := {
  xb_inv : x_inv x;
  xb_map : x_map x = ∅;
  xb_used i : x_used x i = false;
  xb_valid b : x_valid x b = false
}.

Lemma blank_nr_used x : x_blank x -> nr_used NR_SEGMENT (x_used x) = 0.
Proof.
  intros Hb. rewrite /nr_used. induction (seqZ 0 NR_SEGMENT) as [|i l IH]; [done|]. rewrite fmap_cons count_true_cons IH (xb_used _ Hb) //.
Qed.

(** The segment buffer gets a segment that was free; with so few in use the
    cleaner does not run. *)
Lemma segbuf_init_run fuel s :
  x_inv (sd_x s) ->
  (forall b, 0 <= b < NR_SEGMENT * BLOCKS_PER_SEGMENT -> x_used (sd_x s) (b / BLOCKS_PER_SEGMENT) = false -> x_valid (sd_x s) b = false) ->
  sa_nr_valid_segment s = nr_used NR_SEGMENT (x_used (sd_x s)) -> sa_nr_valid_segment s < NR_SEGMENT - 16 ->
  exists seg x', 0 <= seg < NR_SEGMENT /\ x_used (sd_x s) seg = false /\ took (sd_x s) x' seg /\
    segbuf_init NR_SEGMENT garbage_memory garbage_lba garbage_record fuel s =
      Some (Ok tt, set_bufs garbage_memory garbage_memory (set_cursor seg 0
        (set_x x' (set_alloc (sa_nr_valid_segment s + 1) (sa_status s) (set_cursor seg (sb_cur_sector s) s))))).
Proof.
  intros Hx Hfree Hcnt Hlt.
  destruct (sa_alloc_ok NR_SEGMENT garbage_memory garbage_lba garbage_record 1 fuel s Hx ltac:(lia) Hnr Hfree Hcnt ltac:(lia)) as (seg & x' & Hseg & Hus & Ht & Hrun).
  exists seg, x'. do 3 (split; [done|]). cbn zeta in Hrun. rewrite /segbuf_init /sa_alloc_depth Hrun.
  assert (GC_THREADHOLD NR_SEGMENT = NR_SEGMENT - 16) as Hg by (change SECTOES_PER_SEGMENT with 8192 in Hnr; apply u64_small; lia).
  rewrite /sa_will_trigger_gc Hg. cbn [set_x set_alloc sa_nr_valid_segment]. by ztest.
Qed.

Lemma segbuf_init_ok fuel s :
  x_blank (sd_x s) -> sa_nr_valid_segment s = 0 -> sb_cur_sector s = 0 -> sd_prefetcher s = bio_prefetcher_init garbage_memory ->
  exists s', segbuf_init NR_SEGMENT garbage_memory garbage_lba garbage_record fuel s = Some (Ok tt, s') /\
    dp_inv NR_SEGMENT s' ∅ /\ sd_position s' = 1024 /\ forall n, x_room n (sd_x s) -> x_room n (sd_x s').
Proof.
  intros Hb Hz Hsec Hpf. pose proof Hb as [B1 B2 B3 B4]. pose proof (blank_nr_used _ Hb) as Hcnt.
  destruct (segbuf_init_run fuel s B1) as (seg & x' & Hseg & _ & [[I1 I2 I3 I4 I5 I6] I7] & Hrun).
  { intros b _ _. apply B4. }
  { by rewrite Hcnt. }
  { lia. }
  eexists. split; [exact Hrun|]. set (s' := set_bufs _ _ _).
  assert (sd_x s' = x' /\ sb_cur_segment s' = seg /\ sb_cur_sector s' = 0 /\ sa_nr_valid_segment s' = 1 /\ sd_prefetcher s' = bio_prefetcher_init garbage_memory)
    as (Ex & Es & Ec & En & Ep) by (rewrite -Hpf; cbn; rewrite Hz; done). clearbody s'.
  assert (forall b, in_slots s' b <-> b / 1024 = seg) as Hsl.
  { intros b. rewrite /in_slots /sb_filled Ec Es seg_of. change (0 / SECTORS_PER_BLOCK) with 0. change BLOCKS_PER_SEGMENT with 1024. lia. }
  split; [split; [|split]|].
  - split; rewrite ?Ex ?I2 ?B2 //.
    + split; [lia|done].
    + split; [by rewrite Es|]. rewrite Ec. split; [done|]. split; [done|]. by rewrite Ex Es I3 Z.eqb_refl.
    + intros b Hin%Hsl. rewrite I4 B4. change BLOCKS_PER_SEGMENT with 1024. by rewrite Hin Z.eqb_refl.
    + intros b _. rewrite I4 B4 orb_false_r. intros Hv%Z.eqb_eq. left. by apply Hsl.
    + intros b _. rewrite I3 I4 B3 B4 !orb_false_r. done.
    + rewrite En (nr_used_ext _ (fun i => (i =? seg) || x_used (sd_x s) i)); [|intros i _; apply I3]. rewrite nr_used_take // ?Hcnt //.
  - rewrite /prefetch_ok Ep. cbn [bio_prefetcher_init pf_nr_fetch pf_begin pf_end]. split; [done|]. split; [done|]. split; [done|]. intros b Hb'. lia.
  - by rewrite Ec.
  - split; [|rewrite Ex; done]. rewrite /sd_position En /sb_filled Ec. done.
Qed.
End first_segment.

(** ** Opening *)
Section opening.
Context {M : Type} {mt : Memtable M record} {mt_ok : MemtableOk M record}.
Context {gcm : Gcm} {gcm_ok : GcmOk} {rng : Rng} {rng_ok : RngOk} {heap : MinHeap} {bs : Bsearch} {bs_ok : BsearchOk}.
Context (crc32c : Z -> list byte -> Z).
Hypothesis crc32c_u32 : forall seed l, 0 <= crc32c seed l < 2 ^ 32.
Context (garbage_buffer : area) (garbage_leaf : list byte -> bit_leaf) (lsm_fuel : nat) (fd0 : Z).
Context (garbage_plain : list byte -> list byte) (garbage_memory : area) (garbage_lba : Z) (garbage_record : record).
Context (N nr_lba : Z) (nr_lba_ok : nr_lba <= 2 ^ 64) (nr_lba_keys : forall k, 0 <= k < nr_lba -> mt_key_ok k).
#[local] Instance open_index : LsmIndex (disk (M := M)) := disk_index garbage_buffer garbage_leaf lsm_fuel fd0 N.
#[local] Instance open_meta : DataMeta (disk (M := M)) := disk_meta.
(** The views, for the metadata as they were opened. *)
Definition open_view (root : md_state) : DataView (disk (M := M)) := disk_view N nr_lba root.
Lemma open_path_ok root : DataPathOk (dv := open_view root) (disk (M := M)) N.
Proof using mt_ok gcm_ok rng_ok bs_ok nr_lba_ok nr_lba_keys. exact (disk_path_ok garbage_buffer garbage_leaf lsm_fuel fd0 N nr_lba nr_lba_ok nr_lba_keys root). Qed.

(** The constructor, from the prefetcher on: metadata, tree, allocator and
    segment buffer, in this order; the first failure ends it. *)
Definition sworndisk_open (gc_fuel : nat) (empty : M) (io : bit_io) (data_dev : area) (rng0 : nat) (bm : dm_block_manager)
    : option (sworndisk (disk (M := M))) :=
  let prefetcher := bio_prefetcher_init garbage_memory in
  match metadata_init crc32c N bm with
  | (Err _, _) => None
  | (Ok md, bm) =>
      lsm_tree_init (cat := md_catalogue N (md, bm)) empty io (md, bm) ≫= fun t =>
      match sa_init t with
      | (Err _, _) => None
      | (Ok (nr_valid_segment, status), t) =>
          match segbuf_init N garbage_memory garbage_lba garbage_record gc_fuel
                  (Build_sworndisk t rng0 data_dev garbage_memory garbage_memory 0 0 nr_valid_segment status prefetcher) with
          | Some (Ok _, s) => Some s
          | _ => None
          end
      end
  end.

Definition open_max_fd : Z := sv_nr_segment (bc_bit_validity_table (bit_catalogue_blank (superblock_defaults N 0))).

(** A metadata device that can be formatted for [N] segments. *)
Record formattable (bm : dm_block_manager) : Prop := {
  fm_ok : bm_ok bm;
  fm_write : bufio_write_error (bufio bm) = 0;
  fm_nr : 16 < N /\ N * SECTOES_PER_SEGMENT <= 2 ^ 32;
  fm_fit : bits_fit N /\ bits_fit open_max_fd;
  fm_blank : sb_unformatted crc32c bm;
  fm_mapped : bm_mapped 0 (md_limit (superblock_defaults N 0)) bm;
  fm_version : loaded_version (superblock_defaults N 0) bm <= 2 ^ 64 - 6
}.

Lemma loaded_version_pos sb bm : 0 <= loaded_version sb bm.
Proof.
  rewrite /loaded_version. generalize (Z.le_refl 0). generalize 0 at 2 4 as m. induction (bc_live_from _ _ _) as [|s l IH] => m Hm; [done|].
  cbn [foldl]. apply IH. rewrite /version_step. zbool; [apply u64_range|done].
Qed.

Lemma open_max_fd_bound : 16 < N -> N * SECTOES_PER_SEGMENT <= 2 ^ 32 -> 10 <= open_max_fd <= 2 * N + 20.
Proof.
  intros HN Hnr. rewrite /open_max_fd. cbn [superblock_defaults nr_disk_level common_ratio max_disk_level_capacity bit_catalogue_blank bc_bit_validity_table seg_validator_create sv_nr_segment].
  rewrite /__extra_bit /DEFAULT_LSM_TREE_NR_DISK_LEVEL.
  assert (5 <= __total_bit 2 LSM_TREE_DISK_LEVEL_COMMON_RATIO (N * BLOCKS_PER_SEGMENT) <= N + 5); [|lia].
  change SECTOES_PER_SEGMENT with 8192 in Hnr. rewrite /__total_bit /BLOCKS_PER_SEGMENT /DEFAULT_LSM_LEVEL0_NR_FILE /=. change (Z.to_nat 1) with 1%nat. cbn [total_bit_loop]. ztest.
  pose proof (Z.div_pos (N * 1024 - 1) DEFAULT_LSM_FILE_CAPACITY ltac:(lia) ltac:(done)).
  pose proof (Z.div_le_upper_bound (N * 1024 - 1) DEFAULT_LSM_FILE_CAPACITY N ltac:(done)). rewrite /DEFAULT_LSM_FILE_CAPACITY in H H0 |- *. lia.
Qed.

(** What opening leaves: an empty disk in its first segment, with an index that
    takes five memtables of records, and metadata that start with a valid
    superblock. *)
Definition root_of (root : md_state) : Prop :=
  md_inv N root /\ exists c, md_describes (superblock_defaults N c) root.1 /\
    superblock_read root.2 = (Ok (superblock_defaults N (superblock_csum crc32c (superblock_defaults N c))), root.2).

Lemma open_metadata_ok bm :
  formattable bm ->
  exists md bm' c, metadata_init crc32c N bm = (Ok md, bm') /\ md_describes (superblock_defaults N c) md /\
    md_fresh (superblock_defaults N c) (md, bm') /\ bc_max_version (md_bit_catalogue md) = loaded_version (superblock_defaults N 0) bm /\ root_of (md, bm').
Proof using crc32c_u32.
  intros [F1 F2 [F3 F4] [F5 F6] F7 F8 F9]. change SECTOES_PER_SEGMENT with 8192 in F4.
  destruct (metadata_init_fresh_ok crc32c crc32c_u32 bm N F1 F2 ltac:(lia) F7 F8) as (md & bm' & c & Hinit & Hdesc & Hfresh & Hver & Hsb).
  exists md, bm', c. do 4 (split; [done|]). split; [|by exists c].
  exact (fresh_inv _ (default_layout_ok N c ltac:(lia)) F5 F6 (md, bm') eq_refl Hdesc Hfresh).
Qed.

Lemma sworndisk_open_ok gc_fuel empty io data_dev rng0 bm :
  formattable bm -> mt_inv empty -> mt_map empty = ∅ ->
  exists root s, sworndisk_open gc_fuel empty io data_dev rng0 bm = Some s /\ root_of root /\ dp_inv (dv := open_view root) N s ∅ /\ sd_position s = 1024 /\
    forall n, Z.of_nat n < 5 * DEFAULT_MEMTABLE_CAPACITY -> x_room (DataView := open_view root) n (sd_x s).
Proof.
  intros Hf Hm Hmap. destruct (open_metadata_ok bm Hf) as (md & bm' & c & Hinit & Hdesc & Hfresh & Hver & Hroot). set (st := (md, bm')) in *.
  destruct Hf as [F1 F2 [F3 F4] [F5 F6] F7 F8 F9]. pose proof (open_max_fd_bound F3 F4) as Hfd. change SECTOES_PER_SEGMENT with 8192 in F4.
  pose proof (proj1 Hroot) as Hinv.
  destruct (fresh_views _ st Hdesc Hfresh) as (Hu & Hv & Hc). change (nr_segment (superblock_defaults N c)) with N in Hv.
  assert (exists v, md_bit_catalogue md = bc_set_max_version v (bit_catalogue_blank (superblock_defaults N c))) as (v & Hbc) by apply Hdesc.
  assert (cat_max_fd (LsmCatalogue := md_catalogue N st) st = open_max_fd) as Hmax by (cbn; rewrite /bc_max_fd /= Hbc; done).
  destruct (init_ok (cat := md_catalogue N st) (cat_ok := md_catalogue_ok N st) empty io st Hm Hmap) as (t & Ht & Hrun).
  { by apply md_keeps_refl. }
  { split; cbn [cat_file_size cat_start cat_max_fd md_catalogue bit_catalogue_iface md_bc fst].
    - by rewrite /= Hbc.
    - by rewrite /= Hbc.
    - change (bc_max_fd _) with (cat_max_fd (LsmCatalogue := md_catalogue N st) st). rewrite Hmax /= Hbc. cbn [bc_set_max_version bit_catalogue_blank lc_start lc_file_size].
      rewrite file_size_value. change (index_region_start (superblock_defaults N c) * SWORNDISK_METADATA_BLOCK_SIZE) with 4096. lia. }
  { intros fd. rewrite Hmax. apply Hc. }
  { rewrite Hmax. lia. }
  { cbn [cat_version md_catalogue bit_catalogue_iface md_bc fst]. change (md_bit_catalogue st.1) with (md_bit_catalogue md). rewrite Hver.
    split; [apply loaded_version_pos|done]. }
  pose proof Hrun as [(ess & Hi & _) _ _ _]. pose proof (li_cat _ _ Hi) as [K1 K2 K3 K4 K5 K6].
  assert (lt_catalogue t = st /\ lt_levels t = new_levels (cat := md_catalogue N st) st) as [Hct Hlv].
  { apply (init_fields (cat := md_catalogue N st) (cat_ok := md_catalogue_ok N st) empty io st t Ht); [by apply md_keeps_refl|].
    intros fd. rewrite Hmax. apply Hc. }
  assert (tree_run N nr_lba st st 0 t ∅) as Htr.
  { split; [done|]. split; [|split; [by rewrite Hct|intros k [r Hr]; by rewrite lookup_empty in Hr]]. apply lsm_reg_new; rewrite Hct; [done|..].
    - cbn. rewrite Hbc. cbn. pose proof (default_total_bit N ltac:(lia) 2 eq_refl). rewrite /LSM_TREE_DISK_LEVEL_COMMON_RATIO in H |- *. cbn in H |- *. lia.
    - cbn. by rewrite Hbc.
    - intros fd. rewrite Hmax. apply Hc. }
  set (dv := open_view st). pose proof (open_path_ok st) as Hpath. fold dv in Hpath.
  assert (x_blank (dv := dv) t) as Hblank.
  { split.
    - exists 0, ∅. by apply (tree_run_rebase N nr_lba st st).
    - apply map_eq => k. change (x_map t) with (disk_map nr_lba t). rewrite (disk_map_run N nr_lba nr_lba_keys st st 0 t ∅ k Htr). by destruct (bool_decide _).
    - intros i. change (x_used t i) with (md_used (lt_catalogue t) i). by rewrite K2.
    - intros b. change (x_valid t b) with (md_valid N (lt_catalogue t) b). by rewrite K3. }
  destruct (sv_count_ok t (xb_inv _ Hblank)) as (t' & Hcnt & [I1 I2 I3 I4 I5 I6] & I7).
  rewrite (blank_nr_used N t Hblank) in Hcnt.
  assert (x_blank (dv := dv) t') as Hblank' by (destruct Hblank as [B1 B2 B3 B4]; split; [done|by rewrite I2|intros; by rewrite I3|intros; by rewrite I4]).
  set (s0 := Build_sworndisk t' rng0 data_dev garbage_memory garbage_memory 0 0 0 SEGMENT_ALLOCATING (bio_prefetcher_init garbage_memory)).
  destruct (segbuf_init_ok N garbage_memory garbage_lba garbage_record F3 F4 gc_fuel s0 Hblank' eq_refl eq_refl eq_refl) as (s & Hseg & Hdp & Hpos & Hroom).
  exists st, s. split; [|split; [done|split; [done|split; [done|]]]].
  - rewrite /sworndisk_open Hinit. change (md, bm') with st. rewrite Ht. cbn [mbind option_bind]. rewrite /sa_init Hcnt. fold s0. by rewrite Hseg.
  - intros n Hn. apply Hroom. change (sd_x s0) with t'. apply I7. exists 0, ∅. split; [by apply (tree_run_rebase N nr_lba st st)|lia].
Qed.

(** A read or write inside one block of the disk. *)
Definition disk_req_ok (b : bio) : Prop := bi_op b <> REQ_OP_OTHER /\ bio_wf b /\ 0 <= bio_get_block_address b < nr_lba.

(** C2: a disk opened on an unformatted device is an array of blocks: metadata,
    tree, allocator and segment buffer come up, and any run of read and write
    requests that fits the segments below the cleaning threshold and five
    memtables, with its records in the tree and its bookkeeping in the tables on
    the device, gives the answers an array of blocks gives. *)
Theorem sworndisk_opened_is_array gc_fuel empty io data_dev rng0 bm reqs :
  formattable bm -> mt_inv empty -> mt_map empty = ∅ -> Forall disk_req_ok reqs ->
  nr_writes reqs <= (N - 18) * 1024 -> nr_writes reqs < 5 * DEFAULT_MEMTABLE_CAPACITY ->
  exists s outs s' content', sworndisk_open gc_fuel empty io data_dev rng0 bm = Some s /\
    disk_run N garbage_plain garbage_memory garbage_lba garbage_record gc_fuel reqs s = Some (outs, s') /\
    block_run reqs ∅ outs content'.
Proof.
  intros Hf Hm Hmap Hreqs Hn Hcap. destruct (sworndisk_open_ok gc_fuel empty io data_dev rng0 bm Hf Hm Hmap) as (root & s & Hopen & _ & Hdp & Hpos & Hroom).
  pose proof (open_path_ok root) as Hpath.
  destruct (fm_nr _ Hf) as [HN _]. pose proof (count_true_bound (is_write <$> reqs)) as Hb. fold (nr_writes reqs) in Hb.
  destruct (disk_run_ok N garbage_plain garbage_memory garbage_lba garbage_record gc_fuel reqs s ∅ Hdp HN Hreqs) as (outs & s' & content' & Hrun & Hblk & Hdp').
  - lia.
  - apply Hroom. lia.
  - by exists s, outs, s', content'.
Qed.
End opening.

Import ToyGcm ToyRng PlainRb LinearSearch ListHeap.

(** ** A device of zeroed blocks *)
Lemma blank_bits start n size : 0 < n -> 0 <= start -> start + disk_array_nr_block (db_array (disk_bitset_create start n)) <= size ->
  db_bits (disk_bitset_create start n) (blank_device size) = replicate (Z.to_nat n) false.
Proof.
  intros Hn Hs Hsz. rewrite /db_bits. cbn [disk_bitset_create db_nr_bit]. apply list_eq => i.
  destruct (decide (i < Z.to_nat n)%nat) as [Hi|Hi]; [|rewrite !lookup_ge_None_2 //; [rewrite length_replicate|rewrite length_fmap length_seqZ]; lia].
  rewrite list_lookup_fmap lookup_seqZ_lt; [|lia]. rewrite lookup_replicate_2 //. cbn [fmap option_fmap option_map]. f_equal. rewrite /db_bit.
  pose proof (disk_bitset_create_wf start n ltac:(lia)) as (_ & Hw & H8 & Hg).
  rewrite blank_da_entry //; last first.
  { rewrite Hg. cbn [disk_bitset_create db_nr_bit]. rewrite /__disk_bitset_group /__disk_bitset_nr_group. ztest. change BITS_PER_LONG with 64.
    split; [apply Z.div_pos; lia|]. pose proof (Z.div_le_mono (0 + Z.of_nat i) (n - 1) 64 ltac:(lia) ltac:(lia)). lia. }
  rewrite H8. change (cdec c_u64 (default [] (Some (replicate (Z.to_nat 8) Byte.x00)))) with 0. apply Z.testbit_0_l.
Qed.

Lemma blank_version sb size : md_layout sb -> md_limit sb <= size -> loaded_version sb (blank_device size) = 0.
Proof.
  intros Hlay Hsz. pose proof (table_blocks_pos sb Hlay) as (P1 & P2 & P3 & P4 & P5). pose proof Hlay as [L1 L2 L3 L4 L5 L6 L7].
  pose proof (md_limit_stats sb) as Hlim. set (max_fd := sv_nr_segment (bc_bit_validity_table (bit_catalogue_blank sb))) in *.
  pose proof (seg_validity_span max_fd L3) as Hsp.
  assert (bc_live_from (bit_catalogue_blank sb, blank_device size) 0 (Z.to_nat max_fd) = []) as Hnil; [|by rewrite /loaded_version -/max_fd Hnil].
  apply omap_none. intros fd Hfd%elem_of_seqZ. rewrite /bc_live.
  change (bc_bits _) with (db_bits (disk_bitset_create (block_index_table_catalogue_start sb) max_fd) (blank_device size)).
  rewrite blank_bits //.
  - rewrite lookup_replicate_2 //. lia.
  - change SUPERBLOCK_LOCATION with 0 in L4. lia.
  - change (disk_array_nr_block (db_array (disk_bitset_create (block_index_table_catalogue_start sb) max_fd)))
      with (disk_array_nr_block (db_array (disk_bitset_create 0 max_fd))). lia.
Qed.

Definition sample_meta_dev : dm_block_manager := blank_device (md_limit (superblock_defaults 32 0)).

Lemma sample_formattable : formattable sample_crc 32 sample_meta_dev.
Proof.
  split.
  - apply blank_ok.
  - reflexivity.
  - vm_compute. split; [reflexivity|congruence].
  - split; vm_compute; congruence.
  - exists zero_block. split; [apply blank_block; split; vm_compute; congruence|]. split; [apply length_replicate|vm_compute; reflexivity].
  - apply blank_mapped; [reflexivity|reflexivity].
  - rewrite blank_version; [vm_compute; congruence|apply default_layout_ok; vm_compute; split; congruence|reflexivity].
Qed.

Lemma sample_keys k : 0 <= k < 32768 -> mt_key_ok k.
Proof. rewrite /mt_key_ok. lia. Qed.

Lemma sworndisk_opened_is_array_witness :
  exists s outs s' content',
    sworndisk_open (M := rbtree_memtable record) sample_crc area_zero (fun _ => zero_leaf) 0 0 area_zero 0 zero_record 32 0
      rbtree_memtable_init io_zero area_zero 0 sample_meta_dev = Some s /\
    @disk_run (disk (M := rbtree_memtable record)) (disk_index area_zero (fun _ => zero_leaf) 0 0 32) disk_meta _ _ 32
      (fun l => l) area_zero 0 zero_record 0 [sample_read; sample_write; sample_read] s = Some (outs, s') /\
    block_run [sample_read; sample_write; sample_read] ∅ outs content'.
Proof.
  destruct (sworndisk_opened_is_array (M := rbtree_memtable record) sample_crc sample_crc_u32 area_zero (fun _ => zero_leaf) 0 0 (fun l => l) area_zero 0 zero_record
    32 32768 ltac:(vm_compute; congruence) sample_keys 0 rbtree_memtable_init io_zero area_zero 0 sample_meta_dev [sample_read; sample_write; sample_read])
    as (s & outs & s' & content' & H1 & H2 & H3).
  - exact sample_formattable.
  - apply rbtree_memtable_init_ok.
  - apply rbtree_memtable_init_ok.
  - constructor; [split; [discriminate|split; [exact sample_read_wf|vm_compute; split; congruence]]|].
    constructor; [split; [discriminate|split; [exact sample_write_wf|vm_compute; split; congruence]]|].
    constructor; [split; [discriminate|split; [exact sample_read_wf|vm_compute; split; congruence]]|]. constructor.
  - vm_compute. discriminate.
  - vm_compute. reflexivity.
  - exists s, outs, s', content'. split; [exact H1|]. split; [exact H2|exact H3].
Defined.
