(* ===== verification/TargetSpec.v ===== *)
(** * The target as a block device

    The queue, the workers and the disk together: requests are deferred, taken
    by the worker, handed to readers and finished in any order the scheduler
    chooses.  Whatever it chooses, as long as the log stays below the cleaning
    threshold, the finished requests are a run on an array of blocks in the order
    they finished, and the queue can always be drained. *)
From S2P Require Import Prelude Codec BlockManager DiskStructs Crypto BitNode Superblock SegValidator Dst Area Bio Bloom Hashtable Catalogue Metadata DiskMeta Memtable RbMemtable BitFile BitTree BitFileSpec Level Compaction TableSpec CatalogueIface Instances FileFacts LsmTree LsmFacts LsmSpec DiskIndex Segment Device DataPath Cleaning WritePath DataPathSpec DeviceSpec DiskState DiskSpec.

(** ** Runs on an array, one request more at the end *)
Lemma block_run_read reqs c outs c' b : block_run reqs c outs c' -> bi_op b = REQ_OP_READ ->
  block_run (reqs ++ [b]) c (outs ++ [read_payload c' b]) c'.
Proof. induction 1; intros Hop; cbn [app]; [by repeat constructor|constructor; auto|econstructor; eauto]. Qed.
Lemma block_run_write reqs c outs c' b base : block_run reqs c outs c' -> bi_op b = REQ_OP_WRITE -> write_base c' b base ->
  block_run (reqs ++ [b]) c outs (<[bio_get_block_address b := splice (bio_off b) (bi_payload b) base]> c').
Proof. induction 1; intros Hop Hb; cbn [app]; [econstructor; [done|done|constructor]|constructor; auto|econstructor; eauto]. Qed.

Lemma nr_writes_app l k : nr_writes (l ++ k) = nr_writes l + nr_writes k.
Proof. by rewrite /nr_writes fmap_app count_true_app. Qed.
Lemma nr_writes_perm l k : l ≡ₚ k -> nr_writes l = nr_writes k.
Proof. induction 1; rewrite ?nr_writes_cons; lia || congruence. Qed.

(** Both sides of a permutation, with the elements that are singled out in front. *)
Ltac perm_middle := by rewrite -?app_assoc /= -?Permutation_middle ?app_nil_r.

(** The finished requests as they were accepted, and what the readers were
    given, both in the order they finished. *)
Definition finished (done : list (bio * bio)) : list bio := reverse done.*1.
Definition read_answers (done : list (bio * bio)) : list (list byte) :=
  (fun e => bi_payload e.2) <$> filter (fun e => bi_op e.1 = REQ_OP_READ) (reverse done).
(** A bio handed back is of the kind that was asked for, and a write's is the
    accepted one itself. *)
Definition answers (e : bio * bio) : Prop := bi_op e.2 = bi_op e.1 /\ (bi_op e.1 = REQ_OP_WRITE -> e.2 = e.1).

Lemma finished_cons e l : finished (e :: l) = finished l ++ [e.1].
Proof. by rewrite /finished fmap_cons reverse_cons. Qed.
Lemma read_answers_read b b' l : bi_op b = REQ_OP_READ -> read_answers ((b, b') :: l) = read_answers l ++ [bi_payload b'].
Proof. intros Hop. by rewrite /read_answers reverse_cons filter_app fmap_app filter_cons_True. Qed.
Lemma read_answers_write b b' l : bi_op b = REQ_OP_WRITE -> read_answers ((b, b') :: l) = read_answers l.
Proof. intros Hop. rewrite /read_answers reverse_cons filter_app fmap_app filter_cons_False; [by rewrite app_nil_r|by rewrite /= Hop]. Qed.

Section target_spec.
Context {X : Type} {ix : LsmIndex X} {dm : DataMeta X} {dv : DataView X} {gcm : Gcm} {gcm_ok : GcmOk} {rng : Rng} {rng_ok : RngOk}.
Context (NR_SEGMENT : Z) {ok : DataPathOk X NR_SEGMENT}.
Context (garbage_plain : list byte -> list byte) (garbage_memory : area) (garbage_lba : Z) (garbage_record : record) (fuel : nat).
Let work := work_step NR_SEGMENT garbage_plain garbage_memory garbage_lba garbage_record fuel.
Implicit Types (s : sworndisk X) (q : queue X).

(** An execution in which the requests [reqs] come in, in this order. *)
Inductive dev_exec : list bio -> queue X -> queue X -> Prop :=
| Exec_nil q : dev_exec [] q q
| Exec_map reqs q q' q'' b r : dev_exec reqs q q' -> dm_sworndisk_target_map b q' = (r, q'') -> dev_exec (reqs ++ [b]) q q''
| Exec_work reqs q q' q'' : dev_exec reqs q q' -> work q' q'' -> dev_exec reqs q q''.

(** A read or write of whole sectors, which the target may have to split. *)
Definition target_req (b : bio) : Prop :=
  bi_op b <> REQ_OP_OTHER /\ 0 < bio_sectors b /\ bi_size b = 512 * bio_sectors b /\ x_key (bio_get_block_address b).

Lemma map_split_req b : target_req b -> req_ok (map_split b) /\ bi_op (map_split b) = bi_op b.
Proof.
  intros (Hop & Hn & Hsz & Hkey). pose proof (map_split_in_block b) as Hin. rewrite /bio_in_block in Hin. revert Hin. rewrite /map_split.
  destruct (bio_off_bounds b) as [Ho _]. change SECTORS_PER_BLOCK with 8. destruct (Z.ltb_spec (8 - bio_block_sector_offset b) (bio_sectors b)) as [Hlt|Hge].
  2:{ intros Hin. by split. }
  intros Hin. split; [|done]. split; [done|]. split; [|done]. set (b' := dm_accept_partial_bio b _) in *.
  assert (bi_size b' = (8 - bio_block_sector_offset b) * 512) as Hs.
  { rewrite /bi_size /b' /dm_accept_partial_bio. cbn [bio_set_payload bi_payload]. rewrite length_take. rewrite /bi_size in Hsz. change SECTOR_SIZE with 512. lia. }
  assert (bio_sectors b' = 8 - bio_block_sector_offset b) as Hsec.
  { rewrite /bio_sectors Hs Z.shiftr_div_pow2 // Z.div_mul //. }
  split; [lia|]. split; [lia|done].
Qed.

(** ** The finished requests, so far *)
Record linear_upto s (content : gmap Z (list byte)) (accepted : list bio) q (content' : gmap Z (list byte)) : Prop := {
  lu_run : block_run (finished (dq_done q)) content (read_answers (dq_done q)) content';
  lu_done : Forall answers (dq_done q);
  lu_post : run_post NR_SEGMENT s (dq_disk q) content' (nr_writes (finished (dq_done q)));
  lu_all : finished (dq_done q) ++ all_bios q ++ dq_dropped q ≡ₚ accepted;
  lu_queue : queue_inv q
}.

Lemma do_read_op b s : bi_op b = REQ_OP_READ -> bi_op (sworndisk_do_read NR_SEGMENT garbage_memory b s).1 = REQ_OP_READ.
Proof.
  intros Hop. rewrite /sworndisk_do_read. destruct (ix_search _ _) as [[r|e] x]; [|done]. rewrite /segbuf_query_bio.
  set (b1 := bio_set_sector _ b). destruct (_ || _); [|by rewrite (bio_set_data_ok b1)]. destruct (bio_prefetcher_get _ _ _) as [ct s'].
  destruct (decrypt _ _ _ _ _); [|done]. by rewrite (bio_set_data_ok b1).
Qed.

Section execution.
Context s content (Hs : dp_inv NR_SEGMENT s content) (HN : 16 < NR_SEGMENT).
Context (accepted : list bio) (Hacc : Forall req_ok accepted) (Hpos : sd_position s + nr_writes accepted <= (NR_SEGMENT - 17) * 1024)
  (Hroom : x_room (Z.to_nat (nr_writes accepted)) (sd_x s)).

Lemma accepted_ok sub q content' b : sub ⊆+ accepted -> linear_upto s content sub q content' -> b ∈ all_bios q -> req_ok b.
Proof.
  intros Hsub [_ _ _ L4 _] Hin. apply (proj1 (Forall_forall req_ok accepted) Hacc). eapply elem_of_submseteq; [|exact Hsub]. rewrite -L4. set_solver.
Qed.

(** A write in flight does not fault. *)
Lemma linear_write sub q content' b : sub ⊆+ accepted -> linear_upto s content sub q content' -> b ∈ all_bios q -> bi_op b = REQ_OP_WRITE ->
  exists s' base, sworndisk_do_write NR_SEGMENT garbage_plain garbage_memory garbage_lba garbage_record fuel b (dq_disk q) = Some s' /\ write_base content' b base /\
    run_post NR_SEGMENT s s' (<[bio_get_block_address b := splice (bio_off b) (bi_payload b) base]> content') (nr_writes (finished (dq_done q)) + 1).
Proof.
  intros Hsub Hl Hin Hop. pose proof (accepted_ok _ _ _ _ Hsub Hl Hin) as Hreq. destruct Hl as [_ _ [L1 L2 L3] L4 _]. set (order := finished (dq_done q)) in *. pose proof (nr_writes_pos order) as Ho.
  assert (nr_writes order + 1 <= nr_writes accepted) as Hle.
  { apply submseteq_Permutation in Hsub as [k Hk]. rewrite (nr_writes_perm _ _ Hk) nr_writes_app -(nr_writes_perm _ _ L4) (nr_writes_app order) (nr_writes_app (all_bios q)).
    apply list_elem_of_split in Hin as (l1 & l2 & ->). rewrite nr_writes_app nr_writes_cons /is_write Hop.
    pose proof (nr_writes_pos k). pose proof (nr_writes_pos l1). pose proof (nr_writes_pos l2). pose proof (nr_writes_pos (dq_dropped q)). lia. }
  destruct (run_write NR_SEGMENT garbage_plain garbage_memory garbage_lba garbage_record fuel (dq_disk q) content' b L1 HN Hop Hreq) as (s' & base & Hrun & Hb & Hp).
  - lia.
  - apply L3. eapply x_room_le; [|exact Hroom]. lia.
  - exists s', base. split; [done|]. split; [done|]. by eapply run_post_trans.
Qed.

Lemma linear_work sub q q' content' : sub ⊆+ accepted -> linear_upto s content sub q content' -> work q q' ->
  exists content'', linear_upto s content sub q' content''.
Proof.
  intros Hsub Hl Hw. pose proof Hl as [L1 L2 L3 L4 L5].
  assert (queue_inv q') as Hq by (eapply step_inv; [exact L5|by apply Step_work]).
  destruct Hw as [d def reading c k m|d def b taken reading c k m kmalloc Hop Hc|d def b taken reading k m kmalloc Hop|d d' def b taken reading c k m Hop Hrun|d d' def taken pre b post b' c k m Hrun].
  - by exists content'.
  - exists content'. split; try done. rewrite -L4 /all_bios. destruct kmalloc; cbn [dq_deferred dq_taken dq_reading dq_dropped go unscheduled]; perm_middle.
  - exists content'. split; try done. rewrite -L4 /all_bios. destruct kmalloc; cbn [dq_deferred dq_taken dq_reading dq_dropped go unscheduled]; perm_middle.
  - destruct (linear_write sub _ content' b Hsub Hl) as (s' & base & Hrun' & Hb & Hp); [rewrite /all_bios; set_solver|done|].
    cbn [dq_disk] in Hrun'. rewrite Hrun in Hrun'. injection Hrun' as <-. eexists. split; [..|done]; cbn [dq_done dq_disk]; rewrite ?finished_cons.
    + rewrite read_answers_write //. by apply block_run_write.
    + by constructor.
    + rewrite nr_writes_app nr_writes_cons /is_write Hop. exact Hp.
    + rewrite -L4 /all_bios. cbn [dq_deferred dq_taken dq_reading dq_dropped]. perm_middle.
  - assert (bi_op b = REQ_OP_READ) as Hop. { destruct L5 as [_ _ Hr _ _]. cbn [dq_reading] in Hr. rewrite Forall_app Forall_cons in Hr. by destruct Hr as (_ & ? & _). }
    pose proof (run_read NR_SEGMENT garbage_memory d content' b (rp_inv _ _ _ _ _ L3) Hop (accepted_ok sub _ _ b Hsub Hl ltac:(rewrite /all_bios; set_solver))) as Hr.
    pose proof (do_read_op b d Hop) as Hop'. rewrite Hrun in Hr, Hop'. destruct Hr as [Hpay Hp]. cbn [fst] in Hop'.
    exists content'. split; [..|done]; cbn [dq_done dq_disk]; rewrite ?finished_cons.
    + rewrite read_answers_read // Hpay. by apply block_run_read.
    + constructor; [|done]. split; cbn; congruence.
    + rewrite nr_writes_app nr_writes_cons /is_write Hop. change (nr_writes []) with 0. eapply run_post_trans; [apply nr_writes_pos|done|exact L3|exact Hp].
    + rewrite -L4 /all_bios. cbn [dq_deferred dq_taken dq_reading dq_dropped]. perm_middle.
Qed.

Lemma linear_init : linear_upto s content [] (queue_init s) content.
Proof. split; [constructor|constructor|by apply run_post_refl|done|apply queue_init_inv]. Qed.

Lemma linear_map sub q q' content' b r : bi_op (map_split b) <> REQ_OP_OTHER -> linear_upto s content sub q content' ->
  dm_sworndisk_target_map b q = (r, q') -> linear_upto s content (sub ++ [map_split b]) q' content'.
Proof.
  intros Hop [L1 L2 L3 L4 L5] Hm. pose proof (map_inv b q r q' L5 Hm) as Hq. rewrite /dm_sworndisk_target_map in Hm.
  destruct (bi_op (map_split b)); [..|done]; injection Hm as <- <-; (split; [done..| |done]);
    rewrite -L4 /all_bios; cbn [dq_deferred dq_taken dq_reading dq_dropped]; perm_middle.
Qed.

Lemma exec_linear reqs q0 q : dev_exec reqs q0 q -> q0 = queue_init s -> Forall target_req reqs -> map_split <$> reqs ⊆+ accepted ->
  exists content', linear_upto s content (map_split <$> reqs) q content'.
Proof.
  induction 1 as [q|reqs q0 q q' b r _ IH Hm|reqs q0 q q' _ IH Hw]; intros ->.
  - intros _ _. eexists. exact linear_init.
  - rewrite Forall_app Forall_singleton fmap_app. intros [Hreqs Hb] Hsub.
    destruct IH as (c & Hl); [done|done|etransitivity; [|exact Hsub]; by apply submseteq_inserts_r|].
    exists c. eapply linear_map; [|exact Hl|exact Hm]. destruct (map_split_req b Hb) as [(? & _) _]. done.
  - intros Hreqs Hsub. destruct IH as (c & Hl); [done..|]. by eapply linear_work.
Qed.

(** The workers finish what is in flight. *)
Lemma linear_drains q content' : linear_upto s content accepted q content' ->
  exists q' content'', rtc work q q' /\ linear_upto s content accepted q' content'' /\ all_bios q' = [] /\ dq_dropped q' = dq_dropped q.
Proof.
  remember (todo q) as n eqn:En. revert q content' En. induction (lt_wf n) as [n _ IH] => q content' En Hl. subst n.
  destruct (decide (all_bios q = [])) as [He|Hne]; [by exists q, content'|].
  destruct (work_progress NR_SEGMENT garbage_plain garbage_memory garbage_lba garbage_record fuel q (lu_queue _ _ _ _ _ Hl) Hne)
    as [(q1 & Hw & Hlt & Hd)|(b & taken & Hb & Hop & Hf)]; last first.
  { destruct (linear_write accepted q content' b ltac:(done) Hl) as (? & ? & Hr & _); [rewrite /all_bios Hb; set_solver|done|]. by rewrite Hf in Hr. }
  destruct (linear_work accepted q q1 content' ltac:(done) Hl Hw) as (c1 & Hl1).
  destruct (IH _ Hlt q1 c1 eq_refl Hl1) as (q' & c' & Hr & Hl' & He & Hd').
  exists q', c'. split; [by eapply rtc_l|]. split; [done|]. split; [done|congruence].
Qed.
End execution.

(** The writes among the requests, after they were split. *)
Lemma nr_writes_split reqs : Forall target_req reqs -> nr_writes (map_split <$> reqs) = nr_writes reqs.
Proof.
  induction 1 as [|b l Hb _ IH]; [done|]. rewrite fmap_cons !nr_writes_cons IH /is_write. by rewrite (proj2 (map_split_req b Hb)).
Qed.
Lemma split_ok reqs : Forall target_req reqs -> Forall req_ok (map_split <$> reqs).
Proof. intros H. apply Forall_fmap. eapply Forall_impl; [exact H|]. intros b Hb. by apply map_split_req. Qed.

(** What an execution leaves, and that the workers can finish it. *)
Lemma exec_ok s content reqs q :
  dp_inv NR_SEGMENT s content -> 16 < NR_SEGMENT -> Forall target_req reqs ->
  sd_position s + nr_writes reqs <= (NR_SEGMENT - 17) * 1024 -> x_room (Z.to_nat (nr_writes reqs)) (sd_x s) ->
  dev_exec reqs (queue_init s) q ->
  (exists content', linear_upto s content (map_split <$> reqs) q content') /\
  exists q' content'', rtc work q q' /\ linear_upto s content (map_split <$> reqs) q' content'' /\ all_bios q' = [] /\ dq_dropped q' = dq_dropped q.
Proof.
  intros Hs HN Hreqs Hpos Hroom He. rewrite -(nr_writes_split reqs Hreqs) in Hpos, Hroom.
  destruct (exec_linear s content Hs HN _ (split_ok reqs Hreqs) Hpos Hroom reqs _ q He eq_refl Hreqs ltac:(done)) as (c & Hl).
  split; [by exists c|]. exact (linear_drains s content Hs HN _ (split_ok reqs Hreqs) Hpos Hroom q c Hl).
Qed.

(** The target is a linearizable block device.  In every execution of the
    queue, the worker and the readers over a disk whose requests stay below the
    cleaning threshold, with whatever interleaving and whichever closures fail
    to be allocated, the finished requests are, in the order they finished, a
    run on an array of blocks. *)
Theorem target_linearizable s content reqs q :
  dp_inv NR_SEGMENT s content -> 16 < NR_SEGMENT -> Forall target_req reqs ->
  sd_position s + nr_writes reqs <= (NR_SEGMENT - 17) * 1024 -> x_room (Z.to_nat (nr_writes reqs)) (sd_x s) ->
  dev_exec reqs (queue_init s) q ->
  exists content', block_run (finished (dq_done q)) content (read_answers (dq_done q)) content' /\
    Forall answers (dq_done q) /\
    finished (dq_done q) ++ all_bios q ++ dq_dropped q ≡ₚ map_split <$> reqs /\ dp_inv NR_SEGMENT (dq_disk q) content'.
Proof.
  intros Hs HN Hreqs Hpos Hroom He. destruct (exec_ok s content reqs q Hs HN Hreqs Hpos Hroom He) as [(c & [L1 L2 L3 L4 _]) _].
  exists c. do 3 (split; [done|]). apply L3.
Qed.

(** C30: the queue drains, on a disk whose log is below the cleaning threshold.
    Let the reads and writes that came in be of whole sectors at addresses the
    index takes, and let the log position and the index leave room for the
    writes among them before the last 17 segments.  Then from every state an
    execution reaches the workers can go on until no request is in flight.  At
    that point the accepted parts of the requests are, as a multiset, exactly
    the requests that finished and those dropped before (reads whose closure
    could not be allocated): each was finished once or is in the list of
    dropped ones, the bio handed back for a write is the accepted one, and the
    reads were answered as an array of blocks answers them in the order in
    which the requests finished. *)
Theorem target_drains s content reqs q :
  dp_inv NR_SEGMENT s content -> 16 < NR_SEGMENT -> Forall target_req reqs ->
  sd_position s + nr_writes reqs <= (NR_SEGMENT - 17) * 1024 -> x_room (Z.to_nat (nr_writes reqs)) (sd_x s) ->
  dev_exec reqs (queue_init s) q ->
  exists q' content', rtc work q q' /\ all_bios q' = [] /\ dq_dropped q' = dq_dropped q /\
    finished (dq_done q') ++ dq_dropped q' ≡ₚ map_split <$> reqs /\ Forall answers (dq_done q') /\
    block_run (finished (dq_done q')) content (read_answers (dq_done q')) content'.
Proof.
  intros Hs HN Hreqs Hpos Hroom He. destruct (exec_ok s content reqs q Hs HN Hreqs Hpos Hroom He) as [_ (q' & c' & Hr & [L1 L2 _ L4 _] & Hnil & Hd)].
  exists q', c'. do 3 (split; [done|]). rewrite Hnil in L4. by do 2 (split; [done|]).
Qed.
End target_spec.

(** ** From an unformatted device on *)
Section opened.
Context {M : Type} {mt : Memtable M record} {mt_ok : MemtableOk M record}.
Context {gcm : Gcm} {gcm_ok : GcmOk} {rng : Rng} {rng_ok : RngOk} {heap : MinHeap} {bs : Bsearch} {bs_ok : BsearchOk}.
Context (crc32c : Z -> list byte -> Z).
Hypothesis crc32c_u32 : forall seed l, 0 <= crc32c seed l < 2 ^ 32.
Context (garbage_buffer : area) (garbage_leaf : list byte -> bit_leaf) (lsm_fuel : nat) (fd0 : Z).
Context (garbage_plain : list byte -> list byte) (garbage_memory : area) (garbage_lba : Z) (garbage_record : record).
Context (N nr_lba : Z) (nr_lba_ok : nr_lba <= 2 ^ 64) (nr_lba_keys : forall k, 0 <= k < nr_lba -> mt_key_ok k).
#[local] Instance target_index : LsmIndex (disk (M := M)) := disk_index garbage_buffer garbage_leaf lsm_fuel fd0 N.
#[local] Instance target_meta : DataMeta (disk (M := M)) := disk_meta.

(** A read or write of whole sectors of the disk. *)
Definition device_req (b : bio) : Prop :=
  bi_op b <> REQ_OP_OTHER /\ 0 < bio_sectors b /\ bi_size b = 512 * bio_sectors b /\ 0 <= bio_get_block_address b < nr_lba.

(** C1: the device as a whole, as long as the log stays below the cleaning
    threshold.  On an unformatted device of N segments metadata, tree, allocator
    and segment buffer come up.  Let the requests be reads and writes of whole
    sectors below the disk's last block, with at most (N - 18) * 1024 writes
    among them (no cleaning, no threaded logging) and fewer than 5 * 2^20, five
    memtables.  Then in every execution of the target over them -
    requests split and deferred, writes and concurrent readers in any
    interleaving, records in the tree and bookkeeping in the tables on the
    device - the requests that finished, in the order they finished, are a run
    on an array of blocks that gives each read the answer it was handed back;
    the bio handed back for a write is the accepted one; the accepted part of
    each request (up to the end of its block) is finished, in flight or
    dropped, none of them twice; and the workers can finish all that is in
    flight. *)
Theorem sworndisk_device_linearizable gc_fuel empty io data_dev rng0 bm reqs :
  formattable crc32c N bm -> mt_inv empty -> mt_map empty = ∅ -> Forall device_req reqs ->
  nr_writes reqs <= (N - 18) * 1024 -> nr_writes reqs < 5 * DEFAULT_MEMTABLE_CAPACITY ->
  exists s, sworndisk_open crc32c garbage_buffer garbage_leaf lsm_fuel fd0 garbage_memory garbage_lba garbage_record N gc_fuel empty io data_dev rng0 bm = Some s /\
    forall q, dev_exec N garbage_plain garbage_memory garbage_lba garbage_record gc_fuel reqs (queue_init s) q ->
      (exists content', block_run (finished (dq_done q)) ∅ (read_answers (dq_done q)) content' /\
         Forall answers (dq_done q) /\
         finished (dq_done q) ++ all_bios q ++ dq_dropped q ≡ₚ map_split <$> reqs) /\
      exists q', rtc (work_step N garbage_plain garbage_memory garbage_lba garbage_record gc_fuel) q q' /\ all_bios q' = [] /\ dq_dropped q' = dq_dropped q.
Proof.
  intros Hf Hm Hmap Hreqs Hn Hcap.
  destruct (sworndisk_open_ok crc32c crc32c_u32 garbage_buffer garbage_leaf lsm_fuel fd0 garbage_memory garbage_lba garbage_record N nr_lba nr_lba_ok nr_lba_keys
    gc_fuel empty io data_dev rng0 bm Hf Hm Hmap) as (root & s & Hopen & _ & Hdp & Hpos & Hroom).
  exists s. split; [exact Hopen|]. intros q He. pose proof (open_path_ok garbage_buffer garbage_leaf lsm_fuel fd0 N nr_lba nr_lba_ok nr_lba_keys root) as Hpath.
  destruct (fm_nr _ _ _ Hf) as [HN _]. pose proof (nr_writes_pos reqs) as Hb.
  destruct (exec_ok (dv := open_view N nr_lba root) N (ok := Hpath) garbage_plain garbage_memory garbage_lba garbage_record gc_fuel s ∅ reqs q Hdp HN Hreqs ltac:(lia) ltac:(apply Hroom; lia) He)
    as [(c & [L1 L2 _ L4 _]) (q' & c' & Hr & _ & Hnil & Hd)].
  split; [by exists c|by exists q'].
Qed.
End opened.

(** ** Witnesses *)
Import ToyGcm ToyRng PlainRb LinearSearch ListHeap MapDisk.

Definition sample_reqs : list bio := [sample_write; sample_read].
(** The two requests are queued. *)
Definition queued {X} (s : sworndisk X) : queue X := Build_queue s sample_reqs [] [] MAX_READER [] [].

Lemma split_write : map_split sample_write = sample_write.
Proof. vm_compute. reflexivity. Qed.
Lemma split_read : map_split sample_read = sample_read.
Proof. vm_compute. reflexivity. Qed.

Lemma queued_exec {X} {ix : LsmIndex X} {dm : DataMeta X} {gcm : Gcm} {rng : Rng} NR gp gm gl gr fuel (s : sworndisk X) :
  dev_exec NR gp gm gl gr fuel sample_reqs (queue_init s) (queued s).
Proof.
  apply (Exec_map NR gp gm gl gr fuel [sample_write] (queue_init s) (Build_queue s [sample_write] [] [] MAX_READER [] []) (queued s) sample_read DM_MAPIO_SUBMITTED).
  - apply (Exec_map NR gp gm gl gr fuel [] (queue_init s) (queue_init s) (Build_queue s [sample_write] [] [] MAX_READER [] []) sample_write DM_MAPIO_SUBMITTED); [constructor|].
    rewrite /dm_sworndisk_target_map split_write. reflexivity.
  - rewrite /dm_sworndisk_target_map split_read. reflexivity.
Qed.

(** An execution in which both requests finish. *)
Lemma served_exec : exists q : queue MapDisk.st,
  dev_exec 32 (fun l => l) area_zero 0 zero_record 0 sample_reqs (queue_init sample_disk) q /\ all_bios q = [] /\ length (dq_done q) = 2%nat /\ dq_dropped q = [].
Proof.
  destruct (run_write 32 (fun l => l) area_zero 0 zero_record 0 sample_disk ∅ sample_write sample_disk_inv) as (s1 & base & Hw & _).
  { reflexivity. } { reflexivity. } { split; [discriminate|]. split; [exact sample_write_wf|exact I]. } { vm_compute. discriminate. } { exact I. }
  destruct (sworndisk_do_read 32 area_zero sample_read s1) as [b' s2] eqn:Hr.
  exists (Build_queue s2 [] [] [] 4 [(sample_read, b'); (sample_write, sample_write)] []). split; [|done].
  eapply Exec_work; [|apply (Step_finish 32 (fun l => l) area_zero 0 zero_record 0 s1 s2 [] [] [] sample_read [] b' 3 [(sample_write, sample_write)] [] Hr)].
  eapply Exec_work; [|apply (Step_read 32 (fun l => l) area_zero 0 zero_record 0 s1 [] sample_read [] [] 4 [(sample_write, sample_write)] [] true eq_refl eq_refl)].
  eapply Exec_work; [|apply (Step_write 32 (fun l => l) area_zero 0 zero_record 0 sample_disk s1 [] sample_write [sample_read] [] 4 [] [] eq_refl Hw)].
  eapply Exec_work; [|apply Step_take]. apply queued_exec.
Qed.

Lemma sample_reqs_ok : Forall target_req sample_reqs.
Proof.
  destruct sample_write_wf as (W1 & W2 & _). destruct sample_read_wf as (R1 & R2 & _).
  constructor; [split; [discriminate|]; split; [exact W1|]; split; [exact W2|exact I]|].
  constructor; [split; [discriminate|]; split; [exact R1|]; split; [exact R2|exact I]|constructor].
Qed.

Lemma target_linearizable_witness : exists (q : queue MapDisk.st) content',
  dev_exec 32 (fun l => l) area_zero 0 zero_record 0 sample_reqs (queue_init sample_disk) q /\ length (dq_done q) = 2%nat /\
  block_run (finished (dq_done q)) ∅ (read_answers (dq_done q)) content' /\ finished (dq_done q) ≡ₚ map_split <$> sample_reqs.
Proof.
  destruct served_exec as (q & He & Hnil & Hdone & Hdrop).
  destruct (target_linearizable 32 (fun l => l) area_zero 0 zero_record 0 sample_disk ∅ sample_reqs q) as (c & H1 & _ & H3 & _).
  - exact sample_disk_inv.
  - reflexivity.
  - exact sample_reqs_ok.
  - vm_compute. discriminate.
  - exact I.
  - exact He.
  - exists q, c. split; [exact He|]. split; [exact Hdone|]. split; [exact H1|]. rewrite Hnil Hdrop !app_nil_r in H3. exact H3.
Defined.

Lemma target_drains_witness : exists (q' : queue MapDisk.st) content',
  rtc (work_step 32 (fun l => l) area_zero 0 zero_record 0) (queued sample_disk) q' /\ all_bios q' = [] /\ finished (dq_done q') ++ dq_dropped q' ≡ₚ map_split <$> sample_reqs /\
  block_run (finished (dq_done q')) ∅ (read_answers (dq_done q')) content'.
Proof.
  destruct (target_drains 32 (fun l => l) area_zero 0 zero_record 0 sample_disk ∅ sample_reqs (queued sample_disk)) as (q' & c & H1 & H2 & _ & H3 & _ & H4).
  - exact sample_disk_inv.
  - reflexivity.
  - exact sample_reqs_ok.
  - vm_compute. discriminate.
  - exact I.
  - apply queued_exec.
  - exists q', c. split; [exact H1|]. split; [exact H2|]. split; [exact H3|exact H4].
Defined.

Lemma sworndisk_device_linearizable_witness :
  exists s q', sworndisk_open (M := rbtree_memtable record) sample_crc area_zero (fun _ => zero_leaf) 0 0 area_zero 0 zero_record 32 0
      rbtree_memtable_init io_zero area_zero 0 sample_meta_dev = Some s /\
    rtc (work_step (ix := disk_index area_zero (fun _ => zero_leaf) 0 0 32) (dm := disk_meta) 32 (fun l => l) area_zero 0 zero_record 0) (queued s) q' /\ all_bios q' = [].
Proof.
  destruct (sworndisk_device_linearizable (M := rbtree_memtable record) sample_crc sample_crc_u32 area_zero (fun _ => zero_leaf) 0 0 (fun l => l) area_zero 0 zero_record
    32 32768 ltac:(vm_compute; congruence) sample_keys 0 rbtree_memtable_init io_zero area_zero 0 sample_meta_dev sample_reqs) as (s & H1 & H2).
  - exact sample_formattable.
  - apply rbtree_memtable_init_ok.
  - apply rbtree_memtable_init_ok.
  - destruct sample_write_wf as (W1 & W2 & _). destruct sample_read_wf as (R1 & R2 & _).
    constructor; [split; [discriminate|]; split; [exact W1|]; split; [exact W2|vm_compute; split; congruence]|].
    constructor; [split; [discriminate|]; split; [exact R1|]; split; [exact R2|vm_compute; split; congruence]|constructor].
  - vm_compute. discriminate.
  - vm_compute. reflexivity.
  - destruct (H2 (queued s) (queued_exec _ _ _ _ _ _ s)) as (_ & q' & H3 & H4 & _). exists s, q'. split; [exact H1|]. split; [exact H3|exact H4].
Defined.
