(* ===== verification/DiskRestart.v ===== *)
(** * Closing the disk and opening it again (dm-sworndisk.c)

    The destructor writes the segment buffer out, the memtable as a file of
    level 0 and the dirty metadata blocks.  Opened again on what that leaves,
    the disk reads every block back, as long as the memtable filled its leaves. *)
From S2P Require Import Prelude Codec BlockManager DiskStructs Crypto BitNode Superblock SegValidator Dst Area Bio Bloom Hashtable Catalogue Metadata DiskMeta Memtable RbMemtable BitFile BitTree BitFileSpec Level Compaction TableSpec CatalogueIface Instances FileFacts CompactionFacts LsmTree LsmFacts LsmCompaction LsmReopen LsmSpec DiskIndex Segment DataPath Cleaning WritePath DataPathSpec DiskState DiskSpec.

(** ** The segment buffer on the device *)
Section flush.
Context {X : Type} {ix : LsmIndex X} {dm : DataMeta X} {dv : DataView X} {gcm : Gcm} (NR_SEGMENT : Z).
Implicit Types (s : sworndisk X).

Lemma flushed_block s content lba r data :
  dp_core NR_SEGMENT s content -> x_map (sd_x s) !! lba = Some r -> content !! lba = Some data ->
  0 <= pba r < NR_SEGMENT * BLOCKS_PER_SEGMENT /\ length data = block_bytes /\
  encrypt data (key r) (iv r) (pba r) = (area_read (pba r * DATA_BLOCK_SIZE) block_bytes (sd_disk (segbuf_flush_bios s)), mac r).
Proof.
  intros Hc Hr Hd. destruct (di_block _ _ _ Hc lba r data Hr Hd) as (_ & Hp & _ & Hl & Henc & Hcur & _). split; [done|]. split; [done|].
  rewrite Henc. f_equal. rewrite /stored. pose proof (in_segbuf_spec s (pba r)) as Hin. pose proof (di_cursor _ _ _ Hc) as (Hseg & Hsec & _).
  change SECTOES_PER_SEGMENT with 8192 in Hsec. pose proof (Z.div_le_upper_bound (sb_cur_sector s) 8 1024 ltac:(lia) ltac:(lia)) as Hfill.
  cbn [segbuf_flush_bios set_disk sd_disk]. rewrite /sworndisk_write_blocks /block_bytes. change (Z.to_nat DATA_BLOCK_SIZE) with 4096%nat.
  change DATA_BLOCK_SIZE with 4096. change BLOCKS_PER_SEGMENT with 1024 in *. destruct (in_segbuf s (pba r)).
  - destruct (proj1 Hin eq_refl). rewrite area_read_copy_in; [|lia|lia]. f_equal. rewrite /slot_of. change DATA_BLOCK_SIZE with 4096. change BLOCKS_PER_SEGMENT with 1024. lia.
  - rewrite area_read_copy_out; [done|]. destruct (decide (sb_cur_segment s * 1024 <= pba r < sb_cur_segment s * 1024 + 1024)) as [Hs|Hs]; [|lia].
    exfalso. assert (pba r / 1024 = sb_cur_segment s) as Hq by (by apply seg_of). by apply Hcur in Hq.
Qed.
End flush.

(** ** The metadata loaded again *)

(** All of the catalogue but the version counter. *)
Record bc_alike (c c' : bc_state) : Prop := {
  bk_geom : bc_geom c'.1 = bc_geom c.1;
  bk_bits : bc_bits c' = bc_bits c;
  bk_stat fd : 0 <= fd < bc_max_fd c -> bc_stat c' fd = bc_stat c fd
}.

Section reload.
Context (N : Z) (sb : superblock) (Hnr : nr_segment sb = N) (Hbps : blocks_per_seg sb = BLOCKS_PER_SEGMENT).
Implicit Types (bm : dm_block_manager) (md : metadata).

(** The table of a validator is determined by its array and the number of bits. *)
Lemma sv_table v bm start n :
  sv_inv (v, bm) -> db_array (seg_validity_table v) = db_array (disk_bitset_create start n) -> sv_nr_segment v = n ->
  sv_inv (seg_validator_create start n, bm) /\ sv_bits (seg_validator_create start n, bm) = sv_bits (v, bm).
Proof.
  intros ((Hwf & Hda) & Hl & Hc) Ha Hn. cbn [fst snd] in *. change (sv_bits (v, bm)) with (db_bits (seg_validity_table v) bm) in Hl.
  rewrite length_db_bits in Hl. assert (seg_validity_table v = disk_bitset_create start n) as Ht.
  { destruct (seg_validity_table v) as [nb a]. cbn [db_array db_nr_bit] in *. rewrite Ha /disk_bitset_create. f_equal. destruct Hwf as [H0 _]. cbn in H0. lia. }
  assert (sv_bits (seg_validator_create start n, bm) = sv_bits (v, bm)) as Hb.
  { change (db_bits (disk_bitset_create start n) bm = db_bits (seg_validity_table v) bm). by rewrite Ht. }
  split; [|done]. split; [cbn [fst snd seg_validator_create seg_validity_table]; rewrite -Ht; done|]. split; [|done].
  rewrite Hb. change (sv_bits (v, bm)) with (db_bits (seg_validity_table v) bm). rewrite length_db_bits. cbn. lia.
Qed.

Lemma reload_ok md bm :
  md_inv N (md, bm) -> md_geom md = md_geom (metadata_blank sb) ->
  exists md2, metadata_open sb false (metadata_blank sb, bm) = (Ok tt, (md2, bm)) /\ md_inv N (md2, bm) /\
    (forall i, md_used (md2, bm) i = md_used (md, bm) i) /\ (forall b, md_valid N (md2, bm) b = md_valid N (md, bm) b) /\ (forall b, md_lba N (md2, bm) b = md_lba N (md, bm) b) /\
    bc_alike (md_bc (md, bm)) (md_bc (md2, bm)).
Proof.
  intros [I1 I2 I3 I4 I5 I6 I7 I8 I9] Hg. cbn [fst snd] in *. pose proof Hg as [= G1 G2 G3 G4 G5 G6 G7 G8 G9 G10 G11].
  destruct (sv_table _ _ (seg_validity_table_start sb) N I1) as [S1 S2]; [by rewrite -Hnr|done|].
  destruct I8 as (Bw & Bs & Bd). cbn [fst snd] in Bw, Bs, Bd. set (c := bit_catalogue_blank sb).
  destruct (sv_table _ _ (block_index_table_catalogue_start sb) (sv_nr_segment (bc_bit_validity_table c)) Bs) as [T1 T2]; [done|done|].
  assert (bc_inv (c, bm)) as Hbc.
  { split; [|split; [exact T1|]]; cbn [fst snd]; [|change (bc_file_stats c) with (stats_array (metadata_blank sb)); by rewrite -G5].
    destruct Bw as (W1 & W2 & W3). split; [|split]; change (bc_file_stats c) with (stats_array (metadata_blank sb)); rewrite -G5; [done|done|by rewrite W3 G6]. }
  assert (dst_array (md_dst md) = disk_array_create (data_seg_table_start sb) N DST_ENTRY_SIZE) as E2 by (rewrite -Hnr; exact G2).
  assert (rit_array (md_rit md) = rit_array (reverse_index_table_create (reverse_index_table_start sb) (N * blocks_per_seg sb))) as E3 by (rewrite -Hnr; exact G3).
  pose proof I3 as (Dw & Dd & De & _). cbn [fst snd] in Dw, Dd, De.
  destruct (dst_init_ok (dst_blank (data_seg_table_start sb) N, bm) (data_seg_table_start sb) N) as ([d2 bm2] & Hrun & D1 & Hbm & D3 & D4 & _).
  { destruct Dw as [D0 _]. lia. }
  { cbn [snd]. change (dst_array (dst_blank (data_seg_table_start sb) N)) with (disk_array_create (data_seg_table_start sb) N DST_ENTRY_SIZE).
    by rewrite -E2. }
  { intros sg Hsg. cbn [fst dst_blank dst_nr_segment] in Hsg. destruct (De sg) as (e & He & Hok); [cbn [fst]; by rewrite I4|]. exists e. split; [|done].
    rewrite -He /dst_entry_at. cbn [fst snd]. by rewrite E2. }
  cbn [fst snd] in Hbm, D3, D4. subst bm2.
  assert (dst_array d2 = dst_array (md_dst md)) as Hda by (pose proof D1 as ([_ Hw] & _); cbn [fst] in Hw; by rewrite Hw D3 D4 E2).
  exists {| md_superblock := sb; md_seg_validator := seg_validator_create (seg_validity_table_start sb) N;
            md_rit := reverse_index_table_create (reverse_index_table_start sb) (N * blocks_per_seg sb); md_dst := d2;
            md_bit_catalogue := bc_set_max_version (loaded_version sb bm) c |}.
  split; [|split; [|split; [|split; [|split]]]].
  - rewrite /metadata_open /se_bind /md_on_dst /se_zoom. cbn [fst snd metadata_blank md_dst]. rewrite Hnr Hrun. rewrite /md_on_bitc /se_zoom.
    cbn [fst snd md_bit_catalogue]. rewrite /bit_catalogue_init /se_bind /se_modify /bitc_get_current_version /se_bind. cbn [snd].
    fold c. rewrite (bitc_get_all_file_stats_ok _ Hbc). rewrite /se_ret /loaded_version /metadata_blank. rewrite Hnr. reflexivity.
  - split; cbn [fst snd md_seg_validator md_dst md_rit md_bit_catalogue]; try done.
    + by rewrite -E3.
    + cbn. by rewrite Hbps.
    + apply (md_apart_same md); [|done]. rewrite /md_arrays /svt_array /bitv_array /stats_array. cbn [md_seg_validator md_dst md_rit md_bit_catalogue].
      rewrite Hda -E3. f_equal; [|symmetry; exact G5]. f_equal; [|symmetry; exact G4]. do 2 f_equal. rewrite -Hnr. symmetry. exact G1.
  - intros i. rewrite /md_used. cbn [fst snd md_seg_validator]. by rewrite S2.
  - apply (md_valid_ext N (md, bm)); [done|]. intros sg _. rewrite /dst_entry_at. cbn [fst snd md_dst]. by rewrite Hda.
  - apply (md_lba_ext N (md, bm)). intros b _. cbn [fst snd md_rit]. by rewrite E3.
  - split.
    + rewrite /bc_geom. cbn [md_bc fst md_bit_catalogue]. by rewrite G6 G7 G8 G9 G10 G11.
    + exact T2.
    + intros fd _. rewrite /bc_stat. cbn [md_bc fst snd md_bit_catalogue]. change (bc_file_stats (bc_set_max_version _ c)) with (stats_array (metadata_blank sb)). by rewrite -G5.
Qed.
End reload.

(** ** The device the metadata are closed on *)

(** The flushed buffers, under a new block manager. *)
Definition reopen_bm (bm : dm_block_manager) : dm_block_manager := dm_block_manager_create (bufio bm).

Lemma metadata_destroy_ok bm :
  bm_ok bm -> let bm' := (metadata_destroy bm).2 in
  bufio_dirty (bufio bm') = ∅ /\ bm_ok (reopen_bm bm') /\ forall b, bm_block (reopen_bm bm') b = bm_block bm b.
Proof.
  intros [Hr Hv]. rewrite /metadata_destroy /se_ignore /dm_bm_flush /= Hr /dm_bufio_write_dirty_buffers.
  set (r := if bufio_write_error (bufio bm) =? 0 then _ else _). destruct r; cbn [snd bm_with_bufio bufio].
  all: split; [done|]; split; [done|]; intros b; rewrite /bm_block /reopen_bm /dm_block_manager_create; cbn [bufio bufio_data];
    rewrite map_lookup_imap; destruct (bufio_data (bufio bm) !! b) as [d|]; [|done]; cbn; case_decide; [|done];
    by rewrite /dm_block_manager_write_callback Hv lookup_empty.
Qed.

Lemma md_blocks_same N md bm bm' :
  md_inv N (md, bm) -> bm_ok bm' -> (forall b, bm_block bm' b = bm_block bm b) ->
  md_keeps N (md, bm) (md, bm') /\ bc_same (md_bc (md, bm)) (md_bc (md, bm')).
Proof.
  intros Hi Hok Hb.
  assert (forall a i, da_entry a bm' i = da_entry a bm i) as He by (intros a i; by rewrite /da_entry Hb).
  assert (forall a, da_inv a bm -> da_inv a bm') as Hda by (intros a (H1 & _ & H2); split; [done|]; split; [done|]; intros b; rewrite Hb; apply H2).
  pose proof (mi_bc _ _ Hi) as (B1 & B2 & B3). cbn [fst snd] in B1, B2, B3.
  destruct (sv_inv_same _ _ bm' B2) as [S1 S2]; [apply Hda, (proj2 (proj1 B2))|intros; apply He|].
  split.
  - pose proof (md_bc_frame N (md, bm) (md_bit_catalogue md, bm') Hi) as Hk. destruct md. apply Hk; [|done].
    split; [done|]. split; [done|]. by apply Hda.
  - split; try done. intros fd _. rewrite /bc_stat. cbn [md_bc fst snd]. by rewrite He.
Qed.

(** ** Opening the metadata again *)
Section reinit.
Context (crc32c : Z -> list byte -> Z) (N : Z) (HN : 16 < N) (Hnr : N * SECTOES_PER_SEGMENT <= 2 ^ 32).

Lemma describes_geom c c' md : md_describes (superblock_defaults N c) md -> md_geom md = md_geom (metadata_blank (superblock_defaults N c')).
Proof.
  intros (_ & Hs & Hr & ([_ Hw] & Hd1 & Hd2) & (v & Hbc)). rewrite /md_geom /md_arrays /svt_array /bitv_array /stats_array Hs Hr Hbc Hw Hd1 Hd2. done.
Qed.

Lemma superblock_outside c md : md_describes (superblock_defaults N c) md -> md_outside md SUPERBLOCK_LOCATION.
Proof using HN Hnr.
  intros Hd%(describes_geom c c). change SECTOES_PER_SEGMENT with 8192 in Hnr. rewrite (md_outside_geom _ _ _ Hd).
  pose proof (default_layout_ok N c ltac:(lia)) as Hlay. pose proof (table_blocks_pos _ Hlay) as (P1 & P2 & P3 & P4 & P5). pose proof Hlay as [L1 L2 L3 L4 L5 L6 L7].
  set (sb := superblock_defaults N c) in *. rewrite /md_outside /da_owns. change (da_start (svt_array (metadata_blank sb))) with (seg_validity_table_start sb).
  change (da_start (dst_array (md_dst (metadata_blank sb)))) with (data_seg_table_start sb). change (da_start (rit_array (md_rit (metadata_blank sb)))) with (reverse_index_table_start sb).
  change (da_start (bitv_array (metadata_blank sb))) with (block_index_table_catalogue_start sb).
  change (da_start (stats_array (metadata_blank sb))) with
    (block_index_table_catalogue_start sb + __seg_validity_table_blocks (sv_nr_segment (bc_bit_validity_table (bit_catalogue_blank sb)))).
  lia.
Qed.

Lemma metadata_reinit root md bm :
  root_of crc32c N root -> md_inv N (md, bm) -> md_rooted root (md, bm) ->
  exists md2, metadata_init crc32c N bm = (Ok md2, bm) /\ md_inv N (md2, bm) /\
    (forall i, md_used (md2, bm) i = md_used (md, bm) i) /\ (forall b, md_valid N (md2, bm) b = md_valid N (md, bm) b) /\ (forall b, md_lba N (md2, bm) b = md_lba N (md, bm) b) /\
    bc_alike (md_bc (md, bm)) (md_bc (md2, bm)).
Proof using HN Hnr.
  intros (Hri & c & Hd & Hsb) Hi [Hg Hout]. cbn [fst snd] in Hg, Hout. set (c' := superblock_csum crc32c (superblock_defaults N c)) in *.
  destruct (reload_ok N (superblock_defaults N c') eq_refl eq_refl md bm Hi) as (md2 & Hrun & Hrest); [rewrite Hg; by eapply describes_geom|].
  exists md2. split; [|done]. rewrite /metadata_init /superblock_init /se_bind.
  assert (bm_ok root.2 /\ bm_ok bm) as [Hr0 Hr1].
  { split; [destruct (mi_rit _ _ Hri) as (_ & ? & _)|destruct (mi_rit _ _ Hi) as (_ & ? & _)]; done. }
  rewrite (superblock_read_same _ _ _ Hr0 Hr1 (Hout _ (superblock_outside c _ Hd)) Hsb).
  assert (superblock_validate crc32c (superblock_defaults N c') = true) as ->.
  { assert (superblock_defaults N c' = sb_with_csum c' (superblock_defaults N c)) as -> by done.
    rewrite /superblock_validate superblock_csum_with_csum -/c'. change (csum (sb_with_csum c' _)) with c'. by rewrite Z.eqb_refl. }
  rewrite /se_ret Hrun. done.
Qed.
End reinit.

(** ** Closing *)
Section restart.
Context {M : Type} {mt : Memtable M record} {mt_ok : MemtableOk M record}.
Context {gcm : Gcm} {gcm_ok : GcmOk} {rng : Rng} {rng_ok : RngOk} {heap : MinHeap} {bs : Bsearch} {bs_ok : BsearchOk}.
Context (crc32c : Z -> list byte -> Z).
Hypothesis crc32c_u32 : forall seed l, 0 <= crc32c seed l < 2 ^ 32.
Context (garbage_buffer : area) (garbage_leaf : list byte -> bit_leaf) (lsm_fuel : nat) (fd0 : Z).
Context (garbage_plain : list byte -> list byte) (garbage_memory : area) (garbage_lba : Z) (garbage_record : record).
Context (N nr_lba : Z) (nr_lba_ok : nr_lba <= 2 ^ 64) (nr_lba_keys : forall k, 0 <= k < nr_lba -> mt_key_ok k).
#[local] Instance restart_index : LsmIndex (disk (M := M)) := disk_index garbage_buffer garbage_leaf lsm_fuel fd0 N.
#[local] Instance restart_meta : DataMeta (disk (M := M)) := disk_meta.
Implicit Types (t : disk (M := M)) (s : sworndisk (disk (M := M))).

(** What stays of the disk: the data device, the index file and the metadata device. *)
Definition sworndisk_close s : option (area * bit_io * dm_block_manager) :=
  let s := segbuf_destroy s in
  lsm_tree_destroy (cat := md_catalogue N (lt_catalogue (sd_x s))) garbage_buffer garbage_leaf lsm_fuel fd0 (sd_x s) ≫= fun t =>
  Some (sd_disk s, lt_io t, (metadata_destroy (lt_catalogue t).2).2).

(** As many records as fill whole leaves, with the builder's buffer not due for
    a flush at the end. *)
Definition whole_leaves (n : Z) : Prop := n = 0 \/ 8 <= n /\ n mod 8 = 0 /\ sim_full (Z.to_nat (n / 8)) = false.

(** The tree of a disk that wrote less than a memtable. *)
Lemma tree_destroy_ok root n t m :
  tree_run N nr_lba root (lt_catalogue t) n t m -> n < DEFAULT_MEMTABLE_CAPACITY -> whole_leaves (Z.of_nat (size (disk_map nr_lba t))) ->
  exists t1 ess, lsm_tree_destroy (cat := md_catalogue N (lt_catalogue t)) garbage_buffer garbage_leaf lsm_fuel fd0 t = Some t1 /\
    lsm_inv (cat := md_catalogue N (lt_catalogue t)) t1 ess /\ lsm_reg (cat := md_catalogue N (lt_catalogue t)) t1 /\
    forall k, mt_key_ok k -> m !! k = disk_lookup k (lt_levels t1) ess.
Proof.
  intros Hr Hn Hw. pose proof (tree_run_memtable N nr_lba nr_lba_keys root _ n t m Hr Hn) as Hmt. rewrite -Hmt in Hw.
  destruct Hr as ([(ess & Hi & Hsz & Hm) (l0 & ls & Heq & R1 & R2 & R3 & R4 & R5) Hu Hmax] & Hg & _). pose proof (mt_size_ok _ (li_mt _ _ Hi)) as Hs0.
  change DEFAULT_MEMTABLE_CAPACITY with 1048576 in *. rewrite -Hs0 in Hw. assert (lv_size l0 = 0) as H0 by (rewrite /lv_size in R4 |- *; lia).
  assert (exists t1 ess1, lsm_tree_destroy (cat := md_catalogue N (lt_catalogue t)) garbage_buffer garbage_leaf lsm_fuel fd0 t = Some t1 /\
    flushed (cat := md_catalogue N (lt_catalogue t)) t ess t1 ess1) as (t1 & ess1 & Hrun & [F1 F2 F3 F4]).
  { rewrite /lsm_tree_destroy. destruct (Z.eqb_spec (mt_size (lt_memtable t)) 0) as [Hz|Hz].
    { exists t, ess. split; [done|]. split; [done|by eapply mt_size_zero|done|done]. }
    destruct Hw as [Hw|(W1 & W2 & W3)]; [done|]. destruct (mt_ents_ok _ (li_mt _ _ Hi) (li_mt_keys _ _ Hi)) as (_ & _ & _ & Hl).
    destruct (minor_flush_flushed (cat := md_catalogue N (lt_catalogue t)) (cat_ok := md_catalogue_ok N (lt_catalogue t)) garbage_buffer fd0 t ess l0 ls Hi Heq)
      as (t1 & ess1 & Hrun & Hf).
    - lia.
    - rewrite /chunk_ok Hl. split; [lia|]. split; [done|]. split; [|done]. change DEFAULT_LSM_FILE_CAPACITY with 1048576. lia.
    - lia.
    - apply free_slot; [apply (li_ids _ _ Hi)|done|]. rewrite /tree_files Heq fmap_cons. cbn [concat]. rewrite (no_files _ R3) app_nil_r.
      rewrite /lv_size in H0. lia.
    - exists t1, ess1. split; [|done]. rewrite /lsm_tree_minor_compaction Heq. cbn [lookup list_lookup]. rewrite /bit_level_is_full H0 R1. exact Hrun. }
  exists t1, ess1. split; [exact Hrun|]. split; [exact F1|]. split; [by apply F4|]. intros k Hk. rewrite (Hm k Hk) -F3 /lsm_lookup F2 lookup_empty. done.
Qed.

(** ** Opening again *)

(** The tree depends on the files the catalogue lists, not on the version counter. *)
Lemma init_alike empty io st st' t :
  md_inv N st -> md_inv N st' -> bc_alike (md_bc st) (md_bc st') ->
  lsm_tree_init (cat := md_catalogue N st) empty io st = Some t ->
  lsm_tree_init (cat := md_catalogue N st') empty io st' = Some (lt_set_catalogue st' t).
Proof.
  intros Hi Hi' [[= G1 G2 G3 G4 G5 G6] B2 B3]. rewrite /lsm_tree_init.
  rewrite (cat_all_stats_ok (LsmCatalogueOk := md_catalogue_ok N st) st (md_keeps_refl N st Hi)).
  rewrite (cat_all_stats_ok (LsmCatalogueOk := md_catalogue_ok N st') st' (md_keeps_refl N st' Hi')).
  cbn [cat_nr_disk_level cat_max_level_nr_file cat_common_ratio cat_max_fd md_catalogue bit_catalogue_iface].
  change (bc_max_fd (md_bc st') = bc_max_fd (md_bc st)) in G1. rewrite G1 G4 G5 G6.
  assert (omap (fun fd => if cat_used (md_bc st') fd then cat_stat (md_bc st') fd else None) (seqZ 0 (bc_max_fd (md_bc st))) =
          omap (fun fd => if cat_used (md_bc st) fd then cat_stat (md_bc st) fd else None) (seqZ 0 (bc_max_fd (md_bc st)))) as He.
  { apply list_omap_ext, Forall_Forall2_diag, Forall_forall => fd /elem_of_seqZ Hfd. cbn [cat_used cat_stat bit_catalogue_iface].
    rewrite B2 B3 //. }
  cbn [cat_used cat_stat md_catalogue]. rewrite He. destruct (foldl _ _ _) as [ls|]; [|done]. cbn. by intros [= <-].
Qed.

(** The tables after a restart, whatever the tree. *)
Definition table_view : DataView (disk (M := M)) := view_of N nr_lba (fun t => md_inv N (lt_catalogue t)) (fun _ => False) (fun _ _ => True).
Lemma table_path_ok : DataPathOk (dv := table_view) (disk (M := M)) N.
Proof using mt_ok gcm_ok rng_ok bs_ok nr_lba_ok nr_lba_keys.
  apply tables_path_ok; try done. by intros t st' _ (H & _).
Qed.

Lemma tree_reopen_ok root t1 ess empty io :
  root_of crc32c N root -> 16 < N -> N * SECTOES_PER_SEGMENT <= 2 ^ 32 -> mt_inv empty -> mt_map empty = ∅ -> io_file io = io_file (lt_io t1) ->
  md_rooted root (lt_catalogue t1) -> lsm_inv (cat := md_catalogue N (lt_catalogue t1)) t1 ess -> lsm_reg (cat := md_catalogue N (lt_catalogue t1)) t1 ->
  let bm := reopen_bm (metadata_destroy (lt_catalogue t1).2).2 in
  exists md2 t2, metadata_init crc32c N bm = (Ok md2, bm) /\ lsm_tree_init (cat := md_catalogue N (md2, bm)) empty io (md2, bm) = Some t2 /\
    lt_catalogue t2 = (md2, bm) /\ md_inv N (md2, bm) /\
    (forall i, md_used (md2, bm) i = md_used (lt_catalogue t1) i) /\ (forall b, md_valid N (md2, bm) b = md_valid N (lt_catalogue t1) b) /\
    forall k, mt_key_ok k -> (lsm_tree_search k t2).1 = to_result (disk_lookup k (lt_levels t1) ess).
Proof.
  intros Hroot HN Hnr Hm Hmap Hio Hrt Hi Hg bm. pose proof (li_cat _ _ Hi) as Hk. destruct (lt_catalogue t1) as [md1 bm1] eqn:Ec.
  pose proof (mk_inv _ _ _ Hk) as Hi1. cbn [fst snd] in *.
  destruct (metadata_destroy_ok bm1) as (_ & Hok & Hb); [by destruct (mi_rit _ _ Hi1) as (_ & ? & _)|]. fold bm in Hok, Hb.
  destruct (md_blocks_same N md1 bm1 bm Hi1 Hok Hb) as [Hk2 Hbc]. pose proof (mk_inv _ _ _ Hk2) as Hi2.
  set (st := (md1, bm)) in *. set (t1' := lt_set_catalogue st t1). rewrite -Ec in Hi, Hg, Hbc.
  assert (lsm_inv (cat := md_catalogue N st) t1' ess) as Hi1' by (exact (lsm_inv_move N (lt_catalogue t1) st t1 ess st Hi (md_keeps_refl N st Hi2) Hbc)).
  assert (lsm_reg (cat := md_catalogue N st) t1') as Hg1' by (exact (lsm_reg_move N (lt_catalogue t1) st t1 st Hg Hbc)).
  destruct (reopen_ok (cat := md_catalogue N st) (cat_ok := md_catalogue_ok N st) t1' ess empty io Hi1' Hg1' Hm Hmap Hio) as (t' & ess' & Hrun & Hi' & _ & _ & Hlk).
  destruct (metadata_reinit crc32c N HN Hnr root md1 bm Hroot Hi2) as (md2 & Hinit & Hmi & Hu & Hv & _ & Ha).
  { eapply md_rooted_trans; [exact Hrt|apply (mk_root _ _ _ Hk2)]. }
  exists md2, (lt_set_catalogue (md2, bm) t'). split; [done|]. split; [exact (init_alike empty io st (md2, bm) t' Hi2 Hmi Ha Hrun)|]. split; [done|]. split; [done|].
  split; [intros i; by rewrite Hu (mk_used _ _ _ Hk2)|]. split; [intros b; by rewrite Hv (mk_valid _ _ _ Hk2)|].
  intros k Hkey. rewrite search_move. pose proof (lsm_search_ok (cat := md_catalogue N st) k t' ess' Hi' Hkey) as Hs.
  destruct (lsm_tree_search k t') as [r u]. destruct Hs as [-> _]. by rewrite Hlk.
Qed.

(** What a read of one block finds after the restart. *)
Lemma restart_read root s content rng0 x seg n st b :
  dp_core (dv := open_view N nr_lba root) N s content -> 0 <= seg < N -> disk_map nr_lba x = disk_map nr_lba (sd_x s) ->
  bi_op b = REQ_OP_READ -> bio_wf b -> 0 <= bio_get_block_address b < nr_lba ->
  let s2 := Build_sworndisk x rng0 (sd_disk (segbuf_flush_bios s)) garbage_memory garbage_memory seg 0 n st (bio_prefetcher_init garbage_memory) in
  bi_payload (sworndisk_do_read N garbage_memory b s2).1 = read_payload content b.
Proof.
  intros Hc Hseg Hmap Hop Hwf Hlba s2. set (lba := bio_get_block_address b) in *.
  assert (disk_map nr_lba x !! lba = match (lsm_tree_search lba x).1 with Ok r => Some r | Err _ => None end) as Hlk.
  { rewrite /disk_map search_map_lookup bool_decide_true //. apply elem_of_seqZ. lia. }
  rewrite Hmap in Hlk. destruct (lsm_tree_search lba x) as [res x'] eqn:Es. cbn [fst] in Hlk. rewrite /read_payload -/lba.
  destruct (content !! lba) as [data|] eqn:Hd; last first.
  { apply (content_none N _ _ _ Hc) in Hd. change (disk_map nr_lba (sd_x s) !! lba = None) in Hd. rewrite Hd in Hlk. destruct res; [done|].
    rewrite /sworndisk_do_read -/lba. change (ix_search lba (sd_x s2)) with (lsm_tree_search lba x). by rewrite Es. }
  destruct (content_record N _ _ _ _ Hc Hd) as (r & Hr & _). destruct (flushed_block N s content lba r data Hc Hr Hd) as (Hp & Hl & Henc).
  change (disk_map nr_lba (sd_x s) !! lba = Some r) in Hr. rewrite Hr in Hlk. destruct res as [r'|]; [|done]. injection Hlk as <-.
  assert (forall k, in_segbuf s2 k = false) as Hnb.
  { intros k. pose proof (in_segbuf_spec s2 k) as Hin. change (sb_cur_sector s2 / 8) with 0 in Hin. destruct (in_segbuf s2 k); [|done]. destruct (proj1 Hin eq_refl). lia. }
  pose proof (do_read_found N garbage_memory s2 b r x' data) as Hf. cbn zeta in Hf.
  destruct (sworndisk_do_read N garbage_memory b s2) as [b' s3]. cbn [fst]. apply Hf; clear Hf.
  - exact Es.
  - split; [exact Hseg|]. cbn. by change SECTOES_PER_SEGMENT with 8192.
  - rewrite /prefetch_ok. cbn [s2 sd_prefetcher bio_prefetcher_init pf_nr_fetch pf_begin pf_end]. split; [done|]. split; [done|]. split; [done|]. intros k Hk. lia.
  - destruct (di_nr _ _ _ Hc) as [_ Hnr]. by change SECTOES_PER_SEGMENT with 8192 in Hnr.
  - split; [done|]. split; [done|]. split; [|by rewrite Hnb]. by rewrite Henc /stored Hnb.
  - done.
  - done.
Qed.

Lemma restart_ok root s content n m gc_fuel empty rng1 :
  root_of crc32c N root -> 16 < N -> dp_inv (dv := open_view N nr_lba root) N s content -> tree_run N nr_lba root (lt_catalogue (sd_x s)) n (sd_x s) m ->
  n < DEFAULT_MEMTABLE_CAPACITY -> whole_leaves (Z.of_nat (size content)) -> sa_nr_valid_segment s < N - 16 -> mt_inv empty -> mt_map empty = ∅ ->
  exists data io bm, sworndisk_close s = Some (data, io, bm) /\ bufio_dirty (bufio bm) = ∅ /\
    exists s2, sworndisk_open crc32c garbage_buffer garbage_leaf lsm_fuel fd0 garbage_memory garbage_lba garbage_record N gc_fuel empty
        {| io_file := io_file io; io_rng := rng1 |} data rng1 (reopen_bm bm) = Some s2 /\
      forall b, bi_op b = REQ_OP_READ -> bio_wf b -> 0 <= bio_get_block_address b < nr_lba ->
        bi_payload (sworndisk_do_read N garbage_memory b s2).1 = read_payload content b.
Proof.
  intros Hroot HN (Hc & _) Hrun Hn Hw Hfew Hm Hmap. destruct (di_nr _ _ _ Hc) as [_ Hnr].
  assert (size content = size (disk_map nr_lba (sd_x s))) as Hsize by (rewrite -!size_dom (di_dom _ _ _ Hc); done).
  rewrite Hsize in Hw. destruct (tree_destroy_ok root n (sd_x s) m Hrun Hn Hw) as (t1 & ess & Hd & Hi & Hg & Hlk).
  pose proof (li_cat _ _ Hi) as Hk. change (md_keeps N (lt_catalogue (sd_x s)) (lt_catalogue t1)) in Hk.
  assert (lsm_inv (cat := md_catalogue N (lt_catalogue t1)) t1 ess /\ lsm_reg (cat := md_catalogue N (lt_catalogue t1)) t1) as [Hi1 Hg1].
  { pose proof (lsm_inv_move N _ (lt_catalogue t1) t1 ess (lt_catalogue t1) Hi (md_keeps_refl _ _ (mk_inv _ _ _ Hk)) (bc_same_refl _)) as H1.
    pose proof (lsm_reg_move N _ (lt_catalogue t1) t1 (lt_catalogue t1) Hg (bc_same_refl _)) as H2. by destruct t1. }
  destruct (tree_reopen_ok root t1 ess empty {| io_file := io_file (lt_io t1); io_rng := rng1 |} Hroot HN Hnr Hm Hmap eq_refl) as (md2 & t2 & Hinit & Ht2 & Hc2 & Hmi & Hu & Hv & Hs); [|done|done|].
  { eapply md_rooted_trans; [apply Hrun|apply (mk_root _ _ _ Hk)]. }
  set (bm := (metadata_destroy (lt_catalogue t1).2).2) in *. exists (sd_disk (segbuf_flush_bios s)), (lt_io t1), bm.
  split; [rewrite /sworndisk_close; change (sd_x (segbuf_destroy s)) with (sd_x s); by rewrite Hd|].
  split; [apply metadata_destroy_ok; by destruct (mi_rit _ _ (mk_inv _ _ _ Hk)) as (_ & ? & _)|].
  pose proof table_path_ok as Hpath.
  destruct (sv_count_ok (DataPathOk := Hpath) t2) as (t3 & Hcnt & [[I1 I2 I3 I4 I5 I6] _]); [change (md_inv N (lt_catalogue t2)); by rewrite Hc2|].
  assert (forall i, x_used (DataView := table_view) t3 i = x_used (DataView := open_view N nr_lba root) (sd_x s) i) as Hu3.
  { intros i. rewrite I3. cbn. by rewrite Hc2 Hu (mk_used _ _ _ Hk). }
  assert (forall b, x_valid (DataView := table_view) t3 b = x_valid (DataView := open_view N nr_lba root) (sd_x s) b) as Hv3.
  { intros b. rewrite I4. cbn. by rewrite Hc2 Hv (mk_valid _ _ _ Hk). }
  pose proof (di_count _ _ _ Hc) as Hcount. rewrite -(nr_used_ext N _ _ (fun i _ => Hu3 i)) (nr_used_ext N _ _ (fun i _ => I3 i)) in Hcount.
  rewrite -Hcount in Hcnt.
  set (s0 := Build_sworndisk t3 rng1 (sd_disk (segbuf_flush_bios s)) garbage_memory garbage_memory 0 0 (sa_nr_valid_segment s) SEGMENT_ALLOCATING (bio_prefetcher_init garbage_memory)).
  destruct (segbuf_init_run (ok := Hpath) N garbage_memory garbage_lba garbage_record HN Hnr gc_fuel s0) as (seg & x' & Hseg & _ & [[J1 J2 _ _ _ _] _] & Hsi).
  { exact I1. }
  { intros b Hb. change (sd_x s0) with t3. rewrite Hu3 Hv3. apply (di_free _ _ _ Hc b Hb). }
  { change (sd_x s0) with t3. cbn [s0 sa_nr_valid_segment]. rewrite Hcount. apply nr_used_ext. intros i _. by rewrite I3. }
  { done. }
  eexists. split.
  - rewrite /sworndisk_open Hinit Ht2. cbn [mbind option_bind]. rewrite /sa_init Hcnt. fold s0. rewrite Hsi. reflexivity.
  - intros b Hop Hwf Hlba. apply (restart_read root s content rng1 x' seg (sa_nr_valid_segment s + 1) SEGMENT_ALLOCATING b Hc Hseg); [|done|done|done].
    change (disk_map nr_lba x') with (x_map (DataView := table_view) x'). rewrite J2. change (sd_x s0) with t3. rewrite I2.
    apply map_eq => k. change (x_map t2) with (disk_map nr_lba t2). rewrite /disk_map !search_map_lookup. case_bool_decide as Hin; [|done].
    apply elem_of_seqZ in Hin. assert (mt_key_ok k) as Hko by (apply nr_lba_keys; lia). rewrite (Hs k Hko) -(Hlk k Hko).
    pose proof (run_search (cat := md_catalogue N (lt_catalogue (sd_x s))) n (sd_x s) m k (proj1 Hrun) Hko) as Hse.
    destruct (lsm_tree_search k (sd_x s)) as [r u]. destruct Hse as (-> & _). cbn [fst]. by destruct (m !! k).
Qed.

(** C3: the disk survives a restart, below the cleaning threshold and with
    whole leaves. A disk of N segments is opened on an unformatted device and
    used for reads and writes of whole sectors of its blocks, with at most (N -
    18) * 1024 writes and fewer than a memtable (2^20) among them; the run is
    one on an array of blocks. When it ends with no block written, or with a
    number of blocks that fills whole leaves of the index file (a multiple of
    8) and does not make the builder's buffer due for a flush on completion
    ([whole_leaves]), closing the disk leaves no dirty metadata block, opening
    it again on what is on the devices succeeds, and every read returns what
    the array of blocks held before. In the other cases
    [bit_file_partial_leaf_lost] and [bit_file_root_misplaced] apply. *)
Theorem sworndisk_restart gc_fuel empty io data_dev rng0 rng1 bm reqs :
  formattable crc32c N bm -> mt_inv empty -> mt_map empty = ∅ -> Forall (disk_req_ok nr_lba) reqs ->
  nr_writes reqs <= (N - 18) * 1024 -> nr_writes reqs < DEFAULT_MEMTABLE_CAPACITY ->
  let open := sworndisk_open crc32c garbage_buffer garbage_leaf lsm_fuel fd0 garbage_memory garbage_lba garbage_record N gc_fuel empty in
  exists s outs s' content', open io data_dev rng0 bm = Some s /\
    disk_run N garbage_plain garbage_memory garbage_lba garbage_record gc_fuel reqs s = Some (outs, s') /\ block_run reqs ∅ outs content' /\
    (whole_leaves (Z.of_nat (size content')) ->
     exists data' io' bm', sworndisk_close s' = Some (data', io', bm') /\ bufio_dirty (bufio bm') = ∅ /\
       exists s2, open {| io_file := io_file io'; io_rng := rng1 |} data' rng1 (reopen_bm bm') = Some s2 /\
         forall b, bi_op b = REQ_OP_READ -> disk_req_ok nr_lba b ->
           bi_payload (sworndisk_do_read N garbage_memory b s2).1 = read_payload content' b).
Proof.
  intros Hf Hm Hmap Hreqs Hn Hcap open.
  destruct (sworndisk_open_ok crc32c crc32c_u32 garbage_buffer garbage_leaf lsm_fuel fd0 garbage_memory garbage_lba garbage_record N nr_lba nr_lba_ok nr_lba_keys
    gc_fuel empty io data_dev rng0 bm Hf Hm Hmap) as (root & s & Hopen & Hroot & Hdp & Hpos & Hroom).
  pose proof (open_path_ok garbage_buffer garbage_leaf lsm_fuel fd0 N nr_lba nr_lba_ok nr_lba_keys root) as Hpath.
  destruct (fm_nr _ _ _ Hf) as [HN _]. pose proof (count_true_bound (is_write <$> reqs)) as Hb. fold (nr_writes reqs) in Hb.
  change DEFAULT_MEMTABLE_CAPACITY with 1048576 in Hcap, Hroom.
  destruct (disk_run_ok (ok := Hpath) N garbage_plain garbage_memory garbage_lba garbage_record gc_fuel reqs s ∅ Hdp HN Hreqs) as (outs & s' & content' & Hrun & Hblk & [Hi' Hp' Hr']).
  { lia. }
  { apply Hroom. lia. }
  exists s, outs, s', content'. do 3 (split; [done|]). intros Hw.
  destruct (Hr' (Z.to_nat (5 * 1048576 - 1 - nr_writes reqs))) as (n & m & Htr & Hlt); [apply Hroom; lia|]. change DEFAULT_MEMTABLE_CAPACITY with 1048576 in Hlt.
  destruct (restart_ok root s' content' n m gc_fuel empty rng1 Hroot HN Hi' Htr) as (data' & io' & bm' & Hcl & Hdirty & s2 & Hopen2 & Hread); try done.
  { change DEFAULT_MEMTABLE_CAPACITY with 1048576. lia. }
  { destruct Hi' as (Hc & _). destruct (di_cursor _ _ _ Hc) as (_ & Hsec & _). rewrite /sd_position in Hp' Hpos.
    pose proof (Z.div_pos (sb_cur_sector s') 8 ltac:(lia) ltac:(lia)). change (sb_filled s') with (sb_cur_sector s' / 8) in Hp'. lia. }
  exists data', io', bm'. split; [done|]. split; [done|]. exists s2. split; [done|]. intros b Hop (_ & Hwf & Hlba). by apply Hread.
Qed.
End restart.

Import ToyGcm ToyRng PlainRb LinearSearch ListHeap.

(** ** A run that writes eight blocks *)
Lemma block_run_dom bs c outs c' :
  block_run bs c outs c' -> dom c' = list_to_set (bio_get_block_address <$> filter (fun b => bi_op b = REQ_OP_WRITE) bs) ∪ dom c.
Proof.
  induction 1 as [c|b bs c outs c' Hop _ IH|b bs c base outs c' Hop _ _ IH]; [set_solver|..].
  - rewrite filter_cons_False; [done|by rewrite Hop].
  - rewrite filter_cons_True // fmap_cons list_to_set_cons IH dom_insert_L. set_solver.
Qed.

Definition eight_writes : list bio :=
  (fun i => {| bi_op := REQ_OP_WRITE; bi_sector := 8 * i; bi_payload := replicate 4096 Byte.x41 |}) <$> seqZ 0 8.

Lemma eight_writes_ok : Forall (disk_req_ok 32768) eight_writes.
Proof.
  apply Forall_fmap, Forall_forall => i Hi. apply elem_of_seqZ in Hi. split; [done|]. set (b := {| bi_op := _; bi_sector := _; bi_payload := _ |}).
  assert (bio_get_block_address b = i /\ bio_block_sector_offset b = 0) as [H1 H2].
  { assert (i = 0 \/ i = 1 \/ i = 2 \/ i = 3 \/ i = 4 \/ i = 5 \/ i = 6 \/ i = 7) as Hc by lia.
    repeat (destruct Hc as [-> | Hc]; [by vm_compute|]). subst i. by vm_compute. }
  split; [|simpl in H1 |- *; lia]. split; [reflexivity|]. split; [reflexivity|]. rewrite H2. by vm_compute.
Qed.

Lemma sworndisk_restart_witness :
  exists s outs s' content' data' io' bm' s2,
    let open := sworndisk_open (M := rbtree_memtable record) sample_crc area_zero (fun _ => zero_leaf) 0 0 area_zero 0 zero_record 32 0 rbtree_memtable_init in
    open io_zero area_zero 0%nat sample_meta_dev = Some s /\
    @disk_run (disk (M := rbtree_memtable record)) (disk_index area_zero (fun _ => zero_leaf) 0 0 32) disk_meta _ _ 32
      (fun l => l) area_zero 0 zero_record 0 eight_writes s = Some (outs, s') /\
    block_run eight_writes ∅ outs content' /\ size content' = 8%nat /\
    sworndisk_close area_zero (fun _ => zero_leaf) 0 0 32 s' = Some (data', io', bm') /\
    open {| io_file := io_file io'; io_rng := 0 |} data' 0%nat (reopen_bm bm') = Some s2 /\
    bi_payload (@sworndisk_do_read (disk (M := rbtree_memtable record)) (disk_index area_zero (fun _ => zero_leaf) 0 0 32) _ 32 area_zero sample_read s2).1 =
      read_payload content' sample_read.
Proof.
  destruct (sworndisk_restart (M := rbtree_memtable record) sample_crc sample_crc_u32 area_zero (fun _ => zero_leaf) 0 0 (fun l => l) area_zero 0 zero_record
    32 32768 ltac:(vm_compute; congruence) sample_keys 0 rbtree_memtable_init io_zero area_zero 0 0 sample_meta_dev eight_writes)
    as (s & outs & s' & content' & H1 & H2 & H3 & H4).
  - exact sample_formattable.
  - apply rbtree_memtable_init_ok.
  - apply rbtree_memtable_init_ok.
  - exact eight_writes_ok.
  - vm_compute. discriminate.
  - vm_compute. reflexivity.
  - assert (size content' = 8%nat) as Hsz.
    { rewrite -size_dom (block_run_dom _ _ _ _ H3) dom_empty_L union_empty_r_L. vm_compute. reflexivity. }
    destruct H4 as (data' & io' & bm' & H4 & _ & s2 & H5 & H6); [right; rewrite Hsz; split; [done|split; [reflexivity|vm_compute; reflexivity]]|].
    exists s, outs, s', content', data', io', bm', s2. split; [exact H1|]. split; [exact H2|]. split; [exact H3|]. split; [exact Hsz|]. split; [exact H4|].
    split; [exact H5|]. apply H6; [reflexivity|]. split; [discriminate|]. split; [exact sample_read_wf|vm_compute; split; congruence].
Defined.
