(* ===== verification/MetaCalls.v ===== *)
(** * Any sequence of calls through [struct metadata]

    The calls the segment allocator, the segment buffer and the LSM tree make
    on the tables of the metadata device, in any order.  Each keeps every table
    well formed and stays inside its table, so that the metadata can be closed
    at any point and loaded again. *)
From S2P Require Import Prelude Codec BlockManager DiskStructs BitNode Superblock SegValidator Dst Catalogue Metadata DiskMeta Compaction CatalogueIface DiskIndex TableSpec DiskSpec DiskRestart.

(** ** The calls *)
Inductive md_call : Type :=
  | SvNext | SvTake (seg : Z) | SvReturn (seg : Z) | SvCount
  | TakeSegment (seg : Z) | TakeBlock (blk : Z) | ReturnBlock (blk : Z) | RemoveVictim (seg : Z)
  | RitSet (blk lba : Z) | RitGet (blk : Z)
  | AllocFile | ReleaseFile (fd : Z) | SetFileStats (fd : Z) (s : file_stat) | GetFileStats (fd : Z) | GetAllFileStats | GetNextVersion.

(** The state a call leaves, whether it succeeds or fails. *)
Definition md_exec (call : md_call) (st : md_state) : md_state :=
  match call with
  | SvNext => (md_sv seg_validator_next st).2
  | SvTake seg => (md_sv (seg_validator_take seg) st).2
  | SvReturn seg => (md_sv (seg_validator_test_and_return seg) st).2
  | SvCount => (md_sv seg_validator_valid_segment_count st).2
  | TakeSegment seg => (md_on_dst (dst_take_segment seg) st).2
  | TakeBlock blk => (md_on_dst (dst_take_block blk) st).2
  | ReturnBlock blk => (md_on_dst (dst_return_block blk) st).2
  | RemoveVictim seg => (md_on_dst (dst_remove_victim seg) st).2
  | RitSet blk lba => (md_on_rit (fun r => reverse_index_table_set r blk lba) st).2
  | RitGet blk => (md_on_rit (fun r => reverse_index_table_get r blk) st).2
  | AllocFile => (md_on_bitc bitc_alloc_file st).2
  | ReleaseFile fd => (md_on_bitc (bitc_release_file fd) st).2
  | SetFileStats fd s => (md_on_bitc (bitc_set_file_stats fd s) st).2
  | GetFileStats fd => (md_on_bitc (bitc_get_file_stats fd) st).2
  | GetAllFileStats => (md_on_bitc bitc_get_all_file_stats st).2
  | GetNextVersion => (md_on_bitc bitc_get_next_version st).2
  end.

Section calls.
Context (N : Z).
Implicit Types (st : md_state).

(** What the callers see to.  The segment table checks the range of a number
    and a segment's counter but not the bit of the block: a valid block may be
    asked for only when its segment is full, and an invalid one given back only
    when its segment is empty - the calls the table refuses.  Segments, blocks
    and files of the other tables are in range, and stored values fit their
    fields. *)
Definition md_call_ok (call : md_call) st : Prop :=
  match call with
  | SvNext | SvCount | TakeSegment _ | RitGet _ | AllocFile | GetAllFileStats | GetNextVersion => True
  | SvTake seg | SvReturn seg | RemoveVictim seg => 0 <= seg < N
  | TakeBlock blk => md_valid N st blk = true -> forall b, __block_to_segment b = __block_to_segment blk -> md_valid N st b = true
  | ReturnBlock blk => md_valid N st blk = false -> forall b, __block_to_segment b = __block_to_segment blk -> md_valid N st b = false
  | RitSet _ lba => 0 <= lba < 2 ^ 64
  | ReleaseFile fd | GetFileStats fd => 0 <= fd < bc_max_fd (md_bc st)
  | SetFileStats fd s => 0 <= fd < bc_max_fd (md_bc st) /\ cwf file_stat_codec s
  end.

(** Runs of calls. *)
Inductive md_run : md_state -> list md_call -> md_state -> Prop :=
  | Md_nil st : md_run st [] st
  | Md_call st call calls st' : md_call_ok call st -> md_run (md_exec call st) calls st' -> md_run st (call :: calls) st'.

Definition md_typed st st' : Prop := md_inv N st' /\ md_rooted st st'.

Lemma md_step_typed st st' u v l vs : md_step N st st' u v l vs -> md_typed st st'.
Proof. intros [H1 _ _ _ _ _ H2]. by split. Qed.
Lemma md_keeps_typed st st' : md_keeps N st st' -> md_typed st st'.
Proof. intros [H1 _ _ _ _ H2]. by split. Qed.

(** *** The segment table, successful and refusing *)
Lemma md_dst_typed {A} (m : SE dst_state A) st seg r d :
  md_inv N st -> m (md_dst st.1, st.2) = (r, d) -> dst_inv d -> dst_step seg (md_dst st.1, st.2) d -> md_typed st (md_on_dst m st).2.
Proof.
  intros Hi Hrun Hd Hst. destruct d as [d bm]. rewrite /md_on_dst /se_zoom Hrun. by eapply md_step_typed, md_dst_frame.
Qed.
Lemma md_dst_refused {A} (m : SE dst_state A) st r :
  md_inv N st -> m (md_dst st.1, st.2) = (r, (md_dst st.1, st.2)) -> md_typed st (md_on_dst m st).2.
Proof.
  intros Hi Hrun. rewrite /md_on_dst /se_zoom Hrun. destruct st as [[] bm]. split; [done|apply md_rooted_refl].
Qed.
Lemma md_dst_no_entry {A} (k : dst_entry -> SE dst_state A) st seg :
  md_inv N st -> ~ 0 <= seg < N -> (se_bind (dst_get_entry seg) k) (md_dst st.1, st.2) = (Err EINVAL, (md_dst st.1, st.2)).
Proof.
  intros Hi Hs. rewrite /se_bind dst_get_entry_oob //; [by destruct (mi_dst _ _ Hi)|]. cbn [fst]. by rewrite (mi_dst_nr _ _ Hi).
Qed.

Lemma md_take_segment_typed st seg : md_inv N st -> md_typed st (md_on_dst (dst_take_segment seg) st).2.
Proof.
  intros Hi. pose proof (mi_dst _ _ Hi) as Hd. pose proof (mi_dst_nr _ _ Hi) as Hn. destruct (decide (0 <= seg < N)) as [Hs|Hs]; [|by eapply md_dst_refused, md_dst_no_entry].
  destruct (dst_entry_inv _ seg Hd ltac:(cbn [fst]; lia)) as (e & He & Hok & _). destruct (decide (de_nr_valid_block e = 0)) as [Hz|Hz].
  - destruct (dst_take_segment_ok _ seg e Hd ltac:(cbn [fst]; lia) He Hz) as (d & Hrun & Hi' & Hst & _). by eapply md_dst_typed.
  - eapply md_dst_refused; [done|]. by apply (dst_take_segment_busy _ seg e Hd ltac:(cbn [fst]; lia) He Hz).
Qed.

Lemma md_take_block_typed st blk : md_inv N st -> md_call_ok (TakeBlock blk) st -> md_typed st (md_on_dst (dst_take_block blk) st).2.
Proof.
  intros Hi Hok. cbn [md_call_ok] in Hok. pose proof (mi_dst _ _ Hi) as Hd. pose proof (mi_dst_nr _ _ Hi) as Hn.
  destruct (decide (0 <= blk < N * BLOCKS_PER_SEGMENT)) as [Hb|Hb].
  2:{ eapply md_dst_refused, md_dst_no_entry; [done|done|]. by rewrite -block_segment. }
  pose proof (proj1 (block_segment N blk) Hb) as Hs. destruct (md_entry_bit N st blk Hi Hb) as (e & He & Heok & Hbit). destruct (md_valid N st blk) eqn:Ev.
  - eapply md_dst_refused; [done|]. apply (dst_take_block_full _ blk e Hd ltac:(cbn [fst]; lia) He). by apply (md_segment_all N st (__block_to_segment blk) e true); auto.
  - destruct (dst_take_block_ok _ blk e Hd ltac:(cbn [fst]; lia) He Hbit) as (d & Hrun & Hi' & Hst & _). by eapply md_dst_typed.
Qed.

Lemma md_return_block_typed st blk : md_inv N st -> md_call_ok (ReturnBlock blk) st -> md_typed st (md_on_dst (dst_return_block blk) st).2.
Proof.
  intros Hi Hok. cbn [md_call_ok] in Hok. pose proof (mi_dst _ _ Hi) as Hd. pose proof (mi_dst_nr _ _ Hi) as Hn.
  destruct (decide (0 <= blk < N * BLOCKS_PER_SEGMENT)) as [Hb|Hb].
  2:{ eapply md_dst_refused, md_dst_no_entry; [done|done|]. by rewrite -block_segment. }
  pose proof (proj1 (block_segment N blk) Hb) as Hs. destruct (md_entry_bit N st blk Hi Hb) as (e & He & Heok & Hbit). destruct (md_valid N st blk) eqn:Ev.
  - destruct (dst_return_block_ok _ blk e Hd ltac:(cbn [fst]; lia) He Hbit) as (d & Hrun & Hi' & Hst & _). by eapply md_dst_typed.
  - eapply md_dst_refused; [done|]. apply (dst_return_block_empty _ blk e Hd ltac:(cbn [fst]; lia) He). by apply (md_segment_all N st (__block_to_segment blk) e false); auto.
Qed.

(** *** Allocating a file, also when no slot is free *)
Lemma md_alloc_file_typed st : md_inv N st -> md_typed st (md_on_bitc bitc_alloc_file st).2.
Proof.
  intros Hi. pose proof (mi_bc _ _ Hi) as (Hw & Hsv & Hda). cbn [fst snd] in Hw, Hsv, Hda. rewrite /md_on_bitc /se_zoom. fold (md_bc st).
  pose proof (bitc_alloc_frame (md_bc st) (mi_bc _ _ Hi)) as Hf. pose proof (bitc_alloc_file_spec (md_bc st) (mi_bc _ _ Hi) (proj2 (md_bc_inv N st Hi))) as Hsp.
  destruct (bitc_alloc_file (md_bc st)) as [[fd|e] c] eqn:E.
  - destruct Hsp as (_ & _ & _ & Hc & _). apply md_keeps_typed. by apply md_bc_frame.
  - destruct (seg_validator_next_spec _ _ Hsv) as (k & r & Hrun & Hk & Hr). rewrite /bitc_alloc_file /se_bind /bc_sv /se_zoom in E.
    cbn [fst snd md_bc] in E. rewrite Hrun in E. destruct r as [fd|e'].
    + exfalso. destruct Hr as (-> & Hlt & _).
      destruct (seg_validator_take_spec (sv_set_cur k (bc_bit_validity_table (md_bit_catalogue st.1))) st.2 k) as (st' & Ht & _); [by destruct Hsv as (? & ? & ?)|done|].
      cbn [fst snd bc_set_validity bc_bit_validity_table] in E. rewrite Ht in E. done.
    + injection E as <- <-. apply md_keeps_typed.
      apply (md_bc_frame N st (bc_set_validity (sv_set_cur k (bc_bit_validity_table (md_bit_catalogue st.1))) (md_bit_catalogue st.1), st.2) Hi).
      * split; [exact Hw|]. split; [|exact Hda]. destruct Hsv as (S1 & S2 & S3). split; [exact S1|]. by split.
      * by apply (bc_frame_sv (md_bc st)).
Qed.

Lemma md_exec_typed call st : md_inv N st -> md_call_ok call st -> md_typed st (md_exec call st).
Proof.
  intros Hi. pose proof (md_bc_inv N st Hi) as Hc. pose proof (md_keeps_refl N st Hi) as Hk.
  assert (md_typed st st) as Hsame by (split; [done|apply md_rooted_refl]).
  assert (forall c, bc_inv c -> bc_frame (md_bc st) c -> md_typed st (md_with_bc c.1 st.1, c.2)) as Hbc.
  { intros c H1 H2. by apply md_keeps_typed, md_bc_frame. }
  destruct call as [|seg|seg| |seg|b|b|seg|b lba|b| |fd|fd s|fd| |]; cbn [md_call_ok md_exec].
  - intros _. pose proof (md_sv_next_ok N st Hi) as Hn. destruct (md_sv seg_validator_next st) as [[seg|e] st'].
    + destruct Hn as (_ & _ & Hn). by eapply md_step_typed.
    + destruct Hn as [Hn _]. by eapply md_step_typed.
  - intros Hs. destruct (md_sv_take_ok N st seg Hi Hs) as (st' & -> & Hn). by eapply md_step_typed.
  - intros Hs. destruct (md_sv_return_ok N st seg Hi Hs) as (st' & -> & Hn). by eapply md_step_typed.
  - intros _. by rewrite (md_sv_count_ok N st Hi).
  - intros _. by apply md_take_segment_typed.
  - by apply md_take_block_typed.
  - by apply md_return_block_typed.
  - intros _. eapply md_step_typed. by apply md_remove_victim_ok.
  - intros Hl. destruct (decide (0 <= b < N * BLOCKS_PER_SEGMENT)) as [Hb|Hb]; [eapply md_step_typed; by apply md_rit_set_ok|].
    rewrite /md_on_rit /reverse_index_table_set /__reverse_index_table_set_entry disk_array_set_oob ?(mi_rit_nr _ _ Hi) //. by destruct st.
  - intros _. destruct (decide (0 <= b < N * BLOCKS_PER_SEGMENT)) as [Hb|Hb]; [by rewrite (md_rit_get_ok N st b Hi Hb)|].
    rewrite /md_on_rit /reverse_index_table_get /__reverse_index_table_get_entry /se_bind disk_array_get_oob ?(mi_rit_nr _ _ Hi) //. by destruct st.
  - intros _. by apply md_alloc_file_typed.
  - intros Hfd. destruct (cat_release_ok (LsmCatalogueOk := md_catalogue_ok N st) st fd Hk Hfd) as (st' & Hrun & Hk' & _).
    change (md_on_bitc (bitc_release_file fd) st) with (cat_release_file (LsmCatalogue := md_catalogue N st) fd st). rewrite Hrun. by apply md_keeps_typed.
  - intros [Hfd Hs]. destruct (cat_set_stats_ok (LsmCatalogueOk := md_catalogue_ok N st) st fd s Hk Hfd Hs) as (st' & Hrun & Hk' & _).
    change (md_on_bitc (bitc_set_file_stats fd s) st) with (cat_set_file_stats (LsmCatalogue := md_catalogue N st) fd s st). rewrite Hrun. by apply md_keeps_typed.
  - intros Hfd. pose proof (mi_bc _ _ Hi) as ((_ & _ & Hn) & _ & Hda). cbn [fst snd] in Hn, Hda.
    destruct (da_entry_is_some _ st.2 fd Hda) as [d Hd]; [by rewrite Hn|].
    rewrite /md_on_bitc /se_zoom /bitc_get_file_stats /se_map_err /bitc_read_stat /se_bind /bc_bm. cbn [fst snd].
    rewrite (disk_array_get_ok _ _ _ _ Hda ltac:(by rewrite Hn) Hd). by destruct st as [[] ?].
  - intros _. change (md_on_bitc bitc_get_all_file_stats st) with (cat_get_all_file_stats (LsmCatalogue := md_catalogue N st) st).
    by rewrite (cat_all_stats_ok (LsmCatalogueOk := md_catalogue_ok N st) st Hk).
  - intros _. apply (Hbc (bc_set_max_version (u64 (bc_max_version (md_bit_catalogue st.1) + 1)) (md_bit_catalogue st.1), st.2)); [exact (mi_bc _ _ Hi)|done].
Qed.

Lemma md_run_typed st calls st' : md_run st calls st' -> md_inv N st -> md_typed st st'.
Proof.
  induction 1 as [st|st call calls st' Hok Hrun IH]; intros Hi; [split; [done|apply md_rooted_refl]|].
  destruct (md_exec_typed call st Hi Hok) as [H1 H2]. destruct (IH H1) as [H3 H4]. split; [done|]. by eapply md_rooted_trans.
Qed.
End calls.

(** ** From an unformatted device on *)
Section lifetime.
Context (crc32c : Z -> list byte -> Z).
Hypothesis crc32c_u32 : forall seed l, 0 <= crc32c seed l < 2 ^ 32.
Context (N : Z).

(** C12: the metadata stay well formed. After formatting an unformatted device,
    any sequence of calls of the segment allocator, the segment buffer and the
    LSM tree, successful or refused, leaves every table well formed (bits,
    entries, counters and victims consistent, all blocks readable), every table
    where it was, and every block outside the tables untouched. The callers
    keep the contract [md_call_ok], which the code does not check: a block is
    asked for only when it is invalid, or in a full segment, where the call is
    refused; a block is given back only when it is valid, or in an empty
    segment, where the call is refused; segment numbers of the validity table
    and of victims, and file slots, are in range; stored values fit their
    fields. *)
Theorem metadata_calls_typed bm :
  formattable crc32c N bm ->
  exists md bm0, metadata_init crc32c N bm = (Ok md, bm0) /\
    forall calls st', md_run N (md, bm0) calls st' ->
      md_inv N st' /\ md_geom st'.1 = md_geom md /\ forall b, md_outside md b -> bm_block st'.2 b = bm_block bm0 b.
Proof.
  intros Hf. destruct (open_metadata_ok crc32c crc32c_u32 N bm Hf) as (md & bm0 & _ & Hinit & _ & _ & _ & [Hi _]).
  exists md, bm0. split; [done|]. intros calls st' Hrun. destruct (md_run_typed N _ _ _ Hrun Hi) as [H1 [H2 H3]]. done.
Qed.

(** C11: the metadata survive being closed at any point. After formatting an
    unformatted device and any sequence of calls, successful or refused, that
    keeps the callers' contract [md_call_ok] (a block is taken only when
    invalid and returned only when valid, unless the call is refused for a full
    or empty segment; numbers of segments, victims and slots in range),
    flushing leaves no dirty block, and loading the device again formats
    nothing and gives well-formed tables with the same segments in use, valid
    blocks, reverse mappings, and files with the same stats. *)
Theorem metadata_reload bm :
  formattable crc32c N bm ->
  exists md bm0, metadata_init crc32c N bm = (Ok md, bm0) /\
    forall calls st', md_run N (md, bm0) calls st' ->
      let closed := (metadata_destroy st'.2).2 in let bm' := reopen_bm closed in
      bufio_dirty (bufio closed) = ∅ /\
      exists md2, metadata_init crc32c N bm' = (Ok md2, bm') /\ md_inv N (md2, bm') /\
        (forall i, md_used (md2, bm') i = md_used st' i) /\ (forall b, md_valid N (md2, bm') b = md_valid N st' b) /\
        (forall b, md_lba N (md2, bm') b = md_lba N st' b) /\
        forall fd, 0 <= fd < bc_max_fd (md_bc st') -> bc_live (md_bc (md2, bm')) fd = bc_live (md_bc st') fd.
Proof.
  intros Hf. destruct (fm_nr _ _ _ Hf) as [HN Hnr]. destruct (open_metadata_ok crc32c crc32c_u32 N bm Hf) as (md & bm0 & _ & Hinit & _ & _ & _ & Hroot).
  exists md, bm0. split; [done|]. intros calls [md1 bm1] Hrun closed bm'. destruct (md_run_typed N _ _ _ Hrun (proj1 Hroot)) as [Hi Hr].
  destruct (metadata_destroy_ok bm1) as (Hdirty & Hok & Hb); [by destruct (mi_rit _ _ Hi) as (_ & ? & _)|]. fold closed in Hdirty, Hok, Hb. fold bm' in Hok, Hb.
  split; [done|]. destruct (md_blocks_same N md1 bm1 bm' Hi Hok Hb) as [Hk Hbc].
  destruct (metadata_reinit crc32c N HN Hnr (md, bm0) md1 bm' Hroot (mk_inv _ _ _ Hk)) as (md2 & Hinit2 & Hi2 & Hu & Hv & Hl & [_ Ab As]).
  { eapply md_rooted_trans; [exact Hr|apply (mk_root _ _ _ Hk)]. }
  exists md2. split; [done|]. split; [done|]. split; [intros i; by rewrite Hu (mk_used _ _ _ Hk)|]. split; [intros b; by rewrite Hv (mk_valid _ _ _ Hk)|].
  split; [intros b; by rewrite Hl (mk_lba _ _ _ Hk)|]. intros fd Hfd. rewrite /bc_live Ab (bs_bits _ _ Hbc). rewrite As; [|done]. by rewrite (bs_stat _ _ Hbc).
Qed.
End lifetime.

(** ** Some calls

    A segment is taken, one of its blocks returned and taken again; then taking a
    block of the full segment, and the segment as a whole, are refused. *)
Definition some_calls : list md_call :=
  [TakeSegment 3; ReturnBlock 3077; TakeBlock 3077; TakeBlock 3078; TakeSegment 3; RemoveVictim 3;
   SvNext; SvTake 3; RitSet 3077 7; AllocFile; GetNextVersion; SvReturn 3; SvCount].

Lemma some_calls_run st : md_inv 32 st -> (forall b, md_valid 32 st b = false) -> exists st', md_run 32 st some_calls st'.
Proof.
  intros Hi Hv. assert (forall b, b = 3077 -> 0 <= b < 32 * BLOCKS_PER_SEGMENT) as Hb by (change BLOCKS_PER_SEGMENT with 1024; lia). specialize (Hb _ eq_refl).
  destruct (md_take_segment_ok 32 st 3 Hi ltac:(lia) (fun b _ => Hv b)) as (st1 & H1 & [Hi1 _ Hv1 _ _ _ _]).
  assert (md_valid 32 st1 3077 = true) as Ht1 by (rewrite Hv1; reflexivity).
  destruct (md_return_block_ok 32 st1 3077 Hi1 Hb Ht1) as [Hi2 _ Hv2 _ _ _ _]. set (st2 := (md_on_dst (dst_return_block 3077) st1).2) in *.
  assert (md_valid 32 st2 3077 = false) as Ht2 by (rewrite Hv2; reflexivity).
  destruct (md_take_block_ok 32 st2 3077 Hi2 Hb Ht2) as (_ & _ & [_ _ Hv3 _ _ _ _]). set (st3 := (md_on_dst (dst_take_block 3077) st2).2) in *.
  eexists. apply Md_call; [exact I|]. cbn [md_exec]. rewrite H1. cbn [snd].
  apply Md_call; [cbn [md_call_ok]; by rewrite Ht1|]. cbn [md_exec]. fold st2. apply Md_call; [cbn [md_call_ok]; by rewrite Ht2|]. cbn [md_exec]. fold st3.
  apply Md_call. { cbn [md_call_ok]. intros _ b Hs. change (__block_to_segment 3078) with 3 in Hs. rewrite Hv3 Hv2 Hv1 Hs. by destruct (b =? 3077). }
  repeat (apply Md_call; [cbn [md_call_ok]; first [exact I|lia]|]). apply Md_nil.
Qed.

(** The metadata of the sample device, formatted. *)
Lemma sample_calls md bm0 : metadata_init sample_crc 32 sample_meta_dev = (Ok md, bm0) -> exists st', md_run 32 (md, bm0) some_calls st'.
Proof.
  intros Hinit. destruct (open_metadata_ok sample_crc sample_crc_u32 32 sample_meta_dev sample_formattable) as (md' & bm' & c & Hinit' & Hdesc & Hfresh & _ & [Hi _]).
  rewrite Hinit in Hinit'. injection Hinit' as -> ->. apply some_calls_run; [exact Hi|]. exact (proj1 (proj2 (fresh_views (superblock_defaults 32 c) (md', bm') Hdesc Hfresh))).
Qed.

Lemma metadata_calls_typed_witness :
  exists md bm0 st', metadata_init sample_crc 32 sample_meta_dev = (Ok md, bm0) /\ md_run 32 (md, bm0) some_calls st' /\ md_inv 32 st'.
Proof.
  destruct (metadata_calls_typed sample_crc sample_crc_u32 32 sample_meta_dev sample_formattable) as (md & bm0 & H1 & H2).
  destruct (sample_calls md bm0 H1) as [st' Hrun]. exists md, bm0, st'. split; [exact H1|]. split; [exact Hrun|]. exact (proj1 (H2 _ _ Hrun)).
Defined.

Lemma metadata_reload_witness :
  exists md bm0 st' md2, metadata_init sample_crc 32 sample_meta_dev = (Ok md, bm0) /\ md_run 32 (md, bm0) some_calls st' /\
    metadata_init sample_crc 32 (reopen_bm (metadata_destroy st'.2).2) = (Ok md2, reopen_bm (metadata_destroy st'.2).2).
Proof.
  destruct (metadata_reload sample_crc sample_crc_u32 32 sample_meta_dev sample_formattable) as (md & bm0 & H1 & H2).
  destruct (sample_calls md bm0 H1) as [st' Hrun]. destruct (H2 _ _ Hrun) as (_ & md2 & H3 & _).
  exists md, bm0, st', md2. split; [exact H1|]. split; [exact Hrun|exact H3].
Defined.
